(* ===== verification/_CoqProject ===== *)
-Q . S2P
Prelude.v
CxxString.v
CommandLine.v
RadosTypes.v
RadosUtil.v
Encoding.v
SaveLog.v
Librados.v
Cluster.v
Chunks.v
RadosStorage.v
FindMails.v
Stays.v
MailStore.v
Json.v
CephConfig.v
DovecotConfig.v
NamespaceMgr.v
MetadataStorage.v
SaveWrite.v
AltStorage.v
PluginConfig.v
RboxConnection.v
DovecotIndex.v
RadosDictionary.v
DictRados.v
DictSpec.v
RboxSync.v
Keeps.v
DovecotBox.v
RboxMailbox.v
RboxRebuild.v
RebuildSpec.v
SyncBegin.v
RboxSave.v
SaveCommit.v
MailboxList.v
BoxOpen.v
MailStream.v
DovecotMail.v
RboxMail.v
MailSpec.v
MailRoundTrip.v
RboxCopy.v
CopySpec.v
RmbQuery.v
LoadObjects.v
RmbCommands.v
Reports.v
LoadRun.v
UndoLog.v
MailboxTools.v
Tool.v
ReadOnly.v
RmbMain.v
Doveadm.v
UserHome.v
DoveadmSearch.v
DoveadmRevert.v
MailboxDeletion.v
DoveadmMailbox.v
