(* ===== verification/Prelude.v ===== *)
(** * Verification of the Dovecot Ceph plugin

    The plugin lets Dovecot keep mails as objects of a RADOS cluster. This
    library models its C++ code and proves what the code promises. File and
    function names below are those of the repository's [src/] directory; each
    definition keeps the name of the function, method or type it models.

    ** The program's parts

    - [librmb] is the library over librados: the connection to the cluster, the
      access to mail objects, the way a mail's attributes are kept on its
      object, the configuration object, the map from users to namespaces, and
      the save log, which tells an operator what was written.
    - [storage-rbox] is the Dovecot storage: it saves, copies, synchronises and
      expunges mails. Dovecot's index says which mails a mailbox has; the
      objects hold their contents. The two are not changed in one transaction,
      so the order of index and object operations carries the correctness.
    - [dict-rados] is a key/value dictionary for Dovecot over omap entries.
    - [librmb/tools/rmb] is the operator's command line tool, and
      [doveadm-rbox-plugin.cpp] gives its commands to doveadm.

    ** The files

    - [Prelude]: machine integers ([int32], [uint64] and so on, with their wrap
      around), the state monad [ST], a Hoare triple on it with the rules the
      proofs use, [st_iter] for loops over lists, and the list lemmas.
    - [CxxString]: [std::string] and the conversions of the C++ library. Bytes
      are the eight bit characters of [string].
    - [CommandLine] (rmb.cpp): the arguments of the command line tool.
    - [RadosTypes] (rados-types.h, rados-metadata.h, rados-mail.h/.cpp): keys,
      attributes, and the mail in memory ([RadosMail]).
    - [RadosUtil] (the pure part of rados-util.cpp): numbers, flags, search and
      replace, metadata access and validation, the listing of placement groups
      and the text of the ceph index object.
    - [Encoding] (encoding.h): the little-endian wire format, and the swapping of bytes.
    - [SaveLog] (rados-save-log.h/.cpp): log lines and the log file.
    - [Librados]: the interface to the object store, see below.
    - [Cluster] (rados-cluster-impl.cpp): the handle that all storages of a
      process share, with its reference count and its connected flag.
    - [Chunks]: the loop that splits a buffer into writes, at C++ widths.
    - [RadosStorage] (rados-storage-impl.h/.cpp): [RadosStorageImpl], its
      operations on objects, and the opening and closing of its connection.
    - [FindMails] ([find_mails_async]): the search with one thread for each osd,
      as a step relation whose threads interleave in any order.
    - [MailStore]: an abstract store of mails, which says what an operator may rely on,
      and the proof that the storage implements it whatever fails.
    - [Json]: the interface to jansson.
    - [CephConfig] (rados-ceph-config.cpp, rados-ceph-json-config.cpp): the
      configuration object in the cluster.
    - [DovecotConfig] (rados-dovecot-config.h/.cpp): the settings of
      dovecot.conf; [PluginConfig] (rados-dovecot-ceph-cfg-impl.h/.cpp): both
      configurations behind one interface.
    - [NamespaceMgr] (rados-namespace-manager.h/.cpp): users to namespaces.
    - [MetadataStorage] (rados-metadata-storage-*.h/.cpp): the interface
      [RadosStorageMetadataModule] and its two implementations.
    - [SaveWrite] ([save_mail_write_append] of rbox-save.cpp).
    - [AltStorage] ([copy_to_alt], [move_to_alt] of rados-util.cpp).
    - [RboxConnection] (rbox-storage.cpp): the plugin's storage object, reading
      its configuration and connecting it.
    - [DovecotIndex]: the interface to Dovecot's index, see below.
    - [RadosDictionary] (rados-dictionary-impl.h/.cpp) and [DictRados]
      (dict-rados.cpp): the dictionary, its lookups, transactions and iterations;
      [DictSpec] is the abstract dictionary they implement.
    - [RboxSync] (rbox-sync.cpp): what the plugin does for each record of the
      index log, and how a synchronisation ends.
    - [Stays]: what a computation keeps, rules that follow its structure, with
      the connection as the first example; [Keeps]: what no call to the cluster changes is kept by the components, a
      lemma for each operation; the log of the index is such a property.
    - [DovecotBox]: the interface to Dovecot's mailboxes, see below.
    - [RboxMailbox] (rbox-storage.cpp): the index header of a mailbox, its
      creation, the mark of a corrupted mailbox, and its deletion.
    - [RboxRebuild] (rbox-sync-rebuild.cpp): rebuilding the index of all mailboxes
      of a user from the mail objects; [RebuildSpec] has its theorems.
    - [SyncBegin] (rbox-sync.cpp): beginning a synchronisation, which may rebuild
      the mailboxes first, and the synchronisation as a whole.
    - [RboxSave] (rbox-save.h/.cpp, ostream-bufferlist.cpp): saving a mail;
      [SaveCommit]: the commit of a save, inside a synchronisation.
    - [MailboxList] (rbox-mailbox-list-fs.cpp): the flags a file or directory is
      listed with.
    - [BoxOpen] (rbox-storage.cpp): the places of a mailbox, and opening,
      creating, updating and closing it.
    - [MailStream]: the stream a mail is read from, with the repair of the trailer
      of a compressed mail; [DovecotMail]: the interface to Dovecot's mails;
      [RboxMail] (rbox-mail.cpp): a mail that is read. [MailSpec] has what holds of
      every state it can reach, [MailRoundTrip] joins saving and reading.
    - [RboxCopy] (rbox-copy.cpp): copying and moving a mail; [CopySpec].
    - [RmbQuery] (ls_cmd_parser.h/.cpp, rados-mail-box.h): the queries of the
      tool; [LoadObjects]: loading the mails of a namespace, as a step relation of
      the main thread and the callbacks; [RmbCommands] (rmb-commands.cpp): its
      commands; [LoadRun]: a run of the loading, for the commands that go through
      the mails of a namespace; [UndoLog] ([delete_with_save_log]): undoing a save
      log; [MailboxTools] (mailbox_tools.cpp): mails as files; [Reports]: the text
      the tool prints for mails, mailboxes and the configuration.
    - [Tool]: what rmb.cpp and the doveadm commands share; [ReadOnly]: the
      operations among it that change no object; [RmbMain] (rmb.cpp): [main].
    - [Doveadm] (doveadm-rbox-plugin.cpp): the commands of doveadm on one user and
      on the configuration object, the comparison of objects and records and the
      writing of the index object; [UserHome]: the pool and the namespace in which a
      command works for a user; [DoveadmSearch]: listing, downloading and the
      check of the indices; [DoveadmRevert]: undoing a save log and restoring
      records; [MailboxDeletion]: what the plugin's part of the deletion of a mailbox
      keeps; [DoveadmMailbox]: deleting mailboxes, options and arguments.

    State that the C++ code shares by pointers is kept once and passed
    explicitly: an operation of a component is an [ST] computation on the
    component's record paired with the world it acts on. Static members of
    [RadosClusterImpl] are fields of one record that all storages share; the
    contexts that the configuration, the namespace manager and the metadata
    module hold by pointer are the one context of the storage.

    ** Interfaces to other code

    Code that is not part of the repository is a class of operations on an
    abstract world, with a second class of laws where theorems need them:
    - [Librados] and [LibradosLaws]: object operations. The laws say that a
      successful operation had its documented effect on the one object it names
      and that a failed one changed nothing; [MemCluster] is an instance of
      both, with a schedule of failures, in which the witnesses run.
    - [RadosAdmin] and [RadosAdminLaws]: [librados::Rados], the connection's
      calls and their codes; [AdminKeeps] and [QuietAdmin]: what they keep.
    - [Jansson] and [JanssonLaws]: printing a JSON object and reading it back.
    - [Dovecot] and [DovecotLaws]: the requests the plugin makes of an index
      transaction, and that they leave the cluster alone; [MemDovecot].
    - [DovecotBoxes] and [DovecotBoxesLaws]: mailboxes, their headers and the
      synchronisation of an index; which calls begin one.
    - [DovecotMail] and [LibradosMail] with their laws: what reading a mail asks of
      Dovecot and of librados; [DovecotCopy]: the generic copy of Dovecot;
      [DovecotOpen]: opening and creating a mailbox. What Dovecot answers while the
      mailboxes of a user are visited is data in [Doveadm].
    - [RestoreLaws], [DovecotDelete] with [DeleteLaws] and [QuietBoxes]: what the
      doveadm commands rely on when they restore records and delete mailboxes;
      [DeletesThrough]: a deletion is made of steps of Dovecot's own and of calls of the
      plugin's [rbox_storage_mailbox_delete].
    - [LocalTime]: [strptime] and [mktime]; [LocalDate]: [localtime_r] and
      [strftime]; [Posix] and [PosixLaws]: files.
    - [CalmWorld]: a cluster without failures, for the theorems that say what is
      reached then; [ClusterKeeps] and [QuietCluster]: what its calls keep;
      [WriteKeeps]: what the calls keep that neither remove nor change attributes.
    [MetadataModule] with [MetadataContract] is an interface inside the program
    (the C++ class has virtual methods). The contract is that loading the attributes of a
    mail changes no object; both implementations discharge it, and so does the choice
    between them that the configuration makes. What the two store and read back is proved
    of each of them ([metadata_save_load]). [Loader] with [LoaderLaws]
    is the other one: a run of the loading is one of the step relation of
    [LoadObjects]; the commands are proved for every such run, and
    [in_order_loader], in which the calls complete in order, is an instance.

    ** What the theorems show

    - Mails are not lost: [storage_refines_store] (any sequence of requests, whatever
      calls fail, is one of the abstract store), [saved_mail_lasts] (what follows for a
      mail that was saved), [save_mail_stores], [save_append_stores] (an object is
      written completely, in chunks), [save_finish_stores], [metadata_save_load],
      [saved_mail_is_valid], [copy_stores], [move_never_loses] (a move leaves
      the mail at the source or at the target whatever fails),
      [move_to_alt_keeps_source].
    - Reading a mail: [mail_names_its_record] (in every reachable state a mail
      that names the object of a mail names the one of its record), [get_stream_gives_object],
      [saved_mail_is_read] (saving and reading composed), [trailer_repair].
    - Copying: [copy_adds_mail]. Mailboxes: [opened_mailbox_has_guid],
      [list_flags_consistent].
    - A rebuild: [rebuild_groups_mails] (every valid mail is in the group of its
      mailbox, once), [rebuild_entry_restores] (one record with a uid of its own
      for each), [rebuild_gives_rest_to_inbox], [find_mails_interleaving].
    - Order of index and objects: [sync_removes_after_commit] (no object is
      removed before the index was committed, and none at all if the commit
      failed), [rollback_removes_failed], [sync_begin_balance] (what is begun is
      ended or handed out), [commit_assigns_uids] (the uids of index and objects
      agree).
    - The dictionary: [dict_commit_refines] (a commit implements the requests one
      after the other), [dict_iterate_complete], [dict_lookups_answered],
      [dict_shared_access_moves_private].
    - The shared connection: [cluster_reachable_inv] (by induction on
      reachability), [cluster_open_close], [storage_open_connection],
      [storage_disconnected], [storage_close_twice], [connection_namespace].
    - Configuration and namespaces: [config_save_load], [config_read_retries],
      [config_update_one_key], [printed_config_is_restored] (the printed settings
      are the ones an update reads), [namespace_cache_coherent],
      [namespace_add_then_lookup].
    - The tool and doveadm: [loaded_mails_are_listed] (whatever the callbacks do),
      [printed_query_is_read], [undo_only_logged] and [undo_removes_saved],
      [rename_keeps_user], [download_writes_object], [created_index_lists_records],
      [namespace_deletion_is_limited]. Of whole programs: [command_line_is_read]
      (what the arguments ask for), [tool_asks_first] (without the confirmation the
      tool changes no object, the creation of the configuration and the setting of
      attributes apart), [check_indices_keeps_referenced] (over the search and the
      deletion, in two connections), [revert_only_logged] and
      [restored_entry_is_recorded], [children_are_deleted_first] and
      [mapping_kept_while_mails] (deleting mailboxes, the plugin's part included).
    - Formats, as round trips: save log lines and sessions, the ceph index
      object, flags, attributes, sizes, encoded strings and integers, search and
      replace, the listing of placement groups.
    Some theorems state behaviour that falls short of the intent; they say so
    ([storage_close_twice], [write_chunks_corrupts], [move_to_alt_keeps_source],
    [flags_attribute_invalidates], [dict_shared_access_moves_private],
    [reopened_mail_has_no_object], [bad_virtual_size_accepted],
    [index_log_hides_mailbox], [one_mail_runs], [second_condition_ignored],
    [order_of_numbers], [rename_overwrites_user],
    [check_deletes_mails_of_closed_mailbox], [option_after_words_is_attribute],
    [tool_rename_does_nothing], [revert_in_wrong_pool]).

    ** Integers, bounds and fuel

    The count of the references to the connection is an [int]; a state is reached with
    fewer than [INT_MAX] of them, as [step_init] says. A static handle that is null ends the
    program where the code uses it ([None]). The chunk loop computes with an [int] number of chunks and [int] offsets and
    with unsigned 64 bit sizes; the theorems assume a buffer below [INT_MAX],
    the limit from which the products leave the range. The retries of the
    configuration object, of reading attributes, of removing an object and of a
    read that timed out are loops of at most ten rounds in the source and structural recursions on ten
    here. [find_and_replace] is a loop that need not end: it takes fuel, and
    [find_and_replace_correct] gives an amount that is enough whenever the
    pattern is not empty. A rebuild makes at most two passes and a synchronisation
    at most three rebuilds, as in the source. Waiting for the lookups of a
    dictionary and iterating over it take fuel, with theorems for the amount that
    is enough, and so does the parser of queries, which never runs out of it
    ([query_is_read]). Loading the mails of a namespace and the threaded search
    are step relations without an infinite run. All other loops are structural on their lists. Uids are 32 bit
    numbers that wrap around; [rebuild_entry_restores] assumes that they do not.

    ** What is not modelled

    Logging and printing; asynchronous completions beyond the order of submission
    and wait (an operation takes effect when it is submitted, and its result is
    read at the wait), except for the lookups of a dictionary, the threads of
    [find_mails_async] and the callbacks of [load_objects]; freeing memory, except
    where reference counts decide behaviour; the locks on the index during a
    repair and during the writing of the index object.
    The copy assumes that source and destination share the plugin's storage
    object. The reports of the tools are functions to text; when they are written,
    and the other messages, is left out. The deletion of a mailbox is Dovecot's, which
    calls the plugin back; how it goes about this is the class [DeletesThrough].
    Tables of virtual functions and the registration of the plugins
    and commands have no behaviour of their own. [rados_dict_set_timestamp] is for a
    version of Dovecot that the build does not find, and uses members that the class
    does not have. The class encoders of encoding.h have no users. *)
From Stdlib Require Export ZArith Lia.
From stdpp Require Export base tactics gmap strings list sorting pretty numbers.

Declare Scope rmb_scope.
Delimit Scope rmb_scope with rmb.
#[global] Open Scope Z_scope.

(** ** Numbers of the C++ program *)

Definition INT_MAX : Z := 2147483647.
Definition ENOENT : Z := 2.
Definition EINVAL : Z := 22.
Definition EEXIST : Z := 17.
Definition ETIMEDOUT : Z := 110.

(** A value stored in an unsigned integer of [w] bits. *)
Definition wrap_u (w z : Z) : Z := z `mod` 2 ^ w.
(** A value converted to a signed two's-complement integer of [w] bits. *)
Definition wrap_s (w z : Z) : Z :=
  let u := wrap_u w z in if decide (u < 2 ^ (w - 1)) then u else u - 2 ^ w.

Abbreviation uint8 := (wrap_u 8).
Abbreviation uint32 := (wrap_u 32).
Abbreviation uint64 := (wrap_u 64).
Abbreviation int32 := (wrap_s 32).
Abbreviation int64 := (wrap_s 64).

Lemma wrap_u_range w z : 0 <= w → 0 <= wrap_u w z < 2 ^ w.
Proof. intros. unfold wrap_u. apply Z.mod_pos_bound. lia. Qed.

Lemma wrap_u_small w z : 0 <= z < 2 ^ w → wrap_u w z = z.
Proof. intros. unfold wrap_u. by apply Z.mod_small. Qed.

Lemma wrap_s_small w z : 0 < w → - 2 ^ (w - 1) <= z < 2 ^ (w - 1) → wrap_s w z = z.
Proof.
  intros Hw Hz.
  assert (2 ^ w = 2 * 2 ^ (w - 1)) as E.
  { rewrite <- Z.pow_succ_r by lia. f_equal. lia. }
  unfold wrap_s, wrap_u. destruct (decide (0 <= z)).
  - rewrite Z.mod_small by lia. rewrite decide_True by lia. done.
  - rewrite <- (Z.mod_add z 1 (2 ^ w)) by lia. rewrite Z.mod_small by lia.
    rewrite decide_False by lia. lia.
Qed.

Lemma wrap_s_wrap_u w z : wrap_s w (wrap_u w z) = wrap_s w z.
Proof. unfold wrap_s, wrap_u. by rewrite Zmod_mod. Qed.

Lemma wrap_s_range w z : 0 < w → - 2 ^ (w - 1) <= wrap_s w z < 2 ^ (w - 1).
Proof.
  intros Hw. assert (2 ^ w = 2 * 2 ^ (w - 1)) as E.
  { rewrite <- Z.pow_succ_r by lia. f_equal. lia. }
  pose proof (wrap_u_range w z ltac:(lia)). unfold wrap_s. case_decide; lia.
Qed.

(** ** A state monad for the stateful code *)

Definition ST (S A : Type) : Type := S → A * S.

#[export] Instance ST_ret S : MRet (ST S) := λ A a s, (a, s).
#[export] Instance ST_bind S : MBind (ST S) := λ A B k m s, let '(a, s') := m s in k a s'.

#[export] Instance ST_fmap S : FMap (ST S) := λ A B f m s, let '(a, s') := m s in (f a, s').

Definition st_get {S} : ST S S := λ s, (s, s).
Definition st_put {S} (s : S) : ST S unit := λ _, (tt, s).
Definition st_modify {S} (f : S → S) : ST S unit := λ s, (tt, f s).

(** A computation on one half of a pair of states. *)
Definition on_fst {S T A} (m : ST S A) : ST (S * T) A :=
  λ '(s, t), let '(a, s') := m s in (a, (s', t)).
Definition on_snd {S T A} (m : ST T A) : ST (S * T) A :=
  λ '(s, t), let '(a, t') := m t in (a, (s, t')).

(** A loop over a list of items, left to right. *)
Definition st_iter {S A} (f : A → ST S unit) : list A → ST S unit :=
  fix go l := match l with [] => mret tt | x :: l => f x ;; go l end.

(** Computations that may abort the program ([None]: an assertion fails, an
    exception is not caught, or a null pointer is used). *)
Definition abind {S A B} (m : ST S (option A)) (k : A → ST S (option B)) : ST S (option B) :=
  a ← m; match a with Some a => k a | None => mret None end.
Notation "x ←! m ; k" := (abind m (λ x, k))
  (at level 20, m at level 100, k at level 200, only parsing) : rmb_scope.
Notation "' p ←! m ; k" := (abind m (λ x, match x with p => k end))
  (at level 20, p pattern, m at level 100, k at level 200, only parsing) : rmb_scope.
Definition aret {S A} (a : A) : ST S (option A) := mret (Some a).
Definition abort {S A} : ST S (option A) := mret None.
Definition lift {S A} (m : ST S A) : ST S (option A) := Some <$> m.

(** Partial-correctness triples: the postcondition holds of the result and of
    the state after the run. Every [ST] computation is total. *)
Definition triple {S A} (P : S → Prop) (m : ST S A) (Q : A → S → Prop) : Prop :=
  ∀ s, P s → Q (m s).1 (m s).2.

Section triple.
Context {S : Type}.

Lemma triple_ret {A} (a : A) (Q : A → S → Prop) : triple (Q a) (mret a) Q.
Proof. intros s H. exact H. Qed.

Lemma triple_bind {A B} P (m : ST S A) R (k : A → ST S B) Q :
    triple P m R → (∀ a, triple (R a) (k a) Q) → triple P (m ≫= k) Q.
Proof.
    intros Hm Hk s Hs. unfold mbind, ST_bind. specialize (Hm s Hs).
    destruct (m s) as [a s'] eqn:E. by apply Hk.
Qed.

Lemma triple_conseq {A} (P P' : S → Prop) (m : ST S A) (Q Q' : A → S → Prop) :
    triple P m Q → (∀ s, P' s → P s) → (∀ a s, Q a s → Q' a s) → triple P' m Q'.
Proof. intros H HP HQ s Hs. apply HQ, H, HP, Hs. Qed.

Lemma triple_keep {A} (a : A) (P : S → Prop) : triple P (mret a) (λ _, P).
Proof. by intros s H. Qed.
Lemma triple_kept {A B} P (m : ST S A) (k : A → ST S B) Q :
    triple P m (λ _, P) → (∀ a, triple P (k a) Q) → triple P (m ≫= k) Q.
Proof. apply triple_bind. Qed.
Lemma triple_absurd {A} P (m : ST S A) Q : (∀ s, ¬ P s) → triple P m Q.
Proof. intros H s Hs. by destruct (H s). Qed.

Lemma triple_iter {A} (P : S → Prop) (f : A → ST S unit) l :
    (∀ x, x ∈ l → triple P (f x) (λ _, P)) → triple P (st_iter f l) (λ _, P).
Proof.
    induction l as [|x l IH]; intros H; [by intros s|].
    cbn [st_iter]. eapply triple_bind; [apply H; left|]. intros [].
    apply IH. intros y Hy. apply H. by right.
Qed.

Lemma bind_run {A B} (m : ST S A) (k : A → ST S B) s a s' :
    m s = (a, s') → (m ≫= k) s = k a s'.
Proof. intros E. unfold mbind, ST_bind. by rewrite E. Qed.
End triple.

Lemma abind_run {S A B} (m : ST S (option A)) (k : A → ST S (option B)) s a s' :
  m s = (Some a, s') → abind m k s = k a s'.
Proof. intros E. unfold abind. by rewrite (bind_run _ _ _ _ _ E). Qed.
Lemma abind_eq {S A B} (m : ST S (option A)) (k : A → ST S (option B)) s :
  abind m k s = match (m s).1 with Some a => k a (m s).2 | None => (None, (m s).2) end.
Proof. unfold abind, mbind, ST_bind. destruct (m s) as [[a|] s']; done. Qed.
Lemma lift_run {S A} (m : ST S A) s : lift m s = (Some (m s).1, (m s).2).
Proof. unfold lift, fmap, ST_fmap. by destruct (m s). Qed.
Lemma aret_run {S A} (a : A) (s : S) : aret a s = (Some a, s).
Proof. done. Qed.

(** ** Ordered iteration of [std::map] and [std::set]

    [std::map] and [std::set] with string keys are [gmap] and [gset]; their
    iteration order is the ascending order of the keys. *)

Definition item_le {V} (p q : string * V) : Prop := String.le p.1 q.1.

#[export] Instance item_le_dec {V} : RelDecision (@item_le V).
Proof. intros p q. unfold item_le. apply _. Defined.
#[export] Instance item_le_total {V} : Total (@item_le V).
Proof. intros p q. apply (total String.le). Qed.
#[export] Instance item_le_trans {V} : Transitive (@item_le V).
Proof. intros p q r. unfold item_le. apply transitivity. Qed.

Definition map_items {V} (m : gmap string V) : list (string * V) :=
  merge_sort item_le (map_to_list m).
Definition set_items (s : gset string) : list string := merge_sort String.le (elements s).

Lemma map_items_perm {V} (m : gmap string V) : map_items m ≡ₚ map_to_list m.
Proof. apply merge_sort_Permutation. Qed.

Lemma elem_of_map_items {V} (m : gmap string V) k v : (k, v) ∈ map_items m ↔ m !! k = Some v.
Proof. unfold map_items. rewrite merge_sort_Permutation. apply elem_of_map_to_list. Qed.

Lemma elem_of_set_items s x : x ∈ set_items s ↔ x ∈ s.
Proof. unfold set_items. rewrite merge_sort_Permutation. apply elem_of_elements. Qed.

Lemma NoDup_map_items {V} (m : gmap string V) : NoDup (map_items m).*1.
Proof. rewrite map_items_perm. apply NoDup_fst_map_to_list. Qed.

Lemma map_items_to_map {V} (m : gmap string V) : list_to_map (map_items m) = m.
Proof.
  rewrite <- (list_to_map_to_list m) at 2.
  apply list_to_map_proper; [apply NoDup_map_items | apply map_items_perm].
Qed.

Lemma map_items_sorted {V} (m : gmap string V) : StronglySorted item_le (map_items m).
Proof. apply StronglySorted_merge_sort; apply _. Qed.

Lemma map_items_empty {V} : map_items (∅ : gmap string V) = [].
Proof. reflexivity. Qed.

(** ** Automation shared by the components *)

Create HintDb rmb.
#[export] Hint Resolve triple_ret : rmb.

Lemma on_snd_run {S T A} (m : ST T A) (s : S) (t : T) :
  on_snd m (s, t) = ((m t).1, (s, (m t).2)).
Proof. unfold on_snd. by destruct (m t). Qed.
Lemma on_fst_run {S T A} (m : ST S A) (s : S) (t : T) :
  on_fst m (s, t) = ((m s).1, ((m s).2, t)).
Proof. unfold on_fst. by destruct (m s). Qed.
Lemma bind_eq {S A B} (m : ST S A) (k : A → ST S B) s :
  (m ≫= k) s = k (m s).1 (m s).2.
Proof. unfold mbind, ST_bind. by destruct (m s). Qed.
Lemma ret_eq {S A} (a : A) (s : S) : (mret a : ST S A) s = (a, s).
Proof. done. Qed.
Lemma fmap_eq {S A B} (f : A → B) (m : ST S A) s : (f <$> m) s = (f (m s).1, (m s).2).
Proof. unfold fmap, ST_fmap. by destruct (m s). Qed.
#[export] Hint Rewrite @ret_eq @fmap_eq @on_snd_run @on_fst_run @bind_eq : rmb.

(** Run one step of a monadic computation whose result is known. *)
Ltac st_step E := erewrite bind_run by exact E.

(** Destruct the scrutinee of every [match] in the goal or hypotheses. *)
Ltac split_match := repeat (case_match; simplify_eq/=).

(** Prove the first premise of [H] as a goal of its own and go on with the rest. *)
Ltac premise H :=
  match type of H with ?A → _ =>
    let P := fresh in assert A as P; [clear H | specialize (H P); clear P] end.
