(* ===== verification/CxxString.v ===== *)
(** The part of the C++ string library the plugin relies on: [std::string]
    searching and slicing, token splitting with [std::getline], decimal
    conversion with [std::to_string] and [std::stol], and C strings.  A
    [std::string] and a [ceph::bufferlist] are byte strings, modelled by
    [string] (eight-bit characters). *)
From S2P Require Export Prelude.
From Stdlib Require Import Ascii.

Local Open Scope Z_scope.

Abbreviation slen := String.length.
#[global] Arguments String.append !_ _ / : simpl nomatch.

Definition NUL : ascii := Ascii.zero.
Definition nul_string : string := String NUL "".

(** ** Characters *)

Definition char_code (c : ascii) : Z := Z.of_N (N_of_ascii c).
Definition char_of (z : Z) : ascii := ascii_of_N (Z.to_N z).
(** [isspace] in the C locale. *)
Definition isspace (c : ascii) : bool :=
  let z := char_code c in ((9 <=? z) && (z <=? 13)) || (z =? 32).
(** [isdigit] in the C locale. *)
Definition isdigit (c : ascii) : bool :=
  let z := char_code c in (48 <=? z) && (z <=? 57).
Definition digit_val (c : ascii) : Z := char_code c - 48.

(** ** Slicing and searching *)

Fixpoint str_take (n : nat) (s : string) : string :=
  match n, s with
  | S n, String c s => String c (str_take n s)
  | _, _ => ""
  end.

Fixpoint str_drop (n : nat) (s : string) : string :=
  match n, s with
  | S n, String _ s => str_drop n s
  | _, _ => s
  end.

(** [substr(pos, len)] for [pos <= size()]. *)
Definition substr (pos len : nat) (s : string) : string := str_take len (str_drop pos s).

(** [find(pat)]: the offset of the first occurrence, [None] for [npos]. *)
Fixpoint str_find (pat s : string) : option nat :=
  if String.prefix pat s then Some 0%nat
  else match s with
       | "" => None
       | String _ s' => S <$> str_find pat s'
       end.

(** [find(pat, pos)]. *)
Definition str_find_from (pat s : string) (pos : nat) : option nat :=
  if (pos <=? slen s)%nat then (λ i, pos + i)%nat <$> str_find pat (str_drop pos s) else None.

(** [std::remove_if] followed by [erase]. *)
Fixpoint erase_if (p : ascii → bool) (s : string) : string :=
  match s with
  | "" => ""
  | String c s => if p c then erase_if p s else String c (erase_if p s)
  end.

Fixpoint all_chars (p : ascii → bool) (s : string) : bool :=
  match s with
  | "" => true
  | String c s => p c && all_chars p s
  end.

Definition char_is (c d : ascii) : bool := bool_decide (c = d).
(** No character of [s] is [c]. *)
Definition free_of (c : ascii) (s : string) : bool := all_chars (λ d, negb (char_is d c)) s.

(** The bytes before the first NUL: what a consumer of [c_str()] sees. *)
Fixpoint c_str (s : string) : string :=
  match s with
  | "" => ""
  | String c s => if char_is c NUL then "" else String c (c_str s)
  end.

(** ** [while (std::getline(stream, item, sep)) v.push_back(item)] *)

Fixpoint getline_split (sep : ascii) (s : string) : list string :=
  match s with
  | "" => []
  | String c s' =>
      if char_is c sep then "" :: getline_split sep s'
      else match getline_split sep s' with
           | [] => [String c ""]
           | t :: ts => String c t :: ts
           end
  end.

(** ** Decimal conversion *)

(** [std::to_string] of an integer type. *)
Definition to_string (z : Z) : string := pretty z.

Inductive parse_result := ParseOk (z : Z) | ParseInvalid | ParseRange.

Fixpoint digits_val (acc : Z) (s : string) : Z :=
  match s with
  | String c s' => if isdigit c then digits_val (10 * acc + digit_val c) s' else acc
  | "" => acc
  end.

Fixpoint skip_space (s : string) : string :=
  match s with
  | String c s' => if isspace c then skip_space s' else s
  | "" => ""
  end.

(** The value of the digits [s] starts with, [None] when there is none. *)
Definition parse_digits (s : string) : option Z :=
  match s with
  | String c _ => if isdigit c then Some (digits_val 0 s) else None
  | "" => None
  end.

Definition parse_signed (s : string) : option Z :=
  match skip_space s with
  | String "-" s' => Z.opp <$> parse_digits s'
  | String "+" s' => parse_digits s'
  | s' => parse_digits s'
  end.

Definition stoX (lo hi : Z) (s : string) : parse_result :=
  match parse_signed s with
  | None => ParseInvalid
  | Some z => if (lo <=? z) && (z <=? hi) then ParseOk z else ParseRange
  end.

(** [std::stol] with a 64-bit [long], [std::stoi] with a 32-bit [int]. *)
Definition stol : string → parse_result := stoX (- 2 ^ 63) (2 ^ 63 - 1).
Definition stoi : string → parse_result := stoX (- 2 ^ 31) (2 ^ 31 - 1).

(** ** Lemmas *)

Lemma char_is_true c d : char_is c d = true ↔ c = d.
Proof. unfold char_is. by rewrite bool_decide_eq_true. Qed.
Lemma char_is_false c d : char_is c d = false ↔ c ≠ d.
Proof. unfold char_is. by rewrite bool_decide_eq_false. Qed.
Lemma char_is_refl c : char_is c c = true.
Proof. by apply char_is_true. Qed.

Lemma char_code_range c : 0 <= char_code c < 256.
Proof. unfold char_code. pose proof (N_ascii_bounded c). lia. Qed.
Lemma char_of_code c : char_of (char_code c) = c.
Proof. unfold char_of, char_code. by rewrite N2Z.id, ascii_N_embedding. Qed.
Lemma char_code_of z : 0 <= z < 256 → char_code (char_of z) = z.
Proof. intros. unfold char_of, char_code. rewrite N_ascii_embedding; lia. Qed.

Lemma sapp_nil_r s : s +:+ "" = s.
Proof. induction s as [|c s IH]; [done|]. cbn. by f_equal. Qed.
Lemma sapp_assoc a b c : a +:+ (b +:+ c) = (a +:+ b) +:+ c.
Proof. induction a as [|x a IH]; [done|]. cbn. by f_equal. Qed.
Lemma sapp_cons c a b : String c a +:+ b = String c (a +:+ b).
Proof. done. Qed.
(** Reassociate to the right, exposing the first character. *)
Ltac sapp := repeat (progress (cbn [String.append]) || rewrite <- sapp_assoc).

Lemma slen_app a b : slen (a +:+ b) = (slen a + slen b)%nat.
Proof. induction a as [|x a IH]; [done|]. cbn. by rewrite <- IH. Qed.

Lemma all_chars_app p a b : all_chars p (a +:+ b) = all_chars p a && all_chars p b.
Proof. induction a as [|x a IH]; [done|]. cbn. rewrite IH. by destruct (p x). Qed.

Lemma free_of_app c a b : free_of c (a +:+ b) = free_of c a && free_of c b.
Proof. apply all_chars_app. Qed.
Lemma free_of_cons c d a : free_of c (String d a) = true ↔ d ≠ c ∧ free_of c a = true.
Proof.
  unfold free_of. cbn. rewrite andb_true_iff, negb_true_iff, char_is_false. done.
Qed.

Lemma str_take_app a b : str_take (slen a) (a +:+ b) = a.
Proof. induction a as [|c a IH]; cbn; [by destruct b|]. by f_equal. Qed.
Lemma str_drop_app a b : str_drop (slen a) (a +:+ b) = b.
Proof. induction a as [|c a IH]; cbn; done. Qed.
Lemma str_take_ge n a : (slen a <= n)%nat → str_take n a = a.
Proof.
  revert n. induction a as [|c a IH]; intros [|n] H; cbn in *; try done; try lia.
  rewrite IH; [done|lia].
Qed.
Lemma str_take_drop n s : str_take n s +:+ str_drop n s = s.
Proof. revert n. induction s as [|c s IH]; intros [|n]; try done. cbn. by f_equal. Qed.
Lemma slen_drop n s : slen (str_drop n s) = (slen s - n)%nat.
Proof. revert n. induction s as [|c s IH]; intros [|n]; try done. cbn. apply IH. Qed.
Lemma slen_take n s : slen (str_take n s) = (n `min` slen s)%nat.
Proof. revert n. induction s as [|c s IH]; intros [|n]; try done. cbn. by rewrite IH. Qed.
Lemma str_drop_drop n m s : str_drop n (str_drop m s) = str_drop (m + n) s.
Proof.
  revert s. induction m as [|m IH]; intros [|c s]; try done; try (by destruct n). apply IH.
Qed.
Lemma str_take_0 s : str_take 0 s = "".
Proof. by destruct s. Qed.
Lemma str_drop_0 s : str_drop 0 s = s.
Proof. by destruct s. Qed.
Lemma str_drop_ge n s : (slen s <= n)%nat → str_drop n s = "".
Proof.
  revert n. induction s as [|c s IH]; intros [|n] H; cbn in *; try done; try lia.
  apply IH; lia.
Qed.

Lemma prefix_app a b : String.prefix a (a +:+ b) = true.
Proof.
  induction a as [|c a IH]; [by destruct b|]. cbn. rewrite <- IH.
  by destruct (ascii_dec c c).
Qed.
Lemma prefix_split a s : String.prefix a s = true → s = a +:+ str_drop (slen a) s.
Proof.
  revert s. induction a as [|c a IH]; intros [|d s] H; cbn in *; try done.
  destruct (ascii_dec c d); [|done]. subst. f_equal. by apply IH.
Qed.
Lemma prefix_char c s : String.prefix (String c "") s = true ↔ ∃ t, s = String c t.
Proof.
  destruct s as [|d s]; cbn.
  - split; [done|]. by intros [t Ht].
  - destruct (ascii_dec c d) as [->|Hne].
    + split; [by eauto|]. intros _. by destruct s.
    + split; [done|]. intros [t Ht]. by simplify_eq.
Qed.

(** [find] of a one-character pattern. *)
Lemma str_find_char c a b :
  free_of c a = true → str_find (String c "") (a +:+ String c b) = Some (slen a).
Proof.
  induction a as [|d a IH]; intros H.
  - cbn [String.append]. unfold str_find.
    by rewrite (proj2 (prefix_char c _) (ex_intro _ b eq_refl)).
  - apply free_of_cons in H as [Hne H]. rewrite sapp_cons.
    cbn [str_find]. destruct (String.prefix _ _) eqn:E.
    + apply prefix_char in E as [t E]. by simplify_eq.
    + by rewrite IH.
Qed.
Lemma str_find_char_none c a : free_of c a = true → str_find (String c "") a = None.
Proof.
  induction a as [|d a IH]; intros H; [done|].
  apply free_of_cons in H as [Hne H]. cbn [str_find].
  destruct (String.prefix _ _) eqn:E.
  - apply prefix_char in E as [t E]. by simplify_eq.
  - by rewrite IH.
Qed.
Lemma prefix_length a s : String.prefix a s = true → (slen a <= slen s)%nat.
Proof. intros H. apply prefix_split in H. rewrite H, slen_app. lia. Qed.
Lemma str_find_unfold pat s :
  str_find pat s =
    if String.prefix pat s then Some 0%nat
    else match s with "" => None | String _ s' => S <$> str_find pat s' end.
Proof. by destruct s. Qed.
Lemma str_find_Some pat s i :
  str_find pat s = Some i → String.prefix pat (str_drop i s) = true ∧ (i + slen pat <= slen s)%nat.
Proof.
  revert i. induction s as [|c s IH]; intros i; rewrite str_find_unfold;
    destruct (String.prefix pat _) eqn:E; intros H; simplify_eq.
  1-2: rewrite ?str_drop_0; pose proof (prefix_length _ _ E); split; [done|lia].
  apply fmap_Some in H as (j & Hj & ->). destruct (IH j Hj) as [? ?].
  cbn [str_drop String.length]. split; [done|]. lia.
Qed.

(** *** Token splitting *)

Lemma getline_split_tok sep t rest :
  free_of sep t = true → getline_split sep (t +:+ String sep rest) = t :: getline_split sep rest.
Proof.
  induction t as [|c t IH]; intros H.
  - cbn. by rewrite char_is_refl.
  - apply free_of_cons in H as [Hne H]. cbn [getline_split String.append].
    rewrite (proj2 (char_is_false c sep) Hne). by rewrite IH.
Qed.
Lemma getline_split_last sep t :
  free_of sep t = true → t ≠ "" → getline_split sep t = [t].
Proof.
  induction t as [|c t IH]; intros H Hne; [done|].
  apply free_of_cons in H as [Hc H]. cbn [getline_split].
  rewrite (proj2 (char_is_false c sep) Hc).
  destruct t as [|d t]; [done|]. by rewrite IH.
Qed.
Lemma getline_split_free sep s : Forall (λ t, free_of sep t = true) (getline_split sep s).
Proof.
  induction s as [|c s IH]; cbn [getline_split]; [constructor|].
  destruct (char_is c sep) eqn:E; [by constructor|]. apply char_is_false in E.
  destruct (getline_split sep s) as [|t ts].
  - repeat constructor. by apply free_of_cons.
  - apply list.Forall_cons in IH as [? ?]. constructor; [|done]. by apply free_of_cons.
Qed.

(** [t1 sep t2 sep ... tn sep]. *)
Definition join_term (sep : ascii) (l : list string) : string :=
  foldr (λ t acc, t +:+ String sep acc) "" l.

Lemma getline_split_join_term sep l :
  Forall (λ t, free_of sep t = true) l → getline_split sep (join_term sep l) = l.
Proof.
  induction 1 as [|t l Ht _ IH]; [done|]. cbn [join_term foldr].
  rewrite getline_split_tok by done. by f_equal.
Qed.
Lemma getline_split_join_app sep l s :
  Forall (λ t, free_of sep t = true) l →
  getline_split sep (join_term sep l +:+ s) = l ++ getline_split sep s.
Proof.
  induction 1 as [|t l Ht _ IH]; [done|]. cbn [join_term foldr].
  rewrite <- sapp_assoc, sapp_cons, getline_split_tok by done. cbn. by f_equal.
Qed.

(** *** C strings *)

Lemma c_str_app_nul s t : free_of NUL s = true → c_str (s +:+ String NUL t) = s.
Proof.
  induction s as [|c s IH]; intros H; [done|].
  apply free_of_cons in H as [Hc H]. cbn [c_str String.append].
  rewrite (proj2 (char_is_false c NUL) Hc). by rewrite IH.
Qed.
Lemma c_str_id s : free_of NUL s = true → c_str s = s.
Proof.
  induction s as [|c s IH]; intros H; [done|].
  apply free_of_cons in H as [Hc H]. cbn [c_str].
  rewrite (proj2 (char_is_false c NUL) Hc). by rewrite IH.
Qed.
Lemma c_str_free s : free_of NUL (c_str s) = true.
Proof.
  induction s as [|c s IH]; [done|]. cbn. destruct (char_is c NUL) eqn:E; [done|].
  apply free_of_cons. split; [by apply char_is_false|done].
Qed.

Lemma erase_if_all_false p s : all_chars (λ c, negb (p c)) s = true → erase_if p s = s.
Proof.
  induction s as [|c s IH]; [done|]. cbn. intros [Hc H]%andb_true_iff.
  apply negb_true_iff in Hc. rewrite Hc. by rewrite IH.
Qed.

(** *** Decimal round trip *)

Lemma pretty_char_spec x :
  (x < 10)%N →
  isdigit (pretty_N_char x) = true ∧ digit_val (pretty_N_char x) = Z.of_N x.
Proof.
  intros H.
  assert (x = 0 ∨ x = 1 ∨ x = 2 ∨ x = 3 ∨ x = 4 ∨ x = 5 ∨ x = 6 ∨ x = 7 ∨ x = 8 ∨ x = 9)%N
    as Hx by lia.
  by repeat destruct Hx as [->|Hx]; [..|rewrite Hx].
Qed.

Lemma digits_val_pretty_go n s :
  digits_val 0 (pretty_N_go n s) = digits_val (Z.of_N n) s.
Proof.
  revert s. induction (N.lt_wf_0 n) as [n _ IH]; intros s.
  destruct (decide (n = 0)%N) as [->|Hn]; [done|].
  rewrite pretty_N_go_step by lia. rewrite IH by (apply N.div_lt; lia).
  destruct (pretty_char_spec (n `mod` 10)) as [Hd Hv].
  { apply N.mod_lt; lia. }
  cbn [digits_val]. rewrite Hd, Hv. f_equal.
  rewrite N2Z.inj_div, N2Z.inj_mod.
  pose proof (Z.div_mod (Z.of_N n) 10 ltac:(done)). change (Z.of_N 10) with 10. lia.
Qed.

Lemma pretty_go_head n s :
  (0 < n)%N → ∃ c t, pretty_N_go n s = String c t ∧ isdigit c = true.
Proof.
  revert s. induction (N.lt_wf_0 n) as [n _ IH]; intros s Hn.
  rewrite pretty_N_go_step by lia.
  destruct (decide (n `div` 10 = 0)%N) as [E|E].
  - rewrite E, pretty_N_go_0. eexists _, _. split; [done|].
    apply pretty_char_spec, N.mod_lt. lia.
  - apply IH; [apply N.div_lt; lia | by apply N.neq_0_lt_0].
Qed.

Lemma parse_digits_pretty n : parse_digits (pretty n) = Some (Z.of_N n).
Proof.
  unfold pretty, pretty_N. case_decide as E; [by subst|].
  destruct (pretty_go_head n "") as (c & t & Ht & Hc); [lia|].
  unfold parse_digits. rewrite Ht, Hc, <- Ht. by rewrite digits_val_pretty_go.
Qed.

Lemma isdigit_code c : isdigit c = true ↔ 48 <= char_code c <= 57.
Proof. unfold isdigit. rewrite andb_true_iff, !Z.leb_le. lia. Qed.

Lemma parse_signed_digit c t :
  isdigit c = true → parse_signed (String c t) = parse_digits (String c t).
Proof.
  intros Hc. apply isdigit_code in Hc as Hr. unfold parse_signed. cbn [skip_space].
  assert (isspace c = false) as ->.
  { unfold isspace. rewrite orb_false_iff, andb_false_iff, Z.eqb_neq, !Z.leb_gt. lia. }
  destruct (ascii_dec c "-") as [->|H1]; [by vm_compute in Hr; destruct Hr|].
  destruct (ascii_dec c "+") as [->|H2]; [by vm_compute in Hr; destruct Hr|].
  by destruct c as [[] [] [] [] [] [] [] []].
Qed.

Lemma parse_signed_to_string z : parse_signed (to_string z) = Some z.
Proof.
  assert (∀ n : N, parse_signed (pretty n) = Some (Z.of_N n)) as HN.
  { intros n. pose proof (parse_digits_pretty n) as H.
    destruct (pretty n) as [|c t] eqn:E; [done|].
    rewrite parse_signed_digit; [done|].
    cbn in H. by destruct (isdigit c). }
  unfold to_string. destruct z as [|p|p]; [done | apply HN |].
  change (pretty (Z.neg p)) with ("-" +:+ pretty (N.pos p)).
  pose proof (parse_digits_pretty (N.pos p)) as H.
  unfold parse_signed. cbn [skip_space String.append].
  change (isspace "-") with false. cbn iota. by rewrite H.
Qed.

(** The decimal text holds only digits and a minus sign. *)
Definition is_decimal_char (c : ascii) : bool := isdigit c || char_is c "-".

Lemma pretty_go_chars n s :
  all_chars is_decimal_char s = true → all_chars is_decimal_char (pretty_N_go n s) = true.
Proof.
  revert s. induction (N.lt_wf_0 n) as [n _ IH]; intros s Hs.
  destruct (decide (n = 0)%N) as [->|Hn]; [done|].
  rewrite pretty_N_go_step by lia. apply IH; [apply N.div_lt; lia|].
  cbn [all_chars]. unfold is_decimal_char at 1.
  by rewrite (proj1 (pretty_char_spec (n `mod` 10) ltac:(by apply N.mod_lt))).
Qed.
Lemma to_string_chars z : all_chars is_decimal_char (to_string z) = true.
Proof.
  assert (∀ n : N, all_chars is_decimal_char (pretty n) = true) as HN.
  { intros n. unfold pretty, pretty_N. case_decide; [done|]. by apply pretty_go_chars. }
  unfold to_string. destruct z as [|p|p]; [done | apply HN |].
  change (pretty (Z.neg p)) with ("-" +:+ pretty (N.pos p)). cbn. apply HN.
Qed.
Lemma pretty_go_digits n s : all_chars isdigit s = true → all_chars isdigit (pretty_N_go n s) = true.
Proof.
  revert s. induction (N.lt_wf_0 n) as [n _ IH]; intros s Hs.
  destruct (decide (n = 0)%N) as [->|Hn]; [done|].
  rewrite pretty_N_go_step by lia. apply IH; [apply N.div_lt; lia|].
  cbn [all_chars]. by rewrite (proj1 (pretty_char_spec (n `mod` 10) ltac:(by apply N.mod_lt))).
Qed.
(** Numbers that are not negative are written with digits only. *)
Lemma to_string_digits z : all_chars isdigit (to_string z) = bool_decide (0 <= z).
Proof.
  assert (∀ n : N, all_chars isdigit (pretty n) = true) as HN.
  { intros n. unfold pretty, pretty_N. case_decide; [done|]. by apply pretty_go_digits. }
  unfold to_string. destruct z as [|p|p]; [done| |].
  - rewrite bool_decide_eq_true_2 by lia. apply HN.
  - rewrite bool_decide_eq_false_2 by lia. by change (pretty (Z.neg p)) with ("-" +:+ pretty (N.pos p)).
Qed.
Lemma all_chars_impl p q s :
  (∀ c, p c = true → q c = true) → all_chars p s = true → all_chars q s = true.
Proof.
  intros Hpq. induction s as [|c s IH]; [done|]. cbn. rewrite !andb_true_iff. naive_solver.
Qed.
Lemma free_of_to_string c z :
  is_decimal_char c = false → free_of c (to_string z) = true.
Proof.
  intros Hc. eapply all_chars_impl; [|apply to_string_chars].
  intros d Hd. cbn. apply negb_true_iff, char_is_false. intros ->. congruence.
Qed.
Lemma free_of_NUL_to_string z : free_of NUL (to_string z) = true.
Proof. by apply free_of_to_string. Qed.

Lemma stoX_to_string lo hi z : lo <= z <= hi → stoX lo hi (to_string z) = ParseOk z.
Proof.
  intros H. unfold stoX. rewrite parse_signed_to_string.
  by rewrite (proj2 (Z.leb_le lo z)), (proj2 (Z.leb_le z hi)) by lia.
Qed.

#[export] Hint Rewrite sapp_nil_r slen_app str_take_app str_drop_app str_drop_0 : rmb.
#[export] Hint Resolve c_str_id c_str_free : rmb.
