(* ===== verification/CommandLine.v ===== *)
(** The command line of the tool: librmb/tools/rmb/rmb.cpp up to [main]. An argument is an
    option, an option with its value, or one of the words that are read in pairs as
    attributes and their values. *)
From S2P Require Export CxxString.
From Stdlib Require Import Ascii.

(** What the arguments ask for: the parameters of [parse_cmd_line_args]. *)
Record cmd_line := mk_cmd_line {
  cm_opts : gmap string string;
  cm_is_config : bool;
  cm_metadata : gmap string string;
  cm_create_config : bool;
  cm_show_usage : bool;
  cm_update_confirmed : bool;
}.

(** How an argument is matched by one of the alternatives: as an option with its value, as one
    whose value is the next argument, as a flag, or as the request for the version. *)
Inductive choice :=
| ch_version
| ch_flag (f : cmd_line → cmd_line)
| ch_value (key value : string)
| ch_next (key : string).
(** An alternative: its names, and the option it sets, or what it does. *)
Inductive alternative :=
| alt_version (names : list string)
| alt_flag (names : list string) (f : cmd_line → cmd_line)
| alt_witharg (names : list string) (key : string).

(** The program ends with a code, or the remaining arguments and what was read. *)
Inductive parsed :=
| parse_exit (code : Z)
| parse_done (args : list string) (c : cmd_line).

Module CommandLine.
Definition initial : cmd_line := mk_cmd_line ∅ false ∅ false false false.
Definition set_opt (key value : string) (c : cmd_line) : cmd_line :=
    mk_cmd_line (<[key := value]> (cm_opts c)) (cm_is_config c) (cm_metadata c) (cm_create_config c) (cm_show_usage c) (cm_update_confirmed c).
Definition set_metadata (m : gmap string string) (c : cmd_line) : cmd_line :=
    mk_cmd_line (cm_opts c) (cm_is_config c) m (cm_create_config c) (cm_show_usage c) (cm_update_confirmed c).
Definition set_is_config (c : cmd_line) : cmd_line :=
    mk_cmd_line (cm_opts c) true (cm_metadata c) (cm_create_config c) (cm_show_usage c) (cm_update_confirmed c).
Definition set_create_config (c : cmd_line) : cmd_line :=
    mk_cmd_line (cm_opts c) (cm_is_config c) (cm_metadata c) true (cm_show_usage c) (cm_update_confirmed c).
Definition set_show_usage (c : cmd_line) : cmd_line :=
    mk_cmd_line (cm_opts c) (cm_is_config c) (cm_metadata c) (cm_create_config c) true (cm_update_confirmed c).
Definition set_update_confirmed (c : cmd_line) : cmd_line :=
    mk_cmd_line (cm_opts c) (cm_is_config c) (cm_metadata c) (cm_create_config c) (cm_show_usage c) true.

(** The first two characters are kept, and what follows a [=]. *)
Fixpoint underscores (i : string) : string :=
    match i with
    | "" => ""
    | String c rest =>
        if char_is c "=" then i else String (if char_is c "-" then "_"%char else c) (underscores rest)
    end.
Definition dashes_to_underscores (input : string) : string :=
    match input with
    | String c (String d rest) => String c (String d (underscores rest))
    | _ => input
    end.

Definition ceph_argparse_flag (names : list string) (arg : string) : bool :=
    existsb (λ a, bool_decide (dashes_to_underscores a = dashes_to_underscores arg)) names.
(** The names one after the other; the value, or [None] where it is the next argument. *)
Fixpoint ceph_argparse_witharg (names : list string) (arg : string) : option (option string) :=
    match names with
    | [] => None
    | a :: names =>
        let first := dashes_to_underscores arg in
        if String.prefix (dashes_to_underscores a) first then
          match str_drop (slen a) first with
          | "" => Some None
          | String c value => if char_is c "=" then Some (Some value) else ceph_argparse_witharg names arg
          end
        else ceph_argparse_witharg names arg
    end.

(** The alternatives in the order in which they are tried. *)
Definition alternatives : list alternative :=
    [ alt_version ["-v"; "--version"];
      alt_witharg ["-p"; "--pool"] "pool";
      alt_witharg ["-N"; "--namespace"] "namespace";
      alt_witharg ["-O"; "--out"] "out";
      alt_flag ["-h"; "--help"] set_show_usage;
      alt_witharg ["-o"; "--object"] "cfg_obj";
      alt_witharg ["-c"; "--cluster"] "clustername";
      alt_witharg ["-u"; "--rados_user"] "rados_user";
      alt_flag ["-D"; "--debug"] (set_opt "debug" "true");
      alt_witharg ["-r"; "--remove"] "remove_save_log";
      alt_witharg ["ls"; "--ls"] "ls";
      alt_witharg ["get"; "--get"] "get";
      alt_witharg ["set"; "--set"] "set";
      alt_witharg ["sort"; "--sort"] "sort";
      alt_flag ["cfg"; "--config"] set_is_config;
      alt_witharg ["update"; "--update"] "update";
      alt_flag ["create"; "--create"] set_create_config;
      alt_flag ["show"; "--show"] (set_opt "print_cfg" "true");
      alt_flag ["-yes-i-really-really-mean-it"; "--yes-i-really-really-mean-it"] set_update_confirmed;
      alt_witharg ["delete"; "--delete"] "to_delete";
      alt_witharg ["rename"; "--rename"] "to_rename" ].
Definition try_alternative (alt : alternative) (arg : string) : option choice :=
    match alt with
    | alt_version names => if ceph_argparse_flag names arg then Some ch_version else None
    | alt_flag names f => if ceph_argparse_flag names arg then Some (ch_flag f) else None
    | alt_witharg names key =>
        match ceph_argparse_witharg names arg with
        | None => None
        | Some (Some value) => Some (ch_value key value)
        | Some None => Some (ch_next key)
        end
    end.
Fixpoint choose (alts : list alternative) (arg : string) : option choice :=
    match alts with
    | [] => None
    | alt :: alts => match try_alternative alt arg with Some c => Some c | None => choose alts arg end
    end.

(** An argument that is none of them: the pair at [idx], which goes two further. *)
Definition read_pair (args : list string) (idx : nat) (c : cmd_line) : nat * cmd_line :=
    match args !! idx, args !! S idx with
    | Some m_idx, Some value => (idx + 2, set_metadata (<[m_idx := value]> (cm_metadata c)) c)%nat
    | _, _ => (idx + 1, c)%nat
    end.

(** [before] are the arguments that were passed over; what is matched is erased. *)
Fixpoint parse_args (before rest : list string) (idx : nat) (c : cmd_line) : parsed :=
    match rest with
    | [] => parse_done before c
    | arg :: rest' =>
        if decide (arg = "--") then parse_done (before ++ rest') c else
        match choose alternatives arg with
        | Some ch_version => parse_exit 0
        | Some (ch_flag f) => parse_args before rest' idx (f c)
        | Some (ch_value key value) => parse_args before rest' idx (set_opt key value c)
        | Some (ch_next key) =>
            match rest' with
            | [] => parse_exit 1
            | value :: rest' => parse_args before rest' idx (set_opt key value c)
            end
        | None =>
            let '(idx, c) := read_pair (before ++ rest) idx c in parse_args (before ++ [arg]) rest' idx c
        end
    end.
Definition parse_cmd_line_args (args : list string) : parsed := parse_args [] args 0 initial.
End CommandLine.

(** ** Command lines *)

Module Lines.
Import CommandLine.

(** The options with a value by their names, and the flags. *)
Definition names_of (alt : alternative) : list (string * string) :=
    match alt with alt_witharg names key => (λ n, (n, key)) <$> names | _ => [] end.
Definition valued : list (string * string) := concat (names_of <$> alternatives).
Definition flags_of (alt : alternative) : list (string * (cmd_line → cmd_line)) :=
    match alt with alt_flag names f => (λ n, (n, f)) <$> names | _ => [] end.
Definition flags : list (string * (cmd_line → cmd_line)) := concat (flags_of <$> alternatives).

(** What a user writes before the words: [name value], [name=value], or a flag. *)
Inductive item :=
| it_next (name key value : string)
| it_equals (name key value : string)
| it_flag (name : string) (f : cmd_line → cmd_line).
Definition known (i : item) : Prop :=
    match i with
    | it_next name key _ | it_equals name key _ => (name, key) ∈ valued
    | it_flag name f => (name, f) ∈ flags
    end.
Definition arguments (i : item) : list string :=
    match i with
    | it_next name _ value => [name; value]
    | it_equals name _ value => [name +:+ "=" +:+ value]
    | it_flag name _ => [name]
    end.
Definition effect (i : item) (c : cmd_line) : cmd_line :=
    match i with it_next _ key value | it_equals _ key value => set_opt key value c | it_flag _ f => f c end.
(** A word is no option. *)
Definition word (w : string) : Prop := w ≠ "--" ∧ choose alternatives w = None.
(** The attributes: the words in pairs. *)
Fixpoint pairs (words : list string) (m : gmap string string) : gmap string string :=
    match words with k :: v :: words => pairs words (<[k := v]> m) | _ => m end.

Lemma valued_choose : Forall (λ '(name, key), name ≠ "--" ∧ choose alternatives name = Some (ch_next key) ∧
    ∀ value, name +:+ "=" +:+ value ≠ "--" ∧ choose alternatives (name +:+ "=" +:+ value) = Some (ch_value key value)) valued.
Proof.
    let l := eval vm_compute in valued in change valued with l.
    repeat (apply list.Forall_cons; split;
      [split; [discriminate|split; [vm_compute; reflexivity|intros value; split; [discriminate|vm_compute; reflexivity]]]|]).
    constructor.
Qed.
Lemma flags_choose : Forall (λ '(name, f), name ≠ "--" ∧ choose alternatives name = Some (ch_flag f)) flags.
Proof.
    unfold flags, alternatives. cbn [fmap list_fmap concat flags_of app].
    repeat (apply list.Forall_cons; split; [split; [discriminate|vm_compute; reflexivity]|]). constructor.
Qed.

Lemma parse_item i before rest idx c : known i →
    parse_args before (arguments i ++ rest) idx c = parse_args before rest idx (effect i c).
Proof.
    destruct i as [name key value|name key value|name f]; intros Hi.
    all: first [apply (list.Forall_forall _ valued) with (1 := valued_choose) in Hi
               |apply (list.Forall_forall _ flags) with (1 := flags_choose) in Hi].
    - destruct Hi as (Hd & Hc & _). cbn [arguments app parse_args effect]. by rewrite decide_False, Hc.
    - destruct Hi as (_ & _ & Hv). destruct (Hv value) as [Hd Hc].
      cbn [arguments app parse_args effect]. by rewrite decide_False, Hc.
    - destruct Hi as [Hd Hc]. cbn [arguments app parse_args effect]. by rewrite decide_False, Hc.
Qed.
Lemma effect_metadata i c : known i → cm_metadata (effect i c) = cm_metadata c.
Proof.
    destruct i as [name key value|name key value|name f]; intros Hi; [done..|].
    assert (Forall (λ p, ∀ c, cm_metadata (p.2 c) = cm_metadata c) flags) as Hf.
    { unfold flags, alternatives. cbn [fmap list_fmap concat flags_of app].
      repeat (apply list.Forall_cons; split; [done|]). constructor. }
    by apply (proj1 (list.Forall_forall _ _) Hf (name, f)).
Qed.
Lemma effects_metadata items c : Forall known items →
    cm_metadata (foldl (λ c i, effect i c) c items) = cm_metadata c.
Proof.
    intros Hk. revert c. induction Hk as [|i items Hi _ IH]; intros c; [done|]. cbn [foldl].
    by rewrite IH, effect_metadata.
Qed.
Lemma parse_items items before rest idx c : Forall known items →
    parse_args before (concat (arguments <$> items) ++ rest) idx c =
    parse_args before rest idx (foldl (λ c i, effect i c) c items).
Proof.
    intros Hk. revert c. induction Hk as [|i items Hi _ IH]; intros c; [done|].
    cbn [fmap list_fmap concat foldl]. by rewrite <- app_assoc, parse_item, IH.
Qed.

(** The pairs that are read for [n] words. *)
Fixpoint read_pairs (n : nat) (args : list string) (idx : nat) (c : cmd_line) : cmd_line :=
    match n with O => c | S n => let '(idx, c) := read_pair args idx c in read_pairs n args idx c end.
Lemma parse_words before rest idx c : Forall word rest →
    parse_args before rest idx c = parse_done (before ++ rest) (read_pairs (length rest) (before ++ rest) idx c).
Proof.
    intros Hw. revert before idx c. induction Hw as [|w rest [Hd Hc] _ IH]; intros before idx c.
    - by rewrite app_nil_r.
    - cbn [parse_args length read_pairs]. rewrite decide_False, Hc by done.
      destruct (read_pair _ idx c) as [idx' c']. rewrite IH. by rewrite <- app_assoc.
Qed.
Lemma set_metadata_same c : set_metadata (cm_metadata c) c = c.
Proof. by destruct c. Qed.
Lemma read_pairs_spec n args idx c :
    (length args <= idx + 2 * n)%nat →
    read_pairs n args idx c = set_metadata (pairs (drop idx args) (cm_metadata c)) c.
Proof.
    revert idx c. induction n as [|n IH]; intros idx c Hn; cbn [read_pairs].
    - rewrite drop_ge by lia. symmetry. apply set_metadata_same.
    - unfold read_pair. destruct (args !! idx) as [k|] eqn:Hk.
      + destruct (args !! S idx) as [v|] eqn:Hv.
        * rewrite IH by lia. rewrite (drop_S _ _ _ Hk), (drop_S _ _ _ Hv). cbn [pairs].
          by replace (idx + 2)%nat with (S (S idx)) by lia.
        * apply lookup_ge_None in Hv as Hl. rewrite IH by lia. rewrite (drop_S _ _ _ Hk), !drop_ge by lia. done.
      + apply lookup_ge_None in Hk as Hl. rewrite IH by lia. by rewrite !drop_ge by lia.
Qed.
End Lines.

(** ** Properties *)

(** C34. A command line is read as it was meant when its options come before its words: every
    option, in whichever of its spellings and with any value, also one that looks like an
    option, sets what it stands for, the last one wins, and the words are the attributes in
    pairs; no argument ends the program. *)
Theorem command_line_is_read items words :
  Forall Lines.known items → Forall Lines.word words →
  CommandLine.parse_cmd_line_args (concat (Lines.arguments <$> items) ++ words) =
  parse_done words (CommandLine.set_metadata (Lines.pairs words ∅)
    (foldl (λ c i, Lines.effect i c) CommandLine.initial items)).
Proof.
  intros Hk Hw. unfold CommandLine.parse_cmd_line_args. rewrite Lines.parse_items by done.
  rewrite Lines.parse_words by done. cbn [app]. rewrite Lines.read_pairs_spec by lia. rewrite drop_0.
  by rewrite Lines.effects_metadata.
Qed.
Definition set_line : list Lines.item :=
  [Lines.it_flag "--yes-i-really-really-mean-it" CommandLine.set_update_confirmed; Lines.it_next "-N" "namespace" "u1";
   Lines.it_equals "--pool" "pool" "a=b"; Lines.it_next "set" "set" "ls"].
Definition set_words : list string := ["U"; "1"; "B"; "INBOX"].
Lemma set_words_words : Forall Lines.word set_words.
Proof. repeat (constructor; [split; [discriminate|vm_compute; reflexivity]|]). constructor. Qed.
Lemma command_line_is_read_witness :
  CommandLine.parse_cmd_line_args
    ["--yes-i-really-really-mean-it"; "-N"; "u1"; "--pool=a=b"; "set"; "ls"; "U"; "1"; "B"; "INBOX"] =
  parse_done set_words (mk_cmd_line (<["set" := "ls"]> (<["pool" := "a=b"]> {["namespace" := "u1"]})) false
    (<["B" := "INBOX"]> {["U" := "1"]}) false false true).
Proof.
  apply (command_line_is_read set_line set_words); [|exact set_words_words].
  repeat (apply list.Forall_cons; split; [cbn; set_solver|]). constructor.
Defined.

(** Options may follow at most one pair of words: the pairs are read twice as fast as the
    arguments are passed over, and the option after the first pair is an attribute too. *)
Lemma option_after_words_is_attribute :
  CommandLine.parse_cmd_line_args ["set"; "o1"; "U"; "1"; "-N"; "u1"] =
  parse_done ["U"; "1"] (mk_cmd_line (<["namespace" := "u1"]> {["set" := "o1"]}) false
    (<["-N" := "u1"]> {["U" := "1"]}) false false false).
Proof. vm_compute. reflexivity. Qed.
