(* ===== verification/RadosTypes.v ===== *)
(** librmb's data: the metadata keys of [rados-types.h], one metadata
    attribute ([RadosMetadata], rados-metadata.h) and the in-memory mail
    object ([RadosMail], rados-mail.h and rados-mail.cpp). *)
From S2P Require Export CxxString.
From Stdlib Require Import Ascii.

(** ** rados-types.h *)

Inductive rbox_metadata_key :=
| RBOX_METADATA_MAILBOX_GUID
| RBOX_METADATA_GUID
| RBOX_METADATA_POP3_UIDL
| RBOX_METADATA_POP3_ORDER
| RBOX_METADATA_RECEIVED_TIME
| RBOX_METADATA_PHYSICAL_SIZE
| RBOX_METADATA_VIRTUAL_SIZE
| RBOX_METADATA_EXT_REF
| RBOX_METADATA_ORIG_MAILBOX
| RBOX_METADATA_MAIL_UID
| RBOX_METADATA_VERSION
| RBOX_METADATA_FROM_ENVELOPE
| RBOX_METADATA_PVT_FLAGS
| RBOX_METADATA_OLDV1_EXPUNGED
| RBOX_METADATA_OLDV1_FLAGS
| RBOX_METADATA_OLDV1_KEYWORDS
| RBOX_METADATA_OLDV1_SAVE_TIME
| RBOX_METADATA_OLDV1_SPACE.

#[export] Instance rbox_metadata_key_eq_dec : EqDecision rbox_metadata_key.
Proof. solve_decision. Defined.

(** The numeric value of the enumerator. *)
Definition key_char (k : rbox_metadata_key) : ascii :=
  match k with
  | RBOX_METADATA_MAILBOX_GUID => "M"
  | RBOX_METADATA_GUID => "G"
  | RBOX_METADATA_POP3_UIDL => "P"
  | RBOX_METADATA_POP3_ORDER => "O"
  | RBOX_METADATA_RECEIVED_TIME => "R"
  | RBOX_METADATA_PHYSICAL_SIZE => "Z"
  | RBOX_METADATA_VIRTUAL_SIZE => "V"
  | RBOX_METADATA_EXT_REF => "X"
  | RBOX_METADATA_ORIG_MAILBOX => "B"
  | RBOX_METADATA_MAIL_UID => "U"
  | RBOX_METADATA_VERSION => "I"
  | RBOX_METADATA_FROM_ENVELOPE => "A"
  | RBOX_METADATA_PVT_FLAGS => "C"
  | RBOX_METADATA_OLDV1_EXPUNGED => "E"
  | RBOX_METADATA_OLDV1_FLAGS => "F"
  | RBOX_METADATA_OLDV1_KEYWORDS => "K"
  | RBOX_METADATA_OLDV1_SAVE_TIME => "S"
  | RBOX_METADATA_OLDV1_SPACE => " "
  end.

Definition rbox_metadata_key_to_char (type : rbox_metadata_key) : string :=
  match type with
  | RBOX_METADATA_MAILBOX_GUID => "M"
  | RBOX_METADATA_GUID => "G"
  | RBOX_METADATA_POP3_UIDL => "P"
  | RBOX_METADATA_POP3_ORDER => "O"
  | RBOX_METADATA_RECEIVED_TIME => "R"
  | RBOX_METADATA_PHYSICAL_SIZE => "Z"
  | RBOX_METADATA_VIRTUAL_SIZE => "V"
  | RBOX_METADATA_EXT_REF => "X"
  | RBOX_METADATA_ORIG_MAILBOX => "B"
  | RBOX_METADATA_MAIL_UID => "U"
  | RBOX_METADATA_VERSION => "I"
  | RBOX_METADATA_FROM_ENVELOPE => "A"
  | RBOX_METADATA_PVT_FLAGS => "C"
  | RBOX_METADATA_OLDV1_EXPUNGED => "E"
  | RBOX_METADATA_OLDV1_FLAGS => "F"
  | RBOX_METADATA_OLDV1_KEYWORDS => "K"
  | RBOX_METADATA_OLDV1_SAVE_TIME => "S"
  | RBOX_METADATA_OLDV1_SPACE => " "
  end.

Definition all_keys : list rbox_metadata_key :=
  [RBOX_METADATA_MAILBOX_GUID; RBOX_METADATA_GUID; RBOX_METADATA_POP3_UIDL;
   RBOX_METADATA_POP3_ORDER; RBOX_METADATA_RECEIVED_TIME; RBOX_METADATA_PHYSICAL_SIZE;
   RBOX_METADATA_VIRTUAL_SIZE; RBOX_METADATA_EXT_REF; RBOX_METADATA_ORIG_MAILBOX;
   RBOX_METADATA_MAIL_UID; RBOX_METADATA_VERSION; RBOX_METADATA_FROM_ENVELOPE;
   RBOX_METADATA_PVT_FLAGS; RBOX_METADATA_OLDV1_EXPUNGED; RBOX_METADATA_OLDV1_FLAGS;
   RBOX_METADATA_OLDV1_KEYWORDS; RBOX_METADATA_OLDV1_SAVE_TIME; RBOX_METADATA_OLDV1_SPACE].

(** [static_cast<rbox_metadata_key>(c)]; [None] is a value that is no enumerator. *)
Definition key_of_char (c : ascii) : option rbox_metadata_key :=
  List.find (λ k, char_is (key_char k) c) all_keys.

(** [rbox_metadata_key_to_char] of a cast value, its [default:] case included. *)
Definition cast_key_to_char (k : option rbox_metadata_key) : string :=
  match k with Some k => rbox_metadata_key_to_char k | None => "" end.

Lemma key_to_char_char k : rbox_metadata_key_to_char k = String (key_char k) "".
Proof. by destruct k. Qed.
Lemma key_of_char_char k : key_of_char (key_char k) = Some k.
Proof. by destruct k. Qed.
#[export] Instance key_char_inj : Inj (=) (=) key_char.
Proof. intros k k' H. apply (f_equal key_of_char) in H. rewrite !key_of_char_char in H. congruence. Qed.
#[export] Instance key_to_char_inj : Inj (=) (=) rbox_metadata_key_to_char.
Proof. intros k k'. rewrite !key_to_char_char. intros H. apply key_char_inj. congruence. Qed.

(** ** rados-metadata.h *)

Abbreviation bufferlist := string (only parsing).

Record RadosMetadata := mk_metadata { md_key : string; md_bl : bufferlist }.

Module Metadata.
(** [convert(key, const std::string&)]: the characters and a terminating NUL. *)
Definition convert_string (k : rbox_metadata_key) (val : string) : RadosMetadata :=
    mk_metadata (rbox_metadata_key_to_char k) (val +:+ nul_string).
(** [convert(key, char* )]: the C string and its NUL. *)
Definition convert_cstr (k : rbox_metadata_key) (val : string) : RadosMetadata :=
    mk_metadata (rbox_metadata_key_to_char k) (c_str val +:+ nul_string).
(** [convert(key, const time_t&)]. *)
Definition convert_time (k : rbox_metadata_key) (t : Z) : RadosMetadata :=
    mk_metadata (rbox_metadata_key_to_char k) (to_string t +:+ nul_string).
(** [convert(key, const uint&)]. *)
Definition convert_uint (k : rbox_metadata_key) (v : Z) : RadosMetadata :=
    mk_metadata (rbox_metadata_key_to_char k) (to_string (uint32 v) +:+ nul_string).
(** [convert(key, const size_t&)]: the value is narrowed to [int]. *)
Definition convert_size (k : rbox_metadata_key) (v : Z) : RadosMetadata :=
    mk_metadata (rbox_metadata_key_to_char k) (to_string (int32 v) +:+ nul_string).
(** [convert(key, const int)]. *)
Definition convert_int (k : rbox_metadata_key) (v : Z) : RadosMetadata :=
    mk_metadata (rbox_metadata_key_to_char k) (to_string (int32 v) +:+ nul_string).
(** [RadosMetadata(std::string& key, std::string& value)]. *)
Definition of_pair (key value : string) : RadosMetadata :=
    mk_metadata key (value +:+ nul_string).

(** [to_string]: [substr(0, length - 1)] drops the last byte. *)
Definition to_string (m : RadosMetadata) : string :=
    md_key m +:+ "=" +:+ substr 0 (slen (md_bl m) - 1) (md_bl m).

(** [from_string] into a fresh object. *)
Definition from_string (str : string) : option RadosMetadata :=
    match getline_split "=" str with
    | [k; v] => Some (mk_metadata k v)
    | _ => None
    end.

(** The value a reader sees in an attribute. *)
Definition value (m : RadosMetadata) : string := c_str (md_bl m).

Lemma to_string_of_value k v :
    to_string (mk_metadata k (v +:+ nul_string)) = k +:+ "=" +:+ v.
Proof.
    unfold to_string, substr. cbn [md_key md_bl]. rewrite str_drop_0, slen_app. cbn [nul_string slen].
    replace (slen v + 1 - 1)%nat with (slen v) by lia. by rewrite str_take_app.
Qed.

Lemma value_of k v : free_of NUL v = true → value (mk_metadata k (v +:+ nul_string)) = v.
Proof. intros. by apply c_str_app_nul. Qed.
End Metadata.

(** ** rados-mail.h / rados-mail.cpp *)

Record RadosMail := mk_mail {
  rm_oid : string;
  rm_object_size : Z;
  rm_completion : bool;          (** a non-null [AioCompletion*] *)
  rm_write_operation : bool;     (** a non-null [ObjectWriteOperation*] *)
  rm_active_op : Z;
  rm_mail_buffer : option bufferlist;
  rm_save_date_rados : Z;
  rm_attrset : gmap string bufferlist;
  rm_extended_attrset : gmap string bufferlist;
  rm_valid : bool;
  rm_index_ref : bool;
  rm_deprecated_uid : bool;
  rm_restored : bool;
  rm_lost_object : bool;
}.

Module Mail.
(** The constructor. *)
Definition new : RadosMail :=
    mk_mail "" (-1) false false 0 None (-1) ∅ ∅ true false false false false.

Definition set_oid (o : string) (m : RadosMail) : RadosMail :=
    let 'mk_mail _ sz c w a b sd at_ ex v i d r l := m in mk_mail o sz c w a b sd at_ ex v i d r l.
Definition set_mail_size (sz : Z) (m : RadosMail) : RadosMail :=
    let 'mk_mail o _ c w a b sd at_ ex v i d r l := m in
    mk_mail o (int32 sz) c w a b sd at_ ex v i d r l.
Definition set_completion (c : bool) (m : RadosMail) : RadosMail :=
    let 'mk_mail o sz _ w a b sd at_ ex v i d r l := m in mk_mail o sz c w a b sd at_ ex v i d r l.
Definition set_write_operation (w : bool) (m : RadosMail) : RadosMail :=
    let 'mk_mail o sz c _ a b sd at_ ex v i d r l := m in mk_mail o sz c w a b sd at_ ex v i d r l.
Definition set_active_op (a : Z) (m : RadosMail) : RadosMail :=
    let 'mk_mail o sz c w _ b sd at_ ex v i d r l := m in mk_mail o sz c w a b sd at_ ex v i d r l.
Definition set_mail_buffer (b : option bufferlist) (m : RadosMail) : RadosMail :=
    let 'mk_mail o sz c w a _ sd at_ ex v i d r l := m in mk_mail o sz c w a b sd at_ ex v i d r l.
Definition set_rados_save_date (sd : Z) (m : RadosMail) : RadosMail :=
    let 'mk_mail o sz c w a b _ at_ ex v i d r l := m in mk_mail o sz c w a b sd at_ ex v i d r l.
Definition set_metadata (at_ : gmap string bufferlist) (m : RadosMail) : RadosMail :=
    let 'mk_mail o sz c w a b sd _ ex v i d r l := m in mk_mail o sz c w a b sd at_ ex v i d r l.
Definition set_extended_metadata (ex : gmap string bufferlist) (m : RadosMail) : RadosMail :=
    let 'mk_mail o sz c w a b sd at_ _ v i d r l := m in mk_mail o sz c w a b sd at_ ex v i d r l.
Definition set_valid (v : bool) (m : RadosMail) : RadosMail :=
    let 'mk_mail o sz c w a b sd at_ ex _ i d r l := m in mk_mail o sz c w a b sd at_ ex v i d r l.
Definition set_index_ref (i : bool) (m : RadosMail) : RadosMail :=
    let 'mk_mail o sz c w a b sd at_ ex v _ d r l := m in mk_mail o sz c w a b sd at_ ex v i d r l.
Definition set_deprecated_uid (d : bool) (m : RadosMail) : RadosMail :=
    let 'mk_mail o sz c w a b sd at_ ex v i _ r l := m in mk_mail o sz c w a b sd at_ ex v i d r l.
Definition set_restored (r : bool) (m : RadosMail) : RadosMail :=
    let 'mk_mail o sz c w a b sd at_ ex v i d _ l := m in mk_mail o sz c w a b sd at_ ex v i d r l.
Definition set_lost_object (l : bool) (m : RadosMail) : RadosMail :=
    let 'mk_mail o sz c w a b sd at_ ex v i d r _ := m in mk_mail o sz c w a b sd at_ ex v i d r l.

Definition add_metadata (x : RadosMetadata) (m : RadosMail) : RadosMail :=
    set_metadata (<[md_key x := md_bl x]> (rm_attrset m)) m.
Definition add_extended_metadata (x : RadosMetadata) (m : RadosMail) : RadosMail :=
    set_extended_metadata (<[md_key x := md_bl x]> (rm_extended_attrset m)) m.

Definition has_active_op (m : RadosMail) : bool := bool_decide (0 < rm_active_op m).
End Mail.

(** ** Properties *)

(** The text form of an attribute ([to_string], as written to the save log)
    parses back with [from_string] to the same key and the same value, without
    the terminating NUL, exactly when key and value contain no ['='] and the
    value is not empty: an attribute with an empty value is not readable again. *)
Theorem metadata_text_roundtrip k v :
  free_of "=" k = true → free_of "=" v = true →
  Metadata.from_string (Metadata.to_string (Metadata.of_pair k v)) =
    if decide (v = "") then None else Some (mk_metadata k v).
Proof.
  intros Hk Hv. unfold Metadata.of_pair, Metadata.from_string.
  rewrite Metadata.to_string_of_value. cbn [String.append].
  rewrite getline_split_tok by done. case_decide as E; [by subst|].
  by rewrite getline_split_last.
Qed.

Lemma metadata_text_roundtrip_witness :
  Metadata.from_string (Metadata.to_string (Metadata.of_pair "B" "INBOX")) =
    Some (mk_metadata "B" "INBOX") ∧
  Metadata.from_string (Metadata.to_string (Metadata.of_pair "B" "")) = None.
Proof.
  split; [apply (metadata_text_roundtrip "B" "INBOX") | apply (metadata_text_roundtrip "B" "")];
    reflexivity.
Defined.

(** A size stored with [convert(key, size_t)] goes through [int]: reading the
    attribute with [std::stol] gives the size back if and only if it is below
    2^31; a larger size below 2^63 reads back as a different number. *)
Theorem metadata_size_roundtrip k n :
  0 <= n < 2 ^ 63 →
  stol (Metadata.value (Metadata.convert_size k n)) = ParseOk (int32 n) ∧
  (int32 n = n ↔ n < 2 ^ 31).
Proof.
  intros Hn. pose proof (wrap_s_range 32 n ltac:(lia)) as Hr. cbn in Hr.
  split.
  - unfold Metadata.convert_size. rewrite Metadata.value_of.
    + apply stoX_to_string. lia.
    + apply free_of_NUL_to_string.
  - split; [lia|]. intros. apply wrap_s_small; cbn; lia.
Qed.

Lemma metadata_size_roundtrip_witness :
  stol (Metadata.value (Metadata.convert_size RBOX_METADATA_PHYSICAL_SIZE 2147483648)) =
    ParseOk (-2147483648).
Proof. apply (metadata_size_roundtrip RBOX_METADATA_PHYSICAL_SIZE 2147483648). lia. Defined.
