(* ===== verification/RadosUtil.v ===== *)
(** The pure helpers of [RadosUtils] (rados-util.cpp): numeric checks, flag
    encoding, string replacement, metadata access and validation, the parsing
    of the placement-group listing and the ceph index object's text format.
    The helpers that talk to RADOS are in [Metadata] and [AltStorage]. *)
From S2P Require Export RadosTypes.
From Stdlib Require Import Ascii.

Abbreviation attrs := (gmap string bufferlist).

(** ** Numeric checks; a [char*] is [None] when it is NULL *)

Definition is_numeric (s : option string) : bool :=
  match s with None => false | Some s => all_chars isdigit (c_str s) end.

Definition is_numeric_optional (text : option string) : bool :=
  match text with None => true | Some s => is_numeric (Some s) end.

Definition is_date_attribute (key : rbox_metadata_key) : bool :=
  bool_decide (key = RBOX_METADATA_OLDV1_SAVE_TIME) || bool_decide (key = RBOX_METADATA_RECEIVED_TIME).

(** ** Flags *)

(** [sstream << std::hex << flags_; sstream >> *flags_str]: a [uint8_t] is
    written as one character, and extraction skips white space; the string
    passed in is unchanged when nothing is left to extract. *)
Definition flags_to_string (flags : Z) (flags_str : string) : bool * string :=
  let c := char_of (uint8 flags) in
  (true, if isspace c then flags_str else String c "").

(** [in >> std::hex >> *flags] reads the first character that is not white space. *)
Definition string_to_flags (flags_ : string) : option Z :=
  match skip_space flags_ with
  | "" => None
  | String c _ => Some (char_code c)
  end.

Definition resolve_flags (flags : Z) : string :=
  (if decide (Z.land flags 1 = 0) then "" else "\Answered ") +:+
  (if decide (Z.land flags 2 = 0) then "" else "\Flagged ") +:+
  (if decide (Z.land flags 4 = 0) then "" else "\Deleted ") +:+
  (if decide (Z.land flags 8 = 0) then "" else "\Seen ") +:+
  (if decide (Z.land flags 16 = 0) then "" else "\Draft ") +:+
  (if decide (Z.land flags 32 = 0) then "" else "\Recent ").

(** ** find_and_replace *)

(** The [for] loop; [None] when [fuel] iterations were not enough. *)
Fixpoint find_and_replace_loop (fuel : nat) (source find replace : string) (i : nat) : option string :=
  match fuel with
  | O => None
  | S fuel =>
      match str_find_from find source i with
      | None => Some source
      | Some j =>
          let source := str_take j source +:+ replace +:+ str_drop (j + slen find) source in
          find_and_replace_loop fuel source find replace (j + slen replace)
      end
  end.

Definition find_and_replace (source find replace : string) : option string :=
  find_and_replace_loop (S (slen source)) source find replace 0.

(** ** Metadata access *)

Definition get_metadata (key : string) (metadata : attrs) : option string :=
  c_str <$> metadata !! key.

Definition get_metadata_key (key : rbox_metadata_key) (metadata : attrs) : option string :=
  get_metadata (rbox_metadata_key_to_char key) metadata.

Definition validate_metadata (metadata : attrs) : bool :=
  let uid := get_metadata_key RBOX_METADATA_MAIL_UID metadata in
  let recv_time_str := get_metadata_key RBOX_METADATA_RECEIVED_TIME metadata in
  let p_size := get_metadata_key RBOX_METADATA_PHYSICAL_SIZE metadata in
  let v_size := get_metadata_key RBOX_METADATA_VIRTUAL_SIZE metadata in
  let mailbox_guid := get_metadata_key RBOX_METADATA_MAILBOX_GUID metadata in
  let mail_guid := get_metadata_key RBOX_METADATA_GUID metadata in
  let flags := get_metadata_key RBOX_METADATA_OLDV1_FLAGS metadata in
  let pvt_flags := get_metadata_key RBOX_METADATA_PVT_FLAGS metadata in
  let test :=
    (if is_numeric uid then 0 else 1) + (if is_numeric recv_time_str then 0 else 1) +
    (if is_numeric p_size then 0 else 1) + (if is_numeric v_size then 0 else 1) +
    (if is_numeric_optional flags then 0 else 1) + (if is_numeric_optional pvt_flags then 0 else 1) +
    (if decide (mailbox_guid = None) then 1 else 0) + (if decide (mail_guid = None) then 1 else 0)
  in bool_decide (test = 0).

(** ** Placement-group listings *)

Definition split (str_to_split : string) (delimiter : ascii) : list string :=
  List.filter (λ t, negb (bool_decide (t = ""))) (erase_if isspace <$> getline_split delimiter str_to_split).

(** [tokens.erase(begin())] and [pop_back()] are undefined on an empty vector: [None]. *)
Definition extractPgs (str : string) : option (list string) :=
  let tokens := (λ token, erase_if isspace (substr 0 10 token)) <$> getline_split "010" str in
  match tokens with
  | [] => None
  | _ :: [] => None
  | _ :: tokens => Some (removelast tokens)
  end.

(** The primary osd and the placement group of one line; the outer [None] is a
    skipped line, the inner one an out-of-range access. *)
Definition pg_line (token : string) : option (option (string * string)) :=
  let line := split token " " in
  if decide (length line < 14)%nat then None
  else Some (match line !! 13%nat ≫= λ acting, split acting "," !! 0%nat, line !! 0%nat with
             | Some tmp_primary_osd, Some pgs => Some (str_drop 1 tmp_primary_osd, pgs)
             | _, _ => None
             end).

Definition add_pg (osd pg : string) (tokens : gmap string (list string)) : gmap string (list string) :=
  match tokens !! osd with
  | Some l => <[osd := l ++ [pg]]> tokens
  | None => <[osd := [pg]]> tokens
  end.

Fixpoint extract_lines (lines : list string) (tokens : gmap string (list string)) :
    option (gmap string (list string)) :=
  match lines with
  | [] => Some tokens
  | token :: lines =>
      match pg_line token with
      | None => extract_lines lines tokens
      | Some None => None
      | Some (Some (osd, pg)) => extract_lines lines (add_pg osd pg tokens)
      end
  end.

Definition extractPgAndPrimaryOsd (str : string) : option (gmap string (list string)) :=
  extract_lines (tail (getline_split "010" str)) ∅.

(** ** The ceph index object *)

(** [std::copy] of the set to an [ostream_iterator] with separator [","]. *)
Definition convert_to_ceph_index (l : gset string) : string := join_term "," (set_items l).
Definition convert_to_ceph_index1 (str : string) : string := str +:+ ",".
Definition ceph_index_to_set (str : string) : gset string :=
  list_to_set (List.filter (λ t, negb (bool_decide (t = ""))) (getline_split "," str)).

(** ** Lemmas *)

Lemma is_numeric_spec s : is_numeric s = true ↔ ∃ t, s = Some t ∧ all_chars isdigit (c_str t) = true.
Proof. destruct s as [s|]; cbn; naive_solver. Qed.

Lemma is_numeric_to_string z : is_numeric (Some (to_string z)) = bool_decide (0 <= z).
Proof. cbn. rewrite c_str_id by apply free_of_NUL_to_string. apply to_string_digits. Qed.

Lemma validate_metadata_spec m :
  validate_metadata m = true ↔
    is_numeric (get_metadata_key RBOX_METADATA_MAIL_UID m) = true ∧
    is_numeric (get_metadata_key RBOX_METADATA_RECEIVED_TIME m) = true ∧
    is_numeric (get_metadata_key RBOX_METADATA_PHYSICAL_SIZE m) = true ∧
    is_numeric (get_metadata_key RBOX_METADATA_VIRTUAL_SIZE m) = true ∧
    is_numeric_optional (get_metadata_key RBOX_METADATA_OLDV1_FLAGS m) = true ∧
    is_numeric_optional (get_metadata_key RBOX_METADATA_PVT_FLAGS m) = true ∧
    is_Some (get_metadata_key RBOX_METADATA_MAILBOX_GUID m) ∧
    is_Some (get_metadata_key RBOX_METADATA_GUID m).
Proof.
  rewrite <- !not_eq_None_Some. unfold validate_metadata. rewrite bool_decide_eq_true.
  repeat case_match; try (case_decide); try lia; naive_solver.
Qed.

Lemma skip_space_char c : isspace c = false → skip_space (String c "") = String c "".
Proof. intros H. cbn. by rewrite H. Qed.

Lemma is_numeric_char c : c ≠ NUL → is_numeric (Some (String c "")) = isdigit c.
Proof.
  intros H. cbn. rewrite (proj2 (char_is_false c NUL) H). cbn. by rewrite andb_true_r.
Qed.

(** The leftmost, non-overlapping replacement; [skip] counts the characters of
    the last occurrence still to be dropped. *)
Fixpoint replace_all (find replace : string) (skip : nat) (s : string) : string :=
  match s with
  | "" => ""
  | String c s' =>
      match skip with
      | S skip => replace_all find replace skip s'
      | O => if String.prefix find s then replace +:+ replace_all find replace (slen find - 1) s'
             else String c (replace_all find replace 0 s')
      end
  end.

Lemma replace_all_skip f r n s : replace_all f r n s = replace_all f r 0 (str_drop n s).
Proof.
  revert s. induction n as [|n IH]; intros [|c s]; try done. apply IH.
Qed.

(** A string without occurrence is unchanged; the part before the first one is kept. *)
Lemma replace_all_none f r s : str_find f s = None → replace_all f r 0 s = s.
Proof.
  induction s as [|c s IH]; [done|]. rewrite str_find_unfold. cbn [replace_all].
  destruct (String.prefix f _); [done|]. intros H. apply fmap_None in H. by rewrite IH.
Qed.
Lemma replace_all_found f r s j :
  f ≠ "" → str_find f s = Some j →
  replace_all f r 0 s = str_take j s +:+ r +:+ replace_all f r 0 (str_drop (j + slen f) s).
Proof.
  intros Hf. revert j. induction s as [|c s IH]; intros j; rewrite str_find_unfold.
  - by destruct f.
  - cbn [replace_all]. destruct (String.prefix f _); intros H.
    + simplify_eq. cbn. rewrite replace_all_skip. destruct f as [|d f]; [done|].
      cbn. by rewrite Nat.sub_0_r.
    + apply fmap_Some in H as (k & Hk & ->). cbn. by rewrite (IH k Hk).
Qed.

Lemma find_and_replace_loop_spec f r fuel p s :
  f ≠ "" → (slen s < fuel)%nat →
  find_and_replace_loop fuel (p +:+ s) f r (slen p) = Some (p +:+ replace_all f r 0 s).
Proof.
  intros Hf. revert p s. induction fuel as [|fuel IH]; intros p s Hs; [lia|].
  cbn [find_and_replace_loop]. unfold str_find_from.
  rewrite slen_app, (proj2 (Nat.leb_le _ _)), str_drop_app by lia.
  destruct (str_find f s) as [j|] eqn:E; cbn [fmap option_fmap option_map].
  - destruct (str_find_Some _ _ _ E) as [_ Hj].
    assert (0 < slen f)%nat by (destruct f; cbn; [done|lia]).
    rewrite (replace_all_found f r s j Hf E).
    replace (str_take (slen p + j) (p +:+ s)) with (p +:+ str_take j s).
    2: { clear. induction p as [|c p IHp]; [by destruct j|]. cbn. by rewrite IHp. }
    replace (str_drop (slen p + j + slen f) (p +:+ s)) with (str_drop (j + slen f) s).
    2: { rewrite <- (str_drop_app p s) at 1. rewrite str_drop_drop. f_equal. lia. }
    replace (slen p + j + slen r)%nat with (slen ((p +:+ str_take j s) +:+ r))
      by (rewrite !slen_app, slen_take; lia).
    rewrite (sapp_assoc _ r). rewrite IH by (rewrite slen_drop; lia).
    by rewrite <- !sapp_assoc.
  - by rewrite replace_all_none.
Qed.

Lemma find_and_replace_spec f r s :
  f ≠ "" → find_and_replace s f r = Some (replace_all f r 0 s).
Proof. intros Hf. apply (find_and_replace_loop_spec f r (S (slen s)) "" s Hf). lia. Qed.

Lemma replace_all_char c s : replace_all (String c "") "" 0 s = erase_if (char_is c) s.
Proof.
  induction s as [|d s IH]; [done|]. cbn [replace_all erase_if].
  destruct (String.prefix _ _) eqn:E.
  - apply prefix_char in E as [t E]. simplify_eq. rewrite char_is_refl. cbn. done.
  - rewrite (proj2 (char_is_false c d)); [by rewrite IH|].
    intros ->. by rewrite (proj2 (prefix_char d _) (ex_intro _ s eq_refl)) in E.
Qed.

Lemma nonempty_filter_id (l : list string) :
  Forall (λ t, t ≠ "") l → List.filter (λ t, negb (bool_decide (t = ""))) l = l.
Proof.
  induction 1 as [|t l Ht _ IH]; [done|]. cbn. rewrite bool_decide_eq_false_2 by done.
  cbn. by rewrite IH.
Qed.

(** An object name that can be stored in the index. *)
Definition index_name (o : string) : Prop := o ≠ "" ∧ free_of "," o = true.

Lemma ceph_index_items (l : list string) s :
  Forall index_name l →
  ceph_index_to_set (join_term "," l +:+ s) = list_to_set l ∪ ceph_index_to_set s.
Proof.
  intros Hl. unfold ceph_index_to_set.
  rewrite getline_split_join_app by (eapply Forall_impl; [|exact Hl]; by intros x []).
  rewrite List.filter_app, list_to_set_app_L, nonempty_filter_id; [done|].
  eapply Forall_impl; [|exact Hl]. by intros x [].
Qed.

Lemma join_term_app sep l k : join_term sep (l ++ k) = join_term sep l +:+ join_term sep k.
Proof.
  induction l as [|t l IH]; [done|].
  change (t +:+ String sep (join_term sep (l ++ k)) =
          (t +:+ String sep (join_term sep l)) +:+ join_term sep k).
  by rewrite IH, <- sapp_assoc, sapp_cons.
Qed.

Lemma Forall_index_name (s : gset string) :
  (∀ o, o ∈ s → index_name o) → Forall index_name (set_items s).
Proof. intros H. apply list.Forall_forall. intros o Ho. by apply H, elem_of_set_items. Qed.

Lemma list_to_set_items (s : gset string) : list_to_set (set_items s) = s.
Proof. apply set_eq. intros x. rewrite elem_of_list_to_set. apply elem_of_set_items. Qed.

Lemma ceph_index_of_set (s : gset string) t :
  (∀ o, o ∈ s → index_name o) →
  ceph_index_to_set (convert_to_ceph_index s +:+ t) = s ∪ ceph_index_to_set t.
Proof.
  intros H. unfold convert_to_ceph_index. rewrite ceph_index_items by by apply Forall_index_name.
  by rewrite list_to_set_items.
Qed.

Lemma ceph_index_of_one o t :
  index_name o → ceph_index_to_set (convert_to_ceph_index1 o +:+ t) = {[o]} ∪ ceph_index_to_set t.
Proof.
  intros Ho. pose proof (ceph_index_items [o] t (proj2 (Forall_singleton _ _) Ho)) as H.
  cbn in H. unfold convert_to_ceph_index1. rewrite <- sapp_assoc in *. cbn in *.
  rewrite H. set_solver.
Qed.

(** ** Properties *)

(** The text of the ceph index object reads back to exactly the set of
    object names that was written, and appending one more name (as
    [ceph_index_append] does) adds exactly that name, for names that are not
    empty and hold no comma. *)
Theorem ceph_index_roundtrip (s : gset string) o :
  (∀ x, x ∈ s → index_name x) → index_name o →
  ceph_index_to_set (convert_to_ceph_index s) = s ∧
  ceph_index_to_set (convert_to_ceph_index s +:+ convert_to_ceph_index1 o) = s ∪ {[o]}.
Proof.
  intros Hs Ho. split.
  - rewrite <- (sapp_nil_r (convert_to_ceph_index s)), ceph_index_of_set by done.
    cbn. set_solver.
  - rewrite ceph_index_of_set by done. rewrite <- (sapp_nil_r (convert_to_ceph_index1 o)).
    rewrite ceph_index_of_one by done. cbn. set_solver.
Qed.

Lemma ceph_index_roundtrip_witness :
  convert_to_ceph_index {["a1"; "b2"]} = "a1,b2," ∧
  ceph_index_to_set (convert_to_ceph_index {["a1"; "b2"]}) = {["a1"; "b2"]} ∧
  ceph_index_to_set (convert_to_ceph_index {["a1"; "b2"]} +:+ convert_to_ceph_index1 "c3") =
    {["a1"; "b2"]} ∪ {["c3"]}.
Proof.
  split; [vm_compute; reflexivity|].
  apply (ceph_index_roundtrip {["a1"; "b2"]} "c3"); [|by split].
  intros x Hx. assert (x = "a1" ∨ x = "b2") as [-> | ->] by set_solver; by split.
Defined.

(** C40. [find_and_replace] terminates for every non-empty pattern and returns
    the text with the leftmost, non-overlapping occurrences replaced; with the
    empty pattern the loop runs forever, whatever the number of iterations. *)
Theorem find_and_replace_correct s f r :
  (f ≠ "" → find_and_replace s f r = Some (replace_all f r 0 s)) ∧
  (f = "" → ∀ fuel i, (i <= slen s)%nat → find_and_replace_loop fuel s f r i = None).
Proof.
  split; [apply find_and_replace_spec|]. intros -> fuel i Hi.
  revert s i Hi. induction fuel as [|fuel IH]; intros s i Hi; [done|].
  cbn [find_and_replace_loop]. unfold str_find_from. rewrite (proj2 (Nat.leb_le _ _) Hi).
  rewrite str_find_unfold.
  replace (String.prefix "" (str_drop i s)) with true by by destruct (str_drop i s). cbn [fmap option_fmap option_map].
  apply IH. rewrite !slen_app, slen_take, slen_drop. cbn. lia.
Qed.

Lemma find_and_replace_correct_witness :
  find_and_replace "6ba7-b810-9dad" "-" "" = Some "6ba7b8109dad" ∧
  find_and_replace_loop 1000 "abc" "" "x" 0 = None.
Proof.
  split.
  - rewrite (proj1 (find_and_replace_correct "6ba7-b810-9dad" "-" "")) by done. reflexivity.
  - apply (proj2 (find_and_replace_correct "abc" "" "x")); [done|]. cbn. lia.
Defined.

(** The text that is stored for a set of flags is one raw character: it reads
    back to the same flags unless that character is white space (the flag
    combinations 0x09-0x0d and 0x20), in which case nothing is stored. *)
Theorem flags_text_roundtrip f :
  0 <= f < 256 →
  string_to_flags (flags_to_string f "").2 = if isspace (char_of f) then None else Some f.
Proof.
  intros Hf. unfold flags_to_string. rewrite wrap_u_small by done. cbn [snd].
  destruct (isspace (char_of f)) eqn:E; [done|].
  unfold string_to_flags. rewrite skip_space_char by done. by rewrite char_code_of.
Qed.

Lemma flags_text_roundtrip_witness :
  string_to_flags (flags_to_string 8 "").2 = Some 8 ∧
  string_to_flags (flags_to_string 9 "").2 = None.
Proof. split; [apply (flags_text_roundtrip 8) | apply (flags_text_roundtrip 9)]; lia. Defined.

(** A mail whose flags attribute was written by [flags_to_string] is rejected
    by [validate_metadata], for every set of flags other than the ones whose
    character is a digit, white space or NUL: a rebuild then skips the mail. *)
Theorem flags_attribute_invalidates m f :
  0 < f < 256 → isspace (char_of f) = false → isdigit (char_of f) = false →
  validate_metadata
    (rm_attrset (Mail.add_metadata
       (Metadata.convert_string RBOX_METADATA_OLDV1_FLAGS (flags_to_string f "").2)
       (Mail.set_metadata m Mail.new))) = false.
Proof.
  intros Hf Hs Hd. apply not_true_iff_false. rewrite validate_metadata_spec.
  intros (_ & _ & _ & _ & Hflags & _). cbn in Hflags.
  unfold get_metadata_key, get_metadata in Hflags. cbn in Hflags.
  rewrite lookup_insert_eq in Hflags. revert Hflags.
  rewrite wrap_u_small, Hs by lia. cbn [fmap option_fmap option_map is_numeric_optional].
  assert (free_of NUL (String (char_of f) "") = true) as Hn.
  { apply free_of_cons. split; [|done]. intros E. apply (f_equal char_code) in E.
    rewrite char_code_of in E by lia. change (char_code NUL) with 0 in E. lia. }
  unfold is_numeric, nul_string. rewrite c_str_app_nul, c_str_id by done. cbn. by rewrite Hd.
Qed.

Lemma flags_attribute_invalidates_witness :
  validate_metadata
    (rm_attrset (Mail.add_metadata
       (Metadata.convert_string RBOX_METADATA_OLDV1_FLAGS (flags_to_string 8 "").2)
       (Mail.set_metadata
         (list_to_map [("U", "7" +:+ nul_string); ("R", "1" +:+ nul_string);
                       ("Z", "10" +:+ nul_string); ("V", "11" +:+ nul_string);
                       ("M", "ab" +:+ nul_string); ("G", "cd" +:+ nul_string)]) Mail.new))) = false.
Proof. apply (flags_attribute_invalidates _ 8); [lia | reflexivity | reflexivity]. Defined.

(** The placement groups of [osd] in a listing, in order. *)
Definition pgs_of (osd : string) (lines : list string) : list string :=
  omap (λ l, match pg_line l with
             | Some (Some (o, pg)) => if decide (o = osd) then Some pg else None
             | _ => None
             end) lines.

Lemma lookup_add_pg osd pg tokens o :
  default [] (add_pg osd pg tokens !! o) =
    default [] (tokens !! o) ++ (if decide (osd = o) then [pg] else []).
Proof.
  unfold add_pg. destruct (tokens !! osd) eqn:E;
    (destruct (decide (osd = o)) as [->|Hne];
     [rewrite lookup_insert_eq, E | rewrite lookup_insert_ne by done]); cbn; by rewrite ?app_nil_r.
Qed.

Lemma extract_lines_spec lines tokens m osd :
  extract_lines lines tokens = Some m →
  default [] (m !! osd) = default [] (tokens !! osd) ++ pgs_of osd lines.
Proof.
  revert tokens. induction lines as [|l lines IH]; intros tokens H; cbn in H.
  - simplify_eq. by rewrite app_nil_r.
  - unfold pgs_of. cbn. destruct (pg_line l) as [[[o pg]|]|] eqn:E; [|done|by apply IH].
    rewrite (IH _ H), lookup_add_pg, <- app_assoc. by case_decide.
Qed.

(** [extractPgAndPrimaryOsd] groups the placement groups of a listing by
    their primary osd: the list of an osd holds exactly the groups of the lines
    that name it, in the order of the lines, and no osd is invented. *)
Theorem extract_pg_groups str m osd :
  extractPgAndPrimaryOsd str = Some m →
  default [] (m !! osd) = pgs_of osd (tail (getline_split "010" str)).
Proof. intros H. by rewrite (extract_lines_spec _ _ _ osd H), lookup_empty. Qed.

Definition sample_pg_listing : string :=
  "PG OBJECTS" +:+ String "010"
  ("1.0 0 0 0 0 0 0 0 0 active 1m 0'0 0:0 [2,0,1]p2" +:+ String "010"
  ("1.1 0 0 0 0 0 0 0 0 active 1m 0'0 0:0 [1,0,2]p1" +:+ String "010"
  ("1.2 0 0 0 0 0 0 0 0 active 1m 0'0 0:0 [2,1,0]p2" +:+ String "010" ""))).

Lemma extract_pg_groups_witness :
  ∃ m, extractPgAndPrimaryOsd sample_pg_listing = Some m ∧
       default [] (m !! "2") = ["1.0"; "1.2"].
Proof.
  eexists. split; [vm_compute; reflexivity|].
  etrans; [apply (extract_pg_groups sample_pg_listing); vm_compute; reflexivity|].
  vm_compute. reflexivity.
Defined.
