(* ===== verification/Encoding.v ===== *)
(** The ceph network encoding of encoding.h, as configured there
    ([CEPH_LITTLE_ENDIAN], so [mswab] is the identity): raw little-endian
    integers, booleans, and strings as a 32-bit length and the bytes.  The
    encoding carries the object filter of [find_mails] and the arguments of the
    [numops] class. *)
From S2P Require Export CxxString.
From Stdlib Require Import Ascii.

(** ** Little-endian bytes *)

Fixpoint le_bytes (n : nat) (v : Z) : string :=
  match n with
  | O => ""
  | S n => String (char_of (v `mod` 256)) (le_bytes n (v `div` 256))
  end.

Fixpoint le_value (s : string) : Z :=
  match s with
  | "" => 0
  | String c s => char_code c + 256 * le_value s
  end.

(** [encode_raw]: the object's bytes are appended. *)
Definition encode_raw (n : nat) (v : Z) (bl : string) : string := bl +:+ le_bytes n v.

(** [decode_raw]: [sizeof(t)] bytes are copied from the iterator [p]; the copy
    throws when fewer are left. *)
Definition decode_raw (n : nat) (p : string) : option (Z * string) :=
  if (n <=? slen p)%nat then Some (le_value (str_take n p), str_drop n p) else None.

(** [WRITE_INTTYPE_ENCODER(type, etype)] for an unsigned type of [bits] bits. *)
Definition encode_uint (bits : nat) (v : Z) (bl : string) : string :=
  encode_raw (bits / 8) (wrap_u (Z.of_nat bits) v) bl.
Definition decode_uint (bits : nat) (p : string) : option (Z * string) := decode_raw (bits / 8) p.
(** ... and for a signed one. *)
Definition encode_sint (bits : nat) (v : Z) (bl : string) : string := encode_uint bits v bl.
Definition decode_sint (bits : nat) (p : string) : option (Z * string) :=
  prod_map (wrap_s (Z.of_nat bits)) id <$> decode_uint bits p.

Definition encode_bool (v : bool) (bl : string) : string := encode_raw 1 (Z.b2z v) bl.
Definition decode_bool (p : string) : option (bool * string) :=
  prod_map (λ v, negb (v =? 0)) id <$> decode_raw 1 p.

(** [encode(const std::string&)]. *)
Definition encode_string (s : string) (bl : string) : string :=
  let len := wrap_u 32 (Z.of_nat (slen s)) in
  let bl := encode_uint 32 len bl in
  if decide (len = 0) then bl else bl +:+ str_take (Z.to_nat len) s.

(** [encode(const char* )]. *)
Definition encode_cstr (s : string) (bl : string) : string := encode_string (c_str s) bl.

(** The documented format [struct ceph_string { u32le size; u8 data[size]; }]. *)
Definition ceph_string_decode (p : string) : option (string * string) :=
  '(len, p) ← decode_raw 4 p;
  if (Z.to_nat len <=? slen p)%nat then Some (str_take (Z.to_nat len) p, str_drop (Z.to_nat len) p)
  else None.

(** ** Swapping bytes, which hosts of the other endianness would do *)

Definition swab16 (val : Z) : Z := wrap_u 16 (Z.lor (Z.shiftr val 8) (Z.shiftl val 8)).
Definition swab32 (val : Z) : Z :=
  wrap_u 32 (foldl Z.lor (Z.shiftr val 24)
    [Z.land (Z.shiftr val 8) 0xff00; Z.land (Z.shiftl val 8) 0xff0000; Z.shiftl val 24]).
Definition swab64 (val : Z) : Z :=
  wrap_u 64 (foldl Z.lor (Z.shiftr val 56)
    [Z.land (Z.shiftr val 40) 0xff00; Z.land (Z.shiftr val 24) 0xff0000; Z.land (Z.shiftr val 8) 0xff000000;
     Z.land (Z.shiftl val 8) 0xff00000000; Z.land (Z.shiftl val 24) 0xff0000000000;
     Z.land (Z.shiftl val 40) 0xff000000000000; Z.shiftl val 56]).

(** ** Lemmas *)

Lemma wrap_u_bits w z i : 0 <= w → 0 <= i → Z.testbit (wrap_u w z) i = (i <? w) && Z.testbit z i.
Proof.
  intros Hw Hi. unfold wrap_u. destruct (Z.ltb_spec i w); [by rewrite Z.mod_pow2_bits_low|by rewrite Z.mod_pow2_bits_high by lia].
Qed.
Lemma high_bits w z i : 0 <= z < 2 ^ w → w <= i → Z.testbit z i = false.
Proof.
  intros Hz Hi. destruct (decide (z = 0)) as [->|Hne]; [apply Z.bits_0|].
  apply Z.bits_above_log2; [lia|]. apply Z.log2_lt_pow2; [lia|].
  apply Z.lt_le_trans with (2 ^ w); [lia|]. apply Z.pow_le_mono_r; lia.
Qed.
(** [f] moves byte [j] of [n] to the place of byte [n - 1 - j]. *)
Definition swaps (n : Z) (f : Z → Z) : Prop :=
  ∀ v, 0 <= v < 2 ^ (8 * n) →
    0 <= f v < 2 ^ (8 * n) ∧ ∀ j i, 0 <= j < n → 0 <= i < 8 → Z.testbit (f v) (8 * j + i) = Z.testbit v (8 * (n - 1 - j) + i).
(** A bit of a byte of the result, for each of the bits. *)
Ltac by_bits Hi Hh :=
  rewrite wrap_u_bits by lia; cbn [foldl]; rewrite !Z.lor_spec, ?Z.land_spec, ?Z.shiftr_spec, ?Z.shiftl_spec by lia;
  destruct Hi as [->|[->|[->|[->|[->|[->|[->| ->]]]]]]];
  cbn; rewrite ?Hh by lia; rewrite ?andb_false_r, ?andb_true_r, ?orb_false_r, ?orb_false_l; reflexivity.
Lemma bit_cases i : 0 <= i < 8 → i = 0 ∨ i = 1 ∨ i = 2 ∨ i = 3 ∨ i = 4 ∨ i = 5 ∨ i = 6 ∨ i = 7.
Proof. lia. Qed.
Lemma swab16_swaps : swaps 2 swab16.
Proof.
  intros v Hv. split; [apply wrap_u_range; lia|]. intros j i Hj Hi%bit_cases. unfold swab16.
  pose proof (λ k, high_bits 16 v k Hv) as Hh. assert (j = 0 ∨ j = 1) as [->| ->] by lia; by_bits Hi Hh.
Qed.
Lemma swab32_swaps : swaps 4 swab32.
Proof.
  intros v Hv. split; [apply wrap_u_range; lia|]. intros j i Hj Hi%bit_cases. unfold swab32.
  pose proof (λ k, high_bits 32 v k Hv) as Hh.
  assert (j = 0 ∨ j = 1 ∨ j = 2 ∨ j = 3) as [->|[->|[->| ->]]] by lia; by_bits Hi Hh.
Qed.
Lemma swab64_swaps : swaps 8 swab64.
Proof.
  intros v Hv. split; [apply wrap_u_range; lia|]. intros j i [->|[->|[->|[->|[->|[->|[->| ->]]]]]]]%bit_cases Hi%bit_cases;
    unfold swab64; pose proof (λ k, high_bits 64 v k Hv) as Hh; by_bits Hi Hh.
Qed.
(** Swapping the bytes twice gives the number back. *)
Lemma swaps_involutive n f v : 0 < n → swaps n f → 0 <= v < 2 ^ (8 * n) → f (f v) = v.
Proof.
  intros Hn Hf Hv. destruct (Hf v Hv) as [Hr Hb]. destruct (Hf (f v) Hr) as [Hr' Hb'].
  apply Z.bits_inj'. intros k Hk. destruct (decide (k < 8 * n)) as [Hlt|Hge].
  - pose proof (Z.div_mod k 8 ltac:(lia)) as Hd. pose proof (Z.mod_pos_bound k 8 ltac:(lia)) as Hm.
    assert (0 <= k / 8 < n) as Hq by (split; [by apply Z.div_pos|apply Z.div_lt_upper_bound; lia]).
    rewrite Hd, Hb', Hb by lia. f_equal. lia.
  - rewrite !(high_bits (8 * n)) by lia. done.
Qed.
Lemma slen_le_bytes n v : slen (le_bytes n v) = n.
Proof. revert v. induction n as [|n IH]; intros v; cbn; [done|]. by rewrite IH. Qed.

Lemma le_value_bytes n v : le_value (le_bytes n v) = v `mod` 2 ^ (8 * Z.of_nat n).
Proof.
  revert v. induction n as [|n IH]; intros v; cbn [le_bytes le_value].
  - by rewrite Z.mod_1_r.
  - rewrite IH, char_code_of by (apply Z.mod_pos_bound; lia).
    replace (2 ^ (8 * Z.of_nat (S n))) with (256 * 2 ^ (8 * Z.of_nat n)).
    + rewrite Z.rem_mul_r by lia. done.
    + rewrite Nat2Z.inj_succ, Z.mul_succ_r, Z.pow_add_r by lia. lia.
Qed.

Lemma decode_raw_encode n v rest :
  decode_raw n (le_bytes n v +:+ rest) = Some (v `mod` 2 ^ (8 * Z.of_nat n), rest).
Proof.
  unfold decode_raw. rewrite slen_app, slen_le_bytes, (proj2 (Nat.leb_le n _)) by lia.
  pose proof (str_take_app (le_bytes n v) rest) as Ht. pose proof (str_drop_app (le_bytes n v) rest) as Hd.
  rewrite slen_le_bytes in Ht, Hd. by rewrite Ht, Hd, le_value_bytes.
Qed.

Lemma decode_uint_encode bits v rest :
  (bits = 8 * (bits / 8))%nat →
  decode_uint bits (encode_uint bits v "" +:+ rest) = Some (wrap_u (Z.of_nat bits) v, rest).
Proof.
  intros Hb. unfold decode_uint, encode_uint, encode_raw.
  cbn [String.append]. rewrite decode_raw_encode. do 2 f_equal.
  replace (8 * Z.of_nat (bits / 8)) with (Z.of_nat bits) by lia.
  unfold wrap_u. by rewrite Z.mod_mod by lia.
Qed.

Lemma encode_string_bytes s bl :
  Z.of_nat (slen s) < 2 ^ 32 →
  encode_string s bl = bl +:+ (le_bytes 4 (Z.of_nat (slen s)) +:+ s).
Proof.
  intros Hs. unfold encode_string, encode_uint, encode_raw.
  rewrite !(wrap_u_small 32) by lia. change (32 / 8)%nat with 4%nat. case_decide as E.
  - destruct s as [|c s]; [|cbn in E; lia]. by rewrite sapp_nil_r.
  - rewrite Nat2Z.id, str_take_ge by lia. by rewrite sapp_assoc.
Qed.

(** ** Properties *)

(** Every integer encoded with [WRITE_INTTYPE_ENCODER] decodes to the same
    value, unsigned or signed, and leaves the iterator behind its bytes. *)
Theorem encode_int_roundtrip bits v rest :
  bits ∈ [16%nat; 32%nat; 64%nat] →
  (0 <= v < 2 ^ Z.of_nat bits →
   decode_uint bits (encode_uint bits v "" +:+ rest) = Some (v, rest)) ∧
  (- 2 ^ (Z.of_nat bits - 1) <= v < 2 ^ (Z.of_nat bits - 1) →
   decode_sint bits (encode_sint bits v "" +:+ rest) = Some (v, rest)).
Proof.
  intros Hb.
  assert (bits = 8 * (bits / 8) ∧ 0 < bits)%nat as [H8 Hp].
  { rewrite !elem_of_cons, elem_of_nil in Hb. destruct Hb as [->|[->|[->|[]]]]; split; cbn; lia. }
  unfold decode_sint, encode_sint. rewrite decode_uint_encode by done.
  split; intros Hv.
  - by rewrite wrap_u_small.
  - cbn. by rewrite wrap_s_wrap_u, wrap_s_small by lia.
Qed.

Lemma encode_int_roundtrip_witness :
  decode_sint 32 (encode_sint 32 (-2) "" +:+ "x") = Some (-2, "x").
Proof. apply (encode_int_roundtrip 32 (-2) "x"); [set_solver | cbn; lia]. Defined.

(** Swapping the bytes of a 16, 32 or 64 bit number reverses them, and is undone by swapping
    them again. *)
Lemma swab_reverses_bytes : swaps 2 swab16 ∧ swaps 4 swab32 ∧ swaps 8 swab64 ∧
  (∀ v, 0 <= v < 2 ^ 16 → swab16 (swab16 v) = v) ∧ (∀ v, 0 <= v < 2 ^ 32 → swab32 (swab32 v) = v) ∧
  (∀ v, 0 <= v < 2 ^ 64 → swab64 (swab64 v) = v).
Proof.
  split; [exact swab16_swaps|]. split; [exact swab32_swaps|]. split; [exact swab64_swaps|].
  split; [intros v; by apply (swaps_involutive 2), swab16_swaps|].
  split; [intros v; by apply (swaps_involutive 4), swab32_swaps|intros v; by apply (swaps_involutive 8), swab64_swaps].
Qed.

(** A string encoded by [encode(const std::string&)] is in the documented
    [ceph_string] format: a reader of that format gets back the string and the
    rest of the buffer, for every string shorter than 2^32 bytes; two encoded
    strings in a row are therefore separated unambiguously. *)
Theorem encode_string_roundtrip s t rest :
  Z.of_nat (slen s) < 2 ^ 32 → Z.of_nat (slen t) < 2 ^ 32 →
  ceph_string_decode (encode_string t (encode_string s "") +:+ rest) =
    Some (s, encode_string t "" +:+ rest) ∧
  ceph_string_decode (encode_string t "" +:+ rest) = Some (t, rest).
Proof.
  intros Hs Ht.
  assert (∀ u r, Z.of_nat (slen u) < 2 ^ 32 →
    ceph_string_decode (le_bytes 4 (Z.of_nat (slen u)) +:+ (u +:+ r)) = Some (u, r)) as Hdec.
  { intros u r Hu. unfold ceph_string_decode. rewrite decode_raw_encode. cbn [mbind option_bind].
    rewrite Z.mod_small by (cbn; lia). rewrite Nat2Z.id, slen_app, (proj2 (Nat.leb_le (slen u) _)) by lia.
    by rewrite str_take_app, str_drop_app. }
  rewrite !encode_string_bytes by done. cbn [String.append]. rewrite <- !sapp_assoc.
  split; apply Hdec; done.
Qed.

Lemma encode_string_roundtrip_witness :
  ceph_string_decode (encode_string "_B" (encode_string "plain" "") +:+ "") =
    Some ("plain", encode_string "_B" "" +:+ "").
Proof. apply (encode_string_roundtrip "plain" "_B" ""); cbn; lia. Defined.
