(* ===== verification/SaveLog.v ===== *)
(** The save log (rados-save-log.h, rados-save-log.cpp): one comma separated
    line per stored, copied or moved mail, and the state machine of the log file. *)
From S2P Require Export RadosTypes.
From Stdlib Require Import Ascii.

(** ** One entry *)

Record RadosSaveLogEntry := mk_entry {
  e_oid : string;
  e_ns : string;
  e_pool : string;
  e_op : string;
  e_src_oid : string;
  e_src_ns : string;
  e_src_user : string;
  e_metadata : list RadosMetadata;
}.

Module Entry.
(** [RadosSaveLogEntry(oid, ns, pool, op)]. *)
Definition new (oid ns pool op : string) : RadosSaveLogEntry :=
    mk_entry oid ns pool op "" "" "" [].
(** The default constructor. *)
Definition empty : RadosSaveLogEntry := new "" "" "" "".

Definition op_save : string := "save".
Definition op_cpy : string := "cpy".

(** [convert_metadata]. *)
Definition convert_metadata (metadata : list RadosMetadata) (separator : string) : string :=
    match metadata with
    | [] => ""
    | m :: ms => foldl (λ acc m, acc +:+ separator +:+ Metadata.to_string m) (Metadata.to_string m) ms
    end.

Definition op_mv (src_ns src_oid src_user : string) (metadata : list RadosMetadata) : string :=
    "mv:" +:+ src_ns +:+ ":" +:+ src_oid +:+ ":" +:+ src_user +:+ ";" +:+ convert_metadata metadata ":".

(** The loop over the metadata tokens: the entry's list grows until a token
      does not parse. *)
Fixpoint parse_tokens (items : list string) (metadata : list RadosMetadata) :
      bool * list RadosMetadata :=
    match items with
    | [] => (true, metadata)
    | item :: items =>
        match Metadata.from_string item with
        | None => (false, metadata)
        | Some m => parse_tokens items (metadata ++ [m])
        end
    end.

Definition parse_mv_op (obj : RadosSaveLogEntry) : bool * RadosSaveLogEntry :=
    let op := e_op obj in
    match str_find ";" op with
    | None | Some O => (false, obj)
    | Some pos =>
        match getline_split ":" (substr 0 pos op) with
        | t0 :: t1 :: t2 :: t3 :: _ =>
            if decide (t0 ≠ "mv") then (true, obj)
            else
              let '(ok, md) := parse_tokens (getline_split ":" (substr (pos + 1) (slen op) op))
                                 (e_metadata obj) in
              (ok, mk_entry (e_oid obj) (e_ns obj) (e_pool obj) (e_op obj) t2 t1 t3 md)
        | _ => (false, obj)
        end
    end.

(** [operator<<]: the line without its end-of-line. *)
Definition print (obj : RadosSaveLogEntry) : string :=
    e_op obj +:+ "," +:+ e_pool obj +:+ "," +:+ e_ns obj +:+ "," +:+ e_oid obj.

(** [operator>>] on one line into [obj]; [false] is the stream's fail bit. *)
Definition scan (line : string) (obj : RadosSaveLogEntry) : bool * RadosSaveLogEntry :=
    match getline_split "," line with
    | [op; pool; ns; oid] =>
        (true, (parse_mv_op (mk_entry oid ns pool op (e_src_oid obj) (e_src_ns obj)
                              (e_src_user obj) (e_metadata obj))).2)
    | _ => (false, obj)
    end.
End Entry.

(** ** The log file *)

(** The file system the log is written to: the files that can be opened for
    appending and their content (one element per line). *)
Record log_fs := mk_fs { fs_can_open : string → bool; fs_files : gmap string (list string) }.

Record RadosSaveLog := mk_log {
  sl_logfile : string;
  sl_log_active : bool;
  sl_ofs : option string;        (** the path the stream is open on *)
}.

Module Log.
Definition new : RadosSaveLog := mk_log "" false None.
Definition new_file (logfile : string) : RadosSaveLog :=
    mk_log logfile (negb (bool_decide (logfile = ""))) None.
Definition set_save_log_file (logfile : string) (l : RadosSaveLog) : RadosSaveLog :=
    mk_log logfile (negb (bool_decide (logfile = ""))) (sl_ofs l).
Definition is_open (l : RadosSaveLog) : bool := bool_decide (is_Some (sl_ofs l)).

Definition open (fs : log_fs) (l : RadosSaveLog) : bool * RadosSaveLog :=
    let l :=
      if sl_log_active l && negb (is_open l) then
        let ofs := if fs_can_open fs (sl_logfile l) then Some (sl_logfile l) else None in
        mk_log (sl_logfile l) (bool_decide (is_Some ofs)) ofs
      else l in
    (sl_log_active l, l).

Definition append (entry : RadosSaveLogEntry) (l : RadosSaveLog) (fs : log_fs) : log_fs :=
    match sl_ofs l with
    | Some path =>
        if sl_log_active l then
          mk_fs (fs_can_open fs)
            (<[path := default [] (fs_files fs !! path) ++ [Entry.print entry]]> (fs_files fs))
        else fs
    | None => fs
    end.

Definition close (l : RadosSaveLog) : bool * RadosSaveLog :=
    if sl_log_active l && is_open l then (true, mk_log (sl_logfile l) (sl_log_active l) None)
    else (true, l).
End Log.

(** ** Lemmas *)

(** A field that can be written without breaking the line format. *)
Definition plain_field (s : string) : Prop :=
  free_of "," s = true ∧ free_of ":" s = true ∧ free_of ";" s = true.

(** An attribute that survives the log. *)
Definition log_attr (m : RadosMetadata) : Prop :=
  ∃ k v, m = Metadata.of_pair k v ∧ v ≠ "" ∧ free_of "=" k = true ∧ free_of "=" v = true ∧
         free_of ":" k = true ∧ free_of ":" v = true ∧
         free_of "," k = true ∧ free_of "," v = true.

(** The attribute as it comes back: without the terminating NUL. *)
Definition strip (m : RadosMetadata) : RadosMetadata :=
  mk_metadata (md_key m) (substr 0 (slen (md_bl m) - 1) (md_bl m)).

Lemma strip_pair k v : strip (Metadata.of_pair k v) = mk_metadata k v.
Proof.
  unfold strip, Metadata.of_pair, substr. cbn [md_key md_bl]. rewrite str_drop_0, slen_app.
  cbn [nul_string slen]. replace (slen v + 1 - 1)%nat with (slen v) by lia. by rewrite str_take_app.
Qed.

Lemma log_attr_text m :
  log_attr m →
  free_of ":" (Metadata.to_string m) = true ∧ free_of "," (Metadata.to_string m) = true ∧
  Metadata.to_string m ≠ "" ∧ Metadata.from_string (Metadata.to_string m) = Some (strip m).
Proof.
  intros (k & v & -> & Hv & Hk1 & Hv1 & Hk2 & Hv2 & Hk3 & Hv3). rewrite strip_pair.
  unfold Metadata.from_string, Metadata.of_pair. rewrite Metadata.to_string_of_value.
  rewrite !free_of_app, Hk2, Hv2, Hk3, Hv3. cbn [String.append].
  rewrite getline_split_tok, getline_split_last by done.
  repeat split; try done. by destruct k.
Qed.

(** The metadata text as a token list. *)
Lemma convert_metadata_tokens m ms :
  Entry.convert_metadata (m :: ms) ":" =
    join_term ":" (removelast (Metadata.to_string <$> (m :: ms))) +:+
    List.last (Metadata.to_string <$> (m :: ms)) "".
Proof.
  unfold Entry.convert_metadata.
  assert (∀ acc, foldl (λ a x, a +:+ ":" +:+ Metadata.to_string x) acc ms =
    join_term ":" (removelast (acc :: (Metadata.to_string <$> ms))) +:+
    List.last (acc :: (Metadata.to_string <$> ms)) "") as H; [|apply H].
  induction ms as [|x ms IH]; intros acc; [done|].
  cbn [foldl]. rewrite IH. cbn [fmap list_fmap].
  destruct ms as [|y ms]; [by cbn; rewrite <- ?sapp_assoc|].
  cbn [fmap list_fmap removelast List.last join_term foldr].
  rewrite <- !sapp_assoc. cbn. by rewrite <- !sapp_assoc.
Qed.

Lemma convert_metadata_split ms :
  Forall log_attr ms →
  getline_split ":" (Entry.convert_metadata ms ":") = Metadata.to_string <$> ms.
Proof.
  destruct ms as [|m ms]; [done|]. intros H. rewrite convert_metadata_tokens.
  set (l := Metadata.to_string <$> m :: ms).
  assert (Forall (λ t, free_of ":" t = true ∧ t ≠ "") l) as Hl.
  { apply Forall_fmap. eapply Forall_impl; [|exact H]. intros x Hx.
    destruct (log_attr_text x Hx) as (? & ? & ? & ?). by split. }
  assert (l ≠ []) as Hne by done. clearbody l.
  rewrite (app_removelast_last "" Hne) in Hl at 1.
  apply Forall_app in Hl as [Hl Hlast]. apply Forall_singleton in Hlast as [Hlast Hn].
  rewrite getline_split_join_app by (eapply Forall_impl; [|exact Hl]; naive_solver).
  rewrite getline_split_last by done. symmetry. by apply app_removelast_last.
Qed.

Lemma parse_tokens_ok ms acc :
  Forall log_attr ms →
  Entry.parse_tokens (Metadata.to_string <$> ms) acc = (true, acc ++ (strip <$> ms)).
Proof.
  intros H. revert acc. induction H as [|m ms Hm _ IH]; intros acc; cbn.
  - by rewrite app_nil_r.
  - destruct (log_attr_text m Hm) as (_ & _ & _ & ->). rewrite IH. by rewrite <- app_assoc.
Qed.

Lemma convert_metadata_free c ms :
  Forall (λ m, free_of c (Metadata.to_string m) = true) ms → free_of c ":" = true →
  free_of c (Entry.convert_metadata ms ":") = true.
Proof.
  intros H Hc. destruct H as [|m ms Hm H]; [done|]. cbn. revert Hm.
  generalize (Metadata.to_string m). induction H as [|x ms Hx _ IH]; intros acc Hacc; cbn; [done|].
  apply IH. change (free_of c (acc +:+ (":" +:+ Metadata.to_string x)) = true).
  by rewrite !free_of_app, Hacc, Hc, Hx.
Qed.

Section op_mv.
Context (src_ns src_oid src_user : string) (ms : list RadosMetadata).
Context (Hns : plain_field src_ns) (Hoid : plain_field src_oid) (Huser : plain_field src_user)
          (Hne : src_user ≠ "") (Hms : Forall log_attr ms).

Let left : string := "mv:" +:+ src_ns +:+ ":" +:+ src_oid +:+ ":" +:+ src_user.

Lemma op_mv_left : Entry.op_mv src_ns src_oid src_user ms =
    left +:+ String ";" (Entry.convert_metadata ms ":").
Proof. unfold Entry.op_mv, left. by sapp. Qed.

Lemma left_tokens : getline_split ":" left = ["mv"; src_ns; src_oid; src_user].
Proof.
    destruct Hns as (_ & ? & _), Hoid as (_ & ? & _), Huser as (_ & ? & _).
    change left with ("mv" +:+ String ":" (src_ns +:+ String ":" (src_oid +:+ String ":" src_user))).
    by rewrite !getline_split_tok, getline_split_last by done.
Qed.

Lemma left_free c :
    free_of c ("mv:" +:+ ":" +:+ ":") = true →
    free_of c src_ns = true → free_of c src_oid = true → free_of c src_user = true →
    free_of c left = true.
Proof.
    unfold left. rewrite !free_of_app, !andb_true_iff. naive_solver.
Qed.

Lemma parse_op_mv o n p so sn su acc :
    Entry.parse_mv_op (mk_entry o n p (Entry.op_mv src_ns src_oid src_user ms) so sn su acc) =
      (true, mk_entry o n p (Entry.op_mv src_ns src_oid src_user ms)
               src_oid src_ns src_user (acc ++ (strip <$> ms))).
Proof.
    unfold Entry.parse_mv_op. cbn [e_op e_metadata e_oid e_ns e_pool].
    pose proof left_tokens as HL. rewrite op_mv_left. unfold substr. rewrite str_drop_0.
    rewrite str_find_char.
    2: { apply left_free; [done|..]; [apply Hns|apply Hoid|apply Huser]. }
    rewrite str_take_app, HL.
    replace (str_drop (slen left + 1) (left +:+ String ";" (Entry.convert_metadata ms ":")))
      with (Entry.convert_metadata ms ":").
    2: { by rewrite <- str_drop_drop, str_drop_app. }
    rewrite str_take_ge by (rewrite slen_app; cbn; lia).
    rewrite convert_metadata_split, parse_tokens_ok by done.
    destruct (slen left) as [|n0] eqn:E; [by unfold left in E|]. by rewrite decide_False by tauto.
Qed.

Lemma op_mv_free_comma : free_of "," (Entry.op_mv src_ns src_oid src_user ms) = true.
Proof.
    rewrite op_mv_left, free_of_app. rewrite left_free;
      [|done|apply Hns|apply Hoid|apply Huser].
    cbn. apply convert_metadata_free; [|done].
    eapply Forall_impl; [|exact Hms]. intros m Hm. by apply log_attr_text.
Qed.
End op_mv.

Lemma scan_print e o :
  free_of "," (e_op e) = true → free_of "," (e_pool e) = true → free_of "," (e_ns e) = true →
  free_of "," (e_oid e) = true → e_oid e ≠ "" →
  Entry.scan (Entry.print e) o =
    (true, (Entry.parse_mv_op (mk_entry (e_oid e) (e_ns e) (e_pool e) (e_op e) (e_src_oid o)
             (e_src_ns o) (e_src_user o) (e_metadata o))).2).
Proof.
  intros. unfold Entry.scan, Entry.print. cbn [String.append].
  by rewrite !getline_split_tok, getline_split_last by done.
Qed.

(** Appending a list of entries to an open log. *)
Definition append_all (l : RadosSaveLog) (es : list RadosSaveLogEntry) (fs : log_fs) : log_fs :=
  foldl (λ fs e, Log.append e l fs) fs es.

Lemma append_all_open path fs es :
  fs_files (append_all (mk_log path true (Some path)) es fs) =
    if decide (es = []) then fs_files fs
    else <[path := default [] (fs_files fs !! path) ++ (Entry.print <$> es)]> (fs_files fs).
Proof.
  revert fs. induction es as [|e es IH]; intros fs; [done|].
  rewrite (decide_False (P := e :: es = [])) by done.
  unfold append_all in *. cbn [foldl]. rewrite IH.
  cbn [Log.append sl_ofs sl_log_active fs_files]. case_decide as E.
  - by rewrite E.
  - rewrite lookup_insert_eq, insert_insert_eq. cbn [default].
    unfold id. by rewrite <- app_assoc.
Qed.

Lemma append_all_closed path a es fs : append_all (mk_log path a None) es fs = fs.
Proof. induction es as [|e es IH]; [done|]. apply IH. Qed.

(** ** Properties *)

(** A line written to the save log scans back: for [save] and [cpy] it gives
    the entry itself, for [mv] the entry together with the source namespace,
    object and user and the attributes (each without its terminating NUL), when
    the names and attribute texts hold none of the separators. *)
Theorem savelog_line_roundtrip oid ns pool src_ns src_oid src_user ms :
  oid ≠ "" → free_of "," oid = true → free_of "," ns = true → free_of "," pool = true →
  plain_field src_ns → plain_field src_oid → plain_field src_user → src_user ≠ "" →
  Forall log_attr ms →
  Entry.scan (Entry.print (Entry.new oid ns pool Entry.op_save)) Entry.empty =
    (true, Entry.new oid ns pool Entry.op_save) ∧
  Entry.scan (Entry.print (Entry.new oid ns pool Entry.op_cpy)) Entry.empty =
    (true, Entry.new oid ns pool Entry.op_cpy) ∧
  Entry.scan (Entry.print (Entry.new oid ns pool (Entry.op_mv src_ns src_oid src_user ms)))
    Entry.empty =
    (true, mk_entry oid ns pool (Entry.op_mv src_ns src_oid src_user ms)
             src_oid src_ns src_user (strip <$> ms)).
Proof.
  intros. rewrite !scan_print; try done; [|by apply op_mv_free_comma].
  split; [done|]. split; [done|].
  cbn [Entry.new Entry.empty e_oid e_ns e_pool e_op e_src_oid e_src_ns e_src_user e_metadata].
  by rewrite parse_op_mv.
Qed.

Lemma savelog_line_roundtrip_witness :
  Entry.scan (Entry.print (Entry.new "o1" "ns1" "mail_storage"
      (Entry.op_mv "ns2" "o0" "t1" [Metadata.of_pair "M" "ab"; Metadata.of_pair "B" "INBOX"])))
    Entry.empty =
    (true, mk_entry "o1" "ns1" "mail_storage" "mv:ns2:o0:t1;M=ab:B=INBOX" "o0" "ns2" "t1"
             [mk_metadata "M" "ab"; mk_metadata "B" "INBOX"]).
Proof.
  apply (savelog_line_roundtrip "o1" "ns1" "mail_storage" "ns2" "o0" "t1"
           [Metadata.of_pair "M" "ab"; Metadata.of_pair "B" "INBOX"]); try done.
  repeat constructor; eexists _, _; by repeat split.
Defined.

(** The log file: after a successful [open], the entries appended are written
    in order at the end of the file, one line each, and no other file changes;
    when the file cannot be opened, [open] reports it and nothing is ever
    written; after [close] no entry is written. *)
Theorem savelog_session fs path es :
  path ≠ "" →
  let '(ok, l) := Log.open fs (Log.new_file path) in
  ok = fs_can_open fs path ∧
  (ok = true → es ≠ [] →
     fs_files (append_all l es fs) =
       <[path := default [] (fs_files fs !! path) ++ (Entry.print <$> es)]> (fs_files fs)) ∧
  (ok = false → append_all l es fs = fs) ∧
  Log.close l = (true, (Log.close l).2) ∧ append_all (Log.close l).2 es fs = fs.
Proof.
  intros Hp. unfold Log.open, Log.new_file. rewrite bool_decide_eq_false_2 by done.
  cbn. destruct (fs_can_open fs path) eqn:E; cbn; repeat split; intros; try done.
  - by rewrite append_all_open, decide_False.
  - apply append_all_closed.
  - apply append_all_closed.
  - apply append_all_closed.
Qed.

Lemma savelog_session_witness :
  let '(ok, l) := Log.open (mk_fs (λ _, true) ∅) (Log.new_file "/tmp/log") in
  ok = true ∧
  (ok = true → [Entry.new "o" "n" "p" "save"] ≠ [] →
     fs_files (append_all l [Entry.new "o" "n" "p" "save"] (mk_fs (λ _, true) ∅)) =
       <["/tmp/log" := default [] ((∅ : gmap string (list string)) !! "/tmp/log") ++ ["save,p,n,o"]]> ∅) ∧
  (ok = false → append_all l [Entry.new "o" "n" "p" "save"] (mk_fs (λ _, true) ∅) =
                mk_fs (λ _, true) ∅) ∧
  Log.close l = (true, (Log.close l).2) ∧
  append_all (Log.close l).2 [Entry.new "o" "n" "p" "save"] (mk_fs (λ _, true) ∅) =
    mk_fs (λ _, true) ∅.
Proof. apply (savelog_session (mk_fs (λ _, true) ∅) "/tmp/log" [Entry.new "o" "n" "p" "save"]). done. Defined.
