(* ===== verification/Librados.v ===== *)
(** The interface to librados: the calls the program makes on a cluster, as a
    class of operations over an abstract world, and the documented behaviour
    the theorems rely on as a class of laws. [MemCluster] is a concrete world
    (an in-memory object store with a schedule of failures) that has both; it
    is used for the witnesses and shows that the laws can hold. *)
From S2P Require Export RadosTypes RadosUtil.

(** ** Objects *)

(** An [IoCtx]: a pool and a namespace. *)
Record ioctx := mk_ioctx { io_pool : string; io_ns : string }.

#[export] Instance ioctx_eq_dec : EqDecision ioctx.
Proof. solve_decision. Defined.
#[export] Instance ioctx_countable : Countable ioctx.
Proof.
  refine (inj_countable' (λ c, (io_pool c, io_ns c)) (λ '(p, n), mk_ioctx p n) _). by intros [].
Defined.

Definition set_io_ns (ns : string) (c : ioctx) : ioctx := mk_ioctx (io_pool c) ns.

Record robject := mk_robject {
  ob_data : bufferlist;
  ob_xattrs : attrs;
  ob_omap : attrs;
  ob_mtime : Z;
}.

(** A new object at time [now]. *)
Definition empty_object (now : Z) : robject := mk_robject "" ∅ ∅ now.
Definition touch (now : Z) (ob : robject) : robject :=
  mk_robject (ob_data ob) (ob_xattrs ob) (ob_omap ob) now.

Abbreviation okey := (ioctx * string)%type.
Abbreviation store := (gmap okey robject).

(** ** Write operations *)

Inductive write_op :=
| OpSetxattr (key : string) (bl : bufferlist)
| OpOmapSet (m : attrs)
| OpOmapRmKeys (keys : gset string)
| OpWrite (off : nat) (bl : bufferlist)
| OpWriteFull (bl : bufferlist)
| OpAppend (bl : bufferlist) (len : nat)
| OpMtime (t : Z)
| OpAllocHint (size write_size : Z)
| OpCopyFrom (src_oid : string) (src : ioctx)
| OpRemove
| OpExecAdd (key : string) (value : Z).

(** Writing [bl] at [off]: a gap is filled with NUL bytes. *)
Fixpoint zeros (n : nat) : string :=
  match n with O => "" | S n => String (Ascii.ascii_of_nat 0) (zeros n) end.

Definition write_at (off : nat) (bl data : string) : string :=
  str_take off data +:+ zeros (off - slen data) +:+ bl +:+ str_drop (off + slen bl) data.

(** ** Read operations

    [omap_get_vals_by_keys] and [omap_get_vals] with no start and no limit. *)
Inductive read_op :=
| RdOmapByKeys (keys : gset string)
| RdOmapPrefix (prefix : string).

Definition read_view (op : read_op) (ob : robject) : attrs :=
  match op with
  | RdOmapByKeys ks => filter (λ kv, kv.1 ∈ ks) (ob_omap ob)
  | RdOmapPrefix p => filter (λ kv, String.prefix p kv.1 = true) (ob_omap ob)
  end.

(** The calls of librados: an outcome code and the new world. Each call of the
    program that is asynchronous is waited for right after it was issued, so the
    submission code and the value of the completion are two results of one call. *)
Class Librados (W : Type) := {
  io_operate : ioctx → string → list write_op → ST W Z;
  io_aio_operate : ioctx → string → list write_op → ST W (Z * Z);
  io_read : ioctx → string → Z → Z → ST W (Z * bufferlist);
  io_stat : ioctx → string → ST W (Z * option (Z * Z));
  io_getxattrs : ioctx → string → ST W (Z * attrs);
  io_omap_get_keys : ioctx → string → ST W (Z * gset string);
  io_omap_get_vals_by_keys : ioctx → string → gset string → ST W (Z * attrs);
  io_omap_get_vals : ioctx → string → string → ST W (Z * attrs);
(** a compound read; for each of its parts a code and the entries *)
  io_operate_read : ioctx → string → list read_op → ST W (Z * list (Z * attrs));
  io_aio_operate_read : ioctx → string → list read_op → ST W ((Z * Z) * list (Z * attrs));
(** the objects listed, for a filter built by [find_mails] or for none *)
  io_nobjects : ioctx → option bufferlist → ST W (list string);
(** the objects listed from the position of a placement group on *)
  io_nobjects_from : ioctx → Z → ST W (list string);
}.

Section calls.
Context `{Librados W}.

Definition io_setxattr (c : ioctx) (oid key : string) (bl : bufferlist) : ST W Z :=
    io_operate c oid [OpSetxattr key bl].
Definition io_omap_set (c : ioctx) (oid : string) (m : attrs) : ST W Z :=
    io_operate c oid [OpOmapSet m].
Definition io_omap_rm_keys (c : ioctx) (oid : string) (keys : gset string) : ST W Z :=
    io_operate c oid [OpOmapRmKeys keys].
Definition io_write_full (c : ioctx) (oid : string) (bl : bufferlist) : ST W Z :=
    io_operate c oid [OpWriteFull bl].
Definition io_append (c : ioctx) (oid : string) (bl : bufferlist) (len : nat) : ST W Z :=
    io_operate c oid [OpAppend bl len].
Definition io_remove (c : ioctx) (oid : string) : ST W Z := io_operate c oid [OpRemove].
Definition io_exec_add (c : ioctx) (oid key : string) (v : Z) : ST W Z :=
    io_operate c oid [OpExecAdd key v].
End calls.

(** At most [len] bytes from [off] on. *)
Definition read_range (len off : Z) (data : string) : string :=
  let d := str_drop (Z.to_nat off) data in
  if decide (Z.of_nat (slen d) <= len) then d else str_take (Z.to_nat len) d.

(** ** Documented behaviour *)

(** The effect at time [now] of one operation on an object that may not exist;
    [None] is an operation that cannot succeed. *)
Definition apply_op (now : Z) (m : store) (o : option robject) (op : write_op) :
    option (option robject) :=
  let ob := default (empty_object now) o in
  match op with
  | OpSetxattr k bl => Some (Some (mk_robject (ob_data ob) (<[k := bl]> (ob_xattrs ob)) (ob_omap ob) (ob_mtime ob)))
  | OpOmapSet kv => Some (Some (mk_robject (ob_data ob) (ob_xattrs ob) (kv ∪ ob_omap ob) (ob_mtime ob)))
  | OpOmapRmKeys ks =>
      match o with
      | Some _ => Some (Some (mk_robject (ob_data ob) (ob_xattrs ob)
                                (filter (λ kv, kv.1 ∉ ks) (ob_omap ob)) (ob_mtime ob)))
      | None => None
      end
  | OpWrite off bl => Some (Some (mk_robject (write_at off bl (ob_data ob)) (ob_xattrs ob) (ob_omap ob) (ob_mtime ob)))
  | OpWriteFull bl => Some (Some (mk_robject bl (ob_xattrs ob) (ob_omap ob) (ob_mtime ob)))
  | OpAppend bl len =>
      Some (Some (mk_robject (ob_data ob +:+ str_take len bl) (ob_xattrs ob) (ob_omap ob) (ob_mtime ob)))
  | OpMtime t => Some (Some (mk_robject (ob_data ob) (ob_xattrs ob) (ob_omap ob) t))
  | OpAllocHint _ _ => Some (Some ob)
  | OpCopyFrom src_oid src => Some <$> m !! (src, src_oid)
  | OpRemove => match o with Some _ => Some None | None => None end
  | OpExecAdd k v =>
      match ob_omap ob !! k with
      | None => Some (Some (mk_robject (ob_data ob) (ob_xattrs ob) (<[k := to_string v]> (ob_omap ob)) (ob_mtime ob)))
      | Some old =>
          match stol old with
          | ParseOk n => Some (Some (mk_robject (ob_data ob) (ob_xattrs ob)
                                    (<[k := to_string (n + v)]> (ob_omap ob)) (ob_mtime ob)))
          | _ => None
          end
      end
  end.

Fixpoint apply_obj (now : Z) (m : store) (o : option robject) (ops : list write_op) : option (option robject) :=
  match ops with
  | [] => Some o
  | op :: ops => o' ← apply_op now m o op; apply_obj now m o' ops
  end.

(** A compound operation is applied to the object as a whole or not at all; it
    stamps the object with the time, unless it sets the time itself. *)
Definition apply_ops (now : Z) (k : okey) (ops : list write_op) (m : store) : option store :=
  o ← apply_obj now m (touch now <$> m !! k) ops;
  Some (match o with Some ob => <[k := ob]> m | None => delete k m end).

(** The documented outcome of a compound write: a code that is not negative
    says that it was applied; a failed operation was not applied, unless the
    answer timed out. *)
Definition write_outcome (k : okey) (ops : list write_op) (r : Z) (m m' : store) : Prop :=
  ∃ now,
  (0 <= r → apply_ops now k ops m = Some m') ∧
  (r < 0 → m' = m ∨ (r = - ETIMEDOUT ∧ apply_ops now k ops m = Some m')).

(** The outcome of a compound read: the parts of one that succeeded are views of
    the object. *)
Definition read_outcome (k : okey) (ops : list read_op) (r : Z) (outs : list (Z * attrs)) (m : store) : Prop :=
  length outs = length ops ∧
  (0 <= r → ∃ ob, m !! k = Some ob ∧
     Forall2 (λ op out, 0 <= out.1 → out.2 = read_view op ob) ops outs).

Class LibradosLaws (W : Type) `{Librados W} := {
  objs : W → store;
  operate_law : ∀ c oid ops w,
    write_outcome (c, oid) ops (io_operate c oid ops w).1 (objs w) (objs (io_operate c oid ops w).2);
  aio_operate_law : ∀ c oid ops w,
    let '((sub, val), w') := io_aio_operate c oid ops w in
    (sub < 0 → objs w' = objs w) ∧
    (0 <= sub → write_outcome (c, oid) ops val (objs w) (objs w'));
  read_law : ∀ c oid (len off : Z) w,
    let '((r, bl), w') := io_read c oid len off w in
    objs w' = objs w ∧ Z.of_nat (slen bl) = Z.max 0 r ∧
    (0 <= r → ∃ ob, objs w !! (c, oid) = Some ob ∧ bl = read_range len off (ob_data ob));
  stat_law : ∀ c oid w,
    let '((r, out), w') := io_stat c oid w in
    objs w' = objs w ∧ (0 <= r → ∃ ob, objs w !! (c, oid) = Some ob ∧
                         out = Some (Z.of_nat (slen (ob_data ob)), ob_mtime ob)) ∧
    (r < 0 → out = None);
  getxattrs_law : ∀ c oid w,
    let '((r, m), w') := io_getxattrs c oid w in
    objs w' = objs w ∧ (0 <= r → ∃ ob, objs w !! (c, oid) = Some ob ∧ m = ob_xattrs ob) ∧
    (r < 0 → m = ∅);
  omap_get_keys_law : ∀ c oid w,
    let '((r, ks), w') := io_omap_get_keys c oid w in
    objs w' = objs w ∧ (0 <= r → ∃ ob, objs w !! (c, oid) = Some ob ∧ ks = dom (ob_omap ob)) ∧
    (r < 0 → ks = ∅);
  omap_get_vals_by_keys_law : ∀ c oid ks w,
    let '((r, m), w') := io_omap_get_vals_by_keys c oid ks w in
    objs w' = objs w ∧ (0 <= r → ∃ ob, objs w !! (c, oid) = Some ob ∧
                          m = filter (λ kv, kv.1 ∈ ks) (ob_omap ob)) ∧
    (r < 0 → m = ∅);
  omap_get_vals_law : ∀ c oid p w,
    let '((r, m), w') := io_omap_get_vals c oid p w in
    objs w' = objs w ∧ (0 <= r → ∃ ob, objs w !! (c, oid) = Some ob ∧
                          m = filter (λ kv, String.prefix p kv.1 = true) (ob_omap ob)) ∧
    (r < 0 → m = ∅);
  operate_read_law : ∀ c oid ops w,
    let '((r, outs), w') := io_operate_read c oid ops w in
    objs w' = objs w ∧ read_outcome (c, oid) ops r outs (objs w);
  aio_operate_read_law : ∀ c oid ops w,
    let '(((sub, val), outs), w') := io_aio_operate_read c oid ops w in
    objs w' = objs w ∧ length outs = length ops ∧
    (0 <= sub → read_outcome (c, oid) ops val outs (objs w));
  nobjects_from_law : ∀ c pos w, objs (io_nobjects_from c pos w).2 = objs w;
  nobjects_law : ∀ c f w, objs (io_nobjects c f w).2 = objs w;
}.

Section law_lemmas.
Context `{LibradosLaws W}.

Lemma operate_ok c oid ops w :
    0 <= (io_operate c oid ops w).1 →
    ∃ now, apply_ops now (c, oid) ops (objs w) = Some (objs (io_operate c oid ops w).2).
Proof. intros. destruct (operate_law c oid ops w) as (now & Hok & _). exists now. auto. Qed.

Lemma operate_not_timed_out c oid ops w :
    (io_operate c oid ops w).1 < 0 → (io_operate c oid ops w).1 ≠ - ETIMEDOUT →
    objs (io_operate c oid ops w).2 = objs w.
Proof.
    intros Hr Ht. destruct (operate_law c oid ops w) as (now & _ & Hf).
    destruct (Hf Hr) as [E|[E _]]; [done|congruence].
Qed.

(** Whatever the outcome, a write to one object leaves every other one. *)
Lemma apply_ops_frame now k k' ops m m' :
    apply_ops now k ops m = Some m' → k' ≠ k → m' !! k' = m !! k'.
Proof.
    unfold apply_ops. intros E Hk. destruct (apply_obj _ m _ ops) as [o|]; [|done].
    cbn in E. simplify_eq. destruct o; [by apply lookup_insert_ne|by apply lookup_delete_ne].
Qed.

Lemma write_outcome_frame k k' ops r m m' :
    write_outcome k ops r m m' → k' ≠ k → m' !! k' = m !! k'.
Proof.
    intros (now & Hok & Hf) Hk. destruct (decide (0 <= r)) as [Hr|Hr].
    - by eapply apply_ops_frame; [apply Hok|].
    - destruct (Hf ltac:(lia)) as [->|[_ E]]; [done|]. by eapply apply_ops_frame.
Qed.

Lemma operate_frame c oid ops w k' :
    k' ≠ (c, oid) → objs (io_operate c oid ops w).2 !! k' = objs w !! k'.
Proof. intros. eapply write_outcome_frame; [apply operate_law|done]. Qed.

Lemma aio_operate_frame c oid ops w k' :
    k' ≠ (c, oid) → objs (io_aio_operate c oid ops w).2 !! k' = objs w !! k'.
Proof.
    intros Hk. pose proof (aio_operate_law c oid ops w) as H'.
    destruct (io_aio_operate c oid ops w) as [[sub val] w']. destruct H' as [Hs Hv]. cbn.
    destruct (decide (sub < 0)) as [?|?]; [by rewrite Hs|].
    eapply write_outcome_frame; [apply Hv; lia|done].
Qed.

Lemma apply_ops_remove now k m m' :
    apply_ops now k [OpRemove] m = Some m' → m' = delete k m ∧ is_Some (m !! k).
Proof.
    unfold apply_ops. destruct (m !! k) eqn:E; cbn; intros; simplify_eq. by split.
Qed.
End law_lemmas.

(** A cluster without failures: a write fails only when it cannot be applied. *)
Class CalmWorld (W : Type) `{LibradosLaws W} := {
  calm : W → Prop;
  calm_operate : ∀ c oid ops w, calm w →
    let '(r, w') := io_operate c oid ops w in
    calm w' ∧ (r < 0 → objs w' = objs w ∧ ∃ now, apply_ops now (c, oid) ops (objs w) = None);
  calm_aio_operate : ∀ c oid ops w, calm w →
    let '((sub, val), w') := io_aio_operate c oid ops w in
    calm w' ∧ 0 <= sub ∧ (val < 0 → objs w' = objs w ∧ ∃ now, apply_ops now (c, oid) ops (objs w) = None);
}.

Lemma calm_effect `{CalmWorld W} c oid ops w :
  calm w → ∃ now, objs (io_operate c oid ops w).2 = default (objs w) (apply_ops now (c, oid) ops (objs w)).
Proof.
  intros Hw. pose proof (calm_operate c oid ops w Hw) as Hc. pose proof (operate_ok c oid ops w) as Hok.
  destruct (io_operate c oid ops w) as [r w']. cbn [fst snd] in *. destruct Hc as [_ Hf].
  destruct (decide (r < 0)) as [Hr|Hr].
  - destruct (Hf Hr) as (-> & now & E). exists now. by rewrite E.
  - destruct (Hok ltac:(lia)) as [now E]. exists now. by rewrite E.
Qed.

Lemma calm_aio_effect `{CalmWorld W} c oid ops w :
  calm w → ∃ now, objs (io_aio_operate c oid ops w).2 = default (objs w) (apply_ops now (c, oid) ops (objs w)).
Proof.
  intros Hw. pose proof (calm_aio_operate c oid ops w Hw) as Hc. pose proof (aio_operate_law c oid ops w) as Hl.
  destruct (io_aio_operate c oid ops w) as [[sub val] w']. cbn [fst snd] in *. destruct Hc as (_ & Hsub & Hf).
  destruct (decide (val < 0)) as [Hr|Hr].
  - destruct (Hf Hr) as (-> & now & E). exists now. by rewrite E.
  - destruct Hl as [_ Hl]. destruct (Hl Hsub) as (now & Hok & _). exists now. by rewrite (Hok ltac:(lia)).
Qed.

(** ** A concrete world *)

(** The objects, the time, and the outcomes forced on the calls to come: a
    negative number makes a call fail with it, [0] lets it run. *)
Record MemCluster := mk_mem { mc_objs : store; mc_faults : list Z; mc_now : Z }.

Module Mem.
(** The outcome forced on this call. *)
Definition next (w : MemCluster) : Z * MemCluster :=
    match mc_faults w with
    | [] => (0, w)
    | f :: fs => (Z.min f 0, mk_mem (mc_objs w) fs (mc_now w))
    end.

Definition operate (c : ioctx) (oid : string) (ops : list write_op) : ST MemCluster Z :=
    λ w, let '(f, w) := next w in
         if decide (f < 0) then (f, w)
         else match apply_ops (mc_now w) (c, oid) ops (mc_objs w) with
              | Some m => (0, mk_mem m (mc_faults w) (mc_now w))
              | None => (- ENOENT, w)
              end.

Definition aio_operate (c : ioctx) (oid : string) (ops : list write_op) : ST MemCluster (Z * Z) :=
    λ w, let '(r, w) := operate c oid ops w in ((0, r), w).

(** A read of one object: its failure code, or a view of the object. *)
Definition read_obj {A} (c : ioctx) (oid : string) (fail : A) (view : robject → Z * A) :
      ST MemCluster (Z * A) :=
    λ w, let '(f, w) := next w in
         if decide (f < 0) then ((f, fail), w)
         else match mc_objs w !! (c, oid) with
              | None => ((- ENOENT, fail), w)
              | Some ob => (view ob, w)
              end.

(** A compound read; the parts of a failed one keep the code [-1]. *)
Definition operate_read (c : ioctx) (oid : string) (ops : list read_op) :
      ST MemCluster (Z * list (Z * attrs)) :=
    read_obj c oid ((λ _, (-1, ∅)) <$> ops) (λ ob, (0, (λ op, (0, read_view op ob)) <$> ops)).
Definition aio_operate_read (c : ioctx) (oid : string) (ops : list read_op) :
      ST MemCluster ((Z * Z) * list (Z * attrs)) :=
    λ w, let '((r, outs), w) := operate_read c oid ops w in (((0, r), outs), w).

Definition objects_of (c : ioctx) (w : MemCluster) : list string :=
    merge_sort String.le
      (omap (λ '((c', oid), _), if decide (c' = c) then Some oid else None) (map_to_list (mc_objs w))).

Lemma next_objs w : mc_objs (next w).2 = mc_objs w.
Proof. unfold next. by destruct (mc_faults w). Qed.

Lemma operate_outcome c oid ops w :
    write_outcome (c, oid) ops (operate c oid ops w).1 (mc_objs w) (mc_objs (operate c oid ops w).2).
Proof.
    unfold operate. pose proof (next_objs w) as E. destruct (next w) as [f w'].
    cbn in E. rewrite <- E. exists (mc_now w'). case_decide; cbn; [split; [lia|by left]|].
    destruct (apply_ops _ (c, oid) ops (mc_objs w')) eqn:E'; cbn;
      (split; [done || lia|]); [done|by left].
Qed.

Lemma read_obj_law {A} c oid (fail : A) view w :
    let '((r, a), w') := read_obj c oid fail view w in
    mc_objs w' = mc_objs w ∧
    ((r < 0 ∧ a = fail) ∨ ∃ ob, mc_objs w !! (c, oid) = Some ob ∧ (r, a) = view ob).
Proof.
    unfold read_obj. pose proof (next_objs w) as E. destruct (next w) as [f w'].
    cbn in E. rewrite <- E. case_decide; cbn; [split; [done|by left]|].
    destruct (mc_objs w' !! (c, oid)) as [ob|]; cbn.
    - destruct (view ob) as [r a] eqn:E'. split; [done|]. right. by exists ob.
    - split; [done|]. left. split; [|done]. unfold ENOENT. lia.
Qed.

Lemma operate_read_outcome c oid ops w :
    let '((r, outs), w') := operate_read c oid ops w in
    mc_objs w' = mc_objs w ∧ read_outcome (c, oid) ops r outs (mc_objs w).
Proof.
    unfold operate_read.
    match goal with |- context [read_obj c oid ?f ?v w] => pose proof (read_obj_law c oid f v w) as E end.
    destruct (read_obj _ _ _ _ w) as [[r outs] w']. destruct E as [? [[? ->]|(ob & ? & ?)]]; simplify_eq.
    - split; [done|]. split; [by rewrite length_fmap|lia].
    - split; [done|]. split; [by rewrite length_fmap|]. intros _. exists ob. split; [done|].
      apply Forall2_fmap_r, Forall_Forall2_diag, Forall_true. done.
Qed.
End Mem.

#[export] Instance mem_librados : Librados MemCluster := {
  io_operate := Mem.operate;
  io_aio_operate := Mem.aio_operate;
  io_read c oid len off := Mem.read_obj c oid "" (λ ob,
    let bl := read_range len off (ob_data ob) in (Z.of_nat (slen bl), bl));
  io_stat c oid := Mem.read_obj c oid None (λ ob,
    (0, Some (Z.of_nat (slen (ob_data ob)), ob_mtime ob)));
  io_getxattrs c oid := Mem.read_obj c oid ∅ (λ ob, (0, ob_xattrs ob));
  io_omap_get_keys c oid := Mem.read_obj c oid ∅ (λ ob, (0, dom (ob_omap ob)));
  io_omap_get_vals_by_keys c oid ks := Mem.read_obj c oid ∅ (λ ob,
    (0, filter (λ kv, kv.1 ∈ ks) (ob_omap ob)));
  io_omap_get_vals c oid p := Mem.read_obj c oid ∅ (λ ob,
    (0, filter (λ kv, String.prefix p kv.1 = true) (ob_omap ob)));
  io_operate_read := Mem.operate_read;
  io_aio_operate_read := Mem.aio_operate_read;
  io_nobjects c f := λ w, (Mem.objects_of c w, w);
  io_nobjects_from c pos := λ w, (Mem.objects_of c w, w);
}.

#[export] Program Instance mem_librados_laws : LibradosLaws MemCluster := {| objs := mc_objs |}.
Next Obligation. intros. apply Mem.operate_outcome. Qed.
Next Obligation.
  intros c oid ops w. cbn. unfold Mem.aio_operate. pose proof (Mem.operate_outcome c oid ops w) as E.
  destruct (Mem.operate c oid ops w) as [r w']. split; [lia|done].
Qed.
Ltac mem_read :=
  match goal with |- context [Mem.read_obj ?c ?o ?f ?v ?w] =>
    let E := fresh in pose proof (Mem.read_obj_law c o f v w) as E;
    destruct (Mem.read_obj c o f v w) as [[? ?] ?]; destruct E as [? [[? ->]|(? & ? & ?)]]
  end; simplify_eq; repeat split; intros; try done; try lia; eauto.
Next Obligation. intros. cbn. mem_read. all: cbn; lia. Qed.
Next Obligation. intros. cbn. mem_read. Qed.
Next Obligation. intros. cbn. mem_read. Qed.
Next Obligation. intros. cbn. mem_read. Qed.
Next Obligation. intros. cbn. mem_read. Qed.
Next Obligation. intros. cbn. mem_read. Qed.
Next Obligation. intros. apply Mem.operate_read_outcome. Qed.
Next Obligation.
  intros c oid ops w. cbn. unfold Mem.aio_operate_read. pose proof (Mem.operate_read_outcome c oid ops w) as E.
  destruct (Mem.operate_read c oid ops w) as [[r outs] w']. destruct E as [? E]. by repeat split; [|apply E..].
Qed.
Next Obligation. done. Qed.
Next Obligation. done. Qed.

(** Without a schedule of failures. *)
#[export] Program Instance mem_calm : CalmWorld MemCluster := {| calm w := mc_faults w = [] |}.
Next Obligation.
  intros c oid ops [m fs now]. cbn. intros ->. cbn.
  destruct (apply_ops now (c, oid) ops m) eqn:E; cbn; (split; [done|]); [lia|].
  intros _. split; [done|]. by exists now.
Qed.
Next Obligation.
  intros c oid ops [m fs now]. cbn. intros ->. unfold Mem.aio_operate. cbn.
  destruct (apply_ops now (c, oid) ops m) eqn:E; cbn; (split; [done|]); (split; [lia|]); [lia|].
  intros _. split; [done|]. by exists now.
Qed.
