(* ===== verification/Cluster.v ===== *)
(** The connection to the cluster ([RadosClusterImpl], rados-cluster-impl.cpp):
    a handle, a reference count and a connected flag, all static and hence
    shared by the storages of a process. *)
From S2P Require Export Librados.
From Stdlib Require Import Ascii.

(** The calls on [librados::Rados]. *)
Class RadosAdmin (W : Type) := {
  ra_init : option (string * string) → ST W Z;      (** [init(nullptr)] or [init2(user, cluster)] *)
  ra_conf_parse_env : ST W Z;
  ra_conf_read_file : ST W Z;
  ra_conf_get : string → ST W (Z * string);
  ra_conf_set : string → string → ST W Z;
  ra_connect : ST W Z;
  ra_shutdown : ST W unit;
  ra_pool_list2 : ST W (Z * list (Z * string));
  ra_pool_create : string → ST W Z;
  ra_ioctx_create : string → ST W (Z * option ioctx);
  ra_mon_command : string → ST W bufferlist;
}.

(** The calls report success with [0] and an error with a negative number; a
    new context is in the default namespace of the pool it was created for. *)
Class RadosAdminLaws (W : Type) `{RadosAdmin W} := {
  ra_init_law : ∀ names w, (ra_init names w).1 <= 0;
  ra_connect_law : ∀ w, (ra_connect w).1 <= 0;
  ra_conf_get_law : ∀ o w, (ra_conf_get o w).1.1 <= 0;
  ra_pool_list2_law : ∀ w, (ra_pool_list2 w).1.1 <= 0;
  ra_pool_create_law : ∀ pool w, (ra_pool_create pool w).1 <= 0;
  ra_ioctx_create_law : ∀ pool w, let r := (ra_ioctx_create pool w).1 in
    (r.1 = 0 ∧ r.2 = Some (mk_ioctx pool "")) ∨ (r.1 < 0 ∧ r.2 = None);
}.

Record RadosClusterImpl := mk_cluster {
  cl_cluster : bool;              (** the static pointer is not null *)
  cluster_ref_count : Z;          (** an [int] *)
  cl_connected : bool;
}.

Module Cluster.
Definition initial : RadosClusterImpl := mk_cluster false 0 false.

Definition CLIENT_MOUNT_TIMEOUT : string := "client_mount_timeout".
Definition RADOS_MON_OP_TIMEOUT : string := "rados_mon_op_timeout".
Definition RADOS_OSD_OP_TIMEOUT : string := "rados_osd_op_timeout".
Definition TIMEOUT_DEFAULT : string := "600".

Definition set_handle (h : bool) (c : RadosClusterImpl) : RadosClusterImpl :=
  mk_cluster h (cluster_ref_count c) (cl_connected c).
Definition set_ref (n : Z) (c : RadosClusterImpl) : RadosClusterImpl :=
  mk_cluster (cl_cluster c) n (cl_connected c).
Definition set_connected (b : bool) (c : RadosClusterImpl) : RadosClusterImpl :=
  mk_cluster (cl_cluster c) (cluster_ref_count c) b.

Section ops.
Context `{RadosAdmin W}.
  Abbreviation M := (ST (RadosClusterImpl * W)).

Definition get : M RadosClusterImpl := on_fst st_get.
Definition modify (f : RadosClusterImpl → RadosClusterImpl) : M unit := on_fst (st_modify f).
Definition rados {A} (m : ST W A) : M A := on_snd m.

(** Every call of [librados::Rados] goes through the static pointer; [None]: it is null, and
    the program ends. *)
Definition get_config_option (name : string) : M (option (Z * string)) :=
    c ← get;
    if cl_cluster c then r ← rados (ra_conf_get name); mret (Some r) else mret None.

(** The options set with [set_config_option], in the map's order. *)
Variable client_options : list (string * string).

(** Only the configuration of the handle, which [init] has just made, is touched. *)
Definition initialize : ST W Z :=
    ret ← ra_conf_parse_env;
    (if decide (ret = 0) then ra_conf_read_file else mret ret) ;;
    '(r, _) ← ra_conf_get CLIENT_MOUNT_TIMEOUT;
    (if decide (r < 0) then (ra_conf_set CLIENT_MOUNT_TIMEOUT TIMEOUT_DEFAULT) else mret 0) ;;
    '(ret, cfg_value) ← ra_conf_get RADOS_MON_OP_TIMEOUT;
    (if decide (ret < 0 ∨ cfg_value = "0")
     then (ra_conf_set RADOS_MON_OP_TIMEOUT TIMEOUT_DEFAULT) else mret 0) ;;
    '(ret, cfg_value) ← ra_conf_get RADOS_OSD_OP_TIMEOUT;
    (if decide (ret < 0 ∨ cfg_value = "0")
     then (ra_conf_set RADOS_OSD_OP_TIMEOUT TIMEOUT_DEFAULT) else mret 0) ;;
    st_iter (λ kv, (ra_conf_set kv.1 kv.2) ;; mret tt) client_options ;;
    mret ret.

(** Both overloads of [init]: [names] is [Some (user, cluster)] for the second. *)
Definition init (names : option (string * string)) : M Z :=
    c ← get;
    ret ← (if decide (cluster_ref_count c = 0) then
             modify (set_handle true) ;;
             ret ← rados (ra_init names);
             if decide (ret = 0) then rados initialize else mret ret
           else mret 0);
    (if decide (ret = 0) then modify (λ c, set_ref (int32 (cluster_ref_count c + 1)) c) else mret tt) ;;
    mret ret.

Definition is_connected : M bool := c ← get; mret (cl_connected c).

Definition connect : M Z :=
    c ← get;
    if bool_decide (cluster_ref_count c > 0) && negb (cl_connected c) then
      ret ← rados ra_connect;
      modify (set_connected (bool_decide (ret = 0))) ;;
      mret ret
    else mret 0.

Definition deinit : M unit :=
    c ← get;
    if decide (cluster_ref_count c > 0) then
      modify (λ c, set_ref (cluster_ref_count c - 1) c) ;;
      if decide (cluster_ref_count c - 1 = 0) then
        if cl_connected c then
          rados ra_shutdown ;;
          modify (λ c, set_handle false (set_connected false c))
        else mret tt
      else mret tt
    else mret tt.

Definition pool_create (pool : string) : M (option Z) :=
    ret ← connect;
    if decide (ret < 0) then mret (Some ret) else
    c ← get;
    if negb (cl_cluster c) then mret None else
    '(ret, pool_list) ← rados ra_pool_list2;
    if decide (ret < 0) then mret (Some ret) else
    let pool_found := existsb (λ p, bool_decide (p.2 = pool)) pool_list in
    if pool_found then mret (Some ret) else ret ← rados (ra_pool_create pool); mret (Some ret).

(** The context is [None] when the out parameter was not set. *)
Definition pool_ctx (pool : string) : M (option (Z * option ioctx)) :=
    ret ← pool_create pool;
    match ret with
    | None => mret None
    | Some ret =>
        if decide (ret = 0) then r ← rados (ra_ioctx_create pool); mret (Some r)
        else mret (Some (ret, None))
    end.
Definition io_ctx_create (pool : string) : M (option (Z * option ioctx)) :=
    c ← get;
    if decide (cluster_ref_count c = 0) then mret (Some (- ENOENT, None)) else
    ret ← connect;
    if decide (ret < 0) then mret (Some (ret, None)) else pool_ctx pool.

Definition recovery_index_io_ctx (pool : string) : M (option (Z * option ioctx)) :=
    conn ← is_connected;
    if negb conn then mret (Some (-1, None)) else pool_ctx pool.

(** A text in double quotes (ASCII 34). *)
Definition quoted (s : string) : string := String "034" (s +:+ String "034" "").
Definition pg_cmd (pool_name : string) : string :=
    "{" +:+ quoted "prefix" +:+ ": " +:+ quoted "pg ls-by-pool" +:+ ", " +:+
    quoted "poolstr" +:+ ": " +:+ quoted pool_name +:+ "}".

(** Sends the listing command; [None]: the handle is null. *)
Definition list_pgs (pool_name : string) : M (option bufferlist) :=
    conn ← is_connected;
    (if (conn : bool) then mret 0 else connect) ;;
    c ← get;
    if cl_cluster c then outbl ← rados (ra_mon_command (pg_cmd pool_name)); mret (Some outbl)
    else mret None.

Definition list_pgs_for_pool (pool_name : string) : M (option (list string)) :=
    out ← list_pgs pool_name;
    mret (out ≫= λ bl, extractPgs (c_str bl)).

Definition list_pgs_osd_for_pool (pool_name : string) :
      M (option (gmap string (list string))) :=
    out ← list_pgs pool_name;
    mret (out ≫= λ bl, extractPgAndPrimaryOsd (c_str bl)).
End ops.

(** ** The state machine: every operation of the class as a step *)

Section machine.
Context `{RadosAdmin W}.

Inductive step : RadosClusterImpl * W → RadosClusterImpl * W → Prop :=
  | step_init opts names s :
      cluster_ref_count s.1 < INT_MAX → step s (init opts names s).2  (** beyond, C++ gives no meaning *)
  | step_connect s : step s (connect s).2
  | step_deinit s : step s (deinit s).2
  | step_pool_create pool s : is_Some (pool_create pool s).1 → step s (pool_create pool s).2
  | step_io_ctx_create pool s : is_Some (io_ctx_create pool s).1 → step s (io_ctx_create pool s).2
  | step_recovery pool s : is_Some (recovery_index_io_ctx pool s).1 → step s (recovery_index_io_ctx pool s).2
  | step_list_pgs pool s : is_Some (list_pgs pool s).1 → step s (list_pgs pool s).2
  | step_get_config_option name s : is_Some (get_config_option name s).1 → step s (get_config_option name s).2
  | step_other c w w' : step (c, w) (c, w').  (** the cluster moves on its own *)

(** A referenced connection has a handle, and only it may be connected. *)
Definition inv (c : RadosClusterImpl) : Prop :=
    0 <= cluster_ref_count c <= INT_MAX ∧
    (cl_connected c = true → 0 < cluster_ref_count c) ∧
    (0 < cluster_ref_count c → cl_cluster c = true).

  Abbreviation I := (λ s : RadosClusterImpl * W, inv s.1).

Lemma keep_rados {A} P (m : ST W A) :
    triple (λ s : RadosClusterImpl * W, P s.1) (rados m) (λ _ s, P s.1).
Proof. intros [c w] Hc. unfold rados. by rewrite on_snd_run. Qed.

Lemma cluster_get_run (s : RadosClusterImpl * W) : get s = (s.1, s).
Proof. by destruct s. Qed.
Lemma cluster_modify_run f (s : RadosClusterImpl * W) : modify f s = (tt, (f s.1, s.2)).
Proof. by destruct s. Qed.

Lemma rados_run {A} (m : ST W A) (s : RadosClusterImpl * W) :
    rados m s = ((m s.2).1, (s.1, (m s.2).2)).
Proof. destruct s. unfold rados. by rewrite on_snd_run. Qed.

Ltac run := repeat (first [rewrite ret_eq | rewrite bind_eq | rewrite cluster_get_run | rewrite cluster_modify_run | rewrite rados_run];
                      cbn [fst snd]).

Lemma connect_run s :
    connect s =
      if bool_decide (cluster_ref_count s.1 > 0) && negb (cl_connected s.1)
      then let r := ra_connect s.2 in (r.1, (set_connected (bool_decide (r.1 = 0)) s.1, r.2))
      else (0, s).
Proof. unfold connect. run. case_match; [run|]; by destruct s. Qed.

Lemma connect_same s :
    cluster_ref_count (connect s).2.1 = cluster_ref_count s.1 ∧
    cl_cluster (connect s).2.1 = cl_cluster s.1 ∧
    (cl_connected s.1 = true → connect s = (0, s)) ∧
    ((connect s).1 = 0 → 0 < cluster_ref_count s.1 → cl_connected (connect s).2.1 = true).
Proof.
    rewrite connect_run. destruct (cl_connected s.1) eqn:E.
    - rewrite andb_false_r. by repeat split.
    - rewrite andb_true_r. case_bool_decide; cbn; repeat split; try done.
      + intros ->. by rewrite bool_decide_eq_true_2.
      + intros _ ?. lia.
Qed.

(** The operations that create pools and contexts only ever connect. *)
Definition only_connects {A} (m : ST (RadosClusterImpl * W) A) : Prop :=
    ∀ s, cluster_ref_count (m s).2.1 = cluster_ref_count s.1 ∧
         cl_cluster (m s).2.1 = cl_cluster s.1 ∧
         (cl_connected s.1 = true → cl_connected (m s).2.1 = true) ∧
         (cl_connected (m s).2.1 = true → cl_connected s.1 = true ∨ 0 < cluster_ref_count s.1).

Lemma oc_ret {A} (a : A) : only_connects (mret a).
Proof. intros s. cbn. tauto. Qed.
Lemma oc_rados {A} (m : ST W A) : only_connects (rados m).
Proof. intros s. rewrite rados_run. cbn. tauto. Qed.
Lemma oc_get : only_connects get.
Proof. intros s. rewrite cluster_get_run. cbn. tauto. Qed.
Lemma oc_bind {A B} m (k : A → ST (RadosClusterImpl * W) B) :
    only_connects m → (∀ a, only_connects (k a)) → only_connects (m ≫= k).
Proof.
    intros Hm Hk s. rewrite bind_eq. specialize (Hm s). specialize (Hk (m s).1 (m s).2).
    destruct Hm as (E1 & E2 & E3 & E4), Hk as (F1 & F2 & F3 & F4).
    rewrite F1, F2, E1, E2. repeat split; [tauto|]. intros H'. destruct (F4 H') as [?|?]; [tauto|lia].
Qed.
Lemma oc_connect : only_connects connect.
Proof.
    intros s. rewrite connect_run. destruct (cl_connected s.1) eqn:E.
    - rewrite andb_false_r. cbn. rewrite E. tauto.
    - rewrite andb_true_r. case_bool_decide; cbn; rewrite ?E; repeat split; try done; intros; right; lia.
Qed.
End machine.

Ltac oc := repeat first [apply oc_ret | apply oc_rados | apply oc_get | apply oc_connect
                        | apply oc_bind; [|intros ?] | progress cbv zeta | case_decide | case_match].
Ltac run := repeat (first [rewrite ret_eq | rewrite bind_eq | rewrite cluster_get_run | rewrite cluster_modify_run | rewrite rados_run];
                    cbn [fst snd]).

Section machine_lemmas.
Context `{RadosAdmin W}.

Lemma oc_pool_create pool : only_connects (pool_create pool).
Proof. unfold pool_create. oc. Qed.
Lemma oc_pool_ctx pool : only_connects (pool_ctx pool).
Proof. unfold pool_ctx. repeat (apply oc_pool_create || oc). Qed.
Lemma oc_io_ctx_create pool : only_connects (io_ctx_create pool).
Proof. unfold io_ctx_create. repeat (apply oc_pool_ctx || oc). Qed.
Lemma oc_recovery pool : only_connects (recovery_index_io_ctx pool).
Proof. unfold recovery_index_io_ctx, is_connected. repeat (apply oc_pool_ctx || oc). Qed.
Lemma oc_get_config_option name : only_connects (get_config_option name).
Proof. unfold get_config_option. oc. Qed.
Lemma oc_list_pgs pool : only_connects (list_pgs pool).
Proof. unfold list_pgs, is_connected. oc. Qed.

Lemma inv_only_connects {A} (m : ST (RadosClusterImpl * W) A) s :
    only_connects m → inv s.1 → inv (m s).2.1.
Proof.
    intros Hm (I1 & I2 & I3). destruct (Hm s) as (E1 & E2 & E3 & E4). unfold inv.
    rewrite E1, E2. split; [done|]. split; [|done]. intros Hc. destruct (E4 Hc); [by apply I2|done].
Qed.

Lemma init_run opts names s :
    init opts names s =
      if decide (cluster_ref_count s.1 = 0) then
        let r := ra_init names s.2 in
        let i := if decide (r.1 = 0) then initialize opts r.2 else r in
        (i.1, (set_ref (cluster_ref_count s.1 + (if decide (i.1 = 0) then 1 else 0))
                 (set_handle true s.1), i.2))
      else (0, (set_ref (int32 (cluster_ref_count s.1 + 1)) s.1, s.2)).
Proof.
    unfold init. run. destruct (decide (cluster_ref_count s.1 = 0)) as [E|E]; run.
    - rewrite E. destruct (decide ((ra_init names s.2).1 = 0)) as [E'|E']; run.
      + destruct (decide ((initialize opts (ra_init names s.2).2).1 = 0)); run;
          unfold set_ref, set_handle; cbn; by rewrite E.
      + rewrite !decide_False by done. run. unfold set_ref, set_handle. cbn. by rewrite E.
    - rewrite decide_True by done. by run.
Qed.

Lemma deinit_run s :
    deinit s =
      if decide (cluster_ref_count s.1 > 0) then
        if decide (cluster_ref_count s.1 = 1) then
          if cl_connected s.1 then (tt, (initial, (ra_shutdown s.2).2))
          else (tt, (set_ref 0 s.1, s.2))
        else (tt, (set_ref (cluster_ref_count s.1 - 1) s.1, s.2))
      else (tt, s).
Proof.
    destruct s as [[h n b] w]. unfold deinit. run. cbn.
    destruct (decide (n > 0)); run; cbn; [|done].
    destruct (decide (n - 1 = 0)), (decide (n = 1)); try lia; [|done].
    subst n. destruct b; run; done.
Qed.

Lemma inv_step s s' : inv s.1 → step s s' → inv s'.1.
Proof.
    intros Hs Hst.
    destruct Hst as [opts names t Hmax|t|t|pool t _|pool t _|pool t _|pool t _|name t _|c w w'].
    - rewrite init_run. destruct Hs as (I1 & I2 & I3). unfold inv. unfold INT_MAX in *.
      rewrite (wrap_s_small 32 (cluster_ref_count t.1 + 1)) by (cbn; lia).
      destruct (decide (cluster_ref_count t.1 = 0)) as [E|E]; cbn;
        [destruct (decide ((if decide _ then _ else _).1 = 0)); cbn|];
        (split; [lia|split; intros; [|try done; apply I3; lia]]);
        match goal with H' : cl_connected _ = true |- _ => specialize (I2 H'); lia end.
    - by apply inv_only_connects, Hs; apply oc_connect.
    - rewrite deinit_run. destruct Hs as (I1 & I2 & I3).
      destruct (decide (cluster_ref_count t.1 > 0)); [|done].
      destruct (decide (cluster_ref_count t.1 = 1)); [destruct (cl_connected t.1) eqn:E|];
        unfold inv, INT_MAX in *; cbn; (split; [lia|split; intros; try done]); try congruence; try lia.
      apply I3. lia.
    - by apply inv_only_connects, Hs; apply oc_pool_create.
    - by apply inv_only_connects, Hs; apply oc_io_ctx_create.
    - by apply inv_only_connects, Hs; apply oc_recovery.
    - by apply inv_only_connects, Hs; apply oc_list_pgs.
    - by apply inv_only_connects, Hs; apply oc_get_config_option.
    - done.
Qed.

(** Which calls the null handle ends. *)
Lemma connect_handle s : cl_cluster (connect s).2.1 = cl_cluster s.1.
Proof. apply connect_same. Qed.
Lemma connect_null s : inv s.1 → cl_cluster s.1 = false → connect s = (0, s).
Proof.
    intros (I1 & I2 & I3) Hh. rewrite connect_run, bool_decide_eq_false_2; [done|].
    intros Hn. rewrite I3 in Hh by lia. done.
Qed.
Lemma pool_create_handle pool s : cl_cluster s.1 = true → is_Some (pool_create pool s).1.
Proof.
    intros Hh. unfold pool_create. run. case_decide; run; [done|]. run. rewrite connect_handle, Hh. cbn [negb].
    run. destruct (ra_pool_list2 _) as [[r l] w']. cbn [fst snd]. case_decide; [by run|]. cbv zeta. case_match; by run.
Qed.
Lemma pool_create_null pool s : inv s.1 → (pool_create pool s).1 = None ↔ cl_cluster s.1 = false.
Proof.
    intros Hi. destruct (cl_cluster s.1) eqn:Hh.
    - pose proof (pool_create_handle pool s Hh) as [r ->]. done.
    - split; [done|]. intros _. unfold pool_create. run. rewrite connect_null by done. cbn [fst snd].
      rewrite decide_False by lia. run. by rewrite Hh.
Qed.
Lemma list_pgs_null pool s : (list_pgs pool s).1 = None ↔ cl_cluster s.1 = false.
Proof.
    unfold list_pgs, is_connected. run. destruct (cl_connected s.1) eqn:Hc; run.
    - destruct (cl_cluster s.1); by run.
    - rewrite connect_handle. destruct (cl_cluster s.1); by run.
Qed.
Lemma get_config_option_null name s : (get_config_option name s).1 = None ↔ cl_cluster s.1 = false.
Proof. unfold get_config_option. run. destruct (cl_cluster s.1); by run. Qed.
Lemma pool_ctx_handle pool s : cl_cluster s.1 = true → is_Some (pool_ctx pool s).1.
Proof.
    intros Hh. unfold pool_ctx. run. destruct (pool_create_handle pool s Hh) as [r ->]. case_decide; by run.
Qed.
Lemma io_ctx_create_handle pool s : inv s.1 → is_Some (io_ctx_create pool s).1.
Proof.
    intros (I1 & I2 & I3). unfold io_ctx_create. run. case_decide; [by run|]. run. case_decide; [by run|].
    apply pool_ctx_handle. rewrite connect_handle. apply I3. lia.
Qed.
Lemma recovery_handle pool s : inv s.1 → is_Some (recovery_index_io_ctx pool s).1.
Proof.
    intros (I1 & I2 & I3). unfold recovery_index_io_ctx, is_connected. run.
    destruct (cl_connected s.1); cbn [negb]; [|by run]. apply pool_ctx_handle, I3, I2. done.
Qed.

Lemma connect_ok `{!RadosAdminLaws W} s :
    0 < cluster_ref_count s.1 → 0 <= (connect s).1 → cl_connected (connect s).2.1 = true.
Proof.
    intros Hn. rewrite connect_run. rewrite bool_decide_eq_true_2 by lia.
    destruct (cl_connected s.1) eqn:E; cbn; [done|]. intros.
    pose proof (ra_connect_law s.2). apply bool_decide_eq_true_2. lia.
Qed.

(** A context is created only after a successful [connect]. *)
Definition gives_ctx (r : option (Z * option ioctx)) : Prop := is_Some (r ≫= snd).
Lemma io_ctx_connected `{!RadosAdminLaws W} pool s :
    0 <= cluster_ref_count s.1 →
    gives_ctx (io_ctx_create pool s).1 → cl_connected (io_ctx_create pool s).2.1 = true.
Proof.
    intros Hn. unfold io_ctx_create, gives_ctx. run. destruct (decide (cluster_ref_count s.1 = 0)) as [E0|E0].
    { run. by intros []. }
    run. destruct (decide ((connect s).1 < 0)); [run; by intros []|]. intros _.
    assert (cl_connected (connect s).2.1 = true) as Hc by (apply connect_ok; lia).
    by apply (oc_pool_ctx pool (connect s).2).
Qed.

Lemma initialize_le `{!RadosAdminLaws W} opts w : (initialize opts w).1 <= 0.
Proof.
    revert w. enough (triple (λ _, True) (initialize opts) (λ r (_ : W), r <= 0)) as Ht
      by (intros w; by apply Ht).
    unfold initialize, get_config_option.
    assert (∀ A B (m : ST W A) (k : A → ST W B) Q, (∀ a, triple (λ _, True) (k a) Q) →
      triple (λ _, True) (m ≫= k) Q) as Hany.
    { intros A B m k Q Hk. by apply (triple_bind _ _ (λ _ _, True)). }
    do 2 (apply Hany; intros ?). apply Hany. intros [r1 v1]. apply Hany. intros ?.
    apply Hany. intros [r2 v2]. apply Hany. intros ?.
    apply (triple_bind _ _ (λ r _, r.1 <= 0)); [intros w _; apply ra_conf_get_law|]. intros [r3 v3].
    do 2 (apply (triple_bind _ _ (λ _ _, r3 <= 0)); [by intros ?|intros ?]). by intros ?.
Qed.

(** The outcome of [io_ctx_create] and [recovery_index_io_ctx]. *)
Definition ctx_result (pool : string) (r : Z * option ioctx) : Prop :=
    (r.1 = 0 ∧ r.2 = Some (mk_ioctx pool "")) ∨ (r.1 < 0 ∧ r.2 = None).
Definition ctx_answer (pool : string) (r : option (Z * option ioctx)) : Prop :=
    ∀ r', r = Some r' → ctx_result pool r'.

Lemma pool_create_le `{!RadosAdminLaws W} pool s ret : (pool_create pool s).1 = Some ret → ret <= 0.
Proof.
    unfold pool_create. run.
    destruct (decide ((connect s).1 < 0)); run; [intros [= <-]; lia|]. run.
    destruct (negb _); [by run|]. run.
    destruct (ra_pool_list2 (connect s).2.2) as [[r l] w'] eqn:E.
    pose proof (ra_pool_list2_law (connect s).2.2) as Hl. rewrite E in *. cbn [fst snd] in *.
    destruct (decide (r < 0)); run; [intros [= <-]; lia|]. cbv zeta. case_match; run; intros [= <-]; [lia|].
    apply ra_pool_create_law.
Qed.
Lemma pool_ctx_result `{!RadosAdminLaws W} pool s : ctx_answer pool (pool_ctx pool s).1.
Proof.
    intros r. unfold pool_ctx. run. pose proof (pool_create_le pool s) as Hp.
    destruct (pool_create pool s).1 as [ret|]; [|by run]. specialize (Hp ret eq_refl).
    case_decide; run; intros [= <-]; [apply ra_ioctx_create_law|]. right. split; [cbn; lia|done].
Qed.
Lemma io_ctx_create_result `{!RadosAdminLaws W} pool s : ctx_answer pool (io_ctx_create pool s).1.
Proof.
    intros r. unfold io_ctx_create. run.
    destruct (decide (cluster_ref_count s.1 = 0)); run; [intros [= <-]; right; split; [unfold ENOENT; cbn; lia|done]|].
    destruct (decide ((connect s).1 < 0)); run; [intros [= <-]; by right|]. apply pool_ctx_result.
Qed.
Lemma recovery_result `{!RadosAdminLaws W} pool s : ctx_answer pool (recovery_index_io_ctx pool s).1.
Proof.
    intros r. unfold recovery_index_io_ctx, is_connected. run.
    destruct (cl_connected s.1); cbn [negb]; run; [apply pool_ctx_result|intros [= <-]; right; split; [cbn; lia|done]].
Qed.
End machine_lemmas.
End Cluster.

(** A cluster whose administrative calls succeed, with the pools it was started with. *)
#[export] Instance mem_admin : RadosAdmin MemCluster := {
  ra_init _ := Mem.next;
  ra_conf_parse_env := mret 0;
  ra_conf_read_file := mret 0;
  ra_conf_get o := mret (0, if decide (o = "osd_max_write_size") then "90"
                            else if decide (o = "osd_max_object_size") then "134217728" else "600");
  ra_conf_set _ _ := mret 0;
  ra_connect := Mem.next;
  ra_shutdown := mret tt;
  ra_pool_list2 := mret (0, [(1, "mail_storage")]);
  ra_pool_create _ := mret 0;
  ra_ioctx_create pool := mret (0, Some (mk_ioctx pool ""));
  ra_mon_command _ := mret "";
}.

#[export] Instance mem_admin_laws : RadosAdminLaws MemCluster.
Proof.
  assert (∀ w, (Mem.next w).1 <= 0) as Hn by (intros w; unfold Mem.next; destruct (mc_faults w); cbn; lia).
  split; try (by intros; cbn; lia); [by intros; apply Hn..|by left].
Qed.

Definition mem_empty : MemCluster := mk_mem ∅ [] 1000.

(** ** Properties *)



(** Closing the connection: while other users remain, [deinit] only gives up
    one reference; the last user shuts a connected cluster down and leaves the
    initial state; without references nothing happens. A context is only ever
    handed out by a connected, referenced cluster, and opening one never changes
    the reference count. *)
Theorem cluster_open_close `{RadosAdminLaws W} pool (s : RadosClusterImpl * W) :
  Cluster.inv s.1 →
  (1 < cluster_ref_count s.1 →
     Cluster.deinit s = (tt, (Cluster.set_ref (cluster_ref_count s.1 - 1) s.1, s.2))) ∧
  (cluster_ref_count s.1 = 1 → cl_connected s.1 = true →
     Cluster.deinit s = (tt, (Cluster.initial, (ra_shutdown s.2).2))) ∧
  (cluster_ref_count s.1 = 0 → Cluster.deinit s = (tt, s)) ∧
  let '(r, s') := Cluster.io_ctx_create pool s in
  cluster_ref_count s'.1 = cluster_ref_count s.1 ∧
  (cluster_ref_count s.1 = 0 → r = Some (- ENOENT, None) ∧ s' = s) ∧
  (Cluster.gives_ctx r → cl_connected s'.1 = true ∧ 0 < cluster_ref_count s'.1).
Proof.
  intros (I1 & I2 & I3). rewrite Cluster.deinit_run.
  split; [intros; by rewrite decide_True, decide_False by lia|].
  split; [intros ? ->; by rewrite !decide_True by lia|].
  split; [intros; by rewrite decide_False by lia|].
  pose proof (Cluster.oc_io_ctx_create pool s) as (E1 & _).
  pose proof (Cluster.io_ctx_connected pool s ltac:(lia)) as E2.
  assert (cluster_ref_count s.1 = 0 → Cluster.io_ctx_create pool s = (Some (- ENOENT, None), s)) as E0.
  { intros E0. unfold Cluster.io_ctx_create. Cluster.run. by rewrite decide_True. }
  destruct (Cluster.io_ctx_create pool s) as [r s'] eqn:E. cbn in E1, E2. rewrite E1.
  split; [done|]. split; [intros Hz; by specialize (E0 Hz) as [= -> ->]|].
  intros Hg. split; [by apply E2|]. destruct (decide (cluster_ref_count s.1 = 0)) as [Hz|]; [|lia].
  specialize (E0 Hz) as [= -> ->]. by destruct Hg.
Qed.

Lemma cluster_open_close_witness :
  let s := (mk_cluster true 1 false, mem_empty) in
  Cluster.inv s.1 ∧ (Cluster.io_ctx_create "mail_storage" s).1 = Some (0, Some (mk_ioctx "mail_storage" "")) ∧
  cl_connected (Cluster.io_ctx_create "mail_storage" s).2.1 = true.
Proof.
  intros s. assert (Cluster.inv s.1) as Hi by (unfold Cluster.inv, INT_MAX; cbn; naive_solver lia).
  split; [exact Hi|]. split; [vm_compute; reflexivity|].
  pose proof (cluster_open_close "mail_storage" s Hi) as (_ & _ & _ & Hc).
  assert (Cluster.io_ctx_create "mail_storage" s =
    (Some (0, Some (mk_ioctx "mail_storage" "")), (mk_cluster true 1 true, mem_empty))) as E
    by (vm_compute; reflexivity).
  rewrite E in Hc |- *. apply Hc. by eexists.
Defined.
