(* ===== verification/Chunks.v ===== *)
(** Splitting a mail buffer into write operations: the loop that
    [RadosStorageImpl::split_buffer_and_exec_op] (rados-storage-impl.cpp) and
    [save_mail_write_append] (rbox-save.cpp) share, with its integers at their
    C++ widths. *)
From S2P Require Export Librados.

(** [uint64_t rest = write_buffer_size % max_write]. *)
Definition chunk_rest (write_buffer_size max_write : Z) : Z := write_buffer_size `mod` max_write.
(** [int div = write_buffer_size / max_write + (rest > 0 ? 1 : 0)]. *)
Definition chunk_div (write_buffer_size max_write : Z) : Z :=
  int32 (write_buffer_size `div` max_write + (if decide (chunk_rest write_buffer_size max_write > 0) then 1 else 0)).
(** [int offset = i * max_write]. *)
Definition chunk_offset (max_write i : Z) : Z := int32 (uint64 (i * max_write)).
(** [uint64_t length]. *)
Definition chunk_length (write_buffer_size max_write i : Z) : Z :=
  if decide (write_buffer_size < uint64 ((i + 1) * max_write))
  then chunk_rest write_buffer_size max_write else max_write.

Section loop.
Context {S : Type}.
(** [for (int i = 0; i < div; ++i)] around a body whose negative result ends
      the loop with [-1]; [None] is a body that throws. *)
Fixpoint chunk_loop (body : Z → ST S (option Z)) (n : nat) (i ret_val : Z) : ST S (option Z) :=
    match n with
    | O => mret (Some ret_val)
    | Datatypes.S n =>
        r ← body i;
        match r with
        | None => mret None
        | Some r => if decide (r < 0) then mret (Some (-1)) else chunk_loop body n (i + 1) r
        end
    end.

(** The loop keeps an invariant indexed by the chunks written so far; [E] holds
      after a failure, which is an abort when its index is [true]. *)
Lemma chunk_loop_inv (P : Z → S → Prop) (E : bool → S → Prop) body n i ret_val s :
    (∀ j s, i <= j < i + Z.of_nat n → P j s →
       match (body j s).1 with
       | None => E true (body j s).2
       | Some v => if decide (v < 0) then E false (body j s).2 else P (j + 1) (body j s).2
       end) →
    P i s → 0 <= ret_val →
    match (chunk_loop body n i ret_val s).1 with
    | None => E true (chunk_loop body n i ret_val s).2
    | Some v => if decide (v < 0) then E false (chunk_loop body n i ret_val s).2
                else P (i + Z.of_nat n) (chunk_loop body n i ret_val s).2
    end.
Proof.
    revert i ret_val s. induction n as [|n IH]; intros i ret_val s Hb HP Hr; cbn [chunk_loop].
    - cbn. rewrite decide_False by lia. by rewrite Z.add_0_r.
    - rewrite bind_eq. specialize (Hb i s ltac:(lia) HP) as Hbi.
      destruct (body i s) as [[v1|] s1]; cbn [fst snd] in *; [|done].
      case_decide; [done|].
      replace (i + Z.of_nat (Datatypes.S n)) with (i + 1 + Z.of_nat n) by lia.
      apply IH; [|done|lia]. intros j t Hj. apply Hb. lia.
Qed.
End loop.

(** ** The chunks of a buffer of a size the program can hold *)

Section chunks.
Context (size max : Z) (Hsize : 0 < size < 2 ^ 31) (Hmax : 0 < max < 2 ^ 31).

Lemma chunk_div_bounds :
    0 < chunk_div size max ∧ (chunk_div size max - 1) * max < size <= chunk_div size max * max.
Proof.
    unfold chunk_div, chunk_rest.
    pose proof (Z.div_mod size max ltac:(lia)) as Hd.
    pose proof (Z.mod_pos_bound size max ltac:(lia)) as Hm.
    assert (0 <= size `div` max <= size) as [? ?].
    { split; [apply Z.div_pos; lia|]. apply Z.div_le_upper_bound; nia. }
    assert (size `div` max + (if decide (size `mod` max > 0) then 1 else 0) <= size) as Hle.
    { case_decide; [|lia]. enough (size `div` max < size) by lia. nia. }
    rewrite wrap_s_small by (cbn -[Z.div Z.modulo] in *; case_decide; lia). case_decide; nia.
Qed.

Lemma chunk_offset_eq i : 0 <= i < chunk_div size max → chunk_offset max i = i * max.
Proof.
    intros Hi. pose proof chunk_div_bounds as [? ?]. assert (0 <= i * max < 2 ^ 31) as Hb by nia.
    unfold chunk_offset. rewrite wrap_u_small by lia. apply wrap_s_small; lia.
Qed.

Lemma chunk_length_eq i :
    0 <= i < chunk_div size max → chunk_length size max i = Z.min max (size - i * max).
Proof.
    intros Hi. pose proof chunk_div_bounds as [? ?]. unfold chunk_length, chunk_rest.
    assert (0 <= (i + 1) * max < 2 ^ 32) as Hb by nia.
    rewrite wrap_u_small by lia. case_decide as Hc; [|nia].
    assert (i = chunk_div size max - 1) as -> by nia. rewrite Z.min_r by nia.
    symmetry. apply (Z.mod_unique_pos _ _ (chunk_div size max - 1)); nia.
Qed.

(** The end of the chunks up to [i]. *)
Definition chunk_end (i : Z) : Z := Z.min size (i * max).

Lemma chunk_end_next i :
    0 <= i < chunk_div size max →
    chunk_end i = i * max ∧ chunk_end (i + 1) = chunk_offset max i + chunk_length size max i.
Proof.
    intros Hi. pose proof chunk_div_bounds. rewrite chunk_offset_eq, chunk_length_eq by done.
    unfold chunk_end. split; nia.
Qed.
Lemma chunk_end_last : chunk_end (chunk_div size max) = size.
Proof. pose proof chunk_div_bounds. unfold chunk_end. lia. Qed.
End chunks.

(** Cutting a string. *)
Lemma str_take_substr n m s : str_take n s +:+ substr n m s = str_take (n + m) s.
Proof.
  unfold substr. revert s. induction n as [|n IH]; intros s; cbn.
  - by destruct s.
  - destruct s as [|c s]; cbn; [by destruct m|]. by rewrite IH.
Qed.

Lemma write_at_end bl data : write_at (slen data) bl data = data +:+ bl.
Proof.
  unfold write_at. rewrite str_take_ge, Nat.sub_diag, str_drop_ge by lia. cbn. by rewrite sapp_nil_r.
Qed.

Lemma slen_substr n m s : slen (substr n m s) = (m `min` (slen s - n))%nat.
Proof. unfold substr. by rewrite slen_take, slen_drop. Qed.

Lemma str_drop_app_ge n a b : (slen a <= n)%nat → str_drop n (a +:+ b) = str_drop (n - slen a) b.
Proof.
  intros H. replace n with (slen a + (n - slen a))%nat at 1 by lia.
  by rewrite <- str_drop_drop, str_drop_app.
Qed.

(** Overwriting the next part of a buffer over older content. *)
Lemma write_at_next n m buf old :
  (n + m <= slen buf)%nat →
  write_at n (substr n m buf) (str_take n buf +:+ str_drop n old) =
    str_take (n + m) buf +:+ str_drop (n + m) old.
Proof.
  intros H. unfold write_at. rewrite slen_substr, Nat.min_l by lia.
  assert (slen (str_take n buf) = n) as Hn by (rewrite slen_take; lia).
  rewrite <- Hn at 1. rewrite str_take_app, slen_app, Hn.
  replace (n - (n + slen (str_drop n old)))%nat with 0%nat by lia. cbn [zeros String.append].
  rewrite str_drop_app_ge by lia. rewrite Hn, Nat.add_comm, Nat.add_sub, str_drop_drop.
  by rewrite sapp_assoc, str_take_substr, (Nat.add_comm m n).
Qed.
