(* ===== verification/RadosStorage.v ===== *)
(** [RadosStorageImpl] (rados-storage-impl.h, rados-storage-impl.cpp): the
    access to the mail objects of one pool and namespace, and the connection
    that is shared through the cluster. *)
From S2P Require Export Cluster Chunks Encoding.

Inductive rbox_ceph_aio_wait_method := WAIT_FOR_COMPLETE_AND_CB | WAIT_FOR_SAFE_AND_CB.

Record RadosStorageImpl := mk_storage {
  st_max_write_size : Z;
  st_max_object_size : Z;
  st_nspace : string;
  st_io_ctx : ioctx;
  st_recovery_io_ctx : ioctx;
  st_io_ctx_created : bool;
  st_pool_name : string;
  st_wait_method : rbox_ceph_aio_wait_method;
}.

Module Storage.
Definition CFG_OSD_MAX_WRITE_SIZE : string := "osd_max_write_size".
Definition CFG_OSD_MAX_OBJECT_SIZE : string := "osd_max_object_size".
Definition PLAIN_FILTER_NAME : string := "plain".

Definition new : RadosStorageImpl :=
  mk_storage 10 134217728 "" (mk_ioctx "" "") (mk_ioctx "" "") false "" WAIT_FOR_COMPLETE_AND_CB.

Definition set_ctx (c : ioctx) (s : RadosStorageImpl) : RadosStorageImpl :=
  mk_storage (st_max_write_size s) (st_max_object_size s) (st_nspace s) c (st_recovery_io_ctx s)
    (st_io_ctx_created s) (st_pool_name s) (st_wait_method s).
Definition set_recovery_ctx (c : ioctx) (s : RadosStorageImpl) : RadosStorageImpl :=
  mk_storage (st_max_write_size s) (st_max_object_size s) (st_nspace s) (st_io_ctx s) c
    (st_io_ctx_created s) (st_pool_name s) (st_wait_method s).
Definition set_nspace (ns : string) (s : RadosStorageImpl) : RadosStorageImpl :=
  mk_storage (st_max_write_size s) (st_max_object_size s) ns (st_io_ctx s) (st_recovery_io_ctx s)
    (st_io_ctx_created s) (st_pool_name s) (st_wait_method s).
Definition set_max_write_size (n : Z) (s : RadosStorageImpl) : RadosStorageImpl :=
  mk_storage n (st_max_object_size s) (st_nspace s) (st_io_ctx s) (st_recovery_io_ctx s)
    (st_io_ctx_created s) (st_pool_name s) (st_wait_method s).
Definition set_max_object_size (n : Z) (s : RadosStorageImpl) : RadosStorageImpl :=
  mk_storage (st_max_write_size s) n (st_nspace s) (st_io_ctx s) (st_recovery_io_ctx s)
    (st_io_ctx_created s) (st_pool_name s) (st_wait_method s).
Definition set_created (pool : string) (s : RadosStorageImpl) : RadosStorageImpl :=
  mk_storage (st_max_write_size s) (st_max_object_size s) (st_nspace s) (st_io_ctx s)
    (st_recovery_io_ctx s) true pool (st_wait_method s).
Definition set_ceph_wait_method (m : rbox_ceph_aio_wait_method) (s : RadosStorageImpl) : RadosStorageImpl :=
  mk_storage (st_max_write_size s) (st_max_object_size s) (st_nspace s) (st_io_ctx s)
    (st_recovery_io_ctx s) (st_io_ctx_created s) (st_pool_name s) m.

Definition get_max_write_size_bytes (s : RadosStorageImpl) : Z :=
  int32 (int32 (st_max_write_size s * 1024) * 1024).

(** The state a storage works on: itself, the cluster object it shares with the
    other storages of the process, and the world. *)
Abbreviation state W := (RadosStorageImpl * (RadosClusterImpl * W))%type.

Section ops.
Context `{Librados W}.
  Abbreviation M := (ST (state W)).

Definition get : M RadosStorageImpl := on_fst st_get.
Definition modify (f : RadosStorageImpl → RadosStorageImpl) : M unit := on_fst (st_modify f).
Definition cluster {A} (m : ST (RadosClusterImpl * W) A) : M A := on_snd m.
Definition world {A} (m : ST W A) : M A := on_snd (on_snd m).

(** [cluster->is_connected() && io_ctx_created]. *)
Definition usable (s : state W) : bool := cl_connected s.2.1 && st_io_ctx_created s.1.
Definition guarded {A} (fail : A) (m : M A) : M A := λ s, if usable s then m s else (fail, s).

Definition io_ctx : M ioctx := s ← get; mret (st_io_ctx s).
Definition recovery_io_ctx : M ioctx := s ← get; mret (st_recovery_io_ctx s).

Definition set_namespace (nspace : string) : M unit :=
    modify (λ s, set_nspace nspace (set_ctx (set_io_ns nspace (st_io_ctx s)) s)).

(** ** Single calls *)

Definition save_mail_buffer (oid : string) (buffer : bufferlist) : M Z :=
    io ← io_ctx; world (io_write_full io oid buffer).

Definition read_mail (oid : string) : M (Z * bufferlist) :=
    guarded (-1, "") (io ← io_ctx; world (io_read io oid INT_MAX 0)).

Definition delete_mail_oid (oid : string) : M Z :=
    λ s, if negb (cl_connected s.2.1) || bool_decide (oid = "") || negb (st_io_ctx_created s.1)
         then (-1, s)
         else (io ← io_ctx; world (io_remove io oid)) s.

Definition delete_mail (mail : option RadosMail) : M Z :=
    match mail with
    | None => mret (-1)
    | Some mail => guarded (-1) (delete_mail_oid (rm_oid mail))
    end.

Definition execute_operation (oid : string) (write_op : list write_op) : M bool :=
    guarded false (io ← io_ctx; r ← world (io_operate io oid write_op); mret (bool_decide (r >= 0))).

Definition append_to_object (oid : string) (bl : bufferlist) (length : Z) : M bool :=
    guarded false (io ← io_ctx; r ← world (io_append io oid bl (Z.to_nat length));
                   mret (bool_decide (r >= 0))).

(** [io_ctx_] is the context passed by the caller, [None] a null pointer. *)
Definition aio_operate (io_ctx_ : option ioctx) (oid : string) (op : list write_op) : M (Z * Z) :=
    guarded (-1, 0) (io ← io_ctx; world (io_aio_operate (default io io_ctx_) oid op)).

Definition stat_mail (oid : string) : M (Z * option (Z * Z)) :=
    guarded (-1, None) (io ← io_ctx; world (io_stat io oid)).

(** The filter of [find_mails]. *)
Definition find_filter (attr : RadosMetadata) : bufferlist :=
    encode_string (md_bl attr) (encode_string ("_" +:+ md_key attr) (encode_string PLAIN_FILTER_NAME "")).
Definition find_mails (attr : option RadosMetadata) : M (list string) :=
    guarded [] (io ← io_ctx; world (io_nobjects io (find_filter <$> attr))).

(** ** Writing a mail in chunks *)

(** The write operation of chunk [i]; [None]: [substr_of] throws. *)
Definition split_chunk (buffer : bufferlist) (size max_write i : Z) : option (list write_op) :=
    let length := chunk_length size max_write i in
    let offset := uint64 (chunk_offset max_write i) in
    if decide (chunk_div size max_write = 1) then Some [OpAllocHint size length; OpWrite 0 buffer]
    else if decide (offset + length <= Z.of_nat (slen buffer)) then
      Some [OpAllocHint size length;
            OpWrite (Z.to_nat offset) (substr (Z.to_nat offset) (Z.to_nat length) buffer)]
    else None.

(** What is left of a mail after its buffer was written: the operation and
      completion pointers are reset and the buffer is freed. *)
Definition release_buffer (mail : RadosMail) : RadosMail :=
    Mail.set_mail_buffer None (Mail.set_active_op 0
      (Mail.set_completion false (Mail.set_write_operation false mail))).

(** [None]: the program aborts (exception or null buffer). *)
Definition split_buffer_and_exec_op (mail : RadosMail) (write_op_xattr : list write_op)
      (max_write : Z) : M (option Z * RadosMail) :=
    guarded (Some (-1), mail) (
      let size := uint64 (rm_object_size mail) in
      if decide (size = 0 ∨ max_write <= 0) then mret (Some (-1), mail) else
      io ← io_ctx;
      ret_val ← world (io_operate io (rm_oid mail) write_op_xattr);
      if decide (ret_val < 0) then mret (Some (-1), mail) else
      r ← chunk_loop (λ i,
            match rm_mail_buffer mail ≫= λ buffer, split_chunk buffer size max_write i with
            | None => mret None
            | Some op => Some <$> world (io_operate io (rm_oid mail) op)
            end) (Z.to_nat (chunk_div size max_write)) 0 ret_val;
      match r with
      | None => mret (None, mail)
      | Some v => mret (Some v, release_buffer mail)
      end).

Definition save_mail_op (write_op_xattr : list write_op) (mail : RadosMail) : M (option bool * RadosMail) :=
    guarded (Some false, mail) (
      '(ret, mail) ← split_buffer_and_exec_op mail
                       (write_op_xattr ++ [OpMtime (rm_save_date_rados mail)]) 10240;
      match ret with
      | None => mret (None, mail)
      | Some ret => mret (Some (bool_decide (ret = 0)),
                          if decide (ret = 0) then mail else Mail.set_active_op 0 mail)
      end).

(** The operations that store a mail's attributes. *)
Definition setxattrs (m : attrs) : list write_op :=
    (λ '(k, bl), OpSetxattr (c_str k) bl) <$> map_items m.
Definition metadata_ops (mail : RadosMail) : list write_op :=
    setxattrs (rm_attrset mail) ++
    (if decide (rm_extended_attrset mail = ∅) then [] else [OpOmapSet (rm_extended_attrset mail)]).

Definition save_mail (mail : RadosMail) : M (option bool * RadosMail) :=
    guarded (Some false, mail) (save_mail_op (metadata_ops mail) mail).

Definition wait_for_write_operations_complete (completion : option Z) : bool :=
    match completion with
    | None => true
    | Some v => bool_decide (v < 0)
    end.

(** [wait_for_rados_operations]: the mails waited for are the ones with an
      active operation; [value] is what a mail's completion returns. *)
Fixpoint wait_for_rados_operations (value : RadosMail → option Z) (object_list : list RadosMail)
      (ctx_failed : bool) : bool * list RadosMail :=
    match object_list with
    | [] => (ctx_failed, [])
    | mail :: rest =>
        let '(failed, mail) :=
          if Mail.has_active_op mail then
            (ctx_failed || wait_for_write_operations_complete (value mail),
             Mail.set_write_operation false (Mail.set_active_op 0 mail))
          else (ctx_failed, mail) in
        let '(r, mails) := wait_for_rados_operations value rest failed in
        (r, Mail.set_mail_buffer None mail :: mails)
    end.

(** ** Copy and move

      [dest_io_ctx = io_ctx] shares the context with the storage, so setting the
      namespace of one sets it for both; [dup] makes an independent context. *)

Definition update_ops (to_update : list RadosMetadata) : list write_op :=
    (λ m, OpSetxattr (c_str (md_key m)) (md_bl m)) <$> to_update.

Definition set_io_ctx_namespace (ns : string) : M unit :=
    modify (λ s, set_ctx (set_io_ns ns (st_io_ctx s)) s).

(** Submits the operation, waits for it and returns its value. *)
Definition run_and_wait (dest : ioctx) (oid : string) (op : list write_op) : M Z :=
    '(sub, value) ← aio_operate (Some dest) oid op;
    mret (if decide (sub >= 0) then value else sub).

(** [now] is the value of [time(NULL)]. *)
Definition move (now : Z) (src_oid src_ns dest_oid dest_ns : string)
      (to_update : list RadosMetadata) (delete_source : bool) : M Z :=
    guarded (-1) (
      src0 ← io_ctx;
      let differ := negb (bool_decide (src_ns = dest_ns)) in
      let src_io := if differ then set_io_ns src_ns src0 else src0 in
      (if differ then set_io_ctx_namespace dest_ns else mret tt) ;;
      '(err, _) ← (if differ then mret (0, None) else world (io_stat src_io src_oid));
      if decide (err < 0) then mret err else
      dest_io ← io_ctx;
      sub_ret ← aio_operate (Some dest_io) dest_oid
                  ((if differ then [OpCopyFrom src_oid src_io] else []) ++
                   [OpMtime now] ++ update_ops to_update);
      ret ← (if decide (sub_ret.1 >= 0) then
               if delete_source && differ && bool_decide (sub_ret.2 = 0)
               then world (io_remove src_io src_oid) else mret sub_ret.2
             else mret sub_ret.1);
      set_io_ctx_namespace dest_ns ;;
      mret ret).

Definition copy (now : Z) (src_oid src_ns dest_oid dest_ns : string)
      (to_update : list RadosMetadata) : M Z :=
    guarded (-1) (
      src0 ← io_ctx;
      let differ := negb (bool_decide (src_ns = dest_ns)) in
      let src_io := if differ then set_io_ns src_ns src0 else src0 in
      (if differ then set_io_ctx_namespace dest_ns else mret tt) ;;
      dest_io ← io_ctx;
      ret ← run_and_wait dest_io dest_oid
              ([OpCopyFrom src_oid src_io; OpMtime now] ++ update_ops to_update);
      set_io_ctx_namespace dest_ns ;;
      mret ret).

(** ** The ceph index object of the current namespace *)

Definition ceph_index_append (oid : string) : M Z :=
    s ← get;
    let bl := convert_to_ceph_index1 oid in
    world (io_append (st_recovery_io_ctx s) (st_nspace s) bl (slen bl)).
Definition ceph_index_append_set (oids : gset string) : M Z :=
    s ← get;
    let bl := convert_to_ceph_index oids in
    world (io_append (st_recovery_io_ctx s) (st_nspace s) bl (slen bl)).
Definition ceph_index_overwrite (oids : gset string) : M Z :=
    s ← get; world (io_write_full (st_recovery_io_ctx s) (st_nspace s) (convert_to_ceph_index oids)).
(** [junk] is what the uninitialised [psize] holds when [stat] fails. *)
Definition ceph_index_size (junk : Z) : M Z :=
    s ← get; '(_, out) ← world (io_stat (st_recovery_io_ctx s) (st_nspace s));
    mret (uint64 (match out with Some (psize, _) => psize | None => junk end)).
Definition ceph_index_read (junk : Z) : M (gset string) :=
    s ← get;
    '(_, out) ← world (io_stat (st_recovery_io_ctx s) (st_nspace s));
    if decide (int64 (match out with Some (psize, _) => psize | None => junk end) <= 0)
    then mret ∅ else
    '(ret, bl) ← world (io_read (st_recovery_io_ctx s) (st_nspace s) INT_MAX 0);
    if decide (ret < 0) then mret ∅ else mret (ceph_index_to_set (c_str bl)).
Definition ceph_index_delete : M Z :=
    s ← get; world (io_remove (st_recovery_io_ctx s) (st_nspace s)).
End ops.

(** ** The connection *)

Section connection.
Context `{RadosAdmin W}.
  Abbreviation M := (ST (state W)).
Variable client_options : list (string * string).

(** [std::stoi] of a configuration value; [None]: it throws, or there is no handle to ask. *)
Definition config_int (name : string) (store : Z → RadosStorageImpl → RadosStorageImpl) :
      M (option Z) :=
    r ← cluster (Cluster.get_config_option name);
    match r with
    | None => mret None
    | Some (err, str) =>
        if decide (err < 0) then mret (Some err) else
        match stoi str with
        | ParseOk n => modify (store n) ;; mret (Some err)
        | _ => mret None
        end
    end.

(** A context is asked for, and kept if there is one. *)
Definition keep_ctx (m : ST (RadosClusterImpl * W) (option (Z * option ioctx)))
      (store : ioctx → RadosStorageImpl → RadosStorageImpl) : M (option Z) :=
    r ← cluster m;
    match r with
    | None => mret None
    | Some (err, io) => match io with Some io => modify (store io) | None => mret tt end ;; mret (Some err)
    end.
Definition create_connection (poolname index_pool : string) : M (option Z) :=
    r ← keep_ctx (Cluster.io_ctx_create poolname) set_ctx;
    match r with
    | None => mret None
    | Some err =>
    if decide (err < 0) then mret (Some err) else
    r ← keep_ctx (Cluster.recovery_index_io_ctx index_pool) set_recovery_ctx;
    match r with
    | None => mret None
    | Some err =>
    if decide (err < 0) then mret (Some err) else
    r ← config_int CFG_OSD_MAX_WRITE_SIZE set_max_write_size;
    match r with
    | None => mret None
    | Some err =>
        if decide (err < 0) then mret (Some err) else
        r ← config_int CFG_OSD_MAX_OBJECT_SIZE set_max_object_size;
        match r with
        | None => mret None
        | Some err =>
            if decide (err < 0) then mret (Some err) else
            (if decide (err = 0) then modify (λ s, set_created (st_pool_name s) s) else mret tt) ;;
            modify (λ s, mk_storage (st_max_write_size s) (st_max_object_size s) (st_nspace s)
              (st_io_ctx s) (st_recovery_io_ctx s) (st_io_ctx_created s) poolname (st_wait_method s)) ;;
            mret (Some 0)
        end
    end
    end
    end.

(** The overloads with a cluster and a user name check for an open connection. *)
Definition open_connection_named (poolname index_pool clustername rados_username : string) :
      M (option Z) :=
    λ s, if usable s then (Some 1, s) else
      (r ← cluster (Cluster.init client_options (Some (clustername, rados_username)));
       if decide (r < 0) then mret (Some (-1)) else create_connection poolname index_pool) s.
Definition open_connection_named1 (poolname clustername rados_username : string) : M (option Z) :=
    open_connection_named poolname poolname clustername rados_username.
Definition open_connection (poolname index_pool : string) : M (option Z) :=
    r ← cluster (Cluster.init client_options None);
    if decide (r < 0) then mret (Some (-1)) else create_connection poolname index_pool.
Definition open_connection1 (poolname : string) : M (option Z) :=
    open_connection poolname poolname.

Definition close_connection : M unit :=
    s ← get; if st_io_ctx_created s then cluster Cluster.deinit else mret tt.
End connection.
End Storage.

(** ** Running the storage's monad *)

Module StorageRun.
Import Storage.
Section run.
Context {W : Type}.
  Implicit Types s : state W.

Lemma storage_get_run s : get s = (s.1, s).
Proof. by destruct s. Qed.
Lemma storage_modify_run f s : modify f s = (tt, (f s.1, s.2)).
Proof. by destruct s. Qed.
Lemma storage_world_run {A} (m : ST W A) s :
    world m s = ((m s.2.2).1, (s.1, (s.2.1, (m s.2.2).2))).
Proof. destruct s as [? [? ?]]. unfold world. by rewrite !on_snd_run. Qed.
Lemma cluster_run {A} (m : ST (RadosClusterImpl * W) A) s :
    cluster m s = ((m s.2).1, (s.1, (m s.2).2)).
Proof. destruct s. unfold cluster. by rewrite on_snd_run. Qed.
Lemma io_ctx_run s : io_ctx s = (st_io_ctx s.1, s).
Proof. by destruct s. Qed.
Lemma set_io_ctx_namespace_run ns s :
    set_io_ctx_namespace ns s = (tt, (set_ctx (set_io_ns ns (st_io_ctx s.1)) s.1, s.2)).
Proof. by destruct s. Qed.
Lemma guarded_usable {A} (d : A) m s : usable s = true → guarded d m s = m s.
Proof. intros Hu. unfold guarded. by rewrite Hu. Qed.
Lemma guarded_unusable {A} (d : A) m s : usable s = false → guarded d m s = (d, s).
Proof. intros Hu. unfold guarded. by rewrite Hu. Qed.
Lemma usable_ctx c s : usable (set_ctx c s.1, s.2) = usable s.
Proof. done. Qed.
End run.
End StorageRun.

Ltac srun := repeat (first
  [ rewrite ret_eq | rewrite fmap_eq | rewrite bind_eq | rewrite StorageRun.storage_get_run
  | rewrite StorageRun.storage_modify_run | rewrite StorageRun.storage_world_run | rewrite StorageRun.cluster_run
  | rewrite StorageRun.io_ctx_run | rewrite StorageRun.set_io_ctx_namespace_run
  | rewrite StorageRun.guarded_usable by done ]; cbn [fst snd]).

(** ** The effect of the attribute operations *)

(** Setting attributes one after the other. *)
Definition apply_updates (ms : list (string * bufferlist)) (xattrs : attrs) : attrs :=
  foldl (λ x kv, <[kv.1 := kv.2]> x) xattrs ms.

Lemma apply_updates_union ms xattrs :
  NoDup ms.*1 → apply_updates ms xattrs = list_to_map ms ∪ xattrs.
Proof.
  revert xattrs. induction ms as [|[k v] ms IH]; intros xattrs Hnd; cbn.
  - by rewrite (left_id_L ∅ (∪)).
  - apply list.NoDup_cons in Hnd as [Hk Hnd]. unfold apply_updates in *. rewrite IH by done.
    rewrite <- insert_union_r, insert_union_l; [done|]. by apply not_elem_of_list_to_map.
Qed.

Lemma apply_obj_app now m o ops1 ops2 :
  apply_obj now m o (ops1 ++ ops2) = o' ← apply_obj now m o ops1; apply_obj now m o' ops2.
Proof.
  revert o. induction ops1 as [|op ops1 IH]; intros o; cbn; [done|].
  destruct (apply_op now m o op); cbn; [apply IH|done].
Qed.

Definition set_xattrs (x : attrs) (ob : robject) : robject :=
  mk_robject (ob_data ob) x (ob_omap ob) (ob_mtime ob).

Lemma apply_obj_setxattrs now m ob (ms : list (string * bufferlist)) :
  apply_obj now m (Some ob) ((λ kv, OpSetxattr kv.1 kv.2) <$> ms) =
    Some (Some (set_xattrs (apply_updates ms (ob_xattrs ob)) ob)).
Proof.
  revert ob. induction ms as [|kv ms IH]; intros ob; [by destruct ob|].
  cbn. by rewrite IH.
Qed.

(** Every operation but a copy and the removal of keys or objects creates its object. *)
Lemma apply_obj_create now m op ops :
  match op with OpCopyFrom _ _ | OpRemove | OpOmapRmKeys _ => False | _ => True end →
  apply_obj now m None (op :: ops) = apply_obj now m (Some (empty_object now)) (op :: ops).
Proof. by destruct op. Qed.

Definition updates_of (ms : list RadosMetadata) : list (string * bufferlist) :=
  (λ m, (c_str (md_key m), md_bl m)) <$> ms.

Lemma update_ops_eq ms :
  Storage.update_ops ms = (λ kv, OpSetxattr kv.1 kv.2) <$> updates_of ms.
Proof. unfold Storage.update_ops, updates_of. by rewrite <- list_fmap_compose. Qed.

(** The object a copy of [src] becomes. *)
Definition copied (now : Z) (ms : list RadosMetadata) (src : robject) : robject :=
  mk_robject (ob_data src) (apply_updates (updates_of ms) (ob_xattrs src)) (ob_omap src) now.

Lemma apply_copy_ops (now' now : Z) (k : okey) (src_oid : string) (src : ioctx)
    (ms : list RadosMetadata) (m m' : store) :
  apply_ops now' k ([OpCopyFrom src_oid src; OpMtime now] ++ Storage.update_ops ms) m = Some m' →
  ∃ ob, m !! (src, src_oid) = Some ob ∧ m' = <[k := copied now ms ob]> m.
Proof.
  unfold apply_ops. cbn. destruct (m !! (src, src_oid)) as [ob|] eqn:E; cbn; [|done].
  rewrite update_ops_eq, apply_obj_setxattrs. cbn. intros; simplify_eq. by exists ob.
Qed.

(** ** Lemmas on writing *)

Section chunk_write.
Context (b : bufferlist) (max : Z).
Let size := Z.of_nat (slen b).
Context (Hsize : 0 < size < 2 ^ 31) (Hmax : 0 < max < 2 ^ 31).
Let cut (i : Z) : nat := Z.to_nat (chunk_end size max i).

Lemma cut_next i :
    0 <= i < chunk_div size max →
    Z.of_nat (cut i) = chunk_offset max i ∧ 0 <= chunk_length size max i ∧
    Z.of_nat (cut (i + 1)) = chunk_offset max i + chunk_length size max i ∧
    (cut (i + 1) <= slen b)%nat.
Proof.
    intros Hi. destruct (chunk_end_next size max Hsize Hmax i Hi) as [E1 E2].
    pose proof (chunk_div_bounds size max Hsize Hmax).
    rewrite (chunk_length_eq size max Hsize Hmax i Hi) in *.
    rewrite (chunk_offset_eq size max Hsize Hmax i Hi) in *.
    unfold cut. rewrite E1, E2. nia.
Qed.

Lemma split_chunk_write i :
    0 <= i < chunk_div size max →
    ∃ hint, Storage.split_chunk b size max i =
      Some [OpAllocHint size hint; OpWrite (cut i) (substr (cut i) (cut (i + 1) - cut i) b)].
Proof.
    intros Hi. destruct (cut_next i Hi) as (C1 & C2 & C3 & C4).
    unfold Storage.split_chunk. exists (chunk_length size max i). case_decide as E.
    - assert (i = 0) as -> by lia. change (0 + 1) with 1 in *.
      assert (cut 1 = slen b) as ->.
      { unfold cut. rewrite <- E, chunk_end_last by done. unfold size. lia. }
      assert (cut 0 = 0)%nat as -> by (unfold cut, chunk_end; lia).
      unfold substr. by rewrite Nat.sub_0_r, str_drop_0, str_take_ge by lia.
    - rewrite wrap_u_small by lia. rewrite decide_True by lia. do 3 f_equal.
      rewrite <- C1, Nat2Z.id. do 3 f_equal. lia.
Qed.

Lemma apply_chunk now i (key : okey) x o t old m m' hint :
    0 <= i < chunk_div size max →
    m !! key = Some (mk_robject (str_take (cut i) b +:+ str_drop (cut i) old) x o t) →
    apply_ops now key [OpAllocHint size hint;
      OpWrite (cut i) (substr (cut i) (cut (i + 1) - cut i) b)] m = Some m' →
    m' = <[key := mk_robject (str_take (cut (i + 1)) b +:+ str_drop (cut (i + 1)) old) x o now]> m.
Proof.
    intros Hi Hk. destruct (cut_next i Hi) as (C1 & C2 & C3 & C4).
    unfold apply_ops. rewrite Hk. cbn. rewrite write_at_next by lia.
    replace (cut i + (cut (i + 1) - cut i))%nat with (cut (i + 1)) by lia. congruence.
Qed.
End chunk_write.

(** The object that the attribute operations of a mail leave, on top of [ob]. *)
Definition with_metadata (mail : RadosMail) (ob : robject) : robject :=
  mk_robject (ob_data ob) (rm_attrset mail ∪ ob_xattrs ob)
    (rm_extended_attrset mail ∪ ob_omap ob) (rm_save_date_rados mail).

Lemma metadata_keys_c_str (m : attrs) :
  (∀ k, is_Some (m !! k) → free_of NUL k = true) →
  Storage.setxattrs m = (λ kv, OpSetxattr kv.1 kv.2) <$> map_items m.
Proof.
  intros Hk. unfold Storage.setxattrs. apply list_fmap_ext. intros i [k bl] Hi.
  cbn. rewrite c_str_id; [done|]. apply Hk. exists bl.
  apply elem_of_map_items. by eapply list_elem_of_lookup_2.
Qed.

Lemma apply_metadata_ops now m o mail :
  (∀ k, is_Some (rm_attrset mail !! k) → free_of NUL k = true) →
  apply_obj now m o (Storage.metadata_ops mail ++ [OpMtime (rm_save_date_rados mail)]) =
    Some (Some (with_metadata mail (default (empty_object now) o))).
Proof.
  intros Hk. assert (∀ ob, apply_obj now m (Some ob)
      (Storage.metadata_ops mail ++ [OpMtime (rm_save_date_rados mail)]) =
      Some (Some (with_metadata mail ob))) as Hs.
  { intros ob. unfold Storage.metadata_ops. rewrite metadata_keys_c_str, <- app_assoc by done.
    rewrite apply_obj_app, apply_obj_setxattrs. cbn [mbind option_bind].
    rewrite apply_updates_union, map_items_to_map by apply NoDup_map_items.
    unfold with_metadata. destruct (decide (rm_extended_attrset mail = ∅)) as [->|_]; cbn; [|done].
    by rewrite (left_id_L ∅ (∪)). }
  destruct o as [ob|]; [apply Hs|]. cbn [default].
  rewrite <- Hs. unfold Storage.metadata_ops, Storage.setxattrs.
  destruct (map_items (rm_attrset mail)) as [|[k bl] l]; [|by apply apply_obj_create].
  destruct (decide _); by apply apply_obj_create.
Qed.

Section storage_laws.
Context `{LibradosLaws W}.
  Import Storage.
  Implicit Types s : state W.

(** The objects of the world of a state. *)
Definition objects (s : state W) : store := objs s.2.2.

(** The chunk loop writes the buffer over the old content. *)
Lemma split_loop_writes mail b max io x o old s ret :
    rm_mail_buffer mail = Some b → 0 < Z.of_nat (slen b) < 2 ^ 31 → 0 < max < 2 ^ 31 →
    (∃ t, objects s !! (io, rm_oid mail) = Some (mk_robject old x o t)) → 0 <= ret →
    let '(r, s') := chunk_loop (λ i, match rm_mail_buffer mail ≫= λ buffer,
                        split_chunk buffer (Z.of_nat (slen b)) max i with
                     | None => mret None
                     | Some op => Some <$> world (io_operate io (rm_oid mail) op)
                     end) (Z.to_nat (chunk_div (Z.of_nat (slen b)) max)) 0 ret s in
    s'.1 = s.1 ∧ s'.2.1 = s.2.1 ∧ (∀ k, k ≠ (io, rm_oid mail) → objects s' !! k = objects s !! k) ∧
    is_Some r ∧
    (∀ v, r = Some v → 0 <= v →
       ∃ t, objects s' !! (io, rm_oid mail) = Some (mk_robject (b +:+ str_drop (slen b) old) x o t)).
Proof.
    intros Hb Hsz Hmax [t Hobj] Hret. set (size := Z.of_nat (slen b)) in *.
    set (cut i := Z.to_nat (chunk_end size max i)).
    pose proof (chunk_div_bounds size max Hsz Hmax) as [Hdiv _].
    set (Same s1 := s1.1 = s.1 ∧ s1.2.1 = s.2.1 ∧
                    ∀ k, k ≠ (io, rm_oid mail) → objects s1 !! k = objects s !! k).
    set (P i s1 := Same s1 ∧ ∃ t, objects s1 !! (io, rm_oid mail) =
           Some (mk_robject (str_take (cut i) b +:+ str_drop (cut i) old) x o t)).
    rewrite Hb. cbn [mbind option_bind]. set (body := λ i : Z, _).
    pose proof (chunk_loop_inv P (λ a s1, a = false ∧ Same s1) body
                  (Z.to_nat (chunk_div size max)) 0 ret s) as Hl.
    destruct (chunk_loop body (Z.to_nat (chunk_div size max)) 0 ret s) as [r s'].
    assert (cut 0 = 0%nat) as Hc0 by (unfold cut, chunk_end; lia).
    cbn [fst snd] in Hl. premise Hl; [|premise Hl; [unfold P|specialize (Hl Hret)]].
    - intros j s1 Hj [HS [t1 Hj1]]. unfold body.
      assert (0 <= j < chunk_div size max) as Hj' by lia.
      destruct (split_chunk_write b max Hsz Hmax j Hj') as [hint Eh].
      change (Z.of_nat (slen b)) with size in Eh. rewrite Eh.
      rewrite fmap_eq, StorageRun.storage_world_run. cbn [fst snd].
      set (ops := [_; _]).
      assert (Same (s1.1, (s1.2.1, (io_operate io (rm_oid mail) ops s1.2.2).2))) as HS'.
      { destruct HS as (? & ? & HS). repeat split; [done|done|]. intros k Hk.
        unfold objects at 1. cbn [fst snd]. rewrite operate_frame by done. by apply HS. }
      case_decide as Hv; [done|]. split; [done|]. apply Z.nlt_ge in Hv.
      destruct (operate_ok io (rm_oid mail) ops s1.2.2 Hv) as [now Hok].
      exists now. apply (apply_chunk b max Hsz Hmax now j _ _ _ _ _ _ _ _ Hj' Hj1) in Hok.
      unfold objects at 1. cbn [fst snd]. rewrite Hok. by rewrite lookup_insert_eq.
    - split; [by repeat split|]. exists t. rewrite Hc0, str_drop_0. by destruct b.
    - rewrite Z.add_0_l, Z2Nat.id in Hl by lia. destruct r as [v|]; [|by destruct Hl].
      case_decide as Hv.
      + destruct Hl as (_ & ? & ? & ?). do 3 (split; [done|]). split; [by eexists|].
        intros ? [= <-]. lia.
      + destruct Hl as [(? & ? & ?) [t' Ht']]. do 3 (split; [done|]). split; [by eexists|].
        intros ? _ _. exists t'. rewrite Ht'. unfold cut. rewrite chunk_end_last by done.
        unfold size. by rewrite Nat2Z.id, str_take_ge by lia.
Qed.

(** The metadata operation, in any outcome. *)
Lemma metadata_write s mail ret s' :
    (∀ k, is_Some (rm_attrset mail !! k) → free_of NUL k = true) →
    world (io_operate (st_io_ctx s.1) (rm_oid mail)
             (metadata_ops mail ++ [OpMtime (rm_save_date_rados mail)])) s = (ret, s') →
    s'.1 = s.1 ∧ s'.2.1 = s.2.1 ∧
    (∀ k, k ≠ (st_io_ctx s.1, rm_oid mail) → objects s' !! k = objects s !! k) ∧
    (0 <= ret → ∃ now, objects s' !! (st_io_ctx s.1, rm_oid mail) =
       Some (with_metadata mail (default (empty_object now) (objects s !! (st_io_ctx s.1, rm_oid mail))))).
Proof.
    intros Hk. rewrite StorageRun.storage_world_run. intros [= <- <-]. cbn [fst snd].
    do 2 (split; [done|]). split.
    - intros k Hne. unfold objects at 1. cbn [fst snd]. by rewrite operate_frame.
    - intros Hr. destruct (operate_ok _ _ _ _ Hr) as [now Hok]. exists now. revert Hok.
      unfold apply_ops, objects at 1. cbn [fst snd]. rewrite apply_metadata_ops by done.
      cbn [mbind option_bind]. intros [= <-]. rewrite lookup_insert_eq.
      unfold objects. by destruct (objs s.2.2 !! _).
Qed.

(** [split_buffer_and_exec_op] with the operation [save_mail] gives it. *)
Lemma split_buffer_run s mail b :
    usable s = true → rm_mail_buffer mail = Some b →
    rm_object_size mail = Z.of_nat (slen b) → 0 < Z.of_nat (slen b) < 2 ^ 31 →
    (∀ k, is_Some (rm_attrset mail !! k) → free_of NUL k = true) →
    let key := (st_io_ctx s.1, rm_oid mail) in
    let '((r, mail'), s') := split_buffer_and_exec_op mail
      (metadata_ops mail ++ [OpMtime (rm_save_date_rados mail)]) 10240 s in
    is_Some r ∧ s'.1 = s.1 ∧ s'.2.1 = s.2.1 ∧
    (∀ k, k ≠ key → objects s' !! k = objects s !! k) ∧
    (∀ v, r = Some v → 0 <= v →
       let old := default (empty_object 0) (objects s !! key) in
       rm_mail_buffer mail' = None ∧
       ∃ t, objects s' !! key =
         Some (mk_robject (b +:+ str_drop (slen b) (ob_data old))
                 (rm_attrset mail ∪ ob_xattrs old) (rm_extended_attrset mail ∪ ob_omap old) t)).
Proof.
    intros Hu Hb Hsize Hlen Hk key. unfold split_buffer_and_exec_op.
    rewrite StorageRun.guarded_usable, Hsize, (wrap_u_small 64) by (done || lia).
    rewrite decide_False by lia. rewrite bind_eq, StorageRun.io_ctx_run. cbn [fst snd].
    rewrite bind_eq. destruct (world _ s) as [ret s1] eqn:E1. cbn [fst snd].
    apply metadata_write in E1 as (Es & Ec & Ef & Ew); [|done].
    destruct (decide (ret < 0)).
    { rewrite ret_eq. split; [by eexists|]. do 3 (split; [done|]). by intros ? [= <-]. }
    apply Z.nlt_ge in n. destruct (Ew n) as [now Hobj]. unfold with_metadata in Hobj.
    rewrite bind_eq. set (old := default _ (objects s !! _)) in Hobj.
    pose proof (split_loop_writes mail b 10240 (st_io_ctx s.1) (rm_attrset mail ∪ ob_xattrs old)
      (rm_extended_attrset mail ∪ ob_omap old) (ob_data old) s1 ret Hb Hlen ltac:(lia)
      ltac:(by eexists) n) as Hl.
    destruct (chunk_loop _ _ _ _ s1) as [r s2]. cbn [fst snd].
    destruct Hl as (Es2 & Ec2 & Ef2 & [v ->] & Hw). rewrite ret_eq.
    split; [by eexists|]. split; [by rewrite Es2|]. split; [by rewrite Ec2|].
    split; [intros k Hne; by rewrite Ef2, Ef|].
    intros ? [= <-] Hv. destruct (Hw v eq_refl Hv) as [t Ht]. split; [by destruct mail|].
    exists t. fold key in Ht. rewrite Ht. subst old. by destruct (objects s !! _).
Qed.

Lemma save_mail_spec s mail b :
    usable s = true → rm_mail_buffer mail = Some b →
    rm_object_size mail = Z.of_nat (slen b) → 0 < Z.of_nat (slen b) < 2 ^ 31 →
    (∀ k, is_Some (rm_attrset mail !! k) → free_of NUL k = true) →
    let key := (st_io_ctx s.1, rm_oid mail) in
    let '((r, mail'), s') := save_mail mail s in
    is_Some r ∧ s'.1 = s.1 ∧ s'.2.1 = s.2.1 ∧
    (∀ k, k ≠ key → objects s' !! k = objects s !! k) ∧
    (r = Some true →
       let old := default (empty_object 0) (objects s !! key) in
       rm_mail_buffer mail' = None ∧
       ∃ t, objects s' !! key =
         Some (mk_robject (b +:+ str_drop (slen b) (ob_data old))
                 (rm_attrset mail ∪ ob_xattrs old) (rm_extended_attrset mail ∪ ob_omap old) t)).
Proof.
    intros Hu Hb Hsize Hlen Hk key. unfold save_mail, save_mail_op.
    rewrite !StorageRun.guarded_usable, bind_eq by done.
    pose proof (split_buffer_run s mail b Hu Hb Hsize Hlen Hk) as Hs.
    destruct (split_buffer_and_exec_op _ _ _ s) as [[r mail'] s']. cbn [fst snd].
    destruct Hs as ([v ->] & ? & ? & ? & Hw). rewrite ret_eq. split; [by eexists|].
    do 3 (split; [done|]). intros [= Hv%bool_decide_eq_true]; destruct (Hw v eq_refl ltac:(lia)) as [? ?].
    by rewrite decide_True by done.
Qed.

(** The context of a source or a destination, from the current one. *)
Definition ns_ctx (src_ns dest_ns ns : string) (io : ioctx) : ioctx :=
    if negb (bool_decide (src_ns = dest_ns)) then set_io_ns ns io else io.

(** An asynchronous write that is waited for, in any outcome. *)
Lemma run_and_wait_spec dest oid ops s :
    usable s = true →
    let '(r, s') := run_and_wait dest oid ops s in
    s'.1 = s.1 ∧ s'.2.1 = s.2.1 ∧
    (∀ k, k ≠ (dest, oid) → objects s' !! k = objects s !! k) ∧
    (0 <= r → ∃ now, apply_ops now (dest, oid) ops (objects s) = Some (objects s')) ∧
    (r < 0 → r ≠ - ETIMEDOUT → objects s' = objects s).
Proof.
    intros Hu. unfold run_and_wait, aio_operate. rewrite bind_eq.
    rewrite StorageRun.guarded_usable by done. srun. cbn [default].
    pose proof (aio_operate_frame dest oid ops s.2.2) as Hf.
    pose proof (aio_operate_law dest oid ops s.2.2) as Hl. unfold id.
    destruct (io_aio_operate dest oid ops s.2.2) as [[sub val] w']. cbn [fst snd] in *.
    destruct Hl as [H1 H2]. rewrite ret_eq. do 2 (split; [done|]). split; [exact Hf|].
    unfold objects. cbn [fst snd]. destruct (decide (sub >= 0)) as [Hs|Hs].
    - destruct (H2 ltac:(lia)) as (now & Hok & Hfail). split; [eauto|].
      intros Hv Ht. by destruct (Hfail Hv) as [?|[? _]].
    - split; [lia|]. intros _ _. apply H1. lia.
Qed.

Lemma copy_spec now src_oid src_ns dest_oid dest_ns upd s :
    usable s = true →
    let io := st_io_ctx s.1 in
    let src := (ns_ctx src_ns dest_ns src_ns io, src_oid) in
    let dest := (ns_ctx src_ns dest_ns dest_ns io, dest_oid) in
    let '(r, s') := copy now src_oid src_ns dest_oid dest_ns upd s in
    s'.1 = set_ctx (set_io_ns dest_ns io) s.1 ∧ s'.2.1 = s.2.1 ∧
    (∀ k, k ≠ dest → objects s' !! k = objects s !! k) ∧
    (0 <= r → ∃ ob, objects s !! src = Some ob ∧ objects s' !! dest = Some (copied now upd ob)) ∧
    (r < 0 → r ≠ - ETIMEDOUT → objects s' = objects s).
Proof.
    intros Hu. cbn zeta. unfold copy, ns_ctx. rewrite StorageRun.guarded_usable by done.
    rewrite bind_eq, StorageRun.io_ctx_run. cbn [fst snd].
    set (differ := negb (bool_decide (src_ns = dest_ns))).
    set (src_io := if differ then set_io_ns src_ns (st_io_ctx s.1) else st_io_ctx s.1).
    set (dest_io := if differ then set_io_ns dest_ns (st_io_ctx s.1) else st_io_ctx s.1).
    rewrite bind_eq.
    assert ((if differ then set_io_ctx_namespace dest_ns else mret tt) s =
            (tt, (set_ctx dest_io s.1, s.2))) as ->.
    { unfold dest_io. destruct differ; [by rewrite StorageRun.set_io_ctx_namespace_run|].
      by destruct s as [[] ?]. }
    cbn [fst snd]. rewrite bind_eq, StorageRun.io_ctx_run. cbn [fst snd st_io_ctx set_ctx].
    rewrite bind_eq.
    pose proof (run_and_wait_spec dest_io dest_oid
      ([OpCopyFrom src_oid src_io; OpMtime now] ++ update_ops upd) (set_ctx dest_io s.1, s.2) Hu) as Hr.
    destruct (run_and_wait _ _ _ _) as [r s']. cbn [fst snd] in *.
    destruct Hr as (Es & Ec & Ef & Ek & En). srun.
    split; [by rewrite Es; unfold dest_io; destruct s as [[] ?], differ|].
    split; [by rewrite Ec|]. split; [exact Ef|]. split; [|exact En].
    intros Hv. destruct (Ek Hv) as [now' Ha]. apply apply_copy_ops in Ha as (ob & Hob & Ho).
    exists ob. split; [exact Hob|]. unfold objects in *. cbn [fst snd] in *. rewrite Ho.
    apply lookup_insert_eq.
Qed.

Lemma set_io_ns_ne ns ns' io : ns ≠ ns' → set_io_ns ns io ≠ set_io_ns ns' io.
Proof. unfold set_io_ns. congruence. Qed.

(** A removal, in any outcome. *)
Lemma remove_spec io oid s :
    let '(r, s') := world (io_remove io oid) s in
    s'.1 = s.1 ∧ s'.2.1 = s.2.1 ∧ (∀ k, k ≠ (io, oid) → objects s' !! k = objects s !! k) ∧
    (0 <= r → objects s' = delete (io, oid) (objects s)) ∧
    (r < 0 → r ≠ - ETIMEDOUT → objects s' = objects s).
Proof.
    rewrite StorageRun.storage_world_run. unfold objects, io_remove. cbn [fst snd].
    do 2 (split; [done|]). split; [intros; by rewrite operate_frame|]. split.
    - intros Hr. destruct (operate_ok _ _ _ _ Hr) as [now Ho]. by apply apply_ops_remove in Ho as [-> _].
    - apply operate_not_timed_out.
Qed.

Lemma move_spec now src_oid src_ns dest_oid dest_ns upd del s :
    usable s = true → src_ns ≠ dest_ns →
    let src := (set_io_ns src_ns (st_io_ctx s.1), src_oid) in
    let dest := (set_io_ns dest_ns (st_io_ctx s.1), dest_oid) in
    let '(r, s') := move now src_oid src_ns dest_oid dest_ns upd del s in
    s'.1 = set_ctx (set_io_ns dest_ns (st_io_ctx s.1)) s.1 ∧ s'.2.1 = s.2.1 ∧
    (∀ k, k ≠ src → k ≠ dest → objects s' !! k = objects s !! k) ∧
    (objects s' !! src = objects s !! src ∨
     (del = true ∧ ∃ ob, objects s !! src = Some ob ∧ objects s' !! dest = Some (copied now upd ob))) ∧
    (r = 0 → ∃ ob, objects s !! src = Some ob ∧ objects s' !! dest = Some (copied now upd ob) ∧
                   (objects s' !! src = if del then None else Some ob)).
Proof.
    intros Hu Hns. cbn zeta. unfold move. rewrite StorageRun.guarded_usable by done.
    rewrite bind_eq, StorageRun.io_ctx_run. cbn [fst snd].
    rewrite (bool_decide_eq_false_2 (src_ns = dest_ns)) by done. cbn [negb].
    set (src_io := set_io_ns src_ns (st_io_ctx s.1)).
    set (dest_io := set_io_ns dest_ns (st_io_ctx s.1)).
    assert (src_io ≠ dest_io) as Hne by by apply set_io_ns_ne.
    rewrite bind_eq, StorageRun.set_io_ctx_namespace_run. fold dest_io. cbn [fst snd].
    rewrite bind_eq, ret_eq. cbn [fst snd]. rewrite decide_False by lia.
    rewrite bind_eq, StorageRun.io_ctx_run. cbn [fst snd st_io_ctx set_ctx]. rewrite andb_true_r.
    set (s0 := (set_ctx dest_io s.1, s.2)).
    set (ops := [OpCopyFrom src_oid src_io] ++ [OpMtime now] ++ update_ops upd).
    pose proof (run_and_wait_spec dest_io dest_oid ops s0 Hu) as Hr. unfold run_and_wait in Hr.
    rewrite bind_eq in *. destruct (aio_operate (Some dest_io) dest_oid ops s0) as [[sub val] s1] eqn:Ea.
    cbn [fst snd] in *. rewrite ret_eq in Hr. destruct Hr as (Es & Ec & Ef & Ek & _).
    change (objects s0) with (objects s) in *.
    assert (objects s1 !! (src_io, src_oid) = objects s !! (src_io, src_oid)) as Hsrc
      by (apply Ef; congruence).
    assert (∀ s2 : state W, s2.1 = s1.1 →
      set_ctx (set_io_ns dest_ns (st_io_ctx s2.1)) s2.1 = set_ctx dest_io s.1) as Hset.
    { intros s2 ->. rewrite Es. by destruct s as [[] ?]. }
    assert (∀ k, k ≠ (src_io, src_oid) → k ≠ (dest_io, dest_oid) → objects s1 !! k = objects s !! k)
      as Ef' by (intros; by apply Ef).
    rewrite bind_eq. destruct (decide (sub >= 0)) as [Hsub|Hsub].
    2: { srun. rewrite Hset by done. split; [done|]. split; [by rewrite Ec|].
         split; [exact Ef'|]. split; [by left|]. intros ->. lia. }
    assert (0 <= val → ∃ ob, objects s !! (src_io, src_oid) = Some ob ∧
              objects s1 !! (dest_io, dest_oid) = Some (copied now upd ob)) as Hcopy.
    { intros Hv. destruct (Ek Hv) as [now' Ha]. apply apply_copy_ops in Ha as (ob & ? & Ho).
      exists ob. by rewrite Ho, lookup_insert_eq. }
    destruct (del && bool_decide (val = 0)) eqn:Edel.
    - apply andb_true_iff in Edel as [-> ->%bool_decide_eq_true].
      destruct (Hcopy ltac:(lia)) as (ob & Hob & Hd).
      pose proof (remove_spec src_io src_oid s1) as Hrm.
      destruct (world (io_remove src_io src_oid) s1) as [r s2]. cbn [fst snd].
      destruct Hrm as (Fs & Fc & Ff & Fd & _). srun. rewrite Hset by done.
      split; [done|]. split; [by rewrite Fc, Ec|].
      assert (objects s2 !! (dest_io, dest_oid) = Some (copied now upd ob)) as Hd2
        by (rewrite Ff by congruence; done).
      split; [intros k ? ?; change (objects (_, s2.2)) with (objects s2); rewrite Ff by done; by apply Ef'|].
      split; [right; eauto|]. intros ->. exists ob. split; [done|]. split; [done|].
      change (objects (_, s2.2)) with (objects s2). rewrite Fd by lia. apply lookup_delete_eq.
    - srun. rewrite Hset by done. split; [done|]. split; [by rewrite Ec|]. split; [exact Ef'|].
      split; [by left|]. intros ->. destruct (Hcopy ltac:(lia)) as (ob & Hob & Hd). exists ob.
      split; [done|]. split; [done|]. destruct del; [done|]. by rewrite <- Hob.
Qed.

End storage_laws.

(** ** Properties *)

(** C4. [save_mail]: when it reports success, the object holds the buffer of the
    mail (over the beginning of older content, if there was any) and every
    attribute and extended attribute of the mail; whatever it reports, no other
    object changes, the program does not abort, and the storage is the same. *)
Theorem save_mail_stores `{LibradosLaws W} (s : Storage.state W) mail b :
  Storage.usable s = true → rm_mail_buffer mail = Some b →
  rm_object_size mail = Z.of_nat (slen b) → 0 < Z.of_nat (slen b) < 2 ^ 31 →
  (∀ k, is_Some (rm_attrset mail !! k) → free_of NUL k = true) →
  let key := (st_io_ctx s.1, rm_oid mail) in
  let '((r, mail'), s') := Storage.save_mail mail s in
  is_Some r ∧ s'.1 = s.1 ∧ s'.2.1 = s.2.1 ∧
  (∀ k, k ≠ key → objects s' !! k = objects s !! k) ∧
  (r = Some true →
     let old := default (empty_object 0) (objects s !! key) in
     rm_mail_buffer mail' = None ∧
     ∃ t, objects s' !! key =
       Some (mk_robject (b +:+ str_drop (slen b) (ob_data old))
               (rm_attrset mail ∪ ob_xattrs old) (rm_extended_attrset mail ∪ ob_omap old) t)).
Proof. apply save_mail_spec. Qed.

(** A storage of the in-memory cluster, connected, in namespace [ns]. *)
Definition mem_storage (ns : string) : RadosStorageImpl :=
  mk_storage 90 134217728 ns (mk_ioctx "mail_storage" ns) (mk_ioctx "object_recovery" "") true
    "mail_storage" WAIT_FOR_COMPLETE_AND_CB.
Definition mem_state (ns : string) (m : store) (faults : list Z) : Storage.state MemCluster :=
  (mem_storage ns, (mk_cluster true 1 true, mk_mem m faults 1000)).

Definition sample_mail : RadosMail :=
  Mail.set_rados_save_date 17 (Mail.set_mail_buffer (Some "From: a")
    (Mail.set_mail_size 7 (Mail.set_metadata {["M" := "guid"]} (Mail.set_oid "o1" Mail.new)))).

Lemma save_mail_stores_witness :
  (Storage.save_mail sample_mail (mem_state "u1" ∅ [])).1.1 = Some true ∧
  ∃ t, objects (Storage.save_mail sample_mail (mem_state "u1" ∅ [])).2 !!
         (mk_ioctx "mail_storage" "u1", "o1") =
       Some (mk_robject ("From: a" +:+ "") ({["M" := "guid"]} ∪ ∅) (∅ ∪ ∅) t).
Proof.
  assert (Storage.save_mail sample_mail (mem_state "u1" ∅ []) =
    (Some true, (Storage.save_mail sample_mail (mem_state "u1" ∅ [])).1.2,
     (Storage.save_mail sample_mail (mem_state "u1" ∅ [])).2)) as E by (vm_compute; reflexivity).
  pose proof (save_mail_stores (mem_state "u1" ∅ []) sample_mail "From: a" eq_refl eq_refl eq_refl
                ltac:(cbn; lia)) as Hs.
  premise Hs.
  { intros k. cbn. destruct (decide (k = "M")) as [->|]; [done|].
    rewrite lookup_singleton_ne by done. by intros []. }
  rewrite E in Hs. destruct Hs as (_ & _ & _ & _ & Hs). destruct (Hs eq_refl) as [_ Ht].
  rewrite E. split; [reflexivity|]. exact Ht.
Defined.

(** [copy]: when it reports success, the destination object is the source
    object with the given attributes set and stamped with the current time, and
    every other object is untouched; when it fails, other than by a timeout, no
    object changed at all. In every case the storage ends in the destination
    namespace. *)
Theorem copy_stores `{LibradosLaws W} now src_oid src_ns dest_oid dest_ns upd (s : Storage.state W) :
  Storage.usable s = true →
  let io := st_io_ctx s.1 in
  let src := (ns_ctx src_ns dest_ns src_ns io, src_oid) in
  let dest := (ns_ctx src_ns dest_ns dest_ns io, dest_oid) in
  let '(r, s') := Storage.copy now src_oid src_ns dest_oid dest_ns upd s in
  s'.1 = Storage.set_ctx (set_io_ns dest_ns io) s.1 ∧ s'.2.1 = s.2.1 ∧
  (∀ k, k ≠ dest → objects s' !! k = objects s !! k) ∧
  (0 <= r → ∃ ob, objects s !! src = Some ob ∧ objects s' !! dest = Some (copied now upd ob)) ∧
  (r < 0 → r ≠ - ETIMEDOUT → objects s' = objects s).
Proof. apply copy_spec. Qed.

Definition inbox_state : Storage.state MemCluster :=
  mem_state "u1" {[ (mk_ioctx "mail_storage" "u1", "o1") := mk_robject "From: a" {["M" := "g"]} ∅ 5 ]} [].

Lemma copy_stores_witness :
  (Storage.copy 77 "o1" "u1" "o2" "u2" [mk_metadata "M" "h"] inbox_state).1 = 0 ∧
  objects (Storage.copy 77 "o1" "u1" "o2" "u2" [mk_metadata "M" "h"] inbox_state).2
    !! (mk_ioctx "mail_storage" "u2", "o2") =
    Some (mk_robject "From: a" {["M" := "h"]} ∅ 77).
Proof.
  pose proof (copy_stores 77 "o1" "u1" "o2" "u2" [mk_metadata "M" "h"] inbox_state eq_refl) as Hc.
  cbv zeta in Hc. destruct (Storage.copy _ _ _ _ _ _ _) as [r s'] eqn:E.
  assert (r = 0) as -> by (vm_compute in E; congruence).
  destruct Hc as (_ & _ & _ & Hc & _). destruct (Hc ltac:(lia)) as (ob & Hob & Hd).
  split; [reflexivity|]. cbn [snd]. etrans; [exact Hd|].
  assert (Some ob = Some (mk_robject "From: a" {["M" := "g"]} ∅ 5)) as [= ->]
    by (rewrite <- Hob; vm_compute; reflexivity).
  vm_compute. reflexivity.
Defined.

(** C3. [move] between namespaces never loses a mail: whatever fails and in
    whatever way, afterwards the source object is still as it was, or it was to
    be deleted and the destination holds its copy. On success the destination
    holds the copy and the source is gone exactly when it was to be deleted. No
    third object is touched. *)
Theorem move_never_loses `{LibradosLaws W} now src_oid src_ns dest_oid dest_ns upd del
    (s : Storage.state W) :
  Storage.usable s = true → src_ns ≠ dest_ns →
  let src := (set_io_ns src_ns (st_io_ctx s.1), src_oid) in
  let dest := (set_io_ns dest_ns (st_io_ctx s.1), dest_oid) in
  let '(r, s') := Storage.move now src_oid src_ns dest_oid dest_ns upd del s in
  s'.1 = Storage.set_ctx (set_io_ns dest_ns (st_io_ctx s.1)) s.1 ∧ s'.2.1 = s.2.1 ∧
  (∀ k, k ≠ src → k ≠ dest → objects s' !! k = objects s !! k) ∧
  (objects s' !! src = objects s !! src ∨
   (del = true ∧ ∃ ob, objects s !! src = Some ob ∧ objects s' !! dest = Some (copied now upd ob))) ∧
  (r = 0 → ∃ ob, objects s !! src = Some ob ∧ objects s' !! dest = Some (copied now upd ob) ∧
                 (objects s' !! src = if del then None else Some ob)).
Proof. apply move_spec. Qed.

Lemma move_never_loses_witness :
  (Storage.move 77 "o1" "u1" "o2" "u2" [] true inbox_state).1 = 0 ∧
  objects (Storage.move 77 "o1" "u1" "o2" "u2" [] true inbox_state).2
    !! (mk_ioctx "mail_storage" "u1", "o1") = None.
Proof.
  pose proof (move_never_loses 77 "o1" "u1" "o2" "u2" [] true inbox_state eq_refl ltac:(done)) as Hm.
  cbv zeta in Hm. destruct (Storage.move _ _ _ _ _ _ _ _) as [r s'] eqn:E.
  assert (r = 0) as -> by (vm_compute in E; congruence).
  destruct Hm as (_ & _ & _ & _ & Hm). destruct (Hm eq_refl) as (ob & _ & _ & Hd).
  split; [reflexivity|exact Hd].
Defined.

(** Without a connection no storage operation reaches the cluster: each one
    reports its error value and leaves the storage, the connection and the
    world as they were. *)
Theorem storage_disconnected `{Librados W} (s : Storage.state W) oid mail op bl n attr
    now src_oid src_ns dest_oid dest_ns upd del :
  Storage.usable s = false →
  Storage.read_mail oid s = ((-1, ""), s) ∧
  Storage.delete_mail_oid oid s = (-1, s) ∧ Storage.delete_mail (Some mail) s = (-1, s) ∧
  Storage.execute_operation oid op s = (false, s) ∧
  Storage.append_to_object oid bl n s = (false, s) ∧
  Storage.stat_mail oid s = ((-1, None), s) ∧
  Storage.find_mails attr s = ([], s) ∧
  Storage.save_mail mail s = ((Some false, mail), s) ∧
  Storage.split_buffer_and_exec_op mail op n s = ((Some (-1), mail), s) ∧
  Storage.move now src_oid src_ns dest_oid dest_ns upd del s = (-1, s) ∧
  Storage.copy now src_oid src_ns dest_oid dest_ns upd s = (-1, s).
Proof.
  intros Hu.
  assert (Storage.delete_mail_oid oid s = (-1, s)) as Hd.
  { unfold Storage.delete_mail_oid. unfold Storage.usable in Hu.
    by destruct (cl_connected s.2.1), (bool_decide (oid = "")), (st_io_ctx_created s.1). }
  repeat split; try exact Hd; by apply StorageRun.guarded_unusable.
Qed.

Lemma storage_disconnected_witness :
  Storage.move 1 "o1" "a" "o2" "b" [] true (Storage.new, (Cluster.initial, mem_empty)) =
    (-1, (Storage.new, (Cluster.initial, mem_empty))).
Proof.
  apply (storage_disconnected (Storage.new, (Cluster.initial, mem_empty)) "" Mail.new [] "" 0 None
    1 "o1" "a" "o2" "b" [] true). reflexivity.
Defined.

Section index_lemmas.
Context `{LibradosLaws W}.
  Import Storage.

Lemma world_write s io oid ops :
    0 <= (world (io_operate io oid ops) s).1 →
    ∃ now, apply_ops now (io, oid) ops (objects s) = Some (objects (world (io_operate io oid ops) s).2).
Proof. rewrite StorageRun.storage_world_run. apply operate_ok. Qed.

Lemma world_same {A} (m : ST W A) s : (world m s).2.1 = s.1 ∧ (world m s).2.2.1 = s.2.1.
Proof. by rewrite StorageRun.storage_world_run. Qed.

(** The data of the index object of the storage's namespace. *)
Definition index_key (s : state W) : okey := (st_recovery_io_ctx s.1, st_nspace s.1).
Definition index_data (s : state W) : string := from_option ob_data "" (objects s !! index_key s).

(** The cluster answers the two calls of a read of the index. *)
Definition index_answers (s : state W) : Prop :=
    let stat := io_stat (st_recovery_io_ctx s.1) (st_nspace s.1) s.2.2 in
    0 <= stat.1.1 ∧ 0 <= (io_read (st_recovery_io_ctx s.1) (st_nspace s.1) INT_MAX 0 stat.2).1.1.
(** What is read of the index object, unless the cluster does not answer. *)
Lemma ceph_index_read_data junk s :
    Z.of_nat (slen (index_data s)) < INT_MAX → free_of NUL (index_data s) = true →
    (ceph_index_read junk s).1 = ceph_index_to_set (index_data s) ∨ (ceph_index_read junk s).1 = ∅ ∧ ¬ index_answers s.
Proof.
    unfold index_data, index_key, index_answers. intros Hl Hn. unfold ceph_index_read. rewrite bind_eq, StorageRun.storage_get_run.
    cbn [fst snd]. rewrite bind_eq. set (io := st_recovery_io_ctx s.1) in *. set (ns := st_nspace s.1) in *.
    pose proof (stat_law io ns s.2.2) as Hs. rewrite StorageRun.storage_world_run. cbn [fst snd].
    destruct (io_stat io ns s.2.2) as [[r out] w']. cbn [fst snd] in *. destruct Hs as (Eo & Hs & _). case_decide as Hz.
    - destruct (decide (0 <= r)) as [Hr|]; [left|right; split; [done|lia]]. destruct (Hs Hr) as (ob & Hob & ->).
      unfold objects in *. rewrite Hob in *. cbn [from_option] in *.
      replace (int64 (Z.of_nat (slen (ob_data ob)))) with (Z.of_nat (slen (ob_data ob))) in Hz
        by (symmetry; apply wrap_s_small; unfold INT_MAX in Hl; cbn; lia).
      destruct (ob_data ob); [done|cbn in Hz; lia].
    - rewrite bind_eq, StorageRun.storage_world_run. cbn [fst snd].
      pose proof (read_law io ns INT_MAX 0 w') as Hr.
      destruct (io_read io ns INT_MAX 0 w') as [[r' bl] w'']. cbn [fst snd].
      case_decide; [right; split; [done|lia]|]. left. rewrite ret_eq. cbn [fst].
      destruct Hr as (_ & _ & Hr). destruct (Hr ltac:(lia)) as (ob & Hob & ->).
      rewrite Eo in Hob. unfold objects in *. rewrite Hob in *. cbn [from_option] in *.
      unfold read_range. change (Z.to_nat 0) with 0%nat. rewrite str_drop_0, decide_True by lia.
      by rewrite c_str_id.
Qed.
End index_lemmas.

(** The recovery index of a namespace: after [ceph_index_overwrite] and a
    [ceph_index_append] succeeded, [ceph_index_read] gives exactly the names
    written and the one appended, or nothing at all when the cluster failed to
    answer (for names that are not empty and hold neither comma nor NUL). *)
Theorem ceph_index_session `{LibradosLaws W} junk (s : Storage.state W) (oids : gset string) oid :
  (∀ x, x ∈ oids → index_name x) → index_name oid →
  let data := convert_to_ceph_index oids +:+ convert_to_ceph_index1 oid in
  Z.of_nat (slen data) < INT_MAX → free_of NUL data = true →
  let '(r1, s1) := Storage.ceph_index_overwrite oids s in
  let '(r2, s2) := Storage.ceph_index_append oid s1 in
  0 <= r1 → 0 <= r2 →
  (Storage.ceph_index_read junk s2).1 = oids ∪ {[oid]} ∨ (Storage.ceph_index_read junk s2).1 = ∅.
Proof.
  intros Hoids Hoid data Hlen Hnul. unfold Storage.ceph_index_overwrite, Storage.ceph_index_append.
  rewrite bind_eq, StorageRun.storage_get_run. cbn [fst snd]. unfold io_write_full, io_append.
  set (io := st_recovery_io_ctx s.1). set (ns := st_nspace s.1).
  pose proof (world_write s io ns [OpWriteFull (convert_to_ceph_index oids)]) as H1.
  pose proof (world_same (io_operate io ns [OpWriteFull (convert_to_ceph_index oids)]) s) as [E1 _].
  destruct (Storage.world _ s) as [r1 s1]. cbn [fst snd] in *.
  rewrite bind_eq, StorageRun.storage_get_run. cbn [fst snd]. rewrite E1. fold io ns.
  set (bl := convert_to_ceph_index1 oid).
  pose proof (world_write s1 io ns [OpAppend bl (slen bl)]) as H2.
  pose proof (world_same (io_operate io ns [OpAppend bl (slen bl)]) s1) as [E2 _].
  destruct (Storage.world _ s1) as [r2 s2]. cbn [fst snd] in *. intros Hr1 Hr2.
  destruct (H1 Hr1) as [n1 A1], (H2 Hr2) as [n2 A2].
  unfold apply_ops in A1, A2. cbn in A1. injection A1 as A1. rewrite <- A1, lookup_insert_eq in A2.
  cbn in A2. rewrite str_take_ge in A2 by lia. injection A2 as A2.
  assert (ceph_index_to_set data = oids ∪ {[oid]}) as <-.
  { unfold data. rewrite ceph_index_of_set by done.
    rewrite <- (sapp_nil_r (convert_to_ceph_index1 oid)), ceph_index_of_one by done. cbn. set_solver. }
  assert (index_data s2 = data) as Ed by (unfold index_data, index_key; by rewrite E2, E1, <- A2, lookup_insert_eq).
  rewrite <- Ed. destruct (ceph_index_read_data junk s2) as [E|[E _]]; [by rewrite Ed..|by left|by right].
Qed.

Lemma ceph_index_session_witness :
  (Storage.ceph_index_overwrite {["a"]} (mem_state "u1" ∅ [])).1 = 0 ∧
  let s1 := (Storage.ceph_index_overwrite {["a"]} (mem_state "u1" ∅ [])).2 in
  (Storage.ceph_index_append "b" s1).1 = 0 ∧
  let s2 := (Storage.ceph_index_append "b" s1).2 in
  (Storage.ceph_index_read 0 s2).1 = {["a"]} ∪ {["b"]}.
Proof.
  assert ((Storage.ceph_index_overwrite {["a"]} (mem_state "u1" ∅ [])).1 = 0) as E1 by (vm_compute; done).
  pose proof (ceph_index_session 0 (mem_state "u1" ∅ []) {["a"]} "b") as Hs.
  premise Hs; [intros x; rewrite elem_of_singleton; intros ->; by split|].
  premise Hs; [by split|]. cbv zeta in Hs. premise Hs; [vm_compute; reflexivity|].
  premise Hs; [vm_compute; reflexivity|]. split; [exact E1|]. intros s1.
  assert ((Storage.ceph_index_append "b" s1).1 = 0) as E2 by (vm_compute; done).
  split; [exact E2|]. intros s2.
  assert ((Storage.ceph_index_read 0 s2).1 ≠ ∅) as Hne.
  { intros Hx. assert ("a" ∈ (Storage.ceph_index_read 0 s2).1) as Ha by (vm_compute; done).
    rewrite Hx in Ha. set_solver. }
  rewrite (surjective_pairing (Storage.ceph_index_overwrite _ _)) in Hs. fold s1 in Hs.
  rewrite (surjective_pairing (Storage.ceph_index_append _ _)) in Hs. fold s2 in Hs.
  destruct Hs as [Hs|Hs]; [lia|lia|exact Hs|by destruct Hne].
Defined.

Section connection_lemmas.
Context `{RadosAdminLaws W}.
  Import Storage.

Lemma config_int_run name store s :
    let g := ra_conf_get name s.2.2 in
    config_int name store s =
      if negb (cl_cluster s.2.1) then (None, s)
      else if decide (g.1.1 < 0) then (Some g.1.1, (s.1, (s.2.1, g.2)))
      else match stoi g.1.2 with
           | ParseOk n => (Some g.1.1, (store n s.1, (s.2.1, g.2)))
           | _ => (None, (s.1, (s.2.1, g.2)))
           end.
Proof.
    unfold config_int, Cluster.get_config_option. cbv zeta. rewrite bind_eq, StorageRun.cluster_run.
    cbn [fst snd]. Cluster.run. destruct s as [st [cl w]]. cbn [fst snd]. destruct (cl_cluster cl); cbn [negb]; Cluster.run; [|done].
    destruct (ra_conf_get name w) as [[err str] w']. cbn [fst snd].
    case_decide; [done|]. destruct (stoi str); by srun.
Qed.

(** What a successful connection guarantees. *)
Definition connected_to (poolname index_pool : string) (n : Z) (ns : string)
      (st : RadosStorageImpl) (cl : RadosClusterImpl) : Prop :=
    cl_connected cl = true ∧ cluster_ref_count cl = n ∧
    st_io_ctx st = mk_ioctx poolname "" ∧ st_recovery_io_ctx st = mk_ioctx index_pool "" ∧
    st_nspace st = ns.

Lemma keep_cluster {A} P (m : ST W A) :
    triple (λ s : state W, P s.1 s.2.1) (cluster (Cluster.rados m)) (λ _ s, P s.1 s.2.1).
Proof. intros s Hs. by rewrite StorageRun.cluster_run, Cluster.rados_run. Qed.

Lemma triple_modify (P Q : state W → Prop) f :
    (∀ s, P s → Q (f s.1, s.2)) → triple P (modify f) (λ _, Q).
Proof. intros Hf s Hs. rewrite StorageRun.storage_modify_run. by apply Hf. Qed.

Lemma keep_config_int (P : RadosStorageImpl → RadosClusterImpl → Prop) name store :
    (∀ n s c, P s c → P (store n s) c) →
    triple (λ s : state W, P s.1 s.2.1) (config_int name store)
      (λ r s, P s.1 s.2.1 ∧ (∀ e, r = Some e → e <= 0)).
Proof.
    intros Hst s Hs. rewrite config_int_run. destruct (cl_cluster s.2.1); cbn [negb]; [|by split].
    pose proof (ra_conf_get_law name s.2.2) as Hl.
    case_decide; [|case_match]; cbn; (split; [auto|]); intros ? [=]; subst; lia.
Qed.

(** One of the two contexts is created; [only]: what the call on the cluster keeps. *)
Lemma keep_ctx_spec pool m store (P : RadosStorageImpl → Prop) (Q : RadosClusterImpl → Prop)
      (R : RadosStorageImpl → RadosClusterImpl → Prop) :
    (∀ s, Q s.1 → Cluster.ctx_answer pool (m s).1 ∧ (Cluster.gives_ctx (m s).1 → ∀ st, P st → R (store (mk_ioctx pool "") st) (m s).2.1)) →
    triple (λ s : state W, P s.1 ∧ Q s.2.1) (keep_ctx m store)
      (λ r s, ∀ err, r = Some err → err <= 0 ∧ (err = 0 → R s.1 s.2.1)).
Proof.
    intros Hm s [HP HQ]. unfold keep_ctx. rewrite bind_eq, StorageRun.cluster_run. cbn [fst snd].
    destruct (Hm s.2 HQ) as [Ha Hr]. destruct (m s.2) as [[[err io]|] cw]; cbn [fst snd] in *; [|by rewrite ret_eq].
    destruct (Ha _ eq_refl) as [[E Eio]|[E Eio]]; cbn [fst snd] in *; subst io; srun; intros ? [= <-]; (split; [lia|]); [|lia].
    intros _. apply Hr; [by eexists|done].
Qed.
Lemma create_connection_spec poolname index_pool n ns :
    0 <= n →
    triple (λ s : state W, cluster_ref_count s.2.1 = n ∧ st_nspace s.1 = ns)
      (create_connection poolname index_pool)
      (λ r s, r = Some 0 → connected_to poolname index_pool n ns s.1 s.2.1 ∧ st_io_ctx_created s.1 = true ∧
                           st_pool_name s.1 = poolname).
Proof.
    intros Hn. unfold create_connection.
    eapply triple_bind.
    { eapply triple_conseq; [apply (keep_ctx_spec poolname _ _ (λ st, st_nspace st = ns) (λ cl, cluster_ref_count cl = n)
        (λ st cl, (cl_connected cl = true ∧ cluster_ref_count cl = n) ∧ st_nspace st = ns ∧ st_io_ctx st = mk_ioctx poolname ""))| |].
      - intros s Hs. split; [apply Cluster.io_ctx_create_result|]. intros Hg st Hst.
        split_and!; [by apply Cluster.io_ctx_connected; [lia|]|rewrite <- Hs; apply (Cluster.oc_io_ctx_create poolname s)|done..].
      - by intros s [? ?].
      - intros r s Hs. exact Hs. }
    intros [err|]; [|by intros s _]. case_decide; [intros s _ [= ->]; lia|].
    eapply triple_bind.
    { eapply triple_conseq; [apply (keep_ctx_spec index_pool _ _ (λ st, st_nspace st = ns ∧ st_io_ctx st = mk_ioctx poolname "")
        (λ cl, cl_connected cl = true ∧ cluster_ref_count cl = n) (connected_to poolname index_pool n ns))| |].
      - intros s [Hc Hs]. split; [apply Cluster.recovery_result|]. intros Hg st [Hns Hio].
        destruct (Cluster.oc_recovery index_pool s) as (E1 & _ & E3 & _).
        unfold connected_to. split_and!; [by apply E3|congruence|done..].
      - intros s Hs. destruct (Hs err eq_refl) as [? Hz]. destruct Hz as [? ?]; [lia|done].
      - intros r s Hs. exact Hs. }
    intros [err'|]; [|by intros s _]. case_decide; [intros s _ [= ->]; lia|].
    eapply triple_conseq with (P := λ s, connected_to poolname index_pool n ns s.1 s.2.1);
      [|intros s Hs; destruct (Hs err' eq_refl) as [? Hz]; apply Hz; lia|by intros ? ? Hq; exact Hq].
    eapply triple_bind;
      [by apply (keep_config_int (connected_to poolname index_pool n ns))|].
    intros [e1|]; [|by intros ? ?]. case_decide; [intros s ? [= ->]; lia|].
    eapply triple_conseq with (Q := λ r s, r = Some 0 → _);
      [|by intros s [Hs _]; exact Hs|by intros ? ? Hq; exact Hq].
    eapply triple_bind;
      [by apply (keep_config_int (connected_to poolname index_pool n ns))|].
    intros [e2|]; [|by intros ? ?]. case_decide; [intros s ? [= ->]; lia|].
    apply (triple_bind _ _ (λ _ (s : state W), connected_to poolname index_pool n ns s.1 s.2.1 ∧
             st_io_ctx_created s.1 = true)).
    { case_decide; [|intros s [_ He]; specialize (He _ eq_refl); lia].
      apply triple_modify. by intros s [? _]. }
    intros [].
    apply (triple_bind _ _ (λ _ (s : state W), connected_to poolname index_pool n ns s.1 s.2.1 ∧
             st_io_ctx_created s.1 = true ∧ st_pool_name s.1 = poolname)).
    { apply triple_modify. by intros s [? ?]. }
    by intros [] s Hs _.
Qed.

Lemma init_spec opts names s :
    0 <= cluster_ref_count s.1 →
    let '(r, s') := Cluster.init opts names s in
    r <= 0 ∧ (r = 0 → cluster_ref_count s'.1 = int32 (cluster_ref_count s.1 + 1)).
Proof.
    intros Hs. rewrite Cluster.init_run.
    destruct (decide (cluster_ref_count s.1 = 0)) as [E|E]; [|done]. cbv zeta.
    split; [case_decide; [apply Cluster.initialize_le|apply ra_init_law]|]. intros Hr. cbn [fst snd cluster_ref_count Cluster.set_ref Cluster.set_handle].
    by rewrite decide_True, E.
Qed.
End connection_lemmas.

(** [open_connection]: an open storage is left alone and answers [1]; when it
    answers [0], the storage is usable afterwards, its two contexts are those of
    the pools asked for, in the default namespace, and it took exactly one
    reference on the shared cluster, whose counter is not at its maximum. *)
Theorem storage_open_connection `{RadosAdminLaws W} opts poolname index_pool clustername user
    (s : Storage.state W) :
  Cluster.inv s.2.1 → cluster_ref_count s.2.1 < INT_MAX →
  (Storage.usable s = true →
     Storage.open_connection_named opts poolname index_pool clustername user s = (Some 1, s)) ∧
  let '(r, s') := Storage.open_connection_named opts poolname index_pool clustername user s in
  r = Some 0 →
  Storage.usable s' = true ∧
  connected_to poolname index_pool (cluster_ref_count s.2.1 + 1) (st_nspace s.1) s'.1 s'.2.1 ∧
  st_pool_name s'.1 = poolname.
Proof.
  intros (Hi & _) Hmax. unfold Storage.open_connection_named. split; [by intros ->|].
  destruct (Storage.usable s); [intros [=]|].
  rewrite bind_eq, StorageRun.cluster_run. cbn [fst snd].
  pose proof (init_spec opts (Some (clustername, user)) s.2 ltac:(lia)) as Hn.
  destruct (Cluster.init opts _ s.2) as [r cw]. cbn [fst snd]. destruct Hn as [Hr Hn].
  case_decide; [intros [=]|]. specialize (Hn ltac:(lia)).
  rewrite (wrap_s_small 32) in Hn by (unfold INT_MAX in *; cbn; lia).
  pose proof (create_connection_spec poolname index_pool (cluster_ref_count s.2.1 + 1)
    (st_nspace s.1) ltac:(lia) (s.1, cw) ltac:(by split)) as Hc.
  destruct (Storage.create_connection poolname index_pool (s.1, cw)) as [r' s']. cbn [fst snd] in Hc.
  intros Hr'. destruct (Hc Hr') as (Hct & Hcr & Hp). split; [|done].
  unfold Storage.usable. destruct Hct as [-> _]. by rewrite Hcr.
Qed.

Lemma storage_open_connection_witness :
  let s := (Storage.new, (Cluster.initial, mem_empty)) in
  let '(r, s') := Storage.open_connection_named [] "mail_storage" "object_recovery" "ceph" "client.admin" s in
  r = Some 0 ∧ Storage.usable s' = true.
Proof.
  intros s. assert (Cluster.inv s.2.1) as Hi by (unfold Cluster.inv, INT_MAX; cbn; naive_solver lia).
  destruct (storage_open_connection [] "mail_storage" "object_recovery" "ceph" "client.admin" s Hi) as [_ Ho]; [unfold INT_MAX; cbn; lia|].
  destruct (Storage.open_connection_named _ _ _ _ _ s) as [r s'] eqn:E.
  assert ((Storage.open_connection_named [] "mail_storage" "object_recovery" "ceph" "client.admin" s).1
    = Some 0) as Er by (vm_compute; reflexivity).
  rewrite E in Er. cbn [fst] in Er. split; [exact Er|]. by apply Ho.
Defined.

(** Closing is not idempotent: a storage never forgets that it was opened, so
    closing it a second time gives up a reference it does not hold. With two
    storages on the shared cluster, the second [close_connection] of the one
    shuts down the connection the other is using. *)
Theorem storage_close_twice `{RadosAdmin W} (s : Storage.state W) :
  Storage.usable s = true → cluster_ref_count s.2.1 = 2 →
  let s1 := (Storage.close_connection s).2 in
  let s2 := (Storage.close_connection s1).2 in
  Storage.usable s1 = true ∧ s2.2.1 = Cluster.initial ∧ s2.2.2 = (ra_shutdown s.2.2).2.
Proof.
  intros Hu Hn. assert (∀ s : Storage.state W, Storage.usable s = true →
    (Storage.close_connection s).2 = (s.1, (Cluster.deinit s.2).2)) as Hc.
  { intros t Ht. unfold Storage.close_connection. rewrite bind_eq, StorageRun.storage_get_run. cbn [fst snd].
    unfold Storage.usable in Ht. apply andb_true_iff in Ht as [_ ->].
    by rewrite StorageRun.cluster_run. }
  cbv zeta. rewrite (Hc s Hu), Cluster.deinit_run, Hn. cbn [fst snd decide].
  rewrite decide_True, decide_False by lia. cbn [fst snd]. set (s1 := (s.1, _)).
  assert (Storage.usable s1 = true) as Hu1 by exact Hu. split; [done|].
  rewrite (Hc s1 Hu1), Cluster.deinit_run. apply andb_true_iff in Hu as [Hconn _].
  subst s1. cbn [fst snd Cluster.set_ref cluster_ref_count cl_connected].
  rewrite !decide_True, Hconn by lia. done.
Qed.

Lemma storage_close_twice_witness :
  (Storage.close_connection (Storage.close_connection
    (mem_storage "u1", (mk_cluster true 2 true, mem_empty))).2).2.2.1 = Cluster.initial.
Proof.
  apply (storage_close_twice (mem_storage "u1", (mk_cluster true 2 true, mem_empty))); reflexivity.
Defined.

