(* ===== verification/FindMails.v ===== *)
(** [RadosStorageImpl::find_mails_async] (librmb/rados-storage-impl.cpp): the
    search for mail objects with one thread for each primary osd. What the
    threads insert is given by listings of the placement groups; the steps of
    the threads interleave in any order. *)
From S2P Require Export RadosStorage.
From Stdlib Require Import Ascii.

Module FindMails.

(** ** The listing of a placement group *)

Definition hex_val (c : ascii) : option Z :=
  let n := char_code c in
  if decide (48 <= n <= 57) then Some (n - 48)
  else if decide (97 <= n <= 102) then Some (n - 87)
  else if decide (65 <= n <= 70) then Some (n - 55)
  else None.
Fixpoint hex_digits (acc : Z) (s : string) : Z :=
  match s with
  | String c s' => match hex_val c with Some d => hex_digits (16 * acc + d) s' | None => acc end
  | "" => acc
  end.
Fixpoint skip_digits (s : string) : string :=
  match s with
  | String c s' => if isdigit c then skip_digits s' else s
  | "" => ""
  end.
(** [sscanf(pg, "%llu.%x", &ppool, &pseed)] of an id of digits, a dot and
    hexadecimal digits; otherwise [pseed] keeps what it held. *)
Definition pg_seed (junk : Z) (pg : string) : Z :=
  match parse_digits (skip_space pg), skip_digits (skip_space pg) with
  | Some _, String "." (String c s) =>
      match hex_val c with Some d => uint32 (hex_digits d s) | None => junk end
  | _, _ => junk
  end.

Section ops.
Context `{Librados W}.
  Abbreviation M := (ST (Storage.state W)).

(** What the thread of one osd inserts. *)
Fixpoint thread_oids (junk : Z) (pgs : list string) : M (list string) :=
    match pgs with
    | [] => mret []
    | pg :: pgs =>
        io ← Storage.io_ctx;
        oids ← Storage.world (io_nobjects_from io (pg_seed junk pg));
        more ← thread_oids junk pgs;
        mret (oids ++ more)
    end.
Definition invalid_osd : string := "oon".
Fixpoint osd_oids (junk : Z) (osds : list (string * list string)) : M (list (string * list string)) :=
    match osds with
    | [] => mret []
    | (osd, pgs) :: osds =>
        if decide (osd = invalid_osd) then
          more ← osd_oids junk osds; mret ((osd, []) :: more)
        else
          oids ← thread_oids junk pgs;
          more ← osd_oids junk osds;
          mret ((osd, oids) :: more)
    end.

(** The set of the objects found. *)
Definition found (osds : list (string * list string)) : gset string :=
    list_to_set (concat (snd <$> List.filter (λ p, negb (bool_decide (p.1 = invalid_osd))) osds)).

Section admin.
Context `{RadosAdmin W}.

(** The search with the threads run one after the other; [None]: the listing of
    the placement groups cannot be parsed. *)
Definition find_mails_async (junk : Z) (pool_name : string) : M (option (gset string)) :=
    osd_pg_map ← Storage.cluster (Cluster.list_pgs_osd_for_pool pool_name);
    match osd_pg_map with
    | None => mret None
    | Some m =>
        osds ← osd_oids junk (map_items m);
        mret (Some (found osds))
    end.
End admin.
End ops.

(** ** The threads *)

(** The main thread's place in the map, the threads that were started and not
    joined, each with what it has still to insert, and the shared set. *)
Record search := mk_search {
  se_main : list (string * list string);
  se_threads : list (list string);
  se_oids : gset string;
}.
Definition init (osds : list (string * list string)) : search := mk_search osds [] ∅.
Definition finished (s : search) : Prop := se_main s = [] ∧ se_threads s = [].

(** One step of one thread, with at most [num_threads] threads. *)
Inductive step (num_threads : Z) : search → search → Prop :=
| step_insert main before oid queue after oids :
    step num_threads (mk_search main (before ++ (oid :: queue) :: after) oids)
                     (mk_search main (before ++ queue :: after) ({[oid]} ∪ oids))
| step_join_full osd l main queues oids :
    Z.of_nat (length ([] :: queues)) = num_threads →
    step num_threads (mk_search ((osd, l) :: main) ([] :: queues) oids) (mk_search ((osd, l) :: main) queues oids)
| step_skip l main queues oids :
    Z.of_nat (length queues) ≠ num_threads →
    step num_threads (mk_search ((invalid_osd, l) :: main) queues oids) (mk_search main queues oids)
| step_start osd l main queues oids :
    Z.of_nat (length queues) ≠ num_threads → osd ≠ invalid_osd →
    step num_threads (mk_search ((osd, l) :: main) queues oids) (mk_search main (queues ++ [l]) oids)
| step_join_last queues oids :
    step num_threads (mk_search [] ([] :: queues) oids) (mk_search [] queues oids).

(** ** Lemmas *)

(** What a state will have found: what was inserted and what is still to be. *)
Definition to_find (s : search) : gset string :=
  se_oids s ∪ list_to_set (concat (se_threads s)) ∪ found (se_main s).
(** The work that is left. *)
Definition work (s : search) : nat :=
  length (concat (se_threads s)) + length (se_threads s) +
  list_sum ((λ p, 2 + length p.2)%nat <$> se_main s).

Lemma found_skip l main : found ((invalid_osd, l) :: main) = found main.
Proof. unfold found. cbn. done. Qed.
Lemma found_cons osd l main :
  osd ≠ invalid_osd → found ((osd, l) :: main) = list_to_set l ∪ found main.
Proof.
  intros Hn. unfold found. cbn. rewrite bool_decide_eq_false_2 by done. cbn. by rewrite list_to_set_app_L.
Qed.

Lemma step_to_find n s s' : step n s s' → to_find s' = to_find s.
Proof.
  intros Hs. destruct Hs; unfold to_find; cbn [se_main se_threads se_oids].
  - rewrite !concat_app. cbn. rewrite !list_to_set_app_L. cbn. rewrite list_to_set_app_L. set_solver.
  - done.
  - by rewrite found_skip.
  - rewrite found_cons by done. rewrite concat_app, list_to_set_app_L. cbn. rewrite app_nil_r. set_solver.
  - done.
Qed.

Lemma step_work n s s' : step n s s' → (work s' < work s)%nat.
Proof.
  intros Hs. destruct Hs; unfold work; cbn; rewrite ?concat_app, ?length_app; cbn;
    rewrite ?length_app, ?concat_app, ?length_app; cbn; rewrite ?app_nil_r; lia.
Qed.

Lemma step_bound n s s' :
  0 < n → step n s s' → Z.of_nat (length (se_threads s)) <= n → Z.of_nat (length (se_threads s')) <= n.
Proof.
  intros Hn Hs. destruct Hs; cbn; rewrite ?length_app; cbn; rewrite ?length_app; cbn; lia.
Qed.

(** Some thread can go on. *)
Lemma step_progress n s :
  0 < n → Z.of_nat (length (se_threads s)) <= n → ¬ finished s → ∃ s', step n s s'.
Proof.
  intros Hn Hb Hf. destruct s as [main queues oids]. cbn in *.
  assert (∀ q queues', queues = q :: queues' → q ≠ [] → ∃ s', step n (mk_search main queues oids) s') as Hin.
  { intros [|oid q] queues' -> Hq; [done|]. eexists. apply (step_insert n main [] oid q queues' oids). }
  destruct main as [|[osd l] main].
  - destruct queues as [|[|oid q] queues]; [by destruct Hf| |by eapply Hin].
    eexists. apply step_join_last.
  - destruct (decide (Z.of_nat (length queues) = n)) as [He|He].
    + destruct queues as [|[|oid q] queues]; [cbn in He; lia| |by eapply Hin].
      eexists. by apply step_join_full.
    + destruct (decide (osd = invalid_osd)) as [->|Ho]; eexists; [by apply step_skip|by apply step_start].
Qed.

Lemma rtc_inv n s s' :
  0 < n → rtc (step n) s s' → Z.of_nat (length (se_threads s)) <= n →
  to_find s' = to_find s ∧ Z.of_nat (length (se_threads s')) <= n.
Proof.
  intros Hn. induction 1 as [|s1 s2 s3 Hs _ IH]; [done|]. intros Hb.
  destruct (IH (step_bound n _ _ Hn Hs Hb)) as [-> ?]. split; [by eapply step_to_find|done].
Qed.

Lemma step_terminates n s : sn (step n) s.
Proof.
  remember (work s) as k eqn:E. revert s E.
  induction (lt_wf k) as [k _ IH]. intros s ->. constructor. intros s' Hs.
  eapply IH; [by eapply step_work|done].
Qed.
End FindMails.

(** ** Properties *)

(** C22. The threaded search finds what the threads run one after the other
    would find, whatever the interleaving: in every state it can reach there are
    at most [num_threads] threads, and it can go on unless all threads were
    joined; no schedule runs for ever; and when the search is over, the shared
    set is the set of all objects of all valid osds. *)
Theorem find_mails_interleaving (num_threads : Z) (osds : list (string * list string)) :
  0 < num_threads →
  sn (FindMails.step num_threads) (FindMails.init osds) ∧
  ∀ s, rtc (FindMails.step num_threads) (FindMails.init osds) s →
    Z.of_nat (length (FindMails.se_threads s)) <= num_threads ∧
    (¬ FindMails.finished s → ∃ s', FindMails.step num_threads s s') ∧
    (FindMails.finished s → FindMails.se_oids s = FindMails.found osds).
Proof.
  intros Hn. split; [apply FindMails.step_terminates|]. intros s Hr.
  destruct (FindMails.rtc_inv num_threads _ s Hn Hr) as [Et Hb]; [cbn; lia|].
  split; [done|]. split; [by apply FindMails.step_progress|].
  destruct s as [main queues oids]. intros [Hm Hq]. cbn in Hm, Hq. subst.
  unfold FindMails.to_find in Et. cbn in Et. rewrite !(right_id_L ∅ (∪)) in Et. by rewrite Et, (left_id_L ∅ (∪)).
Qed.

Lemma find_mails_interleaving_witness :
  sn (FindMails.step 1) (FindMails.init [("1", ["o1"; "o2"]); ("oon", ["o9"]); ("2", ["o3"])]) ∧
  FindMails.se_oids (FindMails.mk_search [] [] {["o3"; "o2"; "o1"]}) = {["o1"; "o2"; "o3"]}.
Proof.
  destruct (find_mails_interleaving 1 [("1", ["o1"; "o2"]); ("oon", ["o9"]); ("2", ["o3"])] ltac:(lia)) as [Ht Hs].
  split; [exact Ht|].
  apply (proj2 (proj2 (Hs (FindMails.mk_search [] [] {["o3"; "o2"; "o1"]})
    ltac:(
      eapply rtc_l; [by apply (FindMails.step_start 1 "1" ["o1"; "o2"] _ [])|];
      eapply rtc_l; [apply (FindMails.step_insert 1 _ [] "o1" ["o2"] [])|];
      eapply rtc_l; [apply (FindMails.step_insert 1 _ [] "o2" [] [])|];
      eapply rtc_l; [by apply (FindMails.step_join_full 1 "oon" ["o9"] _ [])|];
      eapply rtc_l; [by apply (FindMails.step_skip 1 ["o9"] _ [])|];
      eapply rtc_l; [by apply (FindMails.step_start 1 "2" ["o3"] _ [])|];
      eapply rtc_l; [apply (FindMails.step_insert 1 _ [] "o3" [] [])|];
      eapply rtc_l; [apply FindMails.step_join_last|];
      cbn; rewrite (right_id_L ∅ (∪)); apply rtc_refl))) ltac:(done)).
Defined.
