(* ===== verification/Stays.v ===== *)
(** What a computation keeps: the rules that follow its structure, and the
    administrative calls of a cluster, with what the connection is made of. *)
From S2P Require Export RadosStorage.
Local Open Scope rmb_scope.

(** [m] keeps [Q]; [at_snd P] is [P] of the second half of a state. *)
Definition stays {S A} (Q : S → Prop) (m : ST S A) : Prop := triple Q m (λ _, Q).
Definition at_snd {S W} (P : W → Prop) (s : S * W) : Prop := P s.2.

Section rules.
Context {S : Type} (Q : S → Prop).

Lemma stays_ret {A} (a : A) : stays Q (mret a).
Proof. by intros s Hs. Qed.
Lemma stays_bind {A B} (m : ST S A) (k : A → ST S B) : stays Q m → (∀ a, stays Q (k a)) → stays Q (m ≫= k).
Proof. intros Hm Hk. by eapply triple_kept. Qed.
Lemma stays_abind {A B} (m : ST S (option A)) (k : A → ST S (option B)) :
  stays Q m → (∀ a, stays Q (k a)) → stays Q (abind m k).
Proof. intros Hm Hk. apply stays_bind; [done|]. intros [a|]; [apply Hk|apply stays_ret]. Qed.
Lemma stays_fmap {A B} (f : A → B) (m : ST S A) : stays Q m → stays Q (f <$> m).
Proof. intros Hm s Hs. rewrite fmap_eq. by apply Hm. Qed.
Lemma stays_lift {A} (m : ST S A) : stays Q m → stays Q (lift m).
Proof. apply stays_fmap. Qed.
Lemma stays_iter {A} (f : A → ST S unit) l : (∀ x, stays Q (f x)) → stays Q (st_iter f l).
Proof. intros Hf. apply triple_iter. intros x _. apply Hf. Qed.
Lemma stays_on_snd {T A} (m : ST S A) : stays Q m → stays (at_snd (S:=T) Q) (on_snd m).
Proof. intros Hm [t s] Hs. rewrite on_snd_run. by apply Hm. Qed.
Lemma stays_on_fst {T A} (m : ST T A) : stays (at_snd (S:=T) Q) (on_fst m).
Proof. intros [t s] Hs. by rewrite on_fst_run. Qed.
Lemma stays_unless {A} (b : S → bool) (a : A) (m : ST S A) : stays Q m → stays Q (λ s, if b s then (a, s) else m s).
Proof. intros Hm s Hs. destruct (b s); [done|by apply Hm]. Qed.
End rules.

Create HintDb stays.
#[export] Hint Resolve stays_ret stays_on_fst : stays.
#[export] Hint Extern 1 (stays _ (aret _)) => apply stays_ret : stays.
#[export] Hint Extern 1 (stays _ abort) => apply stays_ret : stays.

(** Follow the structure of a computation. *)
Ltac stay_step := first
  [ assumption
  | solve [auto 5 with stays nocore] | solve [eauto 6 with stays nocore]
  | apply stays_lift | apply stays_fmap | apply stays_abind | apply stays_bind | apply stays_on_snd
  | apply stays_iter
  | progress intros
  | case_decide | case_match ].
Ltac stay := repeat stay_step.

(** [P] is kept by every administrative call. *)
Class AdminKeeps {W} `{RadosAdmin W} (P : W → Prop) : Prop := {
  keep_init : ∀ names, triple P (ra_init names) (λ _, P);
  keep_conf_parse_env : triple P ra_conf_parse_env (λ _, P);
  keep_conf_read_file : triple P ra_conf_read_file (λ _, P);
  keep_conf_get : ∀ o, triple P (ra_conf_get o) (λ _, P);
  keep_conf_set : ∀ o v, triple P (ra_conf_set o v) (λ _, P);
  keep_connect : triple P ra_connect (λ _, P);
  keep_pool_list2 : triple P ra_pool_list2 (λ _, P);
  keep_pool_create : ∀ pool, triple P (ra_pool_create pool) (λ _, P);
  keep_ioctx_create : ∀ pool, triple P (ra_ioctx_create pool) (λ _, P);
  keep_mon_command : ∀ cmd, triple P (ra_mon_command cmd) (λ _, P);
  keep_shutdown : triple P ra_shutdown (λ _, P);
}.
Ltac by_admin_call := try unfold stays; first
  [ apply keep_init | apply keep_conf_parse_env | apply keep_conf_read_file | apply keep_conf_get
  | apply keep_conf_set | apply keep_connect | apply keep_pool_list2 | apply keep_pool_create
  | apply keep_ioctx_create | apply keep_mon_command | apply keep_shutdown ].

Section answers.
Context `{RadosAdmin W}.

(** A new connection never answers [1], the code for an open one. *)
Lemma triple_any {S A B} (m : ST S A) (k : A → ST S B) Q :
    (∀ a, triple (λ _, True) (k a) Q) → triple (λ _, True) (m ≫= k) Q.
Proof. intros Hk. by apply (triple_bind _ _ (λ _ _, True)). Qed.

Lemma create_connection_answer pool index :
    triple (λ _ : Storage.state W, True) (Storage.create_connection pool index)
      (λ r _, ∀ v, r = Some v → v <= 0).
Proof.
    unfold Storage.create_connection.
    assert (∀ v : Z, v < 0 → triple (λ _ : Storage.state W, True) (mret (Some v))
              (λ r _, ∀ v, r = Some v → v <= 0)) as Hret by (intros v Hv s _ v' [= <-]; lia).
    assert (triple (λ _ : Storage.state W, True) (mret None) (λ r _, ∀ v : Z, r = Some v → v <= 0))
      as Hn by by intros s _ v [=].
    repeat first [apply triple_any; intros; repeat case_match | case_decide; [by apply Hret|] |
                  exact Hn | by apply Hret].
    all: by intros s _ v [= <-].
Qed.
End answers.

Section connection.
Context `{AdminKeeps W P}.

#[local] Hint Extern 2 (stays P _) => by_admin_call : stays.

(** *** The connection *)

Lemma cluster_initialize_stays o : stays P (Cluster.initialize o).
Proof. unfold Cluster.initialize, Cluster.get_config_option. stay. Qed.
#[local] Hint Resolve cluster_initialize_stays : stays.
Lemma cluster_get_stays : stays (at_snd P) Cluster.get.
Proof. apply stays_on_fst. Qed.
Lemma cluster_modify_stays f : stays (at_snd P) (Cluster.modify f).
Proof. apply stays_on_fst. Qed.
Lemma cluster_rados_stays {A} (m : ST W A) : stays P m → stays (at_snd P) (Cluster.rados m).
Proof. apply stays_on_snd. Qed.
#[local] Hint Resolve cluster_get_stays cluster_modify_stays cluster_rados_stays : stays.
Lemma cluster_init_stays o names : stays (at_snd P) (Cluster.init o names).
Proof. unfold Cluster.init. stay. Qed.
Lemma cluster_connect_stays : stays (at_snd P) Cluster.connect.
Proof. unfold Cluster.connect. stay. Qed.
#[local] Hint Resolve cluster_init_stays cluster_connect_stays : stays.
Lemma cluster_pool_create_stays pool : stays (at_snd P) (Cluster.pool_create pool).
Proof. unfold Cluster.pool_create. stay. Qed.
#[local] Hint Resolve cluster_pool_create_stays : stays.
Lemma cluster_io_ctx_create_stays pool : stays (at_snd P) (Cluster.io_ctx_create pool).
Proof. unfold Cluster.io_ctx_create. stay. Qed.
Lemma cluster_recovery_io_ctx_stays pool : stays (at_snd P) (Cluster.recovery_index_io_ctx pool).
Proof. unfold Cluster.recovery_index_io_ctx, Cluster.is_connected. stay. Qed.
Lemma list_pgs_osd_stays pool : stays (at_snd P) (Cluster.list_pgs_osd_for_pool pool).
Proof. unfold Cluster.list_pgs_osd_for_pool, Cluster.list_pgs, Cluster.is_connected. stay. Qed.
#[local] Hint Resolve cluster_io_ctx_create_stays cluster_recovery_io_ctx_stays list_pgs_osd_stays : stays.

(** *** A storage *)

Abbreviation PS := (at_snd (at_snd P)).
Lemma storage_get_stays : stays PS (Storage.get (W:=W)).
Proof. apply stays_on_fst. Qed.
Lemma storage_modify_stays f : stays PS (Storage.modify (W:=W) f).
Proof. apply stays_on_fst. Qed.
Lemma storage_cluster_stays {A} (m : ST (RadosClusterImpl * W) A) : stays (at_snd P) m → stays PS (Storage.cluster m).
Proof. apply stays_on_snd. Qed.
Lemma storage_world_stays {A} (m : ST W A) : stays P m → stays PS (Storage.world m).
Proof. intros Hm. by apply stays_on_snd, stays_on_snd. Qed.
Lemma guarded_stays {A} (d : A) m : stays PS m → stays PS (Storage.guarded (W:=W) d m).
Proof. intros Hm s Hs. unfold Storage.guarded. case_match; [by apply Hm|done]. Qed.
#[local] Hint Resolve storage_get_stays storage_modify_stays storage_cluster_stays storage_world_stays guarded_stays : stays.
#[local] Hint Extern 1 (stays _ Storage.io_ctx) => (apply stays_bind; [apply stays_on_fst|intros; apply stays_ret]) : stays.

Lemma create_connection_stays pool index : stays PS (Storage.create_connection pool index).
Proof. unfold Storage.create_connection, Storage.config_int, Cluster.get_config_option. stay. Qed.
#[local] Hint Resolve create_connection_stays : stays.
Lemma open_connection_named_stays o pool index name user :
  stays PS (Storage.open_connection_named o pool index name user).
Proof. unfold Storage.open_connection_named. apply stays_unless. stay. Qed.
Lemma cluster_deinit_stays : stays (at_snd P) Cluster.deinit.
Proof. unfold Cluster.deinit. stay. Qed.
#[local] Hint Resolve cluster_deinit_stays : stays.
Lemma close_connection_stays : stays PS Storage.close_connection.
Proof. unfold Storage.close_connection. stay. Qed.
End connection.

#[export] Hint Resolve cluster_get_stays cluster_modify_stays cluster_rados_stays cluster_init_stays
  cluster_connect_stays cluster_deinit_stays cluster_pool_create_stays cluster_io_ctx_create_stays
  cluster_recovery_io_ctx_stays list_pgs_osd_stays storage_get_stays storage_modify_stays storage_cluster_stays
  guarded_stays create_connection_stays open_connection_named_stays close_connection_stays : stays.
#[export] Hint Extern 1 (stays _ Storage.io_ctx) => (apply stays_bind; [apply stays_on_fst|intros; apply stays_ret]) : stays.

(** ** Single calls of a storage, in any outcome *)

Section storage_lemmas.
Context `{LibradosLaws W}.
  Implicit Types s : Storage.state W.

Lemma set_namespace_run ns s :
    Storage.set_namespace ns s = (tt, (Storage.set_nspace ns (Storage.set_ctx (set_io_ns ns (st_io_ctx s.1)) s.1), s.2)).
Proof. by destruct s. Qed.
(** A delete touches the object it names, in the namespace the storage is in, and no other. *)
Lemma delete_oid_spec oid s :
    let '(r, s') := Storage.delete_mail_oid oid s in
    let k := (st_io_ctx s.1, oid) in
    s'.1 = s.1 ∧ s'.2.1 = s.2.1 ∧ (∀ k', k' ≠ k → objects s' !! k' = objects s !! k') ∧
    (0 <= r → objects s' = delete k (objects s)) ∧ (r < 0 → r ≠ - ETIMEDOUT → objects s' = objects s).
Proof.
    unfold Storage.delete_mail_oid. destruct (negb _ || _ || _).
    - do 3 (split; [done|]). split; [lia|done].
    - rewrite bind_eq, StorageRun.io_ctx_run. exact (remove_spec (st_io_ctx s.1) oid s).
Qed.
Lemma stat_spec oid s :
    let s' := (Storage.stat_mail oid s).2 in s'.1 = s.1 ∧ s'.2.1 = s.2.1 ∧ objects s' = objects s.
Proof.
    unfold Storage.stat_mail. destruct (Storage.usable s) eqn:E; [|by rewrite StorageRun.guarded_unusable].
    rewrite StorageRun.guarded_usable by done. srun. do 2 (split; [done|]).
    unfold objects. cbn [fst snd]. pose proof (stat_law (st_io_ctx s.1) oid s.2.2) as Hl.
    destruct (io_stat _ _ _) as [[r out] w]. by destruct Hl as [? _].
Qed.
End storage_lemmas.
