(* ===== verification/MailStore.v ===== *)
(** What the storage promises: an abstract store of mails, in which every request has one of a
    few outcomes, and the theorem that [RadosStorageImpl] (librmb/rados-storage-impl.cpp)
    implements it, request by request, whatever fails. What follows for sequences of requests
    is proved of the abstract store: a mail that was saved can be read as it was saved until
    a request names its object again. *)
From S2P Require Export Stays.
Local Open Scope rmb_scope.

(** ** The abstract store *)

(** The context requests work in, and the objects. *)
Record mail_store := mk_store { sto_ctx : ioctx; sto_objs : store }.

Inductive store_request :=
| ReqSave (mail : RadosMail)
| ReqRead (oid : string)
| ReqDelete (oid : string)
| ReqCopy (now : Z) (src_oid src_ns dest_oid dest_ns : string) (to_update : list RadosMetadata)
| ReqMove (now : Z) (src_oid src_ns dest_oid dest_ns : string) (to_update : list RadosMetadata) (delete_source : bool)
| ReqNamespace (ns : string).
Inductive store_answer :=
| AnsSaved (r : option bool)
| AnsRead (r : Z) (bl : bufferlist)
| AnsCode (r : Z)
| AnsDone.

(** The object of a saved mail with the text [b], over what there was. *)
Definition saved_object (mail : RadosMail) (b : bufferlist) (mtime : Z) (old : option robject) : robject :=
  let old := default (empty_object 0) old in
  mk_robject (b +:+ str_drop (slen b) (ob_data old)) (rm_attrset mail ∪ ob_xattrs old) (rm_extended_attrset mail ∪ ob_omap old) mtime.

(** The outcomes: what succeeds has its effect, what fails changes at most the object it names;
    the time a call took too long it may have had its effect, or a part of it. *)
Inductive store_step (t : mail_store) : store_request → store_answer → mail_store → Prop :=
| step_saved mail b mtime :
    let key := (sto_ctx t, rm_oid mail) in
    rm_mail_buffer mail = Some b →
    store_step t (ReqSave mail) (AnsSaved (Some true))
      (mk_store (sto_ctx t) (<[key := saved_object mail b mtime (sto_objs t !! key)]> (sto_objs t)))
| step_save_failed mail o :
    store_step t (ReqSave mail) (AnsSaved (Some false))
      (mk_store (sto_ctx t) (partial_alter (λ _, o) (sto_ctx t, rm_oid mail) (sto_objs t)))
| step_read oid ob r :
    0 <= r → sto_objs t !! (sto_ctx t, oid) = Some ob →
    store_step t (ReqRead oid) (AnsRead r (read_range INT_MAX 0 (ob_data ob))) t
| step_read_failed oid r :
    r < 0 → store_step t (ReqRead oid) (AnsRead r "") t
| step_deleted oid r :
    0 <= r → store_step t (ReqDelete oid) (AnsCode r) (mk_store (sto_ctx t) (delete (sto_ctx t, oid) (sto_objs t)))
| step_delete_timed_out oid o :
    store_step t (ReqDelete oid) (AnsCode (- ETIMEDOUT))
      (mk_store (sto_ctx t) (partial_alter (λ _, o) (sto_ctx t, oid) (sto_objs t)))
| step_delete_failed oid r :
    r < 0 → store_step t (ReqDelete oid) (AnsCode r) t
| step_copied now src_oid src_ns dest_oid dest_ns upd ob r :
    0 <= r → sto_objs t !! (ns_ctx src_ns dest_ns src_ns (sto_ctx t), src_oid) = Some ob →
    store_step t (ReqCopy now src_oid src_ns dest_oid dest_ns upd) (AnsCode r)
      (mk_store (set_io_ns dest_ns (sto_ctx t))
         (<[(ns_ctx src_ns dest_ns dest_ns (sto_ctx t), dest_oid) := copied now upd ob]> (sto_objs t)))
| step_copy_failed now src_oid src_ns dest_oid dest_ns upd r :
    r < 0 → store_step t (ReqCopy now src_oid src_ns dest_oid dest_ns upd) (AnsCode r)
      (mk_store (set_io_ns dest_ns (sto_ctx t)) (sto_objs t))
| step_copy_timed_out now src_oid src_ns dest_oid dest_ns upd o :
    store_step t (ReqCopy now src_oid src_ns dest_oid dest_ns upd) (AnsCode (- ETIMEDOUT))
      (mk_store (set_io_ns dest_ns (sto_ctx t))
         (partial_alter (λ _, o) (ns_ctx src_ns dest_ns dest_ns (sto_ctx t), dest_oid) (sto_objs t)))
| step_moved now src_oid src_ns dest_oid dest_ns upd del ob :
    let src := (set_io_ns src_ns (sto_ctx t), src_oid) in
    let dest := (set_io_ns dest_ns (sto_ctx t), dest_oid) in
    sto_objs t !! src = Some ob →
    store_step t (ReqMove now src_oid src_ns dest_oid dest_ns upd del) (AnsCode 0)
      (mk_store (set_io_ns dest_ns (sto_ctx t))
         (<[dest := copied now upd ob]> (if del then delete src (sto_objs t) else sto_objs t)))
| step_move_kept now src_oid src_ns dest_oid dest_ns upd del r o :
    r ≠ 0 → store_step t (ReqMove now src_oid src_ns dest_oid dest_ns upd del) (AnsCode r)
      (mk_store (set_io_ns dest_ns (sto_ctx t))
         (partial_alter (λ _, o) (set_io_ns dest_ns (sto_ctx t), dest_oid) (sto_objs t)))
| step_move_unsure now src_oid src_ns dest_oid dest_ns upd ob r o :
    let src := (set_io_ns src_ns (sto_ctx t), src_oid) in
    let dest := (set_io_ns dest_ns (sto_ctx t), dest_oid) in
    r ≠ 0 → sto_objs t !! src = Some ob →
    store_step t (ReqMove now src_oid src_ns dest_oid dest_ns upd true) (AnsCode r)
      (mk_store (set_io_ns dest_ns (sto_ctx t)) (<[dest := copied now upd ob]> (partial_alter (λ _, o) src (sto_objs t))))
| step_namespace ns :
    store_step t (ReqNamespace ns) AnsDone (mk_store (set_io_ns ns (sto_ctx t)) (sto_objs t)).

(** A sequence of requests with their answers. *)
Inductive store_run : mail_store → list store_request → list store_answer → mail_store → Prop :=
| run_nil t : store_run t [] [] t
| run_cons t req ans t1 reqs anss t2 :
    store_step t req ans t1 → store_run t1 reqs anss t2 → store_run t (req :: reqs) (ans :: anss) t2.

(** ** The storage *)

Module MailStore.
Section requests.
Context `{Librados W}.
Definition run_request (req : store_request) : ST (Storage.state W) store_answer :=
    match req with
    | ReqSave mail => '(r, _) ← Storage.save_mail mail; mret (AnsSaved r)
    | ReqRead oid => '(r, bl) ← Storage.read_mail oid; mret (AnsRead r bl)
    | ReqDelete oid => r ← Storage.delete_mail_oid oid; mret (AnsCode r)
    | ReqCopy now src_oid src_ns dest_oid dest_ns upd =>
        r ← Storage.copy now src_oid src_ns dest_oid dest_ns upd; mret (AnsCode r)
    | ReqMove now src_oid src_ns dest_oid dest_ns upd del =>
        r ← Storage.move now src_oid src_ns dest_oid dest_ns upd del; mret (AnsCode r)
    | ReqNamespace ns => Storage.set_namespace ns ;; mret AnsDone
    end.
Fixpoint run_requests (reqs : list store_request) : ST (Storage.state W) (list store_answer) :=
    match reqs with
    | [] => mret []
    | req :: reqs => ans ← run_request req; anss ← run_requests reqs; mret (ans :: anss)
    end.
End requests.

(** The requests the promise is about: mails with a text that is not empty and fits an [int],
    and moves between two namespaces. *)
Definition well_formed (req : store_request) : Prop :=
  match req with
  | ReqSave mail =>
      (∃ b, rm_mail_buffer mail = Some b ∧ rm_object_size mail = Z.of_nat (slen b) ∧ 0 < Z.of_nat (slen b) < 2 ^ 31) ∧
      ∀ k, is_Some (rm_attrset mail !! k) → free_of NUL k = true
  | ReqMove _ _ src_ns _ dest_ns _ _ => src_ns ≠ dest_ns
  | _ => True
  end.
(** The abstract store that a storage stands for. *)
Definition abstracts `{LibradosLaws W} (s : Storage.state W) : mail_store := mk_store (st_io_ctx s.1) (objects s).
End MailStore.

(** ** The implementation *)

Module StoreRun.
(** A store that differs from another one in one place, or in two. *)
Lemma differs_at (m m' : store) k : (∀ k', k' ≠ k → m' !! k' = m !! k') → m' = partial_alter (λ _, m' !! k) k m.
Proof.
  intros Hf. apply map_eq. intros k'. destruct (decide (k' = k)) as [->|Hne]; [by rewrite lookup_partial_alter_eq|].
  by rewrite lookup_partial_alter_ne, Hf.
Qed.
Lemma differs_insert (m m' : store) k o : (∀ k', k' ≠ k → m' !! k' = m !! k') → m' !! k = Some o → m' = <[k := o]> m.
Proof.
  intros Hf Hk. apply map_eq. intros k'. destruct (decide (k' = k)) as [->|Hne]; [by rewrite lookup_insert_eq|].
  by rewrite lookup_insert_ne, Hf.
Qed.
Lemma differs_at_two (m m' : store) src dest o :
  (∀ k, k ≠ src → k ≠ dest → m' !! k = m !! k) → src ≠ dest → m' !! dest = Some o →
  m' = <[dest := o]> (partial_alter (λ _, m' !! src) src m).
Proof.
  intros Hf Hne Hd. apply differs_insert; [|done]. intros k Hk.
  destruct (decide (k = src)) as [->|Hs]; [by rewrite lookup_partial_alter_eq|]. by rewrite lookup_partial_alter_ne, Hf.
Qed.

Section simulation.
Context `{LibradosLaws W}.
  Implicit Types s : Storage.state W.
Import MailStore.

(** The storage stays usable, and each request is a step of the abstract store. *)
  Abbreviation simulated req s := (let '(ans, s') := run_request req s in
    Storage.usable s' = true ∧ store_step (abstracts s) req ans (abstracts s')).

Lemma same_usable s s' : s'.1 = s.1 → s'.2.1 = s.2.1 → Storage.usable s = true → Storage.usable s' = true.
Proof. unfold Storage.usable. by intros -> ->. Qed.
Lemma moved_usable io s s' : s'.1 = Storage.set_ctx io s.1 → s'.2.1 = s.2.1 → Storage.usable s = true → Storage.usable s' = true.
Proof. unfold Storage.usable. intros -> ->. by destruct s as [[] ?]. Qed.
Lemma moved_ctx io s s' : s'.1 = Storage.set_ctx io s.1 → st_io_ctx s'.1 = io.
Proof. intros ->. by destruct s as [[] ?]. Qed.

Lemma save_simulated mail s : Storage.usable s = true → well_formed (ReqSave mail) → simulated (ReqSave mail) s.
Proof.
    intros Hu [(b & Hb & Hsize & Hlen) Hk]. cbn [run_request]. rewrite bind_eq.
    pose proof (save_mail_spec s mail b Hu Hb Hsize Hlen Hk) as Hs.
    destruct (Storage.save_mail mail s) as [[r mail'] s']. cbn [fst snd]. rewrite ret_eq.
    destruct Hs as ([v ->] & E1 & E2 & Hf & Hw). split; [by eapply same_usable|].
    unfold abstracts at 2. rewrite E1. destruct v.
    - destruct (Hw eq_refl) as (_ & mtime & Ho). rewrite (differs_insert _ _ _ _ Hf Ho). by apply step_saved.
    - rewrite (differs_at _ _ _ Hf). apply step_save_failed.
Qed.
Lemma read_simulated oid s : Storage.usable s = true → simulated (ReqRead oid) s.
Proof.
    intros Hu. cbn [run_request]. rewrite bind_eq. unfold Storage.read_mail.
    rewrite StorageRun.guarded_usable, bind_eq, StorageRun.io_ctx_run by done. cbn [fst snd].
    rewrite StorageRun.storage_world_run. pose proof (read_law (st_io_ctx s.1) oid INT_MAX 0 s.2.2) as Hr.
    destruct (io_read _ _ _ _ s.2.2) as [[r bl] w']. cbn [fst snd]. rewrite ret_eq. destruct Hr as (Ho & Hl & Hr).
    split; [done|]. unfold abstracts, objects. cbn [fst snd]. rewrite Ho. destruct (decide (0 <= r)) as [Hge|Hlt].
    - destruct (Hr Hge) as (ob & Hob & ->). by apply step_read.
    - assert (bl = "") as -> by (destruct bl; [done|cbn in Hl; lia]). apply step_read_failed. lia.
Qed.
Lemma delete_simulated oid s : Storage.usable s = true → simulated (ReqDelete oid) s.
Proof.
    intros Hu. cbn [run_request]. rewrite bind_eq. pose proof (delete_oid_spec oid s) as Hd.
    destruct (Storage.delete_mail_oid oid s) as [r s']. cbn [fst snd]. rewrite ret_eq. destruct Hd as (E1 & E2 & Hf & Hok & Hfail).
    split; [by eapply same_usable|]. unfold abstracts at 2. rewrite E1. destruct (decide (0 <= r)) as [Hge|Hlt].
    - rewrite Hok by done. by apply step_deleted.
    - destruct (decide (r = - ETIMEDOUT)) as [->|Hne].
      + rewrite (differs_at _ _ _ Hf). apply step_delete_timed_out.
      + rewrite Hfail by lia. apply step_delete_failed. lia.
Qed.
Lemma copy_simulated now src_oid src_ns dest_oid dest_ns upd s : Storage.usable s = true →
    simulated (ReqCopy now src_oid src_ns dest_oid dest_ns upd) s.
Proof.
    intros Hu. cbn [run_request]. rewrite bind_eq. pose proof (copy_spec now src_oid src_ns dest_oid dest_ns upd s Hu) as Hc.
    cbv zeta in Hc. destruct (Storage.copy _ _ _ _ _ _ s) as [r s']. cbn [fst snd]. rewrite ret_eq.
    destruct Hc as (E1 & E2 & Hf & Hok & Hfail). split; [by eapply moved_usable|].
    unfold abstracts at 2. rewrite (moved_ctx _ _ _ E1). destruct (decide (0 <= r)) as [Hge|Hlt].
    - destruct (Hok Hge) as (ob & Hsrc & Hd). rewrite (differs_insert _ _ _ _ Hf Hd). by apply step_copied.
    - destruct (decide (r = - ETIMEDOUT)) as [->|Hne].
      + rewrite (differs_at _ _ _ Hf). apply step_copy_timed_out.
      + rewrite Hfail by lia. apply step_copy_failed. lia.
Qed.
Lemma move_simulated now src_oid src_ns dest_oid dest_ns upd del s : Storage.usable s = true → src_ns ≠ dest_ns →
    simulated (ReqMove now src_oid src_ns dest_oid dest_ns upd del) s.
Proof.
    intros Hu Hns. cbn [run_request]. rewrite bind_eq.
    pose proof (move_spec now src_oid src_ns dest_oid dest_ns upd del s Hu Hns) as Hm. cbv zeta in Hm.
    destruct (Storage.move _ _ _ _ _ _ _ s) as [r s']. cbn [fst snd]. rewrite ret_eq.
    destruct Hm as (E1 & E2 & Hf & Hsrc & Hok). split; [by eapply moved_usable|].
    unfold abstracts at 2. rewrite (moved_ctx _ _ _ E1).
    assert ((set_io_ns src_ns (st_io_ctx s.1), src_oid) ≠ (set_io_ns dest_ns (st_io_ctx s.1), dest_oid)) as Hne
      by (intros [= Hio _]; by apply (set_io_ns_ne src_ns dest_ns (st_io_ctx s.1))).
    destruct (decide (r = 0)) as [->|Hr].
    - destruct (Hok eq_refl) as (ob & Hob & Hd & Hs). rewrite (differs_at_two _ _ _ _ _ Hf Hne Hd), Hs.
      assert (partial_alter (λ _, if del then None else Some ob) (set_io_ns src_ns (st_io_ctx s.1), src_oid) (objects s) =
              if del then delete (set_io_ns src_ns (st_io_ctx s.1), src_oid) (objects s) else objects s) as ->.
      { destruct del; [done|]. rewrite <- Hob. apply partial_alter_self. }
      by apply step_moved.
    - destruct Hsrc as [Hkept|(-> & ob & Hob & Hd)].
      + assert (∀ k, k ≠ (set_io_ns dest_ns (st_io_ctx s.1), dest_oid) → objects s' !! k = objects s !! k) as Hf'.
        { intros k Hk. destruct (decide (k = (set_io_ns src_ns (st_io_ctx s.1), src_oid))) as [->|]; [done|by apply Hf]. }
        rewrite (differs_at _ _ _ Hf'). by apply step_move_kept.
      + rewrite (differs_at_two _ _ _ _ _ Hf Hne Hd). by apply step_move_unsure.
Qed.
Lemma request_simulated req s : Storage.usable s = true → well_formed req → simulated req s.
Proof.
    intros Hu Hw. destruct req.
    - by apply save_simulated.
    - by apply read_simulated.
    - by apply delete_simulated.
    - by apply copy_simulated.
    - by apply move_simulated.
    - cbn [run_request]. rewrite bind_eq, set_namespace_run, ret_eq. split; [by destruct s as [[] ?]|].
      destruct s as [[] ?]. apply step_namespace.
Qed.
Lemma requests_simulated reqs s : Storage.usable s = true → Forall well_formed reqs →
    let '(anss, s') := run_requests reqs s in
    Storage.usable s' = true ∧ store_run (abstracts s) reqs anss (abstracts s').
Proof.
    intros Hu Hw. revert s Hu. induction Hw as [|req reqs Hreq _ IH]; intros s Hu; [split; [done|constructor]|].
    cbn [run_requests]. rewrite bind_eq. pose proof (request_simulated req s Hu Hreq) as H1.
    destruct (run_request req s) as [ans s1]. cbn [fst snd]. destruct H1 as [Hu1 H1]. rewrite bind_eq.
    specialize (IH s1 Hu1). destruct (run_requests reqs s1) as [anss s2]. cbn [fst snd]. rewrite ret_eq.
    destruct IH as [Hu2 H2]. split; [done|]. by econstructor.
Qed.
End simulation.
End StoreRun.

(** ** What the abstract store keeps *)

Module StoreSpec.
(** The context after a request, and the objects it may change. *)
Definition ctx_after (req : store_request) (io : ioctx) : ioctx :=
  match req with
  | ReqCopy _ _ _ _ dest_ns _ | ReqMove _ _ _ _ dest_ns _ _ => set_io_ns dest_ns io
  | ReqNamespace ns => set_io_ns ns io
  | _ => io
  end.
Definition written (req : store_request) (io : ioctx) : list okey :=
  match req with
  | ReqSave mail => [(io, rm_oid mail)]
  | ReqDelete oid => [(io, oid)]
  | ReqCopy _ _ src_ns dest_oid dest_ns _ => [(ns_ctx src_ns dest_ns dest_ns io, dest_oid)]
  | ReqMove _ src_oid src_ns dest_oid dest_ns _ del =>
      (set_io_ns dest_ns io, dest_oid) :: if del then [(set_io_ns src_ns io, src_oid)] else []
  | _ => []
  end.
(** No request of a sequence writes the object. *)
Fixpoint spared (key : okey) (reqs : list store_request) (io : ioctx) : Prop :=
  match reqs with
  | [] => True
  | req :: reqs => key ∉ written req io ∧ spared key reqs (ctx_after req io)
  end.

Lemma store_step_ctx t req ans t' : store_step t req ans t' → sto_ctx t' = ctx_after req (sto_ctx t).
Proof. by destruct 1. Qed.
Lemma store_step_keeps t req ans t' key : store_step t req ans t' → key ∉ written req (sto_ctx t) → sto_objs t' !! key = sto_objs t !! key.
Proof.
  destruct 1; cbn [written sto_objs]; rewrite ?not_elem_of_cons; intros Hk; try done;
    rewrite ?lookup_insert_ne, ?lookup_partial_alter_ne, ?lookup_delete_ne by naive_solver; try done.
  destruct del; [|done]. rewrite lookup_delete_ne; [done|]. set_solver.
Qed.
Lemma store_run_keeps t reqs anss t' key : store_run t reqs anss t' → spared key reqs (sto_ctx t) →
  sto_objs t' !! key = sto_objs t !! key ∧ sto_ctx t' = foldl (λ io req, ctx_after req io) (sto_ctx t) reqs.
Proof.
  induction 1 as [|t req ans t1 reqs anss t2 H1 _ IH]; [done|]. intros [Hk Hs]. cbn [foldl].
  rewrite <- (store_step_ctx _ _ _ _ H1) in Hs |- *. destruct (IH Hs) as [-> ->].
  split; [by eapply store_step_keeps|done].
Qed.
(** What an answer tells. *)
Lemma saved_then t mail t' : store_step t (ReqSave mail) (AnsSaved (Some true)) t' →
  ∃ b mtime, rm_mail_buffer mail = Some b ∧
    sto_objs t' !! (sto_ctx t, rm_oid mail) = Some (saved_object mail b mtime (sto_objs t !! (sto_ctx t, rm_oid mail))).
Proof. inversion 1; subst. eexists _, _. split; [done|]. apply lookup_insert_eq. Qed.
Lemma read_then t oid r bl t' : store_step t (ReqRead oid) (AnsRead r bl) t' → 0 <= r →
  ∃ ob, sto_objs t !! (sto_ctx t, oid) = Some ob ∧ bl = read_range INT_MAX 0 (ob_data ob).
Proof. inversion 1; subst; [by eauto|lia]. Qed.
End StoreSpec.

(** ** Properties *)

(** C1. The storage implements the abstract store: from a storage that is connected, any
    sequence of well formed requests gives answers that the abstract store can give, and ends
    in a storage that stands for the abstract store they lead to, whatever calls fail, and is
    connected still. *)
Theorem storage_refines_store `{LibradosLaws W} reqs (s : Storage.state W) :
  Storage.usable s = true → Forall MailStore.well_formed reqs →
  let '(anss, s') := MailStore.run_requests reqs s in
  Storage.usable s' = true ∧ store_run (MailStore.abstracts s) reqs anss (MailStore.abstracts s').
Proof. apply StoreRun.requests_simulated. Qed.

Lemma sample_mail_well_formed : MailStore.well_formed (ReqSave sample_mail).
Proof.
  split; [exists "From: a"; cbn; repeat split; lia|]. intros k. cbn.
  destruct (decide (k = "M")) as [->|]; [done|]. rewrite lookup_singleton_ne by done. by intros [].
Qed.

Lemma storage_refines_store_witness :
  let reqs := [ReqSave sample_mail; ReqMove 77 "o1" "u1" "o2" "u2" [] true; ReqRead "o2"; ReqDelete "o2"; ReqRead "o2"] in
  let '(anss, s') := MailStore.run_requests reqs (mem_state "u1" ∅ []) in
  anss = [AnsSaved (Some true); AnsCode 0; AnsRead 7 "From: a"; AnsCode 0; AnsRead (-2) ""] ∧
  store_run (mk_store (mk_ioctx "mail_storage" "u1") ∅) reqs anss (MailStore.abstracts s').
Proof.
  intros reqs. pose proof (storage_refines_store reqs (mem_state "u1" ∅ []) eq_refl) as Hs.
  premise Hs. { repeat constructor; try done; apply sample_mail_well_formed. }
  destruct (MailStore.run_requests _ _) as [anss s'] eqn:E. destruct Hs as [_ Hs].
  split; [|exact Hs]. change anss with (anss, s').1. rewrite <- E. vm_compute. reflexivity.
Defined.

(** C2. A saved mail lasts: when a mail without a previous object was reported as saved, then
    after any requests that do not write its object, however they ended, a read in its
    namespace that succeeds gives exactly its text. *)
Theorem saved_mail_lasts `{LibradosLaws W} mail b reqs (s : Storage.state W) s1 anss s2 r bl s3 :
  Storage.usable s = true → MailStore.well_formed (ReqSave mail) → Forall MailStore.well_formed reqs →
  rm_mail_buffer mail = Some b → objects s !! (st_io_ctx s.1, rm_oid mail) = None →
  MailStore.run_request (ReqSave mail) s = (AnsSaved (Some true), s1) →
  StoreSpec.spared (st_io_ctx s.1, rm_oid mail) reqs (st_io_ctx s.1) →
  MailStore.run_requests reqs s1 = (anss, s2) → st_io_ctx s2.1 = st_io_ctx s.1 →
  MailStore.run_request (ReqRead (rm_oid mail)) s2 = (AnsRead r bl, s3) → 0 <= r → bl = b.
Proof.
  intros Hu Hw Hws Hb Hnew E1 Hsp E2 Hio E3 Hr.
  pose proof (StoreRun.request_simulated _ s Hu Hw) as H1. rewrite E1 in H1. destruct H1 as [Hu1 H1].
  pose proof (StoreRun.requests_simulated reqs s1 Hu1 Hws) as H2. rewrite E2 in H2. destruct H2 as [Hu2 H2].
  pose proof (StoreRun.request_simulated (ReqRead (rm_oid mail)) s2 Hu2 I) as H3. rewrite E3 in H3. destruct H3 as [_ H3].
  destruct Hw as [(b' & Hb' & _ & Hlen) _].
  pose proof (StoreSpec.store_step_ctx _ _ _ _ H1) as Hio1. cbn in Hio1.
  apply StoreSpec.saved_then in H1 as (b'' & mtime & Hb'' & H1).
  apply StoreSpec.read_then in H3 as (ob & H3 & ->); [|done].
  cbn in *. rewrite Hio in H3. rewrite <- Hio1 in Hsp.
  pose proof (proj1 (StoreSpec.store_run_keeps _ _ _ _ _ H2 Hsp)) as Hkeep. cbn in Hkeep. rewrite Hio1 in Hkeep.
  rewrite Hkeep, H1, Hnew in H3. injection H3 as <-. simplify_eq. cbn.
  rewrite str_drop_ge, sapp_nil_r by (cbn; lia). unfold read_range. rewrite str_drop_0, decide_True by (unfold INT_MAX; lia).
  done.
Qed.

Lemma saved_mail_lasts_witness :
  let reqs := [ReqNamespace "u2"; ReqSave sample_mail; ReqDelete "o1"; ReqNamespace "u1"; ReqCopy 77 "o1" "u1" "o2" "u1" []] in
  let s1 := (MailStore.run_request (ReqSave sample_mail) (mem_state "u1" ∅ [])).2 in
  let '(anss, s2) := MailStore.run_requests reqs s1 in
  anss = [AnsDone; AnsSaved (Some true); AnsCode 0; AnsDone; AnsCode 0] ∧
  ∃ r bl, (MailStore.run_request (ReqRead "o1") s2).1 = AnsRead r bl ∧ 0 <= r ∧ bl = "From: a".
Proof.
  intros reqs s1. destruct (MailStore.run_requests reqs s1) as [anss s2] eqn:E2.
  assert (anss = [AnsDone; AnsSaved (Some true); AnsCode 0; AnsDone; AnsCode 0] ∧ st_io_ctx s2.1 = mk_ioctx "mail_storage" "u1"
          ∧ (MailStore.run_request (ReqRead "o1") s2).1 = AnsRead 7 "From: a") as (Hans & Hio & Hread).
  { change anss with (anss, s2).1. change (st_io_ctx s2.1) with (st_io_ctx (anss, s2).2.1).
    change (MailStore.run_request (ReqRead "o1") s2) with (MailStore.run_request (ReqRead "o1") (anss, s2).2).
    rewrite <- E2. repeat split; vm_compute; reflexivity. }
  split; [exact Hans|]. exists 7, "From: a". split; [exact Hread|]. split; [lia|].
  apply (saved_mail_lasts sample_mail "From: a" reqs (mem_state "u1" ∅ []) s1 anss s2 7 "From: a"
           (MailStore.run_request (ReqRead "o1") s2).2).
  - reflexivity.
  - apply sample_mail_well_formed.
  - repeat constructor; apply sample_mail_well_formed.
  - reflexivity.
  - reflexivity.
  - vm_compute. reflexivity.
  - cbn. repeat split; rewrite ?not_elem_of_cons; try (split; [by intros [=]|]); apply not_elem_of_nil.
  - exact E2.
  - exact Hio.
  - rewrite <- Hread. apply surjective_pairing.
  - lia.
Defined.
