(* ===== verification/Json.v ===== *)
(** jansson, the JSON library: a parameter. The program prints and reads one
    object whose members are strings or one object of strings. *)
From S2P Require Export RadosTypes.
From Stdlib Require Import Ascii.

(** A member's value; a nested member that is no string is a null pointer. *)
Inductive json_value :=
| JString (s : string)
| JObject (l : list (string * option string))
| JOther.

#[export] Instance json_value_eq_dec : EqDecision json_value.
Proof. solve_decision. Defined.
#[export] Instance json_value_countable : Countable json_value.
Proof.
  refine (inj_countable'
    (λ v, match v with JString s => inl s | JObject l => inr (Some l) | JOther => inr None end)
    (λ x, match x with inl s => JString s | inr (Some l) => JObject l | inr None => JOther end) _).
  by intros [].
Defined.

Abbreviation json := (list (string * json_value)).

(** [json_loads] gives the members of the root, in the order of the text (none
    if the root is no object); [json_text] is the text a JSON string can hold. *)
Class Jansson := {
  json_text : string → bool;
  json_loads : string → option json;
  json_dumps : json → string;
}.

Fixpoint assoc {A} (k : string) (l : list (string * A)) : option A :=
  match l with
  | [] => None
  | (k', v) :: l => if decide (k' = k) then Some v else assoc k l
  end.
(** [json_object_set_new]: a member that exists keeps its place. *)
Fixpoint json_set {A} (k : string) (v : A) (l : list (string * A)) : list (string * A) :=
  match l with
  | [] => [(k, v)]
  | (k', v') :: l => if decide (k' = k) then (k, v) :: l else (k', v') :: json_set k v l
  end.

Definition json_string_value (v : option json_value) : option string :=
  match v with Some (JString s) => Some s | _ => None end.

Definition value_text `{Jansson} (v : json_value) : bool :=
  match v with
  | JString s => json_text s
  | JObject l => forallb (λ kv, json_text kv.1 && from_option json_text false kv.2) l
  | JOther => false
  end.
Definition json_ok `{Jansson} (l : json) : Prop :=
  NoDup l.*1 ∧ Forall (λ kv, json_text kv.1 = true ∧ value_text kv.2 = true) l ∧
  Forall (λ kv, match kv.2 with JObject m => NoDup m.*1 | _ => True end) l.

(** Printing keeps the members and their order, and printed text is a C string. *)
Class JanssonLaws `{Jansson} := {
  json_dumps_nul l : free_of NUL (json_dumps l) = true;
  json_round_trip l : json_ok l → json_loads (json_dumps l) = Some l;
}.

Lemma json_set_fresh {A} k (v : A) l : k ∉ l.*1 → json_set k v l = l ++ [(k, v)].
Proof.
  induction l as [|[k' v'] l IH]; cbn; [done|]. intros [Hk Hl]%not_elem_of_cons.
  rewrite decide_False by done. by rewrite IH.
Qed.

Lemma assoc_list_to_map {A} k (l : list (string * A)) : assoc k l = (list_to_map l : gmap string A) !! k.
Proof.
  induction l as [|[k' v] l IH]; cbn; [by rewrite lookup_empty|].
  case_decide as E; [by rewrite E, lookup_insert_eq|by rewrite lookup_insert_ne].
Qed.

(** ** A codec for the witnesses: the number of the object, in binary. *)

Fixpoint bits_of (p : positive) : string :=
  match p with
  | xH => ""
  | xO p => String "0" (bits_of p)
  | xI p => String "1" (bits_of p)
  end.
Fixpoint of_bits (s : string) : option positive :=
  match s with
  | "" => Some xH
  | String c s => p ← of_bits s;
      if char_is c "0" then Some (xO p) else if char_is c "1" then Some (xI p) else None
  end.

Lemma of_bits_of p : of_bits (bits_of p) = Some p.
Proof. induction p as [p IH|p IH|]; cbn; [by rewrite IH..|done]. Qed.
Lemma bits_of_nul p : free_of NUL (bits_of p) = true.
Proof. by induction p. Qed.

#[export] Instance bits_codec : Jansson := {
  json_text := free_of NUL;
  json_dumps l := bits_of (encode l);
  json_loads s := of_bits s ≫= decode;
}.

#[export] Program Instance bits_codec_laws : JanssonLaws.
Next Obligation. intros l. apply bits_of_nul. Qed.
Next Obligation. intros l _. cbn. rewrite of_bits_of. apply decode_encode. Qed.
