(* ===== verification/CephConfig.v ===== *)
(** The plugin's configuration object in the cluster: [RadosCephJsonConfig]
    (rados-ceph-json-config.h/.cpp) and [RadosCephConfig] (rados-ceph-config.h/.cpp).
    The JSON library is a parameter. *)
From S2P Require Export Librados Json.
From Stdlib Require Import Ascii.

(** ** RadosCephJsonConfig *)

Record RadosCephJsonConfig := mk_json_config {
  cfg_object_name : string;
  cfg_valid : bool;
  user_mapping : string;
  user_ns : string;
  user_suffix : string;
  public_namespace : string;
  mail_attributes : string;
  update_attributes : string;
  updateable_attributes : string;
  metadata_storage_module : string;
  metadata_storage_attribute : string;
}.

Module JsonConfig.
Definition key_user_mapping : string := "user_mapping".
Definition key_user_ns : string := "user_ns".
Definition key_user_suffix : string := "user_suffix".
Definition key_public_namespace : string := "rbox_public_namespace".
Definition key_mail_attributes : string := "rbox_mail_attributes".
Definition key_update_attributes : string := "rbox_update_attributes".
Definition key_updateable_attributes : string := "rbox_updateable_attributes".
Definition key_metadata_storage_module : string := "rbox_metadata_storage".
Definition key_metadata_storage_attribute : string := "rbox_storage_metadata_attr".

Definition default_mail_attributes : string :=
    foldl (λ s k, s +:+ String (key_char k) "") ""
      [RBOX_METADATA_MAILBOX_GUID; RBOX_METADATA_GUID; RBOX_METADATA_POP3_UIDL;
       RBOX_METADATA_POP3_ORDER; RBOX_METADATA_RECEIVED_TIME; RBOX_METADATA_PHYSICAL_SIZE;
       RBOX_METADATA_VIRTUAL_SIZE; RBOX_METADATA_ORIG_MAILBOX; RBOX_METADATA_MAIL_UID;
       RBOX_METADATA_VERSION].
Definition default_updateable_attributes : string := String (key_char RBOX_METADATA_ORIG_MAILBOX) "".

Definition new : RadosCephJsonConfig :=
    mk_json_config "rbox_cfg" false "false" "users" "_u" "public" default_mail_attributes "false"
      default_updateable_attributes "default" "ima".

Definition set_cfg_object_name (v : string) (c : RadosCephJsonConfig) : RadosCephJsonConfig :=
    let 'mk_json_config _ va um un us pn ma ua up mm mt := c in mk_json_config v va um un us pn ma ua up mm mt.
Definition set_valid (v : bool) (c : RadosCephJsonConfig) : RadosCephJsonConfig :=
    let 'mk_json_config n _ um un us pn ma ua up mm mt := c in mk_json_config n v um un us pn ma ua up mm mt.
Definition set_user_mapping (v : string) (c : RadosCephJsonConfig) : RadosCephJsonConfig :=
    let 'mk_json_config n va _ un us pn ma ua up mm mt := c in mk_json_config n va v un us pn ma ua up mm mt.
Definition set_user_ns (v : string) (c : RadosCephJsonConfig) : RadosCephJsonConfig :=
    let 'mk_json_config n va um _ us pn ma ua up mm mt := c in mk_json_config n va um v us pn ma ua up mm mt.
Definition set_user_suffix (v : string) (c : RadosCephJsonConfig) : RadosCephJsonConfig :=
    let 'mk_json_config n va um un _ pn ma ua up mm mt := c in mk_json_config n va um un v pn ma ua up mm mt.
Definition set_public_namespace (v : string) (c : RadosCephJsonConfig) : RadosCephJsonConfig :=
    let 'mk_json_config n va um un us _ ma ua up mm mt := c in mk_json_config n va um un us v ma ua up mm mt.
Definition set_mail_attributes (v : string) (c : RadosCephJsonConfig) : RadosCephJsonConfig :=
    let 'mk_json_config n va um un us pn _ ua up mm mt := c in mk_json_config n va um un us pn v ua up mm mt.
Definition set_update_attributes (v : string) (c : RadosCephJsonConfig) : RadosCephJsonConfig :=
    let 'mk_json_config n va um un us pn ma _ up mm mt := c in mk_json_config n va um un us pn ma v up mm mt.
Definition set_updateable_attributes (v : string) (c : RadosCephJsonConfig) : RadosCephJsonConfig :=
    let 'mk_json_config n va um un us pn ma ua _ mm mt := c in mk_json_config n va um un us pn ma ua v mm mt.
Definition set_metadata_storage_module (v : string) (c : RadosCephJsonConfig) : RadosCephJsonConfig :=
    let 'mk_json_config n va um un us pn ma ua up _ mt := c in mk_json_config n va um un us pn ma ua up v mt.
Definition set_metadata_storage_attribute (v : string) (c : RadosCephJsonConfig) : RadosCephJsonConfig :=
    let 'mk_json_config n va um un us pn ma ua up mm _ := c in mk_json_config n va um un us pn ma ua up mm v.

(** The first character of [s] that is one of [chars] ([find_first_of]). *)
Definition find_first_of (chars s : string) : bool :=
    negb (all_chars (λ c, all_chars (λ d, negb (char_is c d)) chars) s).
Definition is_mail_attribute (key : rbox_metadata_key) (c : RadosCephJsonConfig) : bool :=
    find_first_of (rbox_metadata_key_to_char key) (mail_attributes c).
Definition is_updateable_attribute (key : rbox_metadata_key) (c : RadosCephJsonConfig) : bool :=
    find_first_of (rbox_metadata_key_to_char key) (updateable_attributes c).
Definition is_update_attributes (c : RadosCephJsonConfig) : bool :=
    bool_decide (update_attributes c = "true").
Definition update_mail_attribute (value : option string) (c : RadosCephJsonConfig) : RadosCephJsonConfig :=
    match value with None => c | Some v => set_mail_attributes (c_str v) c end.
Definition update_updateable_attribute (value : option string) (c : RadosCephJsonConfig) :
      RadosCephJsonConfig :=
    match value with None => c | Some v => set_updateable_attributes (c_str v) c end.

Section json.
Context `{Jansson}.

(** A parsed configuration; assigning a null pointer to a string aborts: [None]. *)
Definition from_json (buffer : bufferlist) (c : RadosCephJsonConfig) :
        option (bool * RadosCephJsonConfig) :=
      match json_loads (c_str buffer) with
      | None => Some (false, c)
      | Some members =>
          let root key := json_string_value (assoc key members) in
          um ← root key_user_mapping;
          un ← root key_user_ns;
          us ← root key_user_suffix;
          pn ← root key_public_namespace;
          ua ← root key_update_attributes;
          ma ← root key_mail_attributes;
          up ← root key_updateable_attributes;
          mm ← root key_metadata_storage_module;
          mt ← root key_metadata_storage_attribute;
          Some (true, mk_json_config (cfg_object_name c) true um un us pn ma ua up mm mt)
      end.

Definition set_member (root : json) (kv : string * string) : json :=
      if json_text (c_str kv.2) then json_set kv.1 (JString (c_str kv.2)) root else root.
Definition members (c : RadosCephJsonConfig) : list (string * string) :=
      [(key_user_mapping, user_mapping c); (key_user_ns, user_ns c);
       (key_user_suffix, user_suffix c); (key_public_namespace, public_namespace c);
       (key_mail_attributes, mail_attributes c);
       (key_updateable_attributes, updateable_attributes c);
       (key_update_attributes, update_attributes c);
       (key_metadata_storage_module, metadata_storage_module c);
       (key_metadata_storage_attribute, metadata_storage_attribute c)].
Definition root_of (c : RadosCephJsonConfig) : json := foldl set_member [] (members c).
Definition to_json (c : RadosCephJsonConfig) (buffer : bufferlist) : bool * bufferlist :=
      (true, buffer +:+ json_dumps (root_of c)).
End json.
End JsonConfig.

(** ** RadosCephConfig *)

(** The context is a pointer: [None] is null, otherwise the context it points to. *)
Record RadosCephConfig := mk_ceph_config {
  cc_config : RadosCephJsonConfig;
  cc_io_ctx : option ioctx;
}.

Module CephConfig.
Import JsonConfig.
Section ops.
Context `{Jansson} `{Librados W}.
  Abbreviation M := (ST (RadosCephConfig * W)).

Definition get : M RadosCephConfig := on_fst st_get.
Definition modify (f : RadosCephJsonConfig → RadosCephJsonConfig) : M unit :=
    on_fst (st_modify (λ c, mk_ceph_config (f (cc_config c)) (cc_io_ctx c))).
Definition world {A} (m : ST W A) : M A := on_snd m.

Definition save_object (oid : string) (buffer : bufferlist) : M Z :=
    c ← get;
    match cc_io_ctx c with
    | None => mret (-1)
    | Some io => world (io_write_full io oid buffer)
    end.

(** The loop of [read_object] with [n] attempts left. *)
Fixpoint read_retry (io : ioctx) (oid : string) (n : nat) (ret_read : Z) : ST W (Z * bufferlist) :=
    match n with
    | O => mret (ret_read, "")
    | S n =>
        '(ret_read, buffer) ← io_read io oid INT_MAX 0;
        if decide (ret_read >= 0 ∨ ret_read = - ENOENT) then mret (ret_read, buffer)
        else read_retry io oid n ret_read
    end.
Definition max_retry : nat := 10.
Definition read_object (oid : string) : M (Z * bufferlist) :=
    c ← get;
    match cc_io_ctx c with
    | None => mret (-1, "")
    | Some io => world (read_retry io oid max_retry (-1))
    end.

Definition set_io_ctx_namespace (ns : string) : M unit :=
    on_fst (st_modify (λ c, mk_ceph_config (cc_config c) (set_io_ns ns <$> cc_io_ctx c))).

Definition save_cfg : M Z :=
    c ← get;
    let '(ok, buffer) := to_json (cc_config c) "" in
    success ← (if ok then r ← save_object (cfg_object_name (cc_config c)) buffer;
                          mret (bool_decide (r >= 0))
               else mret false);
    mret (if success : bool then 0 else -1).

(** [None]: the program aborts in [from_json]. *)
Definition load_cfg : M (option Z) :=
    c ← get;
    if cfg_valid (cc_config c) then mret (Some 0) else
    '(ret, buffer) ← read_object (cfg_object_name (cc_config c));
    if decide (ret < 0) then mret (Some ret) else
    modify (set_valid true) ;;
    c ← get;
    match from_json buffer (cc_config c) with
    | None => mret None
    | Some (ok, cfg) => modify (λ _, cfg) ;; mret (Some (if ok then 0 else -1))
    end.
End ops.

Definition is_valid_key_value (key value : string) : bool :=
  if decide (value = "" ∨ key = "") then false
  else if decide (key = key_user_mapping) then bool_decide (value = "true") || bool_decide (value = "false")
  else if decide (key = key_user_ns) then true
  else if decide (key = key_user_suffix) then true
  else if decide (key = key_public_namespace) then true
  else if decide (key = key_mail_attributes) then true
  else if decide (key = key_updateable_attributes) then true
  else if decide (key = key_update_attributes) then bool_decide (value = "true") || bool_decide (value = "false")
  else if decide (key = key_metadata_storage_module) then bool_decide (value = "default") || bool_decide (value = "ima")
  else bool_decide (key = key_metadata_storage_attribute).

Definition update_valid_key_value (key value : string) (c : RadosCephJsonConfig) :
    bool * RadosCephJsonConfig :=
  if decide (value = "" ∨ key = "") then (false, c)
  else if decide (key = key_user_mapping) then (true, set_user_mapping value c)
  else if decide (key = key_user_ns) then (true, set_user_ns value c)
  else if decide (key = key_user_suffix) then (true, set_user_suffix value c)
  else if decide (key = key_public_namespace) then (true, set_public_namespace value c)
  else if decide (key = key_mail_attributes) then (true, set_mail_attributes value c)
  else if decide (key = key_updateable_attributes) then (true, set_updateable_attributes value c)
  else if decide (key = key_update_attributes) then (true, set_update_attributes value c)
  else if decide (key = key_metadata_storage_module) then (true, set_metadata_storage_module value c)
  else if decide (key = key_metadata_storage_attribute) then (true, set_metadata_storage_attribute value c)
  else (false, c).

Definition is_user_mapping (c : RadosCephConfig) : bool :=
  bool_decide (user_mapping (cc_config c) = "true").
Definition is_config_valid (c : RadosCephConfig) : bool := cfg_valid (cc_config c).
End CephConfig.

(** ** Lemmas *)

(** The value a configuration holds under a key of the text format. *)
Definition config_value (c : RadosCephJsonConfig) (key : string) : option string :=
  (list_to_map [
    (JsonConfig.key_user_mapping, user_mapping c); (JsonConfig.key_user_ns, user_ns c);
    (JsonConfig.key_user_suffix, user_suffix c); (JsonConfig.key_public_namespace, public_namespace c);
    (JsonConfig.key_mail_attributes, mail_attributes c);
    (JsonConfig.key_updateable_attributes, updateable_attributes c);
    (JsonConfig.key_update_attributes, update_attributes c);
    (JsonConfig.key_metadata_storage_module, metadata_storage_module c);
    (JsonConfig.key_metadata_storage_attribute, metadata_storage_attribute c)] : gmap string string) !! key.

Lemma config_value_cases (c : RadosCephJsonConfig) key :
  config_value c key =
    if decide (key = JsonConfig.key_user_mapping) then Some (user_mapping c)
    else if decide (key = JsonConfig.key_user_ns) then Some (user_ns c)
    else if decide (key = JsonConfig.key_user_suffix) then Some (user_suffix c)
    else if decide (key = JsonConfig.key_public_namespace) then Some (public_namespace c)
    else if decide (key = JsonConfig.key_mail_attributes) then Some (mail_attributes c)
    else if decide (key = JsonConfig.key_updateable_attributes) then Some (updateable_attributes c)
    else if decide (key = JsonConfig.key_update_attributes) then Some (update_attributes c)
    else if decide (key = JsonConfig.key_metadata_storage_module) then Some (metadata_storage_module c)
    else if decide (key = JsonConfig.key_metadata_storage_attribute) then Some (metadata_storage_attribute c)
    else None.
Proof.
  unfold config_value. cbn [list_to_map foldr uncurry fst snd].
  repeat (case_decide; [subst; apply lookup_insert_eq|rewrite lookup_insert_ne by congruence]).
  apply lookup_empty.
Qed.

Section config_lemmas.
Context `{Jansson} `{LibradosLaws W}.

Lemma config_get_run (s : RadosCephConfig * W) : CephConfig.get s = (s.1, s).
Proof. by destruct s. Qed.
Lemma config_world_run {A} (m : ST W A) (s : RadosCephConfig * W) :
    CephConfig.world m s = ((m s.2).1, (s.1, (m s.2).2)).
Proof. unfold CephConfig.world. destruct s. by rewrite on_snd_run. Qed.
Lemma config_modify_run f (s : RadosCephConfig * W) :
    CephConfig.modify f s = (tt, (mk_ceph_config (f (cc_config s.1)) (cc_io_ctx s.1), s.2)).
Proof. by destruct s. Qed.

(** The world after [n] attempts to read. *)
Fixpoint after_attempts (io : ioctx) (oid : string) (n : nat) (w : W) : W :=
    match n with
    | O => w
    | S n => after_attempts io oid n (io_read io oid INT_MAX 0 w).2
    end.
Definition final_answer (r : Z) : Prop := r >= 0 ∨ r = - ENOENT.

Lemma read_retry_spec io oid n r0 w :
    (∃ k, (k < n)%nat ∧
       (∀ j, (j < k)%nat → ¬ final_answer (io_read io oid INT_MAX 0 (after_attempts io oid j w)).1.1) ∧
       final_answer (io_read io oid INT_MAX 0 (after_attempts io oid k w)).1.1 ∧
       CephConfig.read_retry io oid n r0 w = io_read io oid INT_MAX 0 (after_attempts io oid k w)) ∨
    ((∀ j, (j < n)%nat → ¬ final_answer (io_read io oid INT_MAX 0 (after_attempts io oid j w)).1.1) ∧
     (CephConfig.read_retry io oid n r0 w).1.2 = "" ∧
     (CephConfig.read_retry io oid n r0 w).2 = after_attempts io oid n w ∧
     ((0 < n)%nat → (CephConfig.read_retry io oid n r0 w).1.1 < 0)).
Proof.
    revert r0 w. induction n as [|n IH]; intros r0 w.
    - right. cbn. repeat split; intros; lia.
    - cbn [CephConfig.read_retry]. rewrite bind_eq.
      destruct (io_read io oid INT_MAX 0 w) as [[r bl] w'] eqn:E. cbn [fst snd].
      destruct (decide (r >= 0 ∨ r = - ENOENT)) as [Hf|Hf].
      + left. exists 0%nat. cbn. rewrite E. repeat split; try done; [lia|]. intros; lia.
      + destruct (IH r w') as [(k & Hk & Hj & Hfk & Hr)|(Hj & Hb & Hw & Hr)].
        * left. exists (S k). cbn. rewrite E. cbn. repeat split; [lia| |done|done].
          intros [|j] ?; cbn; rewrite E; cbn; [done|]. apply Hj. lia.
        * right. cbn. rewrite E. cbn. repeat split; [|done|done|].
          -- intros [|j] ?; cbn; rewrite E; cbn; [done|]. apply Hj. lia.
          -- intros _. destruct n as [|n]; [|apply Hr; lia]. cbn. unfold final_answer in *. lia.
Qed.

Lemma after_attempts_objs io oid n w : objs (after_attempts io oid n w) = objs w.
Proof.
    revert w. induction n as [|n IH]; intros w; cbn; [done|]. rewrite IH.
    pose proof (read_law io oid INT_MAX 0 w) as Hr.
    by destruct (io_read io oid INT_MAX 0 w) as [[r bl] w'], Hr as [? _].
Qed.
End config_lemmas.

Section save_load.
Context `{JanssonLaws} `{LibradosLaws W}.

(** A configuration all of whose texts can be printed. *)
Definition printable (c : RadosCephJsonConfig) : Prop :=
    Forall (λ kv, json_text kv.1 = true ∧ json_text (c_str kv.2) = true) (JsonConfig.members c).

Lemma root_of_members c :
    printable c →
    JsonConfig.root_of c = (λ kv, (kv.1, JString (c_str kv.2))) <$> JsonConfig.members c.
Proof.
    unfold printable, JsonConfig.members. intros Ht.
    repeat (apply list.Forall_cons in Ht as [[_ ?] Ht]; cbn [fst snd] in * ).
    unfold JsonConfig.root_of, JsonConfig.members. cbn [foldl]. unfold JsonConfig.set_member at 9.
    unfold JsonConfig.set_member. cbn [fst snd].
    repeat match goal with Hj : json_text _ = true |- _ => rewrite Hj; clear Hj end. reflexivity.
Qed.

Lemma root_ok c : printable c → json_ok (JsonConfig.root_of c).
Proof.
    intros Ht. rewrite root_of_members by done. repeat split.
    - rewrite <- list_fmap_compose. apply (bool_decide_unpack _). vm_compute. exact I.
    - apply Forall_fmap. eapply Forall_impl; [|exact Ht]. by intros [k v].
    - apply Forall_fmap. by apply Forall_true.
Qed.

Lemma save_cfg_writes c w w' io :
    cc_io_ctx c = Some io → CephConfig.save_cfg (c, w) = (0, (c, w')) →
    ∃ ob, objs w' !! (io, cfg_object_name (cc_config c)) = Some ob ∧
          ob_data ob = json_dumps (JsonConfig.root_of (cc_config c)).
Proof.
    intros Hc. unfold CephConfig.save_cfg, CephConfig.save_object.
    rewrite bind_eq, config_get_run. cbn [fst snd JsonConfig.to_json String.append].
    rewrite bind_eq, bind_eq, bind_eq, config_get_run. cbn [fst snd]. rewrite Hc, config_world_run. cbn [fst snd].
    rewrite !ret_eq. cbn [fst snd]. unfold io_write_full. set (ops := [_]).
    pose proof (operate_ok io (cfg_object_name (cc_config c)) ops w) as Ho.
    destruct (io_operate io _ ops w) as [r w1]. cbn [fst snd] in *.
    case_bool_decide; [|done]. intros [= <-]. destruct (Ho ltac:(lia)) as [now Ha].
    unfold apply_ops in Ha. cbn in Ha. injection Ha as <-. eexists. split; [apply lookup_insert_eq|].
    by destruct (objs w !! _).
Qed.

Lemma from_json_members c cfg :
    printable c →
    ∃ cfg', JsonConfig.from_json (json_dumps (JsonConfig.root_of c)) cfg = Some (true, cfg') ∧
      (∀ k, config_value cfg' k = c_str <$> config_value c k) ∧ cfg_valid cfg' = true.
Proof.
    intros Ht. unfold JsonConfig.from_json. rewrite c_str_id by apply json_dumps_nul.
    rewrite json_round_trip by by apply root_ok. rewrite root_of_members by done.
    eexists. split; [reflexivity|]. split; [|done].
    intros k. rewrite !config_value_cases. cbn. repeat case_decide; done.
Qed.
End save_load.

(** ** Properties *)

(** [update_valid_key_value] accepts exactly the nine documented keys with a
    value that is not empty; it then changes the value of that key to the one
    given and no other, and otherwise leaves the configuration alone. *)
Theorem config_update_one_key c key value :
  let '(ok, c') := CephConfig.update_valid_key_value key value c in
  (ok = true ↔ value ≠ "" ∧ key ≠ "" ∧ is_Some (config_value c key)) ∧
  (ok = true → (∀ k, config_value c' k = if decide (k = key) then Some value else config_value c k) ∧
               cfg_object_name c' = cfg_object_name c ∧ cfg_valid c' = cfg_valid c) ∧
  (ok = false → c' = c).
Proof.
  rewrite config_value_cases. unfold CephConfig.update_valid_key_value.
  destruct (decide (value = "" ∨ key = "")) as [Hn|Hn]; [naive_solver|].
  repeat (case_decide; [split; [split; [intros _; split; [tauto|split; [tauto|by eexists]]|done]
    |split; [intros _; split; [|by destruct c]|done]];
    intros k; rewrite !config_value_cases; destruct c; cbn; subst;
    repeat (case_decide; subst; try done)|]).
  split; [split; [done|]; by intros (_ & _ & [? [=]])|done].
Qed.

(** C39. [read_object] tries at most ten times: it answers with the first attempt
    that read the object or found it missing; when all ten fail otherwise it
    answers with an error and an empty buffer. No attempt changes an object. *)
Theorem config_read_retries `{LibradosLaws W} (c : RadosCephConfig) io oid (w : W) :
  cc_io_ctx c = Some io →
  let '(r, (c', w')) := CephConfig.read_object oid (c, w) in
  c' = c ∧ objs w' = objs w ∧
  ((∃ k, (k < 10)%nat ∧
      (∀ j, (j < k)%nat → ¬ final_answer (io_read io oid INT_MAX 0 (after_attempts io oid j w)).1.1) ∧
      final_answer r.1 ∧ (r, w') = io_read io oid INT_MAX 0 (after_attempts io oid k w)) ∨
   ((∀ j, (j < 10)%nat → ¬ final_answer (io_read io oid INT_MAX 0 (after_attempts io oid j w)).1.1) ∧
    r.1 < 0 ∧ r.2 = "" ∧ w' = after_attempts io oid 10 w)).
Proof.
  intros Hc. unfold CephConfig.read_object. rewrite bind_eq, config_get_run. cbn [fst snd]. rewrite Hc.
  rewrite config_world_run. cbn [fst snd]. unfold CephConfig.max_retry. split; [done|].
  destruct (read_retry_spec io oid 10 (-1) w) as [(k & Hk & Hj & Hf & Hr)|(Hj & Hb & Hw & Hn)].
  - rewrite Hr. split.
    + pose proof (read_law io oid INT_MAX 0 (after_attempts io oid k w)) as Hl.
      destruct (io_read io oid INT_MAX 0 _) as [[? ?] ?]. cbn. destruct Hl as [-> _].
      apply after_attempts_objs.
    + left. exists k. by rewrite <- surjective_pairing.
  - rewrite Hw. split; [apply after_attempts_objs|]. right. split; [exact Hj|]. split; [apply Hn; lia|].
    by split.
Qed.

(** The world in which the object [rbox_cfg] holds [text], with failures to come. *)
Definition cfg_world (text : string) (faults : list Z) : MemCluster :=
  mk_mem {[ (mk_ioctx "mail_storage" "", "rbox_cfg") := mk_robject text ∅ ∅ 0 ]} faults 0.
Definition cfg_ctx : ioctx := mk_ioctx "mail_storage" "".

Lemma config_read_retries_witness :
  let c := mk_ceph_config JsonConfig.new (Some cfg_ctx) in
  let '(r, (c', w')) := CephConfig.read_object "rbox_cfg" (c, cfg_world "{}" [-5; -110; -5]) in
  r = (2, "{}") ∧ c' = c.
Proof.
  intros c. pose proof (config_read_retries c cfg_ctx "rbox_cfg" (cfg_world "{}" [-5; -110; -5]) eq_refl) as Hr.
  destruct (CephConfig.read_object _ _) as [r [c' w']] eqn:E. destruct Hr as [Hc _].
  split; [|exact Hc].
  assert ((CephConfig.read_object "rbox_cfg" (c, cfg_world "{}" [-5; -110; -5])).1 = (2, "{}")) as Er
    by (vm_compute; reflexivity).
  by rewrite E in Er.
Defined.

(** C38. What [save_cfg] stored, [load_cfg] of a fresh instance gives back: every
    setting is the one saved (up to its first NUL), and the configuration counts
    as valid; the keys are distinct, so no setting overwrites another. *)
Theorem config_save_load `{JanssonLaws} `{LibradosLaws W} (c c' : RadosCephConfig) (w w' : W) io :
  cc_io_ctx c = Some io → cc_io_ctx c' = Some io →
  cfg_object_name (cc_config c') = cfg_object_name (cc_config c) → cfg_valid (cc_config c') = false →
  printable (cc_config c) →
  Z.of_nat (slen (json_dumps (JsonConfig.root_of (cc_config c)))) <= INT_MAX →
  CephConfig.save_cfg (c, w) = (0, (c, w')) →
  let '(r, (c'', w'')) := CephConfig.load_cfg (c', w') in
  objs w'' = objs w' ∧
  (r = Some 0 → (∀ k, config_value (cc_config c'') k = c_str <$> config_value (cc_config c) k) ∧
                cfg_valid (cc_config c'') = true) ∧
  (r ≠ Some 0 → ∃ e, r = Some e ∧ e < 0 ∧ c'' = c').
Proof.
  intros Hc Hc' Hname Hval Htext Hlen Hsave.
  destruct (save_cfg_writes c w w' io Hc Hsave) as (ob & Hob & Hd).
  unfold CephConfig.load_cfg, CephConfig.read_object. rewrite bind_eq, config_get_run. cbn [fst snd].
  rewrite Hval, Hname, bind_eq, bind_eq, config_get_run. cbn [fst snd]. rewrite Hc', config_world_run. cbn [fst snd].
  set (oid := cfg_object_name (cc_config c)) in *.
  destruct (read_retry_spec io oid CephConfig.max_retry (-1) w')
    as [(k & _ & _ & Hf & Hr)|(_ & Hb & Hw & Hn)].
  - pose proof (read_law io oid INT_MAX 0 (after_attempts io oid k w')) as Hl. rewrite Hr.
    destruct (io_read io oid INT_MAX 0 _) as [[r bl] w1]. cbn [fst snd] in *.
    rewrite after_attempts_objs in Hl. destruct Hl as (Eo & _ & Hl).
    destruct (decide (r < 0)).
    { rewrite ret_eq. split; [done|]. split; [intros [= ->]; lia|eauto]. }
    destruct (Hl ltac:(lia)) as (ob' & Hob' & ->). rewrite Hob in Hob'. injection Hob' as <-.
    unfold read_range. change (Z.to_nat 0) with 0%nat. rewrite str_drop_0, Hd, decide_True by done.
    rewrite bind_eq, config_modify_run, bind_eq, config_get_run. cbn [fst snd cc_config cc_io_ctx].
    destruct (from_json_members (cc_config c) (JsonConfig.set_valid true (cc_config c')) Htext)
      as (cfg' & -> & Hv & Hvalid).
    rewrite bind_eq, config_modify_run, ret_eq. cbn [fst snd cc_config]. by repeat (split; [done|]).
  - specialize (Hn ltac:(unfold CephConfig.max_retry; lia)).
    destruct (CephConfig.read_retry _ _ _ _ _) as [[r bl] w1]. cbn [fst snd] in *.
    rewrite decide_True by done. rewrite ret_eq, Hw, after_attempts_objs.
    split; [done|]. split; [intros [= ->]; lia|eauto].
Qed.

(** An object that is no JSON text makes the first [load_cfg] fail with [-1],
    but leaves the configuration marked valid with the settings it had: the next
    [load_cfg] answers [0] without reading anything. *)
Theorem config_bad_json_valid `{Jansson} `{Librados W} (c : RadosCephConfig) io (w w1 : W) r text :
  cc_io_ctx c = Some io → cfg_valid (cc_config c) = false →
  CephConfig.read_object (cfg_object_name (cc_config c)) (c, w) = ((r, text), (c, w1)) →
  0 <= r → json_loads (c_str text) = None →
  let c1 := mk_ceph_config (JsonConfig.set_valid true (cc_config c)) (Some io) in
  CephConfig.load_cfg (c, w) = (Some (-1), (c1, w1)) ∧
  CephConfig.load_cfg (c1, w1) = (Some 0, (c1, w1)) ∧
  (∀ k, config_value (cc_config c1) k = config_value (cc_config c) k).
Proof.
  intros Hc Hv Hr Hr0 Hj c1. split; [|split].
  - unfold CephConfig.load_cfg. rewrite bind_eq, config_get_run. cbn [fst snd]. rewrite Hv, bind_eq, Hr.
    cbn [fst snd]. rewrite decide_False by lia. rewrite bind_eq, config_modify_run, bind_eq, config_get_run.
    cbn [fst snd]. unfold JsonConfig.from_json. rewrite Hj, bind_eq, config_modify_run, ret_eq. cbn. by rewrite Hc.
  - unfold CephConfig.load_cfg. rewrite bind_eq, config_get_run. cbn [fst snd]. unfold c1. cbn.
    by destruct (cc_config c).
  - intros k. by destruct c as [[] ?].
Qed.

Lemma config_save_load_witness :
  let c := mk_ceph_config (JsonConfig.set_user_ns "mail_users" JsonConfig.new) (Some cfg_ctx) in
  let c' := mk_ceph_config JsonConfig.new (Some cfg_ctx) in
  let w := mk_mem ∅ [] 0 in
  let w' := (CephConfig.save_cfg (c, w)).2.2 in
  let '(r, (c'', w'')) := CephConfig.load_cfg (c', w') in
  r = Some 0 ∧ ∀ k, config_value (cc_config c'') k = c_str <$> config_value (cc_config c) k.
Proof.
  intros c c' w w'.
  assert (CephConfig.save_cfg (c, w) = (0, (c, w'))) as Hs by (vm_compute; reflexivity).
  pose proof (config_save_load c c' w w' cfg_ctx eq_refl eq_refl eq_refl eq_refl) as Hl.
  premise Hl; [repeat constructor|]. premise Hl; [vm_compute; done|]. specialize (Hl Hs).
  assert ((CephConfig.load_cfg (c', w')).1 = Some 0) as Er by (vm_compute; reflexivity).
  destruct (CephConfig.load_cfg (c', w')) as [r [c'' w'']]. cbn [fst] in Er.
  split; [exact Er|]. by apply Hl.
Defined.

Lemma config_bad_json_valid_witness :
  let c := mk_ceph_config JsonConfig.new (Some cfg_ctx) in
  let w := cfg_world "bad" [] in
  let '(r, s1) := CephConfig.load_cfg (c, w) in
  r = Some (-1) ∧ (CephConfig.load_cfg s1).1 = Some 0.
Proof.
  intros c w.
  destruct (config_bad_json_valid c cfg_ctx w w 3 "bad" eq_refl eq_refl) as (E1 & E2 & _);
    [vm_compute; reflexivity|lia|reflexivity|].
  rewrite E1. split; [reflexivity|]. by rewrite E2.
Defined.
