(* ===== verification/DovecotConfig.v ===== *)
(** [RadosConfig] (rados-dovecot-config.h/.cpp): the plugin's settings from
    dovecot.conf, a map from setting names to values. *)
From S2P Require Export RadosTypes.

Module DovecotConfig.
Definition pool_name : string := "rbox_pool_name".
Definition index_pool_name : string := "rbox_index_pool_name".
Definition rbox_cfg_object_name : string := "rbox_cfg_object_name".
Definition rbox_cluster_name : string := "rbox_cluster_name".
Definition rados_username : string := "rados_user_name".
Definition prefix_keyword : string := "k".
Definition bugfix_cephfs_posix_hardlinks : string := "rbox_bugfix_cephfs_21652".
Definition save_log : string := "rados_save_log".
Definition rbox_check_empty_mailboxes : string := "rados_check_empty_mailboxes".
Definition rbox_ceph_aio_wait_for_safe_and_cb : string := "rbox_ceph_aio_wait_for_safe_and_cb".
Definition rbox_ceph_write_chunks : string := "rbox_ceph_write_chunks".
Definition rbox_chunk_size : string := "rbox_chunk_size".
Definition rbox_write_method : string := "rbox_write_method".
Definition rbox_object_search_method : string := "rbox_object_search_method".
Definition rbox_object_search_threads : string := "rbox_object_search_threads".
End DovecotConfig.

(** [config] and [is_valid]; the other members are the constants above. *)
Record RadosConfig := mk_dovecot_config {
  dc_config : gmap string string;
  dc_is_valid : bool;
}.

Module RadosConfigOps.
Import DovecotConfig.

Definition new : RadosConfig :=
    mk_dovecot_config (list_to_map [
      (pool_name, "mail_storage"); (index_pool_name, "object_recovery");
      (rbox_cfg_object_name, "rbox_cfg"); (rbox_cluster_name, "ceph");
      (rados_username, "client.admin"); (bugfix_cephfs_posix_hardlinks, "false");
      (save_log, ""); (rbox_check_empty_mailboxes, "false");
      (rbox_ceph_aio_wait_for_safe_and_cb, "false"); (rbox_ceph_write_chunks, "false");
      (rbox_chunk_size, "10240"); (rbox_write_method, "0");
      (rbox_object_search_method, "0"); (rbox_object_search_threads, "4")]) false.

(** [config[key]]; a missing key reads as the empty string. *)
Definition get (key : string) (c : RadosConfig) : string := default "" (dc_config c !! key).

Definition update_pool_name_metadata (value : option string) (c : RadosConfig) : RadosConfig :=
    match value with
    | None => c
    | Some v => mk_dovecot_config (<[pool_name := c_str v]> (dc_config c)) (dc_is_valid c)
    end.
Definition update_metadata (key : string) (value_ : option string) (c : RadosConfig) : RadosConfig :=
    match value_ with
    | None => c
    | Some v =>
        if decide (is_Some (dc_config c !! key))
        then mk_dovecot_config (<[key := c_str v]> (dc_config c)) (dc_is_valid c) else c
    end.
Definition set_rbox_cfg_object_name (v : string) (c : RadosConfig) : RadosConfig :=
    mk_dovecot_config (<[rbox_cfg_object_name := v]> (dc_config c)) (dc_is_valid c).
Definition set_config_valid (v : bool) (c : RadosConfig) : RadosConfig :=
    mk_dovecot_config (dc_config c) v.
Definition string_contains_key (str : string) (key : rbox_metadata_key) : bool :=
    bool_decide (is_Some (str_find (rbox_metadata_key_to_char key) str)).

Definition is_ceph_posix_bugfix_enabled (c : RadosConfig) : bool :=
    bool_decide (get bugfix_cephfs_posix_hardlinks c = "true").
Definition is_rbox_check_empty_mailboxes (c : RadosConfig) : bool :=
    bool_decide (get rbox_check_empty_mailboxes c = "true").
Definition is_ceph_aio_wait_for_safe_and_cb (c : RadosConfig) : bool :=
    bool_decide (get rbox_ceph_aio_wait_for_safe_and_cb c = "true").
Definition is_write_chunks (c : RadosConfig) : bool :=
    bool_decide (get rbox_ceph_write_chunks c = "true").
End RadosConfigOps.

(** Every setting is present, whatever dovecot.conf holds. *)
Lemma settings_dom (l : list (string * option string)) :
  dom (dc_config (foldl (λ c kv, RadosConfigOps.update_metadata kv.1 kv.2 c) RadosConfigOps.new l)) =
    dom (dc_config RadosConfigOps.new).
Proof.
  generalize RadosConfigOps.new. induction l as [|[k v] l IH]; intros c; [done|]. cbn.
  rewrite IH. destruct v as [v|]; cbn; [|done]. case_decide as Hk; [|done]. cbn.
  rewrite dom_insert_L. apply elem_of_dom in Hk. set_solver.
Qed.

(** Reading dovecot.conf: a setting has the last value given for it, or its
    default when none was given (or only a null one); a setting the plugin does
    not know is dropped. *)
Theorem dovecot_config_last_value (l : list (string * option string)) key :
  dc_config (foldl (λ c kv, RadosConfigOps.update_metadata kv.1 kv.2 c) RadosConfigOps.new l) !! key =
    (λ d, default d (foldl (λ acc kv, if decide (kv.1 = key) then (c_str <$> kv.2) ∪ acc else acc) None l))
      <$> dc_config RadosConfigOps.new !! key.
Proof.
  generalize RadosConfigOps.new as c. induction l as [|[k v] l IH] using rev_ind; intros c; cbn.
  - by destruct (_ !! key).
  - rewrite !foldl_app. cbn [foldl fst snd]. specialize (IH c). revert IH.
    set (c' := foldl _ c l). set (a := foldl _ None l). intros IH.
    destruct v as [v|]; cbn [RadosConfigOps.update_metadata fmap option_fmap option_map].
    + destruct (decide (k = key)) as [->|Hne].
      * case_decide as Hk; cbn [dc_config].
        -- rewrite lookup_insert_eq. rewrite IH in Hk. destruct (dc_config c !! key); [by destruct a|].
           by destruct Hk.
        -- rewrite IH in Hk |- *. destruct (dc_config c !! key); [|done]. destruct Hk. by eexists.
      * case_decide; cbn [dc_config]; [by rewrite lookup_insert_ne|done].
    + rewrite IH. case_decide; [|done]. by destruct a.
Qed.
