(* ===== verification/NamespaceMgr.v ===== *)
(** [RadosNamespaceManager] (rados-namespace-manager.h/.cpp): the map from users
    to namespaces, read from one object per user and cached. *)
From S2P Require Export CephConfig.

Record RadosNamespaceManager := mk_ns_mgr {
  nm_config : option RadosCephConfig;      (** [None] is a null pointer *)
  nm_cache : gmap string string;
}.

Module NamespaceMgr.
Section ops.
Context `{Jansson} `{Librados W}.
  Abbreviation M := (ST (RadosNamespaceManager * W)).

(** [*value] is [None] when the out parameter was not assigned. *)
Definition lookup_key (uid : string) : M (bool * option string) :=
    λ '(m, w),
    if decide (uid = "") then ((true, Some uid), (m, w)) else
    match nm_config m with
    | None => ((false, None), (m, w))
    | Some config =>
        if negb (CephConfig.is_config_valid config) then ((false, None), (m, w)) else
        if negb (CephConfig.is_user_mapping config) then ((true, Some uid), (m, w)) else
        match nm_cache m !! uid with
        | Some value => ((true, Some value), (m, w))
        | None =>
(** temporarily set the namespace to the configured one *)
            let '(_, (config, w)) :=
              CephConfig.set_io_ctx_namespace (user_ns (cc_config config)) (config, w) in
            let '((err, bl), (config, w)) := CephConfig.read_object uid (config, w) in
            let '(retval, value, cache) :=
              if decide (err >= 0 ∧ bl ≠ "") then (true, Some bl, <[uid := bl]> (nm_cache m))
              else (false, None, nm_cache m) in
            let '(_, (config, w)) := CephConfig.set_io_ctx_namespace "" (config, w) in
            ((retval, value), (mk_ns_mgr (Some config) cache, w))
        end
    end.

(** [guid] is what the generator produces, [None] a null generator. *)
Definition add_namespace_entry (uid : string) (guid : option string) : M (bool * option string) :=
    λ '(m, w),
    match nm_config m with
    | None => ((false, None), (m, w))
    | Some config =>
        if negb (CephConfig.is_config_valid config) then ((false, None), (m, w)) else
        match guid with
        | None => ((false, None), (m, w))
        | Some value =>
            let '(_, (config, w)) :=
              CephConfig.set_io_ctx_namespace (user_ns (cc_config config)) (config, w) in
            let '(err, (config, w)) := CephConfig.save_object uid value (config, w) in
            let '(retval, cache) :=
              if decide (err >= 0) then (true, <[uid := value]> (nm_cache m)) else (false, nm_cache m) in
            let '(_, (config, w)) := CephConfig.set_io_ctx_namespace "" (config, w) in
            ((retval, Some value), (mk_ns_mgr (Some config) cache, w))
        end
    end.
End ops.
End NamespaceMgr.

(** ** The cache *)

(** The object that maps a user to its namespace. *)
Definition user_key (c : RadosCephConfig) (io : ioctx) (uid : string) : okey :=
  (set_io_ns (user_ns (cc_config c)) io, uid).

Section lemmas.
Context `{Jansson} `{LibradosLaws W}.

(** What the cache holds is what a read of the user's object would give. *)
Definition coherent (s : RadosNamespaceManager * W) : Prop :=
    ∀ c io uid v, nm_config s.1 = Some c → cc_io_ctx c = Some io → nm_cache s.1 !! uid = Some v →
      ∃ ob, objs s.2 !! user_key c io uid = Some ob ∧ v = read_range INT_MAX 0 (ob_data ob).

(** The manager after an access to the cluster: the context is back in the
      default namespace. *)
Definition after_io (c : RadosCephConfig) (io : ioctx) : RadosCephConfig :=
    mk_ceph_config (cc_config c) (Some (set_io_ns "" io)).

(** A lookup that misses the cache. *)
Lemma lookup_miss c io cache uid w :
    uid ≠ "" → cc_io_ctx c = Some io → CephConfig.is_config_valid c = true →
    CephConfig.is_user_mapping c = true → cache !! uid = None →
    let '((ok, v), (m', w')) := NamespaceMgr.lookup_key uid (mk_ns_mgr (Some c) cache, w) in
    nm_config m' = Some (after_io c io) ∧ objs w' = objs w ∧
    ((ok = false ∧ v = None ∧ nm_cache m' = cache) ∨
     (ok = true ∧ ∃ ob, objs w !! user_key c io uid = Some ob ∧
        v = Some (read_range INT_MAX 0 (ob_data ob)) ∧ read_range INT_MAX 0 (ob_data ob) ≠ "" ∧
        nm_cache m' = <[uid := read_range INT_MAX 0 (ob_data ob)]> cache)).
Proof.
    intros Hu Hio Hval Hmap Hmiss. unfold NamespaceMgr.lookup_key. cbn [nm_config nm_cache].
    rewrite decide_False by done. rewrite Hval, Hmap, Hmiss. cbn [negb].
    unfold CephConfig.set_io_ctx_namespace, CephConfig.read_object. rewrite on_fst_run. cbn [st_modify fst snd].
    rewrite bind_eq, config_get_run. cbn [fst snd cc_io_ctx]. rewrite Hio. cbn [fmap option_fmap option_map].
    rewrite config_world_run. cbn [fst snd].
    set (io' := set_io_ns (user_ns (cc_config c)) io).
    assert (∀ b, set_io_ns "" io' = b → set_io_ns "" io = b) as Hb by (intros ? <-; done).
    destruct (read_retry_spec io' uid CephConfig.max_retry (-1) w)
      as [(k & _ & _ & Hf & Hr)|(_ & Hbl & Hw & Hn)].
    - rewrite Hr. pose proof (read_law io' uid INT_MAX 0 (after_attempts io' uid k w)) as Hl.
      destruct (io_read io' uid INT_MAX 0 _) as [[r bl] w']. cbn [fst snd].
      rewrite after_attempts_objs in Hl. destruct Hl as (Eo & Hlen & Hl).
      destruct (decide (r >= 0 ∧ bl ≠ "")) as [[Hr0 Hne]|Hnot]; rewrite on_fst_run;
        cbn [st_modify fst snd nm_config nm_cache cc_config cc_io_ctx fmap option_fmap option_map];
        (split; [done|]; split; [done|]).
      + right. split; [done|]. destruct (Hl ltac:(lia)) as (ob & Hob & ->). by exists ob.
      + by left.
    - specialize (Hn ltac:(unfold CephConfig.max_retry; lia)).
      destruct (CephConfig.read_retry _ _ _ _ _) as [[r bl] w']. cbn [fst snd] in *.
      rewrite decide_False by lia. rewrite on_fst_run.
      cbn [st_modify fst snd nm_config nm_cache cc_config cc_io_ctx fmap option_fmap option_map].
      split; [done|]. rewrite Hw, after_attempts_objs. split; [done|]. by left.
Qed.

(** Adding an entry. *)
Lemma add_entry c io cache uid value w :
    cc_io_ctx c = Some io → CephConfig.is_config_valid c = true →
    let '((ok, v), (m', w')) :=
      NamespaceMgr.add_namespace_entry uid (Some value) (mk_ns_mgr (Some c) cache, w) in
    nm_config m' = Some (after_io c io) ∧ v = Some value ∧
    (∀ k, k ≠ user_key c io uid → objs w' !! k = objs w !! k) ∧
    ((ok = false ∧ nm_cache m' = cache) ∨
     (ok = true ∧ nm_cache m' = <[uid := value]> cache ∧
      ∃ ob, objs w' !! user_key c io uid = Some ob ∧ ob_data ob = value)).
Proof.
    intros Hio Hval. unfold NamespaceMgr.add_namespace_entry. cbn [nm_config nm_cache].
    rewrite Hval. cbn [negb].
    unfold CephConfig.set_io_ctx_namespace, CephConfig.save_object. rewrite on_fst_run. cbn [st_modify fst snd].
    rewrite bind_eq, config_get_run. cbn [fst snd cc_io_ctx]. rewrite Hio. cbn [fmap option_fmap option_map].
    rewrite config_world_run. cbn [fst snd]. unfold io_write_full. fold (user_key c io uid).
    set (io' := set_io_ns (user_ns (cc_config c)) io).
    pose proof (operate_ok io' uid [OpWriteFull value] w) as Hok.
    pose proof (λ k, operate_frame io' uid [OpWriteFull value] w k) as Hf.
    destruct (io_operate io' uid _ w) as [r w']. cbn [fst snd] in *.
    destruct (decide (r >= 0)); rewrite on_fst_run;
      cbn [st_modify fst snd nm_config nm_cache cc_config cc_io_ctx fmap option_fmap option_map];
      (split; [done|]; split; [done|]; split; [exact Hf|]); [right|by left].
    split; [done|]. split; [done|]. destruct (Hok ltac:(lia)) as [now Ha].
    unfold apply_ops in Ha. cbn in Ha. injection Ha as <-. eexists. split; [apply lookup_insert_eq|].
    by destruct (objs w !! _).
Qed.
End lemmas.

(** ** Properties *)

(** C36. The cache never disagrees with the cluster: a lookup keeps it coherent
    whatever the cluster answers, and so does adding a user the cache does not
    hold yet; and after every access the context is in the default namespace. *)
Theorem namespace_cache_coherent `{Jansson} `{LibradosLaws W} c io cache uid value (w : W) :
  uid ≠ "" → cc_io_ctx c = Some io → CephConfig.is_config_valid c = true →
  CephConfig.is_user_mapping c = true → cache !! uid = None →
  Z.of_nat (slen value) <= INT_MAX →
  coherent (mk_ns_mgr (Some c) cache, w) →
  coherent (NamespaceMgr.lookup_key uid (mk_ns_mgr (Some c) cache, w)).2 ∧
  coherent (NamespaceMgr.add_namespace_entry uid (Some value) (mk_ns_mgr (Some c) cache, w)).2 ∧
  nm_config (NamespaceMgr.lookup_key uid (mk_ns_mgr (Some c) cache, w)).2.1 = Some (after_io c io) ∧
  nm_config (NamespaceMgr.add_namespace_entry uid (Some value) (mk_ns_mgr (Some c) cache, w)).2.1 =
    Some (after_io c io).
Proof.
  intros Hu Hio Hval Hmap Hmiss Hlen Hco.
  pose proof (lookup_miss c io cache uid w Hu Hio Hval Hmap Hmiss) as Hl.
  pose proof (add_entry c io cache uid value w Hio Hval) as Ha.
  destruct (NamespaceMgr.lookup_key _ _) as [[ok v] [m1 w1]].
  destruct (NamespaceMgr.add_namespace_entry _ _ _) as [[ok' v'] [m2 w2]]. cbn [fst snd] in *.
  destruct Hl as (Hc1 & Eo & Hl), Ha as (Hc2 & _ & Hf & Ha). split; [|split]; [..|by split].
  - intros c' io' u x. cbn [fst snd]. rewrite Hc1, Eo. intros [= <-] [= <-] Hx.
    assert (cache !! u = Some x ∨ u = uid ∧ ∃ ob, objs w !! user_key c io uid = Some ob ∧
              x = read_range INT_MAX 0 (ob_data ob)) as [Hc|[-> Hob]].
    { destruct Hl as [(_ & _ & Ec)|(_ & ob & Hob & _ & _ & Ec)]; rewrite Ec in Hx; [by left|].
      apply lookup_insert_Some in Hx as [[<- <-]|[_ Hx]]; [right; eauto|by left]. }
    + exact (Hco c io u x eq_refl Hio Hc).
    + exact Hob.
  - intros c' io' u x. cbn [fst snd]. rewrite Hc2. intros [= <-] [= <-] Hx.
    assert (cache !! u = Some x ∨ u = uid ∧ x = value ∧ ∃ ob, objs w2 !! user_key c io uid = Some ob ∧
              ob_data ob = value) as [Hc|(-> & -> & ob & Hob & Hd)].
    { destruct Ha as [(_ & Ec)|(_ & Ec & Hob)]; rewrite Ec in Hx; [by left|].
      apply lookup_insert_Some in Hx as [[<- <-]|[_ Hx]]; [right; eauto|by left]. }
    + destruct (Hco c io u x eq_refl Hio Hc) as (ob & Hob & Hx'). exists ob. split; [|done].
      change (user_key (after_io c io) (set_io_ns "" io) u) with (user_key c io u).
      cbn [snd] in Hob. rewrite Hf; [done|]. unfold user_key. congruence.
    + exists ob. split; [exact Hob|]. rewrite Hd. unfold read_range.
      change (Z.to_nat 0) with 0%nat. by rewrite str_drop_0, decide_True.
Qed.

Definition mapping_config : RadosCephConfig :=
  mk_ceph_config (JsonConfig.set_valid true (JsonConfig.set_user_mapping "true" JsonConfig.new)) (Some cfg_ctx).

Lemma namespace_cache_coherent_witness :
  coherent (NamespaceMgr.add_namespace_entry "t1" (Some "guid1")
    (mk_ns_mgr (Some mapping_config) ∅, mk_mem ∅ [] 0)).2.
Proof.
  apply (namespace_cache_coherent mapping_config cfg_ctx ∅ "t1" "guid1" (mk_mem ∅ [] 0)); try done.
Defined.

(** A namespace that was added is found again: the same manager answers from
    its cache without touching the cluster, and a manager with an empty cache
    either fails or answers with the same namespace. *)
Theorem namespace_add_then_lookup `{Jansson} `{LibradosLaws W} c io cache uid value (w w1 : W) m1 :
  uid ≠ "" → value ≠ "" → cc_io_ctx c = Some io → CephConfig.is_config_valid c = true →
  CephConfig.is_user_mapping c = true → Z.of_nat (slen value) <= INT_MAX →
  NamespaceMgr.add_namespace_entry uid (Some value) (mk_ns_mgr (Some c) cache, w) =
    ((true, Some value), (m1, w1)) →
  NamespaceMgr.lookup_key uid (m1, w1) = ((true, Some value), (m1, w1)) ∧
  ((NamespaceMgr.lookup_key uid (mk_ns_mgr (Some c) ∅, w1)).1 = (true, Some value) ∨
   (NamespaceMgr.lookup_key uid (mk_ns_mgr (Some c) ∅, w1)).1 = (false, None)).
Proof.
  intros Hu Hv Hio Hval Hmap Hlen Hadd.
  pose proof (add_entry c io cache uid value w Hio Hval) as Ha. rewrite Hadd in Ha.
  destruct Ha as (Hc1 & _ & _ & [[[=] _]|(_ & Hcache & ob & Hob & Hd)]). split.
  - unfold NamespaceMgr.lookup_key. rewrite decide_False by done. rewrite Hc1.
    change (CephConfig.is_config_valid (after_io c io)) with (CephConfig.is_config_valid c).
    change (CephConfig.is_user_mapping (after_io c io)) with (CephConfig.is_user_mapping c).
    by rewrite Hval, Hmap, Hcache, lookup_insert_eq.
  - pose proof (lookup_miss c io ∅ uid w1 Hu Hio Hval Hmap (lookup_empty _)) as Hl.
    destruct (NamespaceMgr.lookup_key uid _) as [[ok v] [m2 w2]]. cbn [fst].
    destruct Hl as (_ & _ & [(-> & -> & _)|(-> & ob' & Hob' & -> & _)]); [by right|left].
    rewrite Hob in Hob'. injection Hob' as <-. rewrite Hd. unfold read_range.
    change (Z.to_nat 0) with 0%nat. by rewrite str_drop_0, decide_True.
Qed.

Lemma namespace_add_then_lookup_witness :
  let s := NamespaceMgr.add_namespace_entry "t1" (Some "guid1")
             (mk_ns_mgr (Some mapping_config) ∅, mk_mem ∅ [] 0) in
  NamespaceMgr.lookup_key "t1" s.2 = ((true, Some "guid1"), s.2).
Proof.
  intros s.
  apply (namespace_add_then_lookup mapping_config cfg_ctx ∅ "t1" "guid1" (mk_mem ∅ [] 0) s.2.2 s.2.1);
    try done.
Defined.
