(* ===== verification/MetadataStorage.v ===== *)
(** How a mail's attributes are kept on its object: the interface
    [RadosStorageMetadataModule] (rados-metadata-storage-module.h) and its two
    implementations, one xattr per attribute (rados-metadata-storage-default.cpp)
    and one JSON xattr for the immutable attributes (rados-metadata-storage-ima.cpp). *)
From S2P Require Export RadosStorage CephConfig.

(** ** The interface *)

(** [T] is a module's state; [None] as a result is an abort of the program. *)
Class MetadataModule (W T : Type) := {
  ms_io_ctx : T → ioctx;
  ms_set_io_ctx : ioctx → T → T;
  ms_load_metadata : T → RadosMail → ST W (option Z * RadosMail);
  ms_save_metadata : T → RadosMail → list write_op;
  ms_set_metadata : T → RadosMail → RadosMetadata → ST W (Z * RadosMail);
  ms_set_metadata_op : T → RadosMail → RadosMetadata → list write_op → ST W (Z * RadosMail);
  ms_update_metadata : T → string → list RadosMetadata → ST W (option bool);
  ms_update_keyword_metadata : T → string → option RadosMetadata → ST W Z;
  ms_remove_keyword_metadata : T → string → string → ST W Z;
  ms_load_keyword_metadata : T → string → gset string → ST W (Z * attrs);
}.

(** What a reader sees of an attribute map: the values as C strings. *)
Definition seen (m : attrs) : gmap string string := c_str <$> m.

(** What the modules promise to the parts that only read: loading changes no object. *)
Class MetadataContract (W T : Type) `{LibradosLaws W} `{MetadataModule W T} := {
  ms_load_objs : ∀ (t : T) (mail : RadosMail) (w : W), objs (ms_load_metadata t mail w).2 = objs w;
}.

(** ** Shared *)

Module Extended.
Section ops.
Context `{Librados W}.

(** [RadosUtils::get_all_keys_and_values]: all omap entries of an object. *)
Definition get_all_keys_and_values (io : ioctx) (oid : string) (kv_map : attrs) : ST W (Z * attrs) :=
    '(ret, extended_keys) ← io_omap_get_keys io oid;
    if decide (ret < 0) then mret (ret, kv_map) else
    '(ret, m) ← io_omap_get_vals_by_keys io oid extended_keys;
    mret (ret, if decide (ret >= 0) then m else kv_map).

(** [RadosUtils::osd_add] and [osd_sub]: a counter kept by the object class. *)
Definition osd_add (io : ioctx) (oid key : string) (value_to_add : Z) : ST W Z :=
    io_exec_add io oid key value_to_add.
Definition osd_sub (io : ioctx) (oid key : string) (value_to_subtract : Z) : ST W Z :=
    osd_add io oid key (int64 (- value_to_subtract)).
End ops.
End Extended.

(** ** RadosMetadataStorageDefault *)

Record MetadataDefault := mk_default { df_io_ctx : ioctx }.

Module MetadataDefaultOps.
Section ops.
Context `{Librados W}.

Definition load_metadata (t : MetadataDefault) (mail : RadosMail) : ST W (option Z * RadosMail) :=
    '(ret, m) ← io_getxattrs (df_io_ctx t) (rm_oid mail);
    let mail := Mail.set_metadata m mail in
    if decide (ret >= 0) then
      '(ret, ex) ← Extended.get_all_keys_and_values (df_io_ctx t) (rm_oid mail) (rm_extended_attrset mail);
      mret (Some ret, Mail.set_extended_metadata ex mail)
    else mret (Some ret, mail).

Definition set_metadata (t : MetadataDefault) (mail : RadosMail) (xattr : RadosMetadata) :
      ST W (Z * RadosMail) :=
    let mail := Mail.add_metadata xattr mail in
    ret ← io_setxattr (df_io_ctx t) (rm_oid mail) (c_str (md_key xattr)) (md_bl xattr);
    mret (ret, mail).

(** The overload with a write operation of the caller. *)
Definition set_metadata_op (t : MetadataDefault) (mail : RadosMail) (xattr : RadosMetadata)
      (write_op : list write_op) : ST W (Z * RadosMail) :=
    let mail := Mail.add_metadata xattr mail in
    let mail := if rm_completion mail then mail
                else Mail.set_active_op 1 (Mail.set_completion true mail) in
    '(sub, _) ← io_aio_operate (df_io_ctx t) (rm_oid mail) write_op;
    mret (sub, mail).

Definition save_metadata (t : MetadataDefault) (mail : RadosMail) : list write_op :=
    Storage.metadata_ops mail.

Definition update_metadata (t : MetadataDefault) (oid : string) (to_update : list RadosMetadata) :
      ST W (option bool) :=
    '(ret, _) ← io_aio_operate (df_io_ctx t) oid (Storage.update_ops to_update);
    mret (Some (bool_decide (ret = 0))).

Definition update_keyword_metadata (t : MetadataDefault) (oid : string) (metadata : option RadosMetadata) :
      ST W Z :=
    match metadata with
    | None => mret (-1)
    | Some m => io_omap_set (df_io_ctx t) oid {[md_key m := md_bl m]}
    end.
Definition remove_keyword_metadata (t : MetadataDefault) (oid key : string) : ST W Z :=
    io_omap_rm_keys (df_io_ctx t) oid {[key]}.
Definition load_keyword_metadata (t : MetadataDefault) (oid : string) (keys : gset string) :
      ST W (Z * attrs) :=
    io_omap_get_vals_by_keys (df_io_ctx t) oid keys.
End ops.
End MetadataDefaultOps.

#[export] Instance default_module `{Librados W} : MetadataModule W MetadataDefault := {
  ms_io_ctx := df_io_ctx;
  ms_set_io_ctx io _ := mk_default io;
  ms_load_metadata := MetadataDefaultOps.load_metadata;
  ms_save_metadata := MetadataDefaultOps.save_metadata;
  ms_set_metadata := MetadataDefaultOps.set_metadata;
  ms_set_metadata_op := MetadataDefaultOps.set_metadata_op;
  ms_update_metadata := MetadataDefaultOps.update_metadata;
  ms_update_keyword_metadata := MetadataDefaultOps.update_keyword_metadata;
  ms_remove_keyword_metadata := MetadataDefaultOps.remove_keyword_metadata;
  ms_load_keyword_metadata := MetadataDefaultOps.load_keyword_metadata;
}.

(** ** RadosMetadataStorageIma *)

(** The module and the settings it reads from the configuration. *)
Record MetadataIma := mk_ima { im_io_ctx : ioctx; im_cfg : RadosCephJsonConfig }.

Module MetadataImaOps.
Section ops.
Context `{Jansson} `{Librados W}.

Definition keyword_key : string := "K".

(** [cfg->is_updateable_attribute(static_cast<rbox_metadata_key>( *key))]. *)
Definition first_char (key : string) : Ascii.ascii :=
    match c_str key with "" => NUL | String c _ => c end.
Definition is_updateable_cast (cfg : RadosCephJsonConfig) (key : string) : bool :=
    JsonConfig.find_first_of (cast_key_to_char (key_of_char (first_char key)))
      (updateable_attributes cfg).
Definition keywords_in_omap (cfg : RadosCephJsonConfig) : bool :=
    JsonConfig.is_updateable_attribute RBOX_METADATA_OLDV1_KEYWORDS cfg &&
    JsonConfig.is_update_attributes cfg.
(** An attribute that is stored as an xattr of its own. *)
Definition own_xattr (cfg : RadosCephJsonConfig) (key : string) : bool :=
    is_updateable_cast cfg key && JsonConfig.is_update_attributes cfg.

Fixpoint parse_keywords (l : list (string * option string)) (ex : attrs) : option attrs :=
    match l with
    | [] => Some ex
    | (k, v) :: l => s ← v; parse_keywords l (<[k := s]> ex)
    end.
Fixpoint parse_attribute (root : json) (m ex : attrs) : option (attrs * attrs) :=
    match root with
    | [] => Some (m, ex)
    | (key, value) :: root =>
        if decide (key = keyword_key) then
          ex ← (match value with JObject l => parse_keywords l ex | _ => Some ex end);
          parse_attribute root m ex
        else
          s ← json_string_value (Some value);
          parse_attribute root (<[key := s]> m) ex
    end.

(** The retries of [load_metadata] with [n] attempts left. *)
Fixpoint getxattrs_retry (io : ioctx) (oid : string) (n : nat) (ret : Z) : ST W (Z * attrs) :=
    match n with
    | O => mret (ret, ∅)
    | S n =>
        '(ret, attr) ← io_getxattrs io oid;
        if decide (ret >= 0) then mret (ret, attr) else getxattrs_retry io oid n ret
    end.

Definition load_metadata (t : MetadataIma) (mail : RadosMail) : ST W (option Z * RadosMail) :=
    let cfg := im_cfg t in
    if decide (rm_attrset mail ≠ ∅) then mret (Some 0, mail) else
    '(ret, attr) ← getxattrs_retry (im_io_ctx t) (rm_oid mail) 10 (-1);
    if decide (ret < 0) then mret (Some ret, mail) else
    let parsed :=
      match attr !! metadata_storage_attribute cfg with
      | Some bl => parse_attribute (default [] (json_loads (c_str bl))) (rm_attrset mail)
                     (rm_extended_attrset mail)
      | None => Some (rm_attrset mail, rm_extended_attrset mail)
      end in
    match parsed with
    | None => mret (None, mail)
    | Some (m, ex) =>
        let mail := Mail.set_extended_metadata ex
          (Mail.set_metadata (delete (metadata_storage_attribute cfg) attr ∪ m) mail) in
        if JsonConfig.is_updateable_attribute RBOX_METADATA_OLDV1_KEYWORDS cfg then
          '(ret, ex) ← Extended.get_all_keys_and_values (im_io_ctx t) (rm_oid mail) (rm_extended_attrset mail);
          mret (Some ret, Mail.set_extended_metadata ex mail)
        else mret (Some ret, mail)
    end.

Definition set_text {A} (k : string) (s : string) (inject : string → A) (l : list (string * A)) :
      list (string * A) :=
    if json_text (c_str k) && json_text (c_str s) then json_set (c_str k) (inject (c_str s)) l else l.

(** One attribute of [save_metadata]: a member of the root or an operation. *)
Definition save_attribute (cfg : RadosCephJsonConfig) (acc : json * list write_op)
      (kv : string * bufferlist) : json * list write_op :=
    if own_xattr cfg kv.1 then (acc.1, acc.2 ++ [OpSetxattr (c_str kv.1) kv.2])
    else (set_text kv.1 kv.2 JString acc.1, acc.2).

Definition save_metadata (t : MetadataIma) (mail : RadosMail) : list write_op :=
    let cfg := im_cfg t in
    let '(root, ops) := foldl (save_attribute cfg) ([], []) (map_items (rm_attrset mail)) in
    let '(root, ops) :=
      if decide (rm_extended_attrset mail = ∅) then (root, ops)
      else if keywords_in_omap cfg then (root, ops ++ [OpOmapSet (rm_extended_attrset mail)])
      else
        let keyword := foldl (λ l kv, set_text kv.1 kv.2 Some l) [] (map_items (rm_extended_attrset mail)) in
        (json_set keyword_key (JObject keyword) root, ops) in
    ops ++ [OpSetxattr (c_str (metadata_storage_attribute cfg)) (json_dumps root)].

(** Both overloads: the caller's write operation is not used. *)
Definition set_metadata (t : MetadataIma) (mail : RadosMail) (xattr : RadosMetadata) :
      ST W (Z * RadosMail) :=
    if negb (is_updateable_cast (im_cfg t) (md_key xattr)) then
      let mail := Mail.add_metadata xattr mail in
      ret ← io_operate (im_io_ctx t) (rm_oid mail) (save_metadata t mail);
      mret (ret, mail)
    else
      ret ← io_setxattr (im_io_ctx t) (rm_oid mail) (c_str (md_key xattr)) (md_bl xattr);
      mret (ret, mail).

Definition update_metadata (t : MetadataIma) (oid : string) (to_update : list RadosMetadata) :
      ST W (option bool) :=
    if decide (to_update = []) then mret (Some true) else
    '(r, obj) ← load_metadata t (Mail.set_oid oid Mail.new);
    match r with
    | None => mret None
    | Some _ =>
        let obj := foldl (λ o x, Mail.add_extended_metadata x o) obj to_update in
        '(ret, _) ← io_aio_operate (im_io_ctx t) oid (save_metadata t obj);
        mret (Some (bool_decide (ret = 0)))
    end.

Definition update_keyword_metadata (t : MetadataIma) (oid : string) (metadata : option RadosMetadata) :
      ST W Z :=
    match metadata with
    | None => mret (-1)
    | Some m => if keywords_in_omap (im_cfg t)
                then io_omap_set (im_io_ctx t) oid {[md_key m := md_bl m]} else mret (-1)
    end.
Definition remove_keyword_metadata (t : MetadataIma) (oid key : string) : ST W Z :=
    io_omap_rm_keys (im_io_ctx t) oid {[key]}.
Definition load_keyword_metadata (t : MetadataIma) (oid : string) (keys : gset string) :
      ST W (Z * attrs) :=
    io_omap_get_vals_by_keys (im_io_ctx t) oid keys.
End ops.
End MetadataImaOps.

#[export] Instance ima_module `{Jansson} `{Librados W} : MetadataModule W MetadataIma := {
  ms_io_ctx := im_io_ctx;
  ms_set_io_ctx io t := mk_ima io (im_cfg t);
  ms_load_metadata := MetadataImaOps.load_metadata;
  ms_save_metadata := MetadataImaOps.save_metadata;
  ms_set_metadata := MetadataImaOps.set_metadata;
  ms_set_metadata_op t mail x _ := MetadataImaOps.set_metadata t mail x;
  ms_update_metadata := MetadataImaOps.update_metadata;
  ms_update_keyword_metadata := MetadataImaOps.update_keyword_metadata;
  ms_remove_keyword_metadata := MetadataImaOps.remove_keyword_metadata;
  ms_load_keyword_metadata := MetadataImaOps.load_keyword_metadata;
}.

(** [RadosMetadataStorageImpl::create_metadata_storage]: the module named in the
    configuration, every name but ["ima"] giving the default one. *)
Definition create_metadata_storage (storage : option (MetadataDefault + MetadataIma)) (io : ioctx)
    (cfg : RadosCephJsonConfig) : MetadataDefault + MetadataIma :=
  match storage with
  | Some s => s
  | None => if decide (metadata_storage_module cfg = "ima") then inr (mk_ima io cfg)
            else inl (mk_default io)
  end.

(** The chosen module. *)
#[export] Instance chosen_module `{Jansson} `{Librados W} : MetadataModule W (MetadataDefault + MetadataIma) := {
  ms_io_ctx t := match t with inl t => ms_io_ctx t | inr t => ms_io_ctx t end;
  ms_set_io_ctx io t := match t with inl t => inl (ms_set_io_ctx io t) | inr t => inr (ms_set_io_ctx io t) end;
  ms_load_metadata t := match t with inl t => ms_load_metadata t | inr t => ms_load_metadata t end;
  ms_save_metadata t := match t with inl t => ms_save_metadata t | inr t => ms_save_metadata t end;
  ms_set_metadata t := match t with inl t => ms_set_metadata t | inr t => ms_set_metadata t end;
  ms_set_metadata_op t := match t with inl t => ms_set_metadata_op t | inr t => ms_set_metadata_op t end;
  ms_update_metadata t := match t with inl t => ms_update_metadata t | inr t => ms_update_metadata t end;
  ms_update_keyword_metadata t :=
    match t with inl t => ms_update_keyword_metadata t | inr t => ms_update_keyword_metadata t end;
  ms_remove_keyword_metadata t :=
    match t with inl t => ms_remove_keyword_metadata t | inr t => ms_remove_keyword_metadata t end;
  ms_load_keyword_metadata t :=
    match t with inl t => ms_load_keyword_metadata t | inr t => ms_load_keyword_metadata t end;
}.

(** ** Lemmas *)

(** The extended attributes read from an object: all of them, when it succeeds. *)
Lemma get_all_spec `{LibradosLaws W} io oid kv (w : W) :
  let '((r, ex), w') := Extended.get_all_keys_and_values io oid kv w in
  objs w' = objs w ∧
  (0 <= r → ∃ ob, objs w !! (io, oid) = Some ob ∧ ex = ob_omap ob).
Proof.
  unfold Extended.get_all_keys_and_values. rewrite bind_eq.
  pose proof (omap_get_keys_law io oid w) as Hk.
  destruct (io_omap_get_keys io oid w) as [[r ks] w1]. cbn [fst snd]. destruct Hk as (Eo & Hk & _).
  destruct (decide (r < 0)); [split; [done|lia]|].
  rewrite bind_eq. pose proof (omap_get_vals_by_keys_law io oid ks w1) as Hv.
  destruct (io_omap_get_vals_by_keys io oid ks w1) as [[r' m] w2]. cbn [fst snd].
  destruct Hv as (Eo' & Hv & _). rewrite ret_eq. split; [congruence|]. intros Hr.
  rewrite decide_True by lia. destruct (Hk ltac:(lia)) as (ob & Hob & ->), (Hv Hr) as (ob' & Hob' & ->).
  exists ob. split; [done|]. rewrite Eo in Hob'. rewrite Hob in Hob'. injection Hob' as <-.
  apply map_filter_id. intros k x Hx. cbn. by apply elem_of_dom_2 in Hx.
Qed.

Lemma apply_plain_metadata now m mail :
  (∀ k, is_Some (rm_attrset mail !! k) → free_of NUL k = true) →
  apply_obj now m (Some (empty_object now)) (Storage.metadata_ops mail) =
    Some (Some (mk_robject "" (rm_attrset mail) (rm_extended_attrset mail) now)).
Proof.
  intros Hk. unfold Storage.metadata_ops. rewrite metadata_keys_c_str by done.
  rewrite apply_obj_app, apply_obj_setxattrs. cbn [mbind option_bind].
  rewrite apply_updates_union, map_items_to_map by apply NoDup_map_items.
  unfold set_xattrs. cbn [ob_data ob_xattrs ob_omap ob_mtime empty_object].
  rewrite (right_id_L ∅ (∪)).
  destruct (decide (rm_extended_attrset mail = ∅)) as [->|_]; cbn; [done|].
  by rewrite (right_id_L ∅ (∪)).
Qed.

Lemma default_load_objs `{LibradosLaws W} t mail (w : W) :
  objs (MetadataDefaultOps.load_metadata t mail w).2 = objs w.
Proof.
  unfold MetadataDefaultOps.load_metadata. rewrite bind_eq.
  pose proof (getxattrs_law (df_io_ctx t) (rm_oid mail) w) as Hx.
  destruct (io_getxattrs _ _ w) as [[r x] w1]. destruct Hx as (Eo & _). cbn [fst snd].
  destruct (decide (r >= 0)); [|done]. rewrite bind_eq.
  match goal with |- context [Extended.get_all_keys_and_values ?c ?o ?e w1] =>
    pose proof (get_all_spec c o e w1) as Hg;
    destruct (Extended.get_all_keys_and_values c o e w1) as [[r' ex] w2] end.
  destruct Hg as (Eo2 & _). cbn [fst snd]. by rewrite ret_eq, <- Eo.
Qed.

#[export] Instance default_contract `{LibradosLaws W} : MetadataContract W MetadataDefault.
Proof. split. intros. apply default_load_objs. Qed.
(** Loading from an object with given attributes and keywords. *)
Lemma default_load_spec `{LibradosLaws W} t fresh (w : W) ob :
  objs w !! (df_io_ctx t, rm_oid fresh) = Some ob →
  let '((r, mail'), w') := MetadataDefaultOps.load_metadata t fresh w in
  objs w' = objs w ∧ is_Some r ∧ ∀ v, r = Some v → 0 <= v →
    rm_attrset mail' = ob_xattrs ob ∧ rm_extended_attrset mail' = ob_omap ob.
Proof.
  intros Hob. unfold MetadataDefaultOps.load_metadata. rewrite bind_eq.
  pose proof (getxattrs_law (df_io_ctx t) (rm_oid fresh) w) as Hx.
  destruct (io_getxattrs _ _ w) as [[r x] w1]. cbn [fst snd]. destruct Hx as (Eo & Hx & _).
  destruct (decide (r >= 0)) as [Hr|Hr].
  2: { rewrite ret_eq. split; [done|]. split; [by eexists|]. intros v [= <-] ?. lia. }
  destruct (Hx ltac:(lia)) as (ob' & Hob' & ->). rewrite Hob in Hob'. injection Hob' as <-.
  rewrite bind_eq.
  set (mail1 := Mail.set_metadata _ fresh).
  assert (rm_oid mail1 = rm_oid fresh) as -> by by destruct fresh.
  pose proof (get_all_spec (df_io_ctx t) (rm_oid fresh) (rm_extended_attrset mail1) w1) as Hg.
  destruct (Extended.get_all_keys_and_values _ _ _ w1) as [[r' ex] w2]. cbn [fst snd]. rewrite ret_eq.
  destruct Hg as (Eo2 & Hg). split; [congruence|]. split; [by eexists|]. intros v [= <-] Hv.
  destruct (Hg Hv) as (ob' & Hob' & ->). rewrite Eo, Hob in Hob'. injection Hob' as <-.
  unfold mail1. by destruct fresh.
Qed.

(** *** The JSON form *)

Section ima.
Context `{JanssonLaws}.
  Import MetadataImaOps.
Variable cfg : RadosCephJsonConfig.

(** The attributes stored one by one, and those in the JSON text. *)
Definition own_part (m : attrs) : attrs := filter (λ kv, own_xattr cfg kv.1 = true) m.
Definition json_part (m : attrs) : attrs := filter (λ kv, own_xattr cfg kv.1 = false) m.

Definition text_pair (kv : string * bufferlist) : Prop :=
    free_of NUL kv.1 = true ∧ json_text kv.1 = true ∧ json_text (c_str kv.2) = true.

Lemma set_text_fresh {A} k s (inj : string → A) l :
    text_pair (k, s) → k ∉ l.*1 → set_text k s inj l = l ++ [(k, inj (c_str s))].
Proof.
    intros (Hn & H1 & H2) Hk. cbn in *. unfold set_text. rewrite (c_str_id k) by done.
    rewrite H1, H2. cbn. by apply json_set_fresh.
Qed.

Lemma save_attributes_spec l root ops :
    Forall text_pair l → NoDup (root.*1 ++ l.*1) →
    foldl (save_attribute cfg) (root, ops) l =
      (root ++ ((λ kv, (kv.1, JString (c_str kv.2))) <$> filter (λ kv, own_xattr cfg kv.1 = false) l),
       ops ++ ((λ kv, OpSetxattr kv.1 kv.2) <$> filter (λ kv, own_xattr cfg kv.1 = true) l)).
Proof.
    revert root ops. induction l as [|[k v] l IH]; intros root ops Ht Hnd; cbn [foldl].
    - by rewrite !app_nil_r.
    - apply list.Forall_cons in Ht as [Hkv Ht]. cbn in Hnd.
      apply list.NoDup_app in Hnd as (Hnd1 & Hnd2 & Hnd3). apply list.NoDup_cons in Hnd3 as [Hk Hnd3].
      assert (k ∉ root.*1) as Hroot by (intros Hin; apply (Hnd2 k Hin); left).
      unfold save_attribute at 2. cbn [fst snd]. rewrite !filter_cons. cbn [fst snd].
      destruct (own_xattr cfg k) eqn:E.
      + rewrite decide_False by done. rewrite decide_True by done. rewrite IH; [|done|].
        * f_equal. destruct Hkv as (Hn & _). cbn in Hn. rewrite (c_str_id k) by done.
          by rewrite <- app_assoc.
        * apply list.NoDup_app. split; [done|]. split; [|done]. intros x Hx Hin. apply (Hnd2 x Hx). by right.
      + rewrite decide_True by done. rewrite decide_False by done.
        rewrite set_text_fresh by done. rewrite IH; [|done|].
        * by rewrite <- app_assoc.
        * rewrite fmap_app, <- app_assoc. apply list.NoDup_app. split; [done|]. split.
          -- intros x Hx Hin. apply (Hnd2 x Hx). cbn in Hin. exact Hin.
          -- cbn. by apply list.NoDup_cons.
Qed.

Lemma keywords_spec l (acc : list (string * option string)) :
    Forall text_pair l → NoDup (acc.*1 ++ l.*1) →
    foldl (λ l kv, set_text kv.1 kv.2 Some l) acc l = acc ++ ((λ kv, (kv.1, Some (c_str kv.2))) <$> l).
Proof.
    revert acc. induction l as [|[k v] l IH]; intros acc Ht Hnd; cbn [foldl].
    - by rewrite app_nil_r.
    - apply list.Forall_cons in Ht as [Hkv Ht]. cbn in Hnd.
      apply list.NoDup_app in Hnd as (Hnd1 & Hnd2 & Hnd3). apply list.NoDup_cons in Hnd3 as [Hk Hnd3].
      assert (k ∉ acc.*1) as Hacc by (intros Hin; apply (Hnd2 k Hin); left).
      cbn [fst snd]. rewrite set_text_fresh by done. rewrite IH; [by rewrite <- app_assoc|done|].
      rewrite fmap_app, <- app_assoc. apply list.NoDup_app. split; [done|]. split.
      + intros x Hx Hin. apply (Hnd2 x Hx). exact Hin.
      + cbn. by apply list.NoDup_cons.
Qed.

Lemma parse_keywords_spec (l : list (string * string)) ex :
    NoDup l.*1 →
    parse_keywords ((λ kv, (kv.1, Some (c_str kv.2))) <$> l) ex =
      Some ((c_str <$> (list_to_map l : attrs)) ∪ ex).
Proof.
    revert ex. induction l as [|[k v] l IH]; intros ex Hnd; cbn.
    - by rewrite fmap_empty, (left_id_L ∅ (∪)).
    - apply list.NoDup_cons in Hnd as [Hk Hnd]. rewrite IH by done. f_equal.
      rewrite fmap_insert, <- insert_union_l, insert_union_r; [done|].
      rewrite lookup_fmap. by rewrite (not_elem_of_list_to_map_1 l k Hk).
Qed.

Lemma parse_attribute_app a b m ex :
    parse_attribute (a ++ b) m ex = p ← parse_attribute a m ex; parse_attribute b p.1 p.2.
Proof.
    revert m ex. induction a as [|[k v] a IH]; intros m ex; cbn; [done|].
    case_decide.
    - destruct (match v with JObject l => _ | _ => _ end); cbn; [apply IH|done].
    - destruct v; cbn; [apply IH|done..].
Qed.

Lemma parse_attribute_spec (l : list (string * string)) m ex :
    NoDup l.*1 → keyword_key ∉ l.*1 →
    parse_attribute ((λ kv, (kv.1, JString (c_str kv.2))) <$> l) m ex =
      Some ((c_str <$> (list_to_map l : attrs)) ∪ m, ex).
Proof.
    revert m. induction l as [|[k v] l IH]; intros m Hnd Hkey; cbn -[keyword_key].
    - by rewrite fmap_empty, (left_id_L ∅ (∪)).
    - apply list.NoDup_cons in Hnd as [Hk Hnd]. cbn -[keyword_key] in Hkey.
      apply not_elem_of_cons in Hkey as [Hne Hkey]. rewrite decide_False by done.
      rewrite IH by done. do 2 f_equal.
      rewrite fmap_insert, <- insert_union_l, insert_union_r; [done|].
      rewrite lookup_fmap. by rewrite (not_elem_of_list_to_map_1 l k Hk).
Qed.

Lemma items_filter (P : string * string → Prop) `{∀ x, Decision (P x)} (m : attrs) :
    NoDup (filter P (map_items m)).*1 ∧ list_to_map (filter P (map_items m)) = filter P m.
Proof.
    assert (NoDup (filter P (map_items m)).*1) as Hnd.
    { eapply sublist_NoDup; [apply (NoDup_map_items m)|]. apply fmap_sublist, sublist_filter. }
    split; [done|]. apply map_eq. intros k. apply option_eq. intros x.
    rewrite <- elem_of_list_to_map by done.
    rewrite list_elem_of_filter, elem_of_map_items, map_lookup_filter_Some. tauto.
Qed.

(** The root of the JSON text of a mail. *)
Definition ima_root (mail : RadosMail) : json :=
    ((λ kv, (kv.1, JString (c_str kv.2))) <$>
       filter (λ kv, own_xattr cfg kv.1 = false) (map_items (rm_attrset mail))) ++
    (if decide (rm_extended_attrset mail = ∅) then []
     else if keywords_in_omap cfg then []
     else [(keyword_key, JObject ((λ kv, (kv.1, Some (c_str kv.2))) <$> map_items (rm_extended_attrset mail)))]).

(** The mails the module can store. *)
Record ima_storable (mail : RadosMail) : Prop := {
    is_attrs : map_Forall (λ k v, text_pair (k, v)) (rm_attrset mail);
    is_extended : map_Forall (λ k v, text_pair (k, v)) (rm_extended_attrset mail);
    is_no_keyword : json_part (rm_attrset mail) !! keyword_key = None;
    is_keyword_text : json_text keyword_key = true;
    is_storage_attr : free_of NUL (metadata_storage_attribute cfg) = true;
    is_no_clash : own_part (rm_attrset mail) !! metadata_storage_attribute cfg = None;
  }.

Lemma items_text (m : attrs) : map_Forall (λ k v, text_pair (k, v)) m → Forall text_pair (map_items m).
Proof. intros Hm. apply list.Forall_forall. intros [k v] Hkv. by apply Hm, elem_of_map_items. Qed.

Lemma keyword_fresh mail :
    ima_storable mail →
    keyword_key ∉ (filter (λ kv, own_xattr cfg kv.1 = false) (map_items (rm_attrset mail))).*1.
Proof.
    intros Hs Hin. apply list_elem_of_fmap in Hin as ([k v] & Hk & Hin). cbn -[keyword_key] in Hk. subst k.
    apply list_elem_of_filter in Hin as [Ho Hin]. apply elem_of_map_items in Hin.
    pose proof (is_no_keyword mail Hs) as Hn. unfold json_part in Hn.
    assert (filter (λ kv : string * bufferlist, own_xattr cfg kv.1 = false) (rm_attrset mail) !! keyword_key = Some v)
      as E by by apply map_lookup_filter_Some.
    congruence.
Qed.

Lemma filter_NoDup (m : attrs) (b : bool) :
    NoDup ((λ kv : string * bufferlist, (kv.1, JString (c_str kv.2))) <$>
             filter (λ kv, own_xattr cfg kv.1 = b) (map_items m)).*1.
Proof. rewrite <- list_fmap_compose. apply (items_filter (λ kv, own_xattr cfg kv.1 = b) m). Qed.

Lemma ima_save_spec io mail :
    ima_storable mail →
    save_metadata (mk_ima io cfg) mail =
      ((λ kv, OpSetxattr kv.1 kv.2) <$> filter (λ kv, own_xattr cfg kv.1 = true) (map_items (rm_attrset mail))) ++
      (if decide (rm_extended_attrset mail = ∅) then []
       else if keywords_in_omap cfg then [OpOmapSet (rm_extended_attrset mail)] else []) ++
      [OpSetxattr (metadata_storage_attribute cfg) (json_dumps (ima_root mail))].
Proof.
    intros Hs. unfold save_metadata. cbn [im_cfg].
    rewrite save_attributes_spec; [|by apply items_text, is_attrs|].
    2: { cbn. apply NoDup_map_items. }
    rewrite c_str_id by apply (is_storage_attr mail Hs). unfold ima_root.
    destruct (decide (rm_extended_attrset mail = ∅)); [by rewrite !app_nil_r|].
    destruct (keywords_in_omap cfg).
    - rewrite app_nil_r. cbn [app]. by rewrite <- app_assoc.
    - rewrite keywords_spec; [|by apply items_text, is_extended|cbn; apply NoDup_map_items].
      rewrite json_set_fresh; [by rewrite app_nil_l|]. rewrite app_nil_l.
      rewrite <- list_fmap_compose. by apply keyword_fresh.
Qed.

Lemma ima_root_ok mail : ima_storable mail → json_ok (ima_root mail).
Proof.
    intros Hs. unfold ima_root.
    assert (∀ x, x ∈ filter (λ kv, own_xattr cfg kv.1 = false) (map_items (rm_attrset mail)) → text_pair x)
      as Hx.
    { intros x [_ Hx]%list_elem_of_filter. pose proof (items_text _ (is_attrs mail Hs)) as Hall.
      by apply (proj1 (list.Forall_forall _ _) Hall). }
    set (l := filter _ _) in *.
    assert (NoDup ((λ kv : string * bufferlist, (kv.1, JString (c_str kv.2))) <$> l).*1) as Hnd
      by apply filter_NoDup.
    assert (keyword_key ∉ l.*1) as Hk by by apply keyword_fresh.
    assert (Forall (λ kv, json_text kv.1 = true ∧ value_text kv.2 = true)
              ((λ kv : string * bufferlist, (kv.1, JString (c_str kv.2))) <$> l)) as Ht.
    { apply Forall_fmap, list.Forall_forall. intros kv Hkv. by destruct (Hx kv Hkv) as (_ & ? & ?). }
    assert (Forall (λ kv : string * json_value, match kv.2 with JObject m => NoDup m.*1 | _ => True end)
              ((λ kv : string * bufferlist, (kv.1, JString (c_str kv.2))) <$> l)) as Ho.
    { apply Forall_fmap. by apply Forall_true. }
    case_decide; [by rewrite app_nil_r|]. destruct (keywords_in_omap cfg); [by rewrite app_nil_r|].
    split; [|split].
    - rewrite fmap_app. apply list.NoDup_app. split; [done|]. split; [|apply NoDup_singleton].
      intros x Hin Hin'. apply list_elem_of_singleton in Hin' as ->. apply Hk.
      by rewrite <- list_fmap_compose in Hin.
    - apply Forall_app. split; [done|]. apply Forall_singleton. split; [apply (is_keyword_text mail Hs)|].
      cbn [value_text snd]. apply Is_true_true, forallb_True, Forall_fmap.
      eapply Forall_impl; [|apply (items_text _ (is_extended mail Hs))].
      intros kv (_ & Ha & Hb). cbn. by rewrite Ha, Hb.
    - apply Forall_app. split; [done|]. apply Forall_singleton. cbn [snd].
      rewrite <- list_fmap_compose. apply NoDup_map_items.
Qed.

Lemma ima_parse_root mail :
    ima_storable mail →
    parse_attribute (ima_root mail) ∅ ∅ =
      Some (c_str <$> json_part (rm_attrset mail),
            if keywords_in_omap cfg then ∅ else c_str <$> rm_extended_attrset mail).
Proof.
    intros Hs. unfold ima_root. rewrite parse_attribute_app.
    destruct (items_filter (λ kv, own_xattr cfg kv.1 = false) (rm_attrset mail)) as [Hnd Hm].
    rewrite parse_attribute_spec; [|done|by apply keyword_fresh]. cbn [mbind option_bind fst snd].
    rewrite Hm, (right_id_L ∅ (∪)). fold (json_part (rm_attrset mail)).
    destruct (decide (rm_extended_attrset mail = ∅)) as [->|Hne].
    { cbn. rewrite fmap_empty. by destruct (keywords_in_omap cfg). }
    destruct (keywords_in_omap cfg); [done|]. cbn [parse_attribute].
    rewrite decide_True by done. rewrite parse_keywords_spec by apply NoDup_map_items.
    cbn [mbind option_bind]. by rewrite map_items_to_map, (right_id_L ∅ (∪)).
Qed.

Lemma seen_parts (m : attrs) : seen (own_part m ∪ (c_str <$> json_part m)) = seen m.
Proof.
    apply map_eq. intros k. unfold seen. rewrite !lookup_fmap, lookup_union, lookup_fmap.
    unfold own_part, json_part. rewrite !map_lookup_filter. destruct (m !! k) as [v|]; [|done].
    cbn. destruct (own_xattr cfg k) eqn:E.
    - rewrite option_guard_True by done. rewrite option_guard_False by done. cbn. done.
    - rewrite option_guard_False by done. rewrite option_guard_True by done. cbn.
      by rewrite c_str_id by apply c_str_free.
Qed.
End ima.

Lemma getxattrs_retry_spec `{LibradosLaws W} io oid n r0 (w : W) :
  let '((r, x), w') := MetadataImaOps.getxattrs_retry io oid n r0 w in
  objs w' = objs w ∧ (r0 < 0 → 0 <= r → ∃ ob, objs w !! (io, oid) = Some ob ∧ x = ob_xattrs ob).
Proof.
  revert r0 w. induction n as [|n IH]; intros r0 w; cbn [MetadataImaOps.getxattrs_retry].
  - rewrite ret_eq. split; [done|lia].
  - rewrite bind_eq. pose proof (getxattrs_law io oid w) as Hx.
    destruct (io_getxattrs io oid w) as [[r x] w1]. cbn [fst snd]. destruct Hx as (Eo & Hx & _).
    destruct (decide (r >= 0)).
    + rewrite ret_eq. split; [done|]. intros _ Hr. by apply Hx.
    + specialize (IH r w1). destruct (MetadataImaOps.getxattrs_retry io oid n r w1) as [[r' x'] w2].
      destruct IH as [E2 IH]. split; [congruence|]. intros _ Hr.
      destruct (IH ltac:(lia) Hr) as (ob & Hob & ->). exists ob. by rewrite <- Eo.
Qed.

Lemma ima_load_objs `{Jansson} `{LibradosLaws W} t mail (w : W) :
  objs (MetadataImaOps.load_metadata t mail w).2 = objs w.
Proof.
  unfold MetadataImaOps.load_metadata. case_decide; [done|]. rewrite bind_eq.
  pose proof (getxattrs_retry_spec (im_io_ctx t) (rm_oid mail) 10 (-1) w) as Hg.
  destruct (MetadataImaOps.getxattrs_retry _ _ _ _ w) as [[r x] w1]. cbn [fst snd].
  destruct Hg as [Eo _]. case_decide; [done|].
  destruct (match x !! _ with Some _ => _ | None => _ end) as [[m ex]|]; [|done].
  case_match; [|done]. rewrite bind_eq.
  match goal with |- context [Extended.get_all_keys_and_values ?c ?o ?e w1] =>
    pose proof (get_all_spec c o e w1) as Hk;
    destruct (Extended.get_all_keys_and_values c o e w1) as [[r' ex'] w2] end.
  destruct Hk as (Eo2 & _). cbn [fst snd]. by rewrite ret_eq, <- Eo.
Qed.

#[export] Instance ima_contract `{JanssonLaws} `{LibradosLaws W} : MetadataContract W MetadataIma.
Proof. split. intros. apply ima_load_objs. Qed.
(** What [save_metadata] makes of an object that does not exist. *)
Lemma ima_saved_object `{JanssonLaws} io cfg mail now m ob :
  ima_storable cfg mail →
  apply_obj now m (Some (empty_object now)) (MetadataImaOps.save_metadata (mk_ima io cfg) mail) = Some (Some ob) →
  ob_xattrs ob = <[metadata_storage_attribute cfg := json_dumps (ima_root cfg mail)]> (own_part cfg (rm_attrset mail)) ∧
  ob_omap ob = if MetadataImaOps.keywords_in_omap cfg then rm_extended_attrset mail else ∅.
Proof.
  intros Hs Hap. rewrite ima_save_spec in Hap by done. rewrite !apply_obj_app, apply_obj_setxattrs in Hap.
  cbn [mbind option_bind] in Hap.
  destruct (items_filter (λ kv, MetadataImaOps.own_xattr cfg kv.1 = true) (rm_attrset mail)) as [Hnd Hm].
  rewrite apply_updates_union, Hm in Hap by done. fold (own_part cfg (rm_attrset mail)) in Hap.
  cbn [ob_xattrs empty_object] in Hap. rewrite (right_id_L ∅ (∪)) in Hap.
  revert Hap. case_decide as Hext; [rewrite Hext|]; destruct (MetadataImaOps.keywords_in_omap cfg);
    cbn; intros [= <-]; cbn; by rewrite ?(right_id_L ∅ (∪)).
Qed.
(** Keywords are kept in the JSON text unless attributes are updated, but looked for in the
    omap whenever they could be. *)
Definition loses_keywords (cfg : RadosCephJsonConfig) : bool :=
  JsonConfig.is_updateable_attribute RBOX_METADATA_OLDV1_KEYWORDS cfg && negb (JsonConfig.is_update_attributes cfg).
Lemma ima_load_spec `{JanssonLaws} `{LibradosLaws W} io cfg mail fresh (w : W) ob :
  ima_storable cfg mail → rm_attrset fresh = ∅ → rm_extended_attrset fresh = ∅ →
  objs w !! (io, rm_oid fresh) = Some ob →
  ob_xattrs ob = <[metadata_storage_attribute cfg := json_dumps (ima_root cfg mail)]> (own_part cfg (rm_attrset mail)) →
  ob_omap ob = (if MetadataImaOps.keywords_in_omap cfg then rm_extended_attrset mail else ∅) →
  let '((r, mail'), w') := MetadataImaOps.load_metadata (mk_ima io cfg) fresh w in
  objs w' = objs w ∧ is_Some r ∧ ∀ v, r = Some v → 0 <= v →
    seen (rm_attrset mail') = seen (rm_attrset mail) ∧
    seen (rm_extended_attrset mail') = if loses_keywords cfg then ∅ else seen (rm_extended_attrset mail).
Proof.
  intros Hs Hf1 Hf2 Hob Ex Eo. unfold MetadataImaOps.load_metadata. cbn [im_cfg im_io_ctx].
  rewrite decide_False by (by rewrite Hf1; intros []). rewrite bind_eq.
  pose proof (getxattrs_retry_spec io (rm_oid fresh) 10 (-1) w) as Hg.
  destruct (MetadataImaOps.getxattrs_retry _ _ _ _ w) as [[r x] w1]. cbn [fst snd].
  destruct Hg as [Eo1 Hg]. destruct (decide (r < 0)) as [Hr|Hr].
  { rewrite ret_eq. split; [done|]. split; [by eexists|]. intros v [= <-]. lia. }
  destruct (Hg ltac:(lia) ltac:(lia)) as (ob' & Hob' & ->). rewrite Hob in Hob'. injection Hob' as <-.
  rewrite Ex, lookup_insert_eq, c_str_id by apply json_dumps_nul.
  rewrite json_round_trip by by apply ima_root_ok. cbn [default]. unfold id.
  rewrite Hf1, Hf2, ima_parse_root by done.
  rewrite delete_insert_id by apply (is_no_clash cfg mail Hs).
  set (attrs' := own_part cfg (rm_attrset mail) ∪ _).
  assert (seen attrs' = seen (rm_attrset mail)) as Hseen by apply seen_parts.
  unfold loses_keywords, MetadataImaOps.keywords_in_omap in *.
  destruct (JsonConfig.is_updateable_attribute RBOX_METADATA_OLDV1_KEYWORDS cfg); cbn [andb] in *.
  - rewrite bind_eq. set (mail1 := Mail.set_extended_metadata _ _).
    assert (rm_oid mail1 = rm_oid fresh) as -> by by destruct fresh.
    pose proof (get_all_spec io (rm_oid fresh) (rm_extended_attrset mail1) w1) as Hk.
    destruct (Extended.get_all_keys_and_values _ _ _ w1) as [[r' ex] w2]. cbn [fst snd]. rewrite ret_eq.
    destruct Hk as [Eo2 Hk]. split; [congruence|]. split; [by eexists|]. intros v [= <-] Hv.
    destruct (Hk Hv) as (ob' & Hob' & ->). rewrite Eo1, Hob in Hob'. injection Hob' as <-.
    rewrite Eo. unfold mail1. destruct fresh. split; [done|]. by destruct (JsonConfig.is_update_attributes cfg).
  - rewrite ret_eq. split; [done|]. split; [by eexists|]. intros v [= <-] Hv.
    assert (seen (c_str <$> rm_extended_attrset mail) = seen (rm_extended_attrset mail)) as Hex.
    { unfold seen. apply map_eq. intros k. rewrite !lookup_fmap.
      destruct (rm_extended_attrset mail !! k); cbn; [|done]. by rewrite c_str_id by apply c_str_free. }
    destruct fresh. cbn. by split.
Qed.

(** The module that the configuration chooses. *)
#[export] Instance chosen_contract `{JanssonLaws} `{LibradosLaws W} : MetadataContract W (MetadataDefault + MetadataIma).
Proof. split. intros [t|t] mail w; apply (ms_load_objs t). Qed.

(** Which mails a module can store, and the operations it uses for them. *)
Definition module_storable `{Jansson} (t : MetadataDefault + MetadataIma) (mail : RadosMail) : Prop :=
  match t with
  | inl _ => ∀ k, is_Some (rm_attrset mail !! k) → free_of NUL k = true
  | inr t => ima_storable (im_cfg t) mail
  end.
Definition plain_op (op : write_op) : Prop :=
  match op with OpCopyFrom _ _ | OpRemove | OpOmapRmKeys _ => False | _ => True end.
Lemma setxattrs_plain (l : list (string * bufferlist)) : Forall plain_op ((λ kv, OpSetxattr kv.1 kv.2) <$> l).
Proof. apply Forall_fmap. by apply Forall_true. Qed.
Lemma save_ops_plain `{JanssonLaws} `{LibradosLaws W} t mail :
  module_storable t mail → Forall plain_op (ms_save_metadata (W:=W) t mail).
Proof.
  destruct t as [t|[io cfg]]; cbn; intros Hs.
  - unfold MetadataDefaultOps.save_metadata, Storage.metadata_ops. rewrite metadata_keys_c_str by done.
    apply Forall_app. split; [apply setxattrs_plain|]. case_decide; by repeat constructor.
  - rewrite ima_save_spec by done. rewrite !Forall_app. split; [apply setxattrs_plain|].
    split; [repeat case_match|]; by repeat constructor.
Qed.
(** The object that was made is read as it was meant. *)
Lemma saved_is_loaded `{JanssonLaws} `{LibradosLaws W} (t : MetadataDefault + MetadataIma) mail fresh (w : W) now m ob :
  module_storable t mail → rm_attrset fresh = ∅ → rm_extended_attrset fresh = ∅ →
  apply_obj now m (Some (empty_object now)) (ms_save_metadata (W:=W) t mail) = Some (Some ob) →
  objs w !! (ms_io_ctx (W:=W) t, rm_oid fresh) = Some ob →
  let '((r, mail'), w') := ms_load_metadata t fresh w in
  objs w' = objs w ∧ is_Some r ∧ ∀ v, r = Some v → 0 <= v →
    seen (rm_attrset mail') = seen (rm_attrset mail) ∧
    seen (rm_extended_attrset mail') =
      if match t with inl _ => false | inr t => loses_keywords (im_cfg t) end then ∅ else seen (rm_extended_attrset mail).
Proof.
  destruct t as [t|[io cfg]]; cbn; intros Hs Hf1 Hf2 Hap Hob.
  - unfold MetadataDefaultOps.save_metadata in Hap. rewrite apply_plain_metadata in Hap by done. injection Hap as <-.
    pose proof (default_load_spec t fresh w _ Hob) as Hl. cbn in Hl.
    destruct (MetadataDefaultOps.load_metadata t fresh w) as [[r mail'] w']. destruct Hl as (? & ? & Hl).
    split; [done|]. split; [done|]. intros v Ev Hv. by destruct (Hl v Ev Hv) as [-> ->].
  - destruct (ima_saved_object io cfg mail now m ob Hs Hap) as [Ex Eo]. by apply (ima_load_spec io cfg mail fresh w ob).
Qed.

Lemma apply_obj_stays now m ob ops o :
  apply_obj now m (Some ob) ops = Some o →
  Forall plain_op ops → is_Some o.
Proof.
  revert ob. induction ops as [|op ops IH]; intros ob Ha Hops; cbn in Ha.
  - injection Ha as <-. by eexists.
  - assert (∃ ob', apply_obj now m (Some ob') ops = Some o) as [ob' Hob'].
    { apply list.Forall_cons in Hops as [Hop _]. destruct op; try done; cbn in Ha; try (by eexists).
      repeat case_match; cbn in Ha; try done; by eexists. }
    apply (IH ob' Hob'). by apply list.Forall_cons in Hops as [_ Hops].
Qed.

(** ** What the modules keep

    A property of the world that the calls on one object keep is kept by loading
    and updating that object's attributes. *)
Section keeps.
Context `{Jansson} `{Librados W}.
Variables (P : W → Prop) (oid : string).
Definition kept_by_reads (io : ioctx) : Prop := ∀ w, P w →
    P (io_getxattrs io oid w).2 ∧ P (io_omap_get_keys io oid w).2 ∧
    ∀ ks, P (io_omap_get_vals_by_keys io oid ks w).2.
Definition kept_by_aio (io : ioctx) : Prop := ∀ ops w, P w → P (io_aio_operate io oid ops w).2.

Lemma get_all_keeps io kv : kept_by_reads io → triple P (Extended.get_all_keys_and_values io oid kv) (λ _, P).
Proof.
    intros Hr. eapply triple_kept; [intros w Hw; apply (Hr w Hw)|]. intros [ret ks]. cbn beta iota.
    case_decide; [apply triple_keep|].
    eapply triple_kept; [intros w Hw; apply (Hr w Hw)|]. intros [ret' m]. apply triple_keep.
Qed.
Lemma getxattrs_retry_keeps io n ret : kept_by_reads io → triple P (MetadataImaOps.getxattrs_retry io oid n ret) (λ _, P).
Proof.
    intros Hr. revert ret. induction n as [|n IH]; intros ret; cbn [MetadataImaOps.getxattrs_retry]; [apply triple_keep|].
    eapply triple_kept; [intros w Hw; apply (Hr w Hw)|]. intros [ret' m]. cbn beta iota.
    case_decide; [apply triple_keep|apply IH].
Qed.

Lemma mail_oid_metadata m mail : rm_oid (Mail.set_metadata m mail) = rm_oid mail.
Proof. by destruct mail. Qed.
Lemma mail_oid_extended m mail : rm_oid (Mail.set_extended_metadata m mail) = rm_oid mail.
Proof. by destruct mail. Qed.

(** Loading keeps [P], and the mail its object. *)
Lemma load_metadata_keeps (ms : MetadataDefault + MetadataIma) mail :
    rm_oid mail = oid → kept_by_reads (ms_io_ctx (W:=W) ms) →
    triple P (ms_load_metadata ms mail) (λ r w, P w ∧ rm_oid r.2 = oid).
Proof.
    intros Ho Hr. destruct ms as [[io]|[io cfg]]; cbn in *.
    - unfold MetadataDefaultOps.load_metadata. cbn [df_io_ctx]. rewrite Ho.
      eapply triple_kept; [intros w Hw; apply (Hr w Hw)|]. intros [ret m]. cbn beta iota.
      rewrite mail_oid_metadata, Ho.
      case_decide; [|intros w Hw; cbn; by rewrite mail_oid_metadata].
      eapply triple_kept; [by apply get_all_keeps|]. intros [ret' ex] w Hw. cbn.
      by rewrite mail_oid_extended, mail_oid_metadata.
    - unfold MetadataImaOps.load_metadata. case_decide; [by intros w Hw|]. cbn [im_io_ctx im_cfg]. rewrite Ho.
      eapply triple_kept; [by apply getxattrs_retry_keeps|]. intros [ret m]. cbn beta iota.
      case_decide; [by intros w Hw|].
      destruct (match m !! _ with Some _ => _ | None => _ end) as [[m' ex]|]; [|by intros w Hw].
      rewrite mail_oid_extended, mail_oid_metadata, Ho.
      case_match; [|intros w Hw; cbn; by rewrite mail_oid_extended, mail_oid_metadata].
      eapply triple_kept; [by apply get_all_keeps|]. intros [ret' ex'] w Hw. cbn.
      by rewrite !mail_oid_extended, mail_oid_metadata.
Qed.

Lemma update_metadata_keeps (ms : MetadataDefault + MetadataIma) to_update :
    kept_by_reads (ms_io_ctx (W:=W) ms) → kept_by_aio (ms_io_ctx (W:=W) ms) →
    triple P (ms_update_metadata ms oid to_update) (λ _, P).
Proof.
    intros Hr Ha. destruct ms as [[io]|[io cfg]]; cbn in *.
    - eapply triple_kept; [intros w Hw; by apply (Ha _ w)|]. intros [ret v]. apply triple_keep.
    - unfold MetadataImaOps.update_metadata. case_decide; [apply triple_keep|].
      eapply triple_kept.
      { eapply triple_conseq; [apply (load_metadata_keeps (inr (mk_ima io cfg)) (Mail.set_oid oid Mail.new)); done|done|].
        intros r w Hw. exact (proj1 Hw). }
      intros [[r|] obj]; cbn beta iota; [|apply triple_keep].
      eapply triple_kept; [intros w Hw; by apply (Ha _ w)|]. intros [ret v]. apply triple_keep.
Qed.
End keeps.

(** ** Properties *)

(** C30. The attributes survive, with the default module and with the ima module: storing a
    mail's attributes on a new object with the operations of [save_metadata] and loading them
    into a fresh mail gives, when both calls succeed, the same attributes and the same
    keywords as a reader sees them; loading changes no object and does not abort. With one
    exception: the ima module loses the keywords when the configuration lets them be updated
    but has no attributes updated. [module_storable]: names without NUL, and for the ima
    module texts that JSON can hold and names that do not clash with its own. *)
Theorem metadata_save_load `{JanssonLaws} `{LibradosLaws W} (t : MetadataDefault + MetadataIma) mail fresh (w : W) :
  module_storable t mail → rm_attrset fresh = ∅ → rm_extended_attrset fresh = ∅ →
  objs w !! (ms_io_ctx (W:=W) t, rm_oid fresh) = None → ms_save_metadata (W:=W) t mail ≠ [] →
  let '(r, w1) := io_operate (ms_io_ctx (W:=W) t) (rm_oid fresh) (ms_save_metadata (W:=W) t mail) w in
  0 <= r →
  let '((v, mail'), w2) := ms_load_metadata t fresh w1 in
  objs w2 = objs w1 ∧ is_Some v ∧
  (∀ n, v = Some n → 0 <= n →
     seen (rm_attrset mail') = seen (rm_attrset mail) ∧
     seen (rm_extended_attrset mail') =
       if match t with inl _ => false | inr t => loses_keywords (im_cfg t) end then ∅ else seen (rm_extended_attrset mail)).
Proof.
  intros Hs Hf1 Hf2 Hnone Hne. pose proof (save_ops_plain (W:=W) t mail Hs) as Hops.
  pose proof (operate_ok (ms_io_ctx (W:=W) t) (rm_oid fresh) (ms_save_metadata (W:=W) t mail) w) as Hok.
  destruct (io_operate _ _ _ w) as [r w1]. cbn [fst snd] in Hok. intros Hr.
  destruct (Hok Hr) as [now Ha]. unfold apply_ops in Ha. rewrite Hnone in Ha. cbn [fmap option_fmap option_map] in Ha.
  destruct (ms_save_metadata (W:=W) t mail) as [|op ops] eqn:E; [done|].
  rewrite apply_obj_create in Ha by by apply list.Forall_cons in Hops as [Hop _]. rewrite <- E in Ha, Hops.
  destruct (apply_obj now (objs w) (Some (empty_object now)) (ms_save_metadata (W:=W) t mail)) as [[ob|]|] eqn:Eo;
    cbn in Ha; [|exfalso|done].
  - injection Ha as Ha. apply (saved_is_loaded t mail fresh w1 now (objs w) ob); try done.
    rewrite <- Ha. apply lookup_insert_eq.
  - apply apply_obj_stays in Eo; [by destruct Eo|exact Hops].
Qed.

Definition ima_config : RadosCephJsonConfig :=
  JsonConfig.set_update_attributes "true" (JsonConfig.set_metadata_storage_module "ima" JsonConfig.new).
Definition kept_mail : RadosMail :=
  Mail.set_extended_metadata {["k1" := "work"]}
    (Mail.set_metadata {["M" := "guid"; "B" := "INBOX"]} (Mail.set_oid "o1" Mail.new)).

Lemma kept_mail_storable : ima_storable ima_config kept_mail.
Proof.
  split; try (vm_compute; done).
  all: apply map_Forall_to_list.
  all: match goal with |- Forall _ ?l => let l' := eval vm_compute in l in change l with l' end.
  all: by repeat constructor.
Qed.

(** The keywords may be updated, but attributes are not. *)
Definition lossy_config : RadosCephJsonConfig :=
  JsonConfig.set_updateable_attributes "K" (JsonConfig.set_metadata_storage_module "ima" JsonConfig.new).
Lemma kept_mail_storable_lossy : ima_storable lossy_config kept_mail.
Proof.
  split; try (vm_compute; done).
  all: apply map_Forall_to_list.
  all: match goal with |- Forall _ ?l => let l' := eval vm_compute in l in change l with l' end.
  all: by repeat constructor.
Qed.
Definition fresh_o1 : RadosMail := Mail.set_oid "o1" Mail.new.
Definition saved_and_loaded (cfg : RadosCephJsonConfig) : Z * ((option Z * RadosMail) * MemCluster) :=
  let t := inr (mk_ima (mk_ioctx "mail_storage" "u1") cfg) : MetadataDefault + MetadataIma in
  let s := io_operate (ms_io_ctx (W:=MemCluster) t) "o1" (ms_save_metadata (W:=MemCluster) t kept_mail) (mk_mem ∅ [] 0) in
  (s.1, ms_load_metadata t fresh_o1 s.2).

Lemma metadata_save_load_witness :
  let kept := (saved_and_loaded ima_config).2.1 in
  let lost := (saved_and_loaded lossy_config).2.1 in
  kept.1 = Some 0 ∧ seen (rm_attrset kept.2) = seen (rm_attrset kept_mail) ∧
  seen (rm_extended_attrset kept.2) = {["k1" := "work"]} ∧
  lost.1 = Some 0 ∧ seen (rm_extended_attrset lost.2) = ∅.
Proof.
  assert (∀ cfg, ima_storable cfg kept_mail → (saved_and_loaded cfg).1 = 0 → (saved_and_loaded cfg).2.1.1 = Some 0 →
    seen (rm_attrset (saved_and_loaded cfg).2.1.2) = seen (rm_attrset kept_mail) ∧
    seen (rm_extended_attrset (saved_and_loaded cfg).2.1.2) =
      if loses_keywords cfg then ∅ else seen (rm_extended_attrset kept_mail)) as Hm.
  { intros cfg Hs. set (t := inr (mk_ima (mk_ioctx "mail_storage" "u1") cfg) : MetadataDefault + MetadataIma).
    pose proof (metadata_save_load t kept_mail fresh_o1 (mk_mem ∅ [] 0) Hs eq_refl eq_refl eq_refl) as Hm.
    premise Hm; [cbn; rewrite ima_save_spec by done; intros [_ [_ [=]]%app_eq_nil]%app_eq_nil|].
    unfold saved_and_loaded. fold t. cbv zeta. change (rm_oid fresh_o1) with "o1" in Hm.
    destruct (io_operate _ _ _ _) as [r w1]. cbn [fst snd]. intros ->. specialize (Hm ltac:(lia)).
    destruct (ms_load_metadata t fresh_o1 w1) as [[v mail'] w2]. cbn [fst snd]. intros ->.
    destruct Hm as (_ & _ & Hm). exact (Hm 0 eq_refl ltac:(lia)). }
  destruct (Hm ima_config kept_mail_storable) as [Ka Ke]; [vm_compute; reflexivity|vm_compute; reflexivity|].
  destruct (Hm lossy_config kept_mail_storable_lossy) as [_ Le]; [vm_compute; reflexivity|vm_compute; reflexivity|].
  split; [vm_compute; reflexivity|]. split; [exact Ka|]. split; [rewrite Ke; vm_compute; reflexivity|].
  split; [vm_compute; reflexivity|]. exact Le.
Defined.
