(* ===== verification/SaveWrite.v ===== *)
(** [save_mail_write_append] (storage-rbox/rbox-save.cpp): how the plugin writes
    a new mail object, its attributes first and then the mail in chunks that
    are appended. *)
From S2P Require Export RadosStorage.

Module SaveWrite.
Section ops.
Context `{Librados W}.
  Abbreviation M := (ST (bool * Storage.state W)).

(** [tmp_buffer.substr_of] of chunk [offset, offset + length), shortened at the
    end of the buffer; [None]: the start is beyond the buffer. *)
Definition chunk_buffer (buffer : bufferlist) (offset length : Z) : option bufferlist :=
    if decide (uint64 (uint64 offset + length) > Z.of_nat (slen buffer)) then
      if decide (0 <= offset <= Z.of_nat (slen buffer))
      then Some (str_drop (Z.to_nat offset) buffer) else None
    else Some (substr (Z.to_nat (uint64 offset)) (Z.to_nat length) buffer).

(** The body of the loop for chunk [i]. The flag of the state is set when it
    returns from the function instead of leaving the loop; [None]: it aborts. *)
Definition append_chunk (mail : RadosMail) (size max_write i : Z) : M (option Z) :=
    let length := chunk_length size max_write i in
    let offset := chunk_offset max_write i in
    match rm_mail_buffer mail with
    | None => mret None
    | Some buffer =>
        if decide (chunk_div size max_write = 1) then
          ok ← on_snd (Storage.execute_operation (rm_oid mail) [OpWrite 0 buffer]);
          mret (Some (if ok : bool then 0 else -1))
        else if decide (uint64 (uint64 offset + length) > size) then
          on_fst (st_put true) ;; mret (Some (-1))
        else
          match chunk_buffer buffer offset length with
          | None => mret None
          | Some tmp_buffer =>
              ok ← on_snd (Storage.append_to_object (rm_oid mail) tmp_buffer (int32 length));
              mret (Some (if ok : bool then 0 else -1))
          end
    end.

(** Runs with the flag cleared and returns what it became. *)
Definition with_flag {A} (m : M A) : ST (Storage.state W) (A * bool) :=
    λ s, let '(a, (flag, s)) := m (false, s) in ((a, flag), s).

(** [None]: the program aborts. *)
Definition save_mail_write_append (current_object : RadosMail) (write_op_xattr : list write_op)
      (max_write : Z) : ST (Storage.state W) (option Z * RadosMail) :=
    let write_buffer_size := uint64 (rm_object_size current_object) in
    if negb (bool_decide (max_write > 0)) then mret (None, current_object) else
    if decide (write_buffer_size = 0 ∨ max_write <= 0) then mret (Some (-1), current_object) else
    done ← Storage.execute_operation (rm_oid current_object) write_op_xattr;
    let ret_val := if (done : bool) then 1 else 0 in
    if decide (ret_val < 0) then mret (Some (-1), current_object) else
    '(r, returned) ← with_flag
      (chunk_loop (append_chunk current_object write_buffer_size max_write)
         (Z.to_nat (chunk_div write_buffer_size max_write)) 0 ret_val);
    mret (r, match r with
             | Some _ => if returned : bool then current_object
                         else Storage.release_buffer current_object
             | None => current_object
             end).
End ops.
End SaveWrite.

(** ** What is written *)

(** What a reader of an object sees, before the object exists too. *)
Definition content (o : option robject) : robject := default (empty_object 0) o.

Section append.
Context `{LibradosLaws W}.
  Implicit Types s : Storage.state W.

(** One operation of the storage on the object [key] of its context. *)
Lemma execute_operation_spec s oid ops :
    Storage.usable s = true →
    let '(ok, s') := Storage.execute_operation oid ops s in
    s'.1 = s.1 ∧ s'.2.1 = s.2.1 ∧
    (∀ k, k ≠ (st_io_ctx s.1, oid) → objects s' !! k = objects s !! k) ∧
    (ok = true → ∃ now, apply_ops now (st_io_ctx s.1, oid) ops (objects s) = Some (objects s')) ∧
    (ok = false → objects s' = objects s ∨
       ∃ now, apply_ops now (st_io_ctx s.1, oid) ops (objects s) = Some (objects s')).
Proof.
    intros Hu. unfold Storage.execute_operation. rewrite StorageRun.guarded_usable by done. srun.
    unfold objects. cbn [fst snd]. do 2 (split; [done|]).
    split; [intros; by rewrite operate_frame|].
    destruct (operate_law (st_io_ctx s.1) oid ops s.2.2) as (now & Hok & Hfail). split.
    - intros Hr%bool_decide_eq_true. eexists. apply Hok. lia.
    - intros Hr%bool_decide_eq_false. destruct (Hfail ltac:(lia)) as [?|[_ ?]]; eauto.
Qed.

Lemma append_to_object_spec s oid bl n :
    Storage.usable s = true →
    let '(ok, s') := Storage.append_to_object oid bl n s in
    s'.1 = s.1 ∧ s'.2.1 = s.2.1 ∧
    (∀ k, k ≠ (st_io_ctx s.1, oid) → objects s' !! k = objects s !! k) ∧
    (ok = true → ∃ now, apply_ops now (st_io_ctx s.1, oid) [OpAppend bl (Z.to_nat n)] (objects s)
                        = Some (objects s')).
Proof.
    intros Hu. pose proof (execute_operation_spec s oid [OpAppend bl (Z.to_nat n)] Hu) as He.
    change (Storage.append_to_object oid bl n) with
      (Storage.execute_operation oid [OpAppend bl (Z.to_nat n)]).
    destruct (Storage.execute_operation _ _ s). tauto.
Qed.

(** The data of an object after one chunk; its attributes stay. *)
Lemma apply_data_op (now : Z) (key : okey) (m m' : store) (op : write_op) (data : string) :
    apply_ops now key [op] m = Some m' →
    (match op with
     | OpWrite off bl => data = write_at off bl (ob_data (content (m !! key)))
     | OpAppend bl n => data = ob_data (content (m !! key)) +:+ str_take n bl
     | _ => False
     end) →
    is_Some (m' !! key) ∧ ob_data (content (m' !! key)) = data ∧
    ob_xattrs (content (m' !! key)) = ob_xattrs (content (m !! key)) ∧
    ob_omap (content (m' !! key)) = ob_omap (content (m !! key)).
Proof.
    unfold apply_ops. destruct op; cbn; try done; intros [= <-] ->; rewrite lookup_insert_eq;
      (split; [by eexists|]); by destruct (m !! key).
Qed.

(** The state of the loop after [i] chunks of [b]. *)
Definition appended (b : bufferlist) (max : Z) (key : okey) (x o : attrs) (i : Z) (m : store) : Prop :=
    (0 < i → is_Some (m !! key)) ∧
    ob_data (content (m !! key)) = str_take (Z.to_nat (chunk_end (Z.of_nat (slen b)) max i)) b ∧
    ob_xattrs (content (m !! key)) = x ∧ ob_omap (content (m !! key)) = o.

Lemma append_chunk_step mail b max x o i e s :
    Storage.usable s = true → rm_mail_buffer mail = Some b →
    0 < Z.of_nat (slen b) < 2 ^ 31 → 0 < max < 2 ^ 31 →
    0 <= i < chunk_div (Z.of_nat (slen b)) max →
    appended b max (st_io_ctx s.1, rm_oid mail) x o i (objects s) →
    let '(r, (e', s')) := SaveWrite.append_chunk mail (Z.of_nat (slen b)) max i (e, s) in
    e' = e ∧ s'.1 = s.1 ∧ s'.2.1 = s.2.1 ∧
    (∀ k, k ≠ (st_io_ctx s.1, rm_oid mail) → objects s' !! k = objects s !! k) ∧
    is_Some r ∧
    (∀ v, r = Some v → 0 <= v →
       appended b max (st_io_ctx s.1, rm_oid mail) x o (i + 1) (objects s')).
Proof.
    intros Hu Hb Hsz Hmax Hi (_ & Hd & Hx & Ho). unfold SaveWrite.append_chunk. rewrite Hb.
    destruct (cut_next b max Hsz Hmax i Hi) as (C1 & C2 & C3 & C4).
    pose (cut j := Z.to_nat (chunk_end (Z.of_nat (slen b)) max j)).
    change (Z.to_nat (chunk_end (Z.of_nat (slen b)) max i)) with (cut i) in *.
    change (Z.to_nat (chunk_end (Z.of_nat (slen b)) max (i + 1))) with (cut (i + 1)) in *.
    assert (cut (i + 1)%Z = cut i + Z.to_nat (chunk_length (Z.of_nat (slen b)) max i))%nat as Ec by lia.
    unfold appended. change (Z.to_nat (chunk_end (Z.of_nat (slen b)) max (i + 1))) with (cut (i + 1)).
    destruct (decide (chunk_div (Z.of_nat (slen b)) max = 1)) as [E1|E1].
    - rewrite bind_eq, on_snd_run. cbn [fst snd].
      pose proof (execute_operation_spec s (rm_oid mail) [OpWrite 0 b] Hu) as He.
      destruct (Storage.execute_operation _ _ s) as [ok s']. cbn [fst snd].
      destruct He as (? & ? & ? & Hok & _). rewrite ret_eq. do 4 (split; [done|]).
      split; [by eexists|]. intros v [= <-] Hv. destruct ok; [|lia].
      destruct (Hok eq_refl) as [now Ha]. assert (i = 0) as -> by lia.
      assert (cut 0 = 0%nat) as E0 by (unfold cut, chunk_end; lia).
      assert (cut (0 + 1) = slen b) as E2.
      { unfold cut. rewrite Z.add_0_l, <- E1, chunk_end_last by done. lia. }
      rewrite E2, str_take_ge by lia. rewrite E0, str_take_0 in Hd.
      apply (apply_data_op _ _ _ _ _ b) in Ha as (? & -> & -> & ->); [done|].
      rewrite Hd. change 0%nat with (slen ""). by rewrite write_at_end.
    - rewrite (wrap_u_small 64 (chunk_offset _ _)), wrap_u_small by lia.
      rewrite decide_False by lia. unfold SaveWrite.chunk_buffer.
      rewrite (wrap_u_small 64 (chunk_offset _ _)), wrap_u_small by lia.
      rewrite decide_False by lia. rewrite bind_eq, on_snd_run. cbn [fst snd].
      set (bl := substr _ _ b).
      pose proof (append_to_object_spec s (rm_oid mail) bl
        (int32 (chunk_length (Z.of_nat (slen b)) max i)) Hu) as He.
      destruct (Storage.append_to_object _ _ _ s) as [ok s']. cbn [fst snd].
      destruct He as (? & ? & ? & Hok). rewrite ret_eq. do 4 (split; [done|]).
      split; [by eexists|]. intros v [= <-] Hv. destruct ok; [|lia].
      destruct (Hok eq_refl) as [now Ha]. rewrite wrap_s_small in Ha by (cbn in *; lia).
      apply (apply_data_op _ _ _ _ _ (str_take (cut (i + 1)) b)) in Ha as (? & -> & -> & ->); [done|].
      rewrite Hd, (str_take_ge _ bl) by (unfold bl; rewrite slen_substr; lia).
      unfold bl. by rewrite <- C1, Nat2Z.id, Ec, str_take_substr.
Qed.
End append.

Section write.
Context `{LibradosLaws W}.
  Implicit Types s : Storage.state W.

Lemma append_loop_stores mail b max x o s :
    Storage.usable s = true → rm_mail_buffer mail = Some b →
    0 < Z.of_nat (slen b) < 2 ^ 31 → 0 < max < 2 ^ 31 →
    appended b max (st_io_ctx s.1, rm_oid mail) x o 0 (objects s) →
    ∀ ret, 0 <= ret →
    let '(r, (e', s')) := chunk_loop (SaveWrite.append_chunk mail (Z.of_nat (slen b)) max)
      (Z.to_nat (chunk_div (Z.of_nat (slen b)) max)) 0 ret (false, s) in
    e' = false ∧ s'.1 = s.1 ∧ s'.2.1 = s.2.1 ∧
    (∀ k, k ≠ (st_io_ctx s.1, rm_oid mail) → objects s' !! k = objects s !! k) ∧
    is_Some r ∧
    (∀ v, r = Some v → 0 <= v → ∃ ob, objects s' !! (st_io_ctx s.1, rm_oid mail) = Some ob ∧
       ob_data ob = b ∧ ob_xattrs ob = x ∧ ob_omap ob = o).
Proof.
    intros Hu Hb Hsz Hmax Ha ret Hret. set (size := Z.of_nat (slen b)) in *.
    set (key := (st_io_ctx s.1, rm_oid mail)) in *.
    pose proof (chunk_div_bounds size max Hsz Hmax) as [Hdiv _].
    set (Same (es : bool * Storage.state W) := es.1 = false ∧ es.2.1 = s.1 ∧ es.2.2.1 = s.2.1 ∧
           ∀ k, k ≠ key → objects es.2 !! k = objects s !! k).
    set (P i (es : bool * Storage.state W) := Same es ∧ appended b max key x o i (objects es.2)).
    pose proof (chunk_loop_inv P (λ a es, a = false ∧ Same es)
      (SaveWrite.append_chunk mail size max) (Z.to_nat (chunk_div size max)) 0 ret (false, s)) as Hl.
    destruct (chunk_loop _ _ _ _ _) as [r [e' s']]. cbn [fst snd] in Hl.
    premise Hl; [|premise Hl; [by split; [repeat split|exact Ha]|specialize (Hl Hret)]].
    - intros j [e1 s1] Hj [(Ee & Es & Ec & Ef) Hj1]. cbn [fst snd] in *. subst e1.
      assert (Storage.usable s1 = true) as Hu1 by (revert Hu; unfold Storage.usable; by rewrite Es, Ec).
      pose proof (append_chunk_step mail b max x o j false s1 Hu1 Hb Hsz Hmax ltac:(fold size; lia)) as Hst.
      rewrite Es in Hst. fold size key in Hst. specialize (Hst Hj1).
      destruct (SaveWrite.append_chunk _ _ _ _ _) as [v [e2 s2]]. cbn [fst snd].
      destruct Hst as (-> & E1 & E2 & E3 & [v' ->] & Hv).
      assert (Same (false, s2)) as HS.
      { split; [done|]. cbn [fst snd]. rewrite E1, E2. do 2 (split; [done|]).
        intros k Hk. by rewrite E3, Ef. }
      case_decide; [done|]. split; [done|]. apply (Hv v'); [done|lia].
    - rewrite Z.add_0_l, Z2Nat.id in Hl by lia. destruct r as [v|]; [|by destruct Hl].
      case_decide as Hv.
      + destruct Hl as (_ & E1 & E2 & E3 & E4). do 4 (split; [done|]). split; [by eexists|].
        intros ? [= <-]. lia.
      + destruct Hl as [(E1 & E2 & E3 & E4) (Hs & Hd & Hx & Ho)]. do 4 (split; [done|]).
        split; [by eexists|]. intros ? _ _. cbn [snd] in *. destruct (Hs Hdiv) as [ob Hob].
        exists ob. split; [exact Hob|]. revert Hd Hx Ho. rewrite Hob. cbn. intros -> <- <-.
        rewrite chunk_end_last by done. unfold size. by rewrite Nat2Z.id, str_take_ge by lia.
Qed.

(** The attributes operation, noticed or not. *)
Lemma execute_metadata s mail :
    Storage.usable s = true → objects s !! (st_io_ctx s.1, rm_oid mail) = None →
    (∀ k, is_Some (rm_attrset mail !! k) → free_of NUL k = true) →
    let '(ok, s') := Storage.execute_operation (rm_oid mail)
      (Storage.metadata_ops mail ++ [OpMtime (rm_save_date_rados mail)]) s in
    s'.1 = s.1 ∧ s'.2.1 = s.2.1 ∧
    (∀ k, k ≠ (st_io_ctx s.1, rm_oid mail) → objects s' !! k = objects s !! k) ∧
    ob_data (content (objects s' !! (st_io_ctx s.1, rm_oid mail))) = "" ∧
    let ob := content (objects s' !! (st_io_ctx s.1, rm_oid mail)) in
    (ob_xattrs ob = rm_attrset mail ∧ ob_omap ob = rm_extended_attrset mail) ∨
    (ok = false ∧ ob_xattrs ob = ∅ ∧ ob_omap ob = ∅).
Proof.
    intros Hu Hn Hk.
    pose proof (execute_operation_spec s (rm_oid mail)
      (Storage.metadata_ops mail ++ [OpMtime (rm_save_date_rados mail)]) Hu) as He.
    destruct (Storage.execute_operation _ _ s) as [ok s'].
    destruct He as (? & ? & ? & Hok & Hfail). do 3 (split; [done|]).
    assert ((∃ now, apply_ops now (st_io_ctx s.1, rm_oid mail)
               (Storage.metadata_ops mail ++ [OpMtime (rm_save_date_rados mail)]) (objects s)
               = Some (objects s')) ∨ (ok = false ∧ objects s' = objects s)) as [[now Ha]|[? ->]].
    { destruct ok; [left; by apply Hok|]. destruct (Hfail eq_refl); auto. }
    - revert Ha. unfold apply_ops. rewrite Hn, apply_metadata_ops by done. cbn [mbind option_bind].
      intros [= <-]. rewrite lookup_insert_eq. cbn. split; [done|]. left.
      by rewrite !(right_id_L ∅ (∪)).
    - rewrite Hn. cbn. auto.
Qed.
End write.

(** [save_mail_write_append] on a new object: when it reports success the
    object holds the whole mail, whatever the number of chunks, and nothing else
    changed. The attributes were stored with it, unless the operation that
    writes them failed: that failure goes unnoticed, and the mail is reported as
    saved without any attribute. *)
Theorem save_append_stores `{LibradosLaws W} (s : Storage.state W) mail b max :
  Storage.usable s = true → rm_mail_buffer mail = Some b →
  rm_object_size mail = Z.of_nat (slen b) → 0 < Z.of_nat (slen b) < 2 ^ 31 → 0 < max < 2 ^ 31 →
  (∀ k, is_Some (rm_attrset mail !! k) → free_of NUL k = true) →
  let key := (st_io_ctx s.1, rm_oid mail) in
  objects s !! key = None →
  let ops := Storage.metadata_ops mail ++ [OpMtime (rm_save_date_rados mail)] in
  let '((r, mail'), s') := SaveWrite.save_mail_write_append mail ops max s in
  is_Some r ∧ s'.1 = s.1 ∧ s'.2.1 = s.2.1 ∧
  (∀ k, k ≠ key → objects s' !! k = objects s !! k) ∧
  (∀ v, r = Some v → 0 <= v →
     ∃ ob, objects s' !! key = Some ob ∧ ob_data ob = b ∧
       ((ob_xattrs ob = rm_attrset mail ∧ ob_omap ob = rm_extended_attrset mail) ∨
        ((Storage.execute_operation (rm_oid mail) ops s).1 = false ∧
         ob_xattrs ob = ∅ ∧ ob_omap ob = ∅))).
Proof.
  intros Hu Hb Hsize Hlen Hmax Hk key Hn ops. unfold SaveWrite.save_mail_write_append.
  rewrite Hsize, (wrap_u_small 64) by lia.
  rewrite bool_decide_eq_true_2 by lia. cbn [negb]. rewrite decide_False by lia. rewrite bind_eq.
  pose proof (execute_metadata s mail Hu Hn Hk) as Hm. fold ops in Hm.
  destruct (Storage.execute_operation _ ops s) as [ok s1]. cbn [fst snd].
  destruct Hm as (E1 & E2 & Ef & Hd & Hx). rewrite decide_False by (destruct ok; lia).
  fold key in Ef, Hd, Hx. set (base := content (objects s1 !! key)) in *.
  assert (Storage.usable s1 = true) as Hu1 by (revert Hu; unfold Storage.usable; by rewrite E1, E2).
  pose proof (append_loop_stores mail b max (ob_xattrs base) (ob_omap base) s1 Hu1 Hb Hlen Hmax) as Hl.
  rewrite E1 in Hl. fold key in Hl. premise Hl.
  { unfold appended, chunk_end. split; [lia|]. fold base. rewrite Hd, Z.mul_0_l, Z.min_r by lia.
    by rewrite str_take_0. }
  specialize (Hl (if ok then 1 else 0) ltac:(destruct ok; lia)).
  rewrite bind_eq. unfold SaveWrite.with_flag.
  destruct (chunk_loop _ _ _ _ _) as [r [e s2]]. destruct Hl as (-> & E3 & E4 & Ef2 & [v ->] & Hw).
  cbn [fst snd]. rewrite ret_eq. split; [by eexists|]. rewrite E4, E2. do 2 (split; [done|]).
  split; [intros k Hne; by rewrite Ef2, Ef|].
  intros ? [= <-] Hv. destruct (Hw v eq_refl Hv) as (ob & ? & ? & Ex & Eo). exists ob.
  by rewrite Ex, Eo.
Qed.

Lemma save_append_stores_witness :
  (SaveWrite.save_mail_write_append sample_mail
     (Storage.metadata_ops sample_mail ++ [OpMtime 17]) 3 (mem_state "u1" ∅ [])).1.1 = Some 0 ∧
  ∃ ob, objects (SaveWrite.save_mail_write_append sample_mail
     (Storage.metadata_ops sample_mail ++ [OpMtime 17]) 3 (mem_state "u1" ∅ [])).2
      !! (mk_ioctx "mail_storage" "u1", "o1") = Some ob ∧ ob_data ob = "From: a" ∧
     ob_xattrs ob = {["M" := "guid"]}.
Proof.
  pose proof (save_append_stores (mem_state "u1" ∅ []) sample_mail "From: a" 3 eq_refl eq_refl eq_refl
                ltac:(cbn; lia) ltac:(lia)) as Hs.
  premise Hs.
  { intros k. cbn. destruct (decide (k = "M")) as [->|]; [done|].
    rewrite lookup_singleton_ne by done. by intros []. }
  cbv zeta in Hs. specialize (Hs eq_refl).
  change (rm_save_date_rados sample_mail) with 17 in Hs.
  destruct (SaveWrite.save_mail_write_append _ _ _ _) as [[r m] s'] eqn:E.
  assert (r = Some 0) as -> by (vm_compute in E; congruence).
  destruct Hs as (_ & _ & _ & _ & Hs).
  destruct (Hs 0 eq_refl ltac:(lia)) as (ob & H1 & H2 & H3). split; [reflexivity|].
  exists ob. split; [exact H1|]. split; [exact H2|].
  destruct H3 as [[H3 _]|[H3 _]]; [exact H3|]. vm_compute in H3. discriminate H3.
Defined.

(** The failure to write the attributes that nobody notices. *)
Lemma metadata_failure_unnoticed :
  let '((r, _), s') := SaveWrite.save_mail_write_append sample_mail
     (Storage.metadata_ops sample_mail ++ [OpMtime 17]) 3 (mem_state "u1" ∅ [-5]) in
  r = Some 0 ∧ (ob_data <$> objects s' !! (mk_ioctx "mail_storage" "u1", "o1")) = Some "From: a" ∧
  (ob_xattrs <$> objects s' !! (mk_ioctx "mail_storage" "u1", "o1")) = Some ∅.
Proof. vm_compute. done. Qed.
