(* ===== verification/AltStorage.v ===== *)
(** Copying and moving a mail between the primary and the alternative storage:
    [RadosUtils::copy_to_alt] and [move_to_alt] (librmb/rados-util.cpp). *)
From S2P Require Export MetadataStorage.

(** Both storages of a user and the connection they share. *)
Abbreviation alt_state W := ((RadosStorageImpl * RadosStorageImpl) * (RadosClusterImpl * W))%type.

Module AltStorage.
Section ops.
Context `{Librados W} `{MetadataModule W T}.
  Abbreviation M := (ST (alt_state W)).

Definition on_primary {A} (m : ST (Storage.state W) A) : M A :=
    λ '((p, a), w), let '(x, (p, w)) := m (p, w) in (x, ((p, a), w)).
Definition on_alt {A} (m : ST (Storage.state W) A) : M A :=
    λ '((p, a), w), let '(x, (a, w)) := m (a, w) in (x, ((p, a), w)).
Definition get_io_ctx (inverse : bool) : M ioctx :=
    λ s, (st_io_ctx (if inverse then s.1.2 else s.1.1), s).

(** [non_null]: both storages exist. [metadata] is the metadata module, whose
    context the code replaces; [None] as a result is an abort. *)
Definition copy_to_alt (non_null : bool) (src_oid dest_oid : string) (metadata : T) (inverse : bool) :
      M (option Z * T) :=
    if negb non_null then mret (Some 0, metadata) else
    let mail := Mail.set_mail_buffer (Some "") (Mail.set_oid src_oid Mail.new) in
    '(ret, bl) ← (if inverse then on_alt (Storage.read_mail src_oid)
                  else on_primary (Storage.read_mail src_oid));
    let mail := Mail.set_mail_buffer (Some bl) mail in
    alt_io ← get_io_ctx true;
    primary_io ← get_io_ctx false;
    let metadata := if inverse then ms_set_io_ctx alt_io metadata else metadata in
    if decide (ret < 0) then mret (Some ret, ms_set_io_ctx primary_io metadata) else
    let mail := Mail.set_mail_size (Z.of_nat (slen bl)) mail in
    '(ret, mail) ← on_primary (Storage.world (ms_load_metadata metadata mail));
    match ret with
    | None => mret (None, metadata)
    | Some ret =>
        if decide (ret < 0) then mret (Some ret, metadata) else
        let mail := Mail.set_oid dest_oid mail in
        let write_op := ms_save_metadata metadata mail in
        '(success, _) ← (if inverse then on_primary (Storage.save_mail_op write_op mail)
                         else on_alt (Storage.save_mail_op write_op mail));
        match success with
        | None => mret (None, metadata)
        | Some success =>
            if negb success then mret (Some 0, metadata) else
            mret (Some (if success : bool then 0 else 1), metadata)
        end
    end.

Definition move_to_alt (non_null : bool) (oid : string) (metadata : T) (inverse : bool) :
      M (option Z * T) :=
    '(ret, metadata) ← copy_to_alt non_null oid oid metadata inverse;
    match ret with
    | None => mret (None, metadata)
    | Some ret =>
        if decide (ret > 0) then
          io ← get_io_ctx inverse;
          ret ← on_primary (Storage.world (io_remove io oid));
          mret (Some ret, metadata)
        else mret (Some ret, metadata)
    end.
End ops.
End AltStorage.

(** ** What a save touches *)

Section frame.
Context `{LibradosLaws W}.

(** Nothing but the object [oid] of the storage's context differs from [s]. *)
Definition only_at (s : Storage.state W) (oid : string) (s' : Storage.state W) : Prop :=
    s'.1 = s.1 ∧ s'.2.1 = s.2.1 ∧
    ∀ k, k ≠ (st_io_ctx s.1, oid) → objects s' !! k = objects s !! k.

Lemma only_at_refl s oid : only_at s oid s.
Proof. done. Qed.

Lemma only_at_operate s oid ops :
    triple (only_at s oid) (Storage.world (io_operate (st_io_ctx s.1) oid ops)) (λ _, only_at s oid).
Proof.
    intros t (E1 & E2 & Ef). rewrite StorageRun.storage_world_run. cbn [fst snd].
    do 2 (split; [done|]). intros k Hk. unfold objects at 1. cbn [fst snd].
    rewrite operate_frame by done. by apply Ef.
Qed.

Lemma only_at_loop s oid body n i r :
    (∀ j, triple (only_at s oid) (body j) (λ _, only_at s oid)) →
    triple (only_at s oid) (chunk_loop body n i r) (λ _, only_at s oid).
Proof.
    intros Hb. revert i r. induction n as [|n IH]; intros i r; cbn [chunk_loop].
    - apply triple_keep.
    - eapply triple_bind; [apply Hb|]. intros [v|]; [|apply triple_keep].
      case_decide; [apply triple_keep|apply IH].
Qed.

Lemma only_at_guarded {A} s oid (d : A) m :
    triple (only_at s oid) m (λ _, only_at s oid) →
    triple (only_at s oid) (Storage.guarded d m) (λ _, only_at s oid).
Proof. intros Hm t Ht. unfold Storage.guarded. destruct (Storage.usable t); [by apply Hm|done]. Qed.

(** [save_mail] with any operation writes its own object only. *)
Lemma only_at_save s ops mail :
    triple (only_at s (rm_oid mail)) (Storage.save_mail_op ops mail) (λ _, only_at s (rm_oid mail)).
Proof.
    assert (∀ {A B} (m : ST (Storage.state W) A) (k : A → ST (Storage.state W) B),
      triple (only_at s (rm_oid mail)) m (λ _, only_at s (rm_oid mail)) →
      (∀ a, triple (only_at s (rm_oid mail)) (k a) (λ _, only_at s (rm_oid mail))) →
      triple (only_at s (rm_oid mail)) (m ≫= k) (λ _, only_at s (rm_oid mail))) as Hbind
      by (intros A B m k Hm Hk; by eapply triple_bind).
    apply only_at_guarded. apply Hbind; [|intros [[v|] m]; apply triple_keep].
    apply only_at_guarded. cbv zeta. case_decide; [apply triple_keep|].
    intros t Ht. rewrite bind_eq, StorageRun.io_ctx_run. cbn [fst snd].
    rewrite (proj1 Ht). refine (Hbind _ _ _ _ _ _ t Ht); [apply only_at_operate|].
    intros r. case_decide; [apply triple_keep|].
    apply Hbind; [|intros [v|]; apply triple_keep].
    apply only_at_loop. intros j. destruct (rm_mail_buffer mail ≫= _) as [op|]; [|apply triple_keep].
    intros u Hu. rewrite fmap_eq. pose proof (only_at_operate s (rm_oid mail) op u Hu) as Ho.
    by destruct (Storage.world _ u).
Qed.

Lemma read_mail_objects oid (s : Storage.state W) :
    let '((r, bl), s') := Storage.read_mail oid s in
    s'.1 = s.1 ∧ s'.2.1 = s.2.1 ∧ objects s' = objects s ∧
    (0 <= r → ∃ ob, objects s !! (st_io_ctx s.1, oid) = Some ob ∧ bl = read_range INT_MAX 0 (ob_data ob)).
Proof.
    unfold Storage.read_mail, Storage.guarded. destruct (Storage.usable s).
    2: { do 3 (split; [done|]). lia. }
    srun. pose proof (read_law (st_io_ctx s.1) oid INT_MAX 0 s.2.2) as Hr.
    destruct (io_read _ _ _ _ _) as [[r bl] w]. cbn [fst snd]. destruct Hr as (Eo & _ & Hr). tauto.
Qed.
End frame.

(** The copy changes the destination object at most, and never answers with a
    positive number. *)
Lemma copy_to_alt_spec `{MetadataContract W T} nn (src dest : string) (ms : T) (inverse : bool) (s : alt_state W) :
  let key := (st_io_ctx (if inverse then s.1.1 else s.1.2), dest) in
  let '((r, ms'), s') := AltStorage.copy_to_alt nn src dest ms inverse s in
  s'.1 = s.1 ∧ s'.2.1 = s.2.1 ∧ (∀ v, r = Some v → v <= 0) ∧
  (∀ v, r = Some v → v < 0 → objs s'.2.2 = objs s.2.2) ∧
  (∀ k, k ≠ key → objs s'.2.2 !! k = objs s.2.2 !! k).
Proof.
  destruct s as [[p a] [c w]]. cbn zeta. unfold AltStorage.copy_to_alt. destruct nn; cbn [negb].
  2: { rewrite ret_eq. do 2 (split; [done|]). split; [by intros v [= <-]|]. split; [|done].
       intros v [= <-]; lia. }
  rewrite bind_eq.
  match goal with |- context [(if inverse then ?m else ?n) ?st] =>
    set (rd := (if inverse then m else n) st) end.
  assert (∃ r bl w', rd = ((r, bl), ((p, a), (c, w'))) ∧ objs w' = objs w) as (ret & bl & w1 & -> & Eo1).
  { pose proof (read_mail_objects src (a, (c, w))) as Ha.
    pose proof (read_mail_objects src (p, (c, w))) as Hp. subst rd.
    destruct inverse; cbn [AltStorage.on_primary AltStorage.on_alt];
      [destruct (Storage.read_mail src (a, (c, w))) as [[r bl] [p' [c' w']]];
       destruct Ha as (E1 & E2 & E3 & _)
      |destruct (Storage.read_mail src (p, (c, w))) as [[r bl] [p' [c' w']]];
       destruct Hp as (E1 & E2 & E3 & _)];
      cbn in E1, E2; subst; exists r, bl, w'; by split. }
  cbn [fst snd]. rewrite bind_eq. cbn [AltStorage.get_io_ctx fst snd]. rewrite bind_eq.
  cbn [AltStorage.get_io_ctx fst snd].
  set (ms1 := if inverse then _ else ms).
  destruct (decide (ret < 0)).
  { rewrite ret_eq. cbn. do 2 (split; [done|]). split; [intros v [= <-]; lia|]. by rewrite Eo1. }
  set (mail := Mail.set_mail_size _ _). rewrite bind_eq. cbn [AltStorage.on_primary].
  rewrite StorageRun.storage_world_run. cbn [fst snd].
  pose proof (ms_load_objs ms1 mail w1) as Hl. destruct (ms_load_metadata ms1 mail w1) as [[r m2] w2].
  cbn [fst snd] in *. destruct r as [r|].
  2: { rewrite ret_eq. do 2 (split; [done|]). split; [done|]. cbn. split; [done|]. by rewrite Hl, Eo1. }
  destruct (decide (r < 0)).
  { rewrite ret_eq. cbn. do 2 (split; [done|]). split; [intros v [= <-]; lia|]. by rewrite Hl, Eo1. }
  rewrite bind_eq. set (m3 := Mail.set_oid dest m2). set (ops := ms_save_metadata ms1 m3).
  assert (rm_oid m3 = dest) as Edest by by destruct m2.
  match goal with |- context [(if inverse then ?m else ?n) ?st] =>
    set (sv := (if inverse then m else n) st) end.
  assert (∃ ok m4 w', sv = ((ok, m4), ((p, a), (c, w'))) ∧
    ∀ k, k ≠ (st_io_ctx (if inverse then p else a), dest) → objs w' !! k = objs w2 !! k)
    as (ok & m4 & w3 & -> & Ef).
  { pose proof (only_at_save (a, (c, w2)) ops m3 _ (only_at_refl _ _)) as Ha.
    pose proof (only_at_save (p, (c, w2)) ops m3 _ (only_at_refl _ _)) as Hp. subst sv.
    rewrite Edest in Ha, Hp.
    destruct inverse; cbn [AltStorage.on_primary AltStorage.on_alt];
      [destruct (Storage.save_mail_op ops m3 (p, (c, w2))) as [[ok m4] [p' [c' w']]];
       destruct Hp as (E1 & E2 & E3)
      |destruct (Storage.save_mail_op ops m3 (a, (c, w2))) as [[ok m4] [p' [c' w']]];
       destruct Ha as (E1 & E2 & E3)];
      cbn in E1, E2; rewrite E1, E2; exists ok, m4, w'; by split. }
  cbn [fst snd].
  assert (∀ k, k ≠ (st_io_ctx (if inverse then p else a), dest) → objs w3 !! k = objs w !! k) as Ef'
    by (intros k Hk; by rewrite Ef, Hl, Eo1).
  destruct ok as [[|]|]; cbn [negb]; rewrite ret_eq; cbn; do 2 (split; [done|]).
  1, 2: split; [intros v [= <-]; lia|]; split; [intros v [= <-]; lia|exact Ef'].
  split; [done|]. by split.
Qed.

(** [move_to_alt] never moves: the answer of [copy_to_alt] is never positive,
    which is the condition to remove the source, so the mail stays in the source
    storage whatever happens. No object but the one of the destination changes,
    and a negative answer says that nothing changed at all. *)
Theorem move_to_alt_keeps_source `{MetadataContract W T} (oid : string) (ms : T) (inverse : bool) (s : alt_state W) :
  let src := (st_io_ctx (if inverse then s.1.2 else s.1.1), oid) in
  let dest := (st_io_ctx (if inverse then s.1.1 else s.1.2), oid) in
  src ≠ dest →
  let '((r, ms'), s') := AltStorage.move_to_alt true oid ms inverse s in
  s'.1 = s.1 ∧ s'.2.1 = s.2.1 ∧ (∀ v, r = Some v → v <= 0) ∧
  objs s'.2.2 !! src = objs s.2.2 !! src ∧
  (∀ v, r = Some v → v < 0 → objs s'.2.2 = objs s.2.2) ∧
  (∀ k, k ≠ dest → objs s'.2.2 !! k = objs s.2.2 !! k).
Proof.
  intros src dest Hne. unfold AltStorage.move_to_alt. rewrite bind_eq.
  pose proof (copy_to_alt_spec true oid oid ms inverse s) as Hc. cbv zeta in Hc. fold dest in Hc.
  destruct (AltStorage.copy_to_alt _ _ _ _ _ s) as [[r ms'] s']. cbn [fst snd].
  destruct Hc as (E1 & E2 & Hr & Hneg & Hf).
  destruct r as [r|]; [rewrite decide_False by (specialize (Hr r eq_refl); lia)|];
    rewrite ret_eq; repeat (split; [first [done | by apply Hf]|]); done.
Qed.

(** A mail of the in-memory cluster that is moved to the alternative pool. *)
Definition alt_sample : alt_state MemCluster :=
  ((mem_storage "u1",
    mk_storage 90 134217728 "u1" (mk_ioctx "mail_alt" "u1") (mk_ioctx "object_recovery" "") true
      "mail_alt" WAIT_FOR_COMPLETE_AND_CB), inbox_state.2).

Lemma move_to_alt_keeps_source_witness :
  let '((r, _), s') := AltStorage.move_to_alt true "o1" (mk_default (mk_ioctx "mail_storage" "u1"))
                         false alt_sample in
  r = Some 0 ∧ is_Some (objs s'.2.2 !! (mk_ioctx "mail_alt" "u1", "o1")) ∧
  objs s'.2.2 !! (mk_ioctx "mail_storage" "u1", "o1") =
    objs alt_sample.2.2 !! (mk_ioctx "mail_storage" "u1", "o1").
Proof.
  pose proof (move_to_alt_keeps_source "o1" (mk_default (mk_ioctx "mail_storage" "u1")) false alt_sample
                ltac:(done)) as Hm.
  destruct (AltStorage.move_to_alt _ _ _ _ _) as [[r ms'] s'] eqn:E.
  destruct Hm as (_ & _ & _ & Hm & _).
  assert (r = Some 0) as -> by (vm_compute in E; congruence).
  assert (is_Some (objs s'.2.2 !! (mk_ioctx "mail_alt" "u1", "o1"))) as Hd.
  { replace s' with (AltStorage.move_to_alt true "o1" (mk_default (mk_ioctx "mail_storage" "u1"))
                       false alt_sample).2 by by rewrite E.
    vm_compute. by eexists. }
  split; [reflexivity|]. split; [exact Hd|exact Hm].
Defined.
