(* ===== verification/PluginConfig.v ===== *)
(** [RadosDovecotCephCfgImpl] (librmb/rados-dovecot-ceph-cfg-impl.h/.cpp): the
    settings of dovecot.conf and of the cluster behind one interface. *)
From S2P Require Export DovecotConfig NamespaceMgr.

Record RadosDovecotCephCfgImpl := mk_plugin_cfg {
  dovecot_cfg : RadosConfig;
  rados_cfg : RadosCephJsonConfig;
}.

Module PluginConfig.
Import DovecotConfig RadosConfigOps.

Definition new : RadosDovecotCephCfgImpl := mk_plugin_cfg RadosConfigOps.new JsonConfig.new.

Definition get_rados_cluster_name (c : RadosDovecotCephCfgImpl) : string := get rbox_cluster_name (dovecot_cfg c).
Definition get_rados_username (c : RadosDovecotCephCfgImpl) : string := get rados_username (dovecot_cfg c).
Definition get_rados_save_log_file (c : RadosDovecotCephCfgImpl) : string := get save_log (dovecot_cfg c).
Definition get_pool_name (c : RadosDovecotCephCfgImpl) : string := get pool_name (dovecot_cfg c).
Definition get_index_pool_name (c : RadosDovecotCephCfgImpl) : string := get index_pool_name (dovecot_cfg c).

(** [std::stoi]; [None]: it throws. *)
Definition int_setting (s : string) : option Z :=
    match stoi s with ParseOk n => Some n | _ => None end.
Definition get_write_method (c : RadosDovecotCephCfgImpl) : option Z :=
    int_setting (get rbox_write_method (dovecot_cfg c)).
Definition get_chunk_size (c : RadosDovecotCephCfgImpl) : option Z :=
    int_setting (get rbox_chunk_size (dovecot_cfg c)).
Definition get_object_search_method (c : RadosDovecotCephCfgImpl) : option Z :=
    int_setting (get rbox_object_search_method (dovecot_cfg c)).
Definition get_object_search_threads (c : RadosDovecotCephCfgImpl) : option Z :=
    int_setting (get rbox_object_search_threads (dovecot_cfg c)).

Definition is_write_chunks (c : RadosDovecotCephCfgImpl) : bool := RadosConfigOps.is_write_chunks (dovecot_cfg c).
Definition is_ceph_aio_wait_for_safe_and_cb (c : RadosDovecotCephCfgImpl) : bool :=
    RadosConfigOps.is_ceph_aio_wait_for_safe_and_cb (dovecot_cfg c).
Definition is_ceph_posix_bugfix_enabled (c : RadosDovecotCephCfgImpl) : bool :=
    RadosConfigOps.is_ceph_posix_bugfix_enabled (dovecot_cfg c).

Definition set_dovecot (d : RadosConfig) (c : RadosDovecotCephCfgImpl) : RadosDovecotCephCfgImpl :=
    mk_plugin_cfg d (rados_cfg c).
Definition set_rados (r : RadosCephJsonConfig) (c : RadosDovecotCephCfgImpl) : RadosDovecotCephCfgImpl :=
    mk_plugin_cfg (dovecot_cfg c) r.
Definition update_metadata (key : string) (value : option string) (c : RadosDovecotCephCfgImpl) :
      RadosDovecotCephCfgImpl :=
    set_dovecot (RadosConfigOps.update_metadata key value (dovecot_cfg c)) c.
Definition set_config_valid (v : bool) (c : RadosDovecotCephCfgImpl) : RadosDovecotCephCfgImpl :=
    let d := RadosConfigOps.set_config_valid v (dovecot_cfg c) in
    mk_plugin_cfg d (if v then JsonConfig.set_cfg_object_name (get rbox_cfg_object_name d) (rados_cfg c)
                     else rados_cfg c).
Definition set_rbox_cfg_object_name (value : string) (c : RadosDovecotCephCfgImpl) : RadosDovecotCephCfgImpl :=
    set_dovecot (RadosConfigOps.set_rbox_cfg_object_name value (dovecot_cfg c)) c.
Definition is_config_valid (c : RadosDovecotCephCfgImpl) : bool :=
    dc_is_valid (dovecot_cfg c) && cfg_valid (rados_cfg c).
Definition is_mail_attribute (k : rbox_metadata_key) (c : RadosDovecotCephCfgImpl) : bool :=
    JsonConfig.is_mail_attribute k (rados_cfg c).
Definition get_user_suffix (c : RadosDovecotCephCfgImpl) : string := user_suffix (rados_cfg c).
Definition is_user_mapping (c : RadosDovecotCephCfgImpl) : bool := bool_decide (user_mapping (rados_cfg c) = "true").
Definition get_user_ns (c : RadosDovecotCephCfgImpl) : string := user_ns (rados_cfg c).
Definition is_rbox_check_empty_mailboxes (c : RadosDovecotCephCfgImpl) : bool :=
    RadosConfigOps.is_rbox_check_empty_mailboxes (dovecot_cfg c).
Definition get_public_namespace (c : RadosDovecotCephCfgImpl) : string := public_namespace (rados_cfg c).

Definition get_key_prefix_keywords : string := prefix_keyword.
Definition update_pool_name_metadata (value : option string) (c : RadosDovecotCephCfgImpl) : RadosDovecotCephCfgImpl :=
    set_dovecot (RadosConfigOps.update_pool_name_metadata value (dovecot_cfg c)) c.
Definition set_user_mapping (value : bool) (c : RadosDovecotCephCfgImpl) : RadosDovecotCephCfgImpl :=
    set_rados (JsonConfig.set_user_mapping (if value then "true" else "false") (rados_cfg c)) c.
Definition set_user_ns (ns : string) (c : RadosDovecotCephCfgImpl) : RadosDovecotCephCfgImpl :=
    set_rados (JsonConfig.set_user_ns ns (rados_cfg c)) c.
Definition set_user_suffix (ns_suffix : string) (c : RadosDovecotCephCfgImpl) : RadosDovecotCephCfgImpl :=
    set_rados (JsonConfig.set_user_suffix ns_suffix (rados_cfg c)) c.
Definition set_update_attributes (update_attributes_ : string) (c : RadosDovecotCephCfgImpl) : RadosDovecotCephCfgImpl :=
    set_rados (JsonConfig.set_update_attributes update_attributes_ (rados_cfg c)) c.
Definition is_updateable_attribute (k : rbox_metadata_key) (c : RadosDovecotCephCfgImpl) : bool :=
    JsonConfig.is_updateable_attribute k (rados_cfg c).
Definition is_update_attributes (c : RadosDovecotCephCfgImpl) : bool := JsonConfig.is_update_attributes (rados_cfg c).
Definition update_mail_attributes (value : option string) (c : RadosDovecotCephCfgImpl) : RadosDovecotCephCfgImpl :=
    set_rados (JsonConfig.update_mail_attribute value (rados_cfg c)) c.
Definition update_updatable_attributes (value : option string) (c : RadosDovecotCephCfgImpl) : RadosDovecotCephCfgImpl :=
    set_rados (JsonConfig.update_updateable_attribute value (rados_cfg c)) c.
Definition get_metadata_storage_module (c : RadosDovecotCephCfgImpl) : string := metadata_storage_module (rados_cfg c).
Definition get_metadata_storage_attribute (c : RadosDovecotCephCfgImpl) : string := metadata_storage_attribute (rados_cfg c).

(** The operations on the configuration object are those of its configuration. *)
Section cluster.
Context `{Jansson} `{Librados W}.
Definition load_rados_config : ST (RadosCephConfig * W) (option Z) := CephConfig.load_cfg.
Definition save_object (oid : string) (buffer : bufferlist) : ST (RadosCephConfig * W) Z := CephConfig.save_object oid buffer.
Definition read_object (oid : string) : ST (RadosCephConfig * W) (Z * bufferlist) := CephConfig.read_object oid.
Definition set_io_ctx_namespace (ns : string) : ST (RadosCephConfig * W) unit := CephConfig.set_io_ctx_namespace ns.

Definition save_default_rados_config : ST (RadosCephConfig * W) Z :=
    r ← CephConfig.save_cfg;
    let valid := bool_decide (r = 0) in
    CephConfig.modify (JsonConfig.set_valid valid) ;;
    mret (if valid then 0 else -1).
End cluster.
End PluginConfig.
