(* ===== verification/RboxConnection.v ===== *)
(** The storage object of the plugin and how it connects to the cluster:
    storage-rbox/rbox-storage.cpp. The configuration, the namespace manager and
    the metadata storage hold pointers to the storage's own context, so the
    context is kept once, in the storage. *)
From S2P Require Export Stays PluginConfig MetadataStorage SaveLog.

(** [struct rbox_storage] and the file system of the save log. *)
Record rbox_storage := mk_rbox {
  rb_cluster : RadosClusterImpl;
  rb_options : gmap string string;          (** [client_options] of the cluster *)
  rb_s : RadosStorageImpl;
  rb_alt : RadosStorageImpl;
  rb_config : RadosDovecotCephCfgImpl;
  rb_cache : gmap string string;            (** the cache of [ns_mgr] *)
  rb_ms : option (MetadataDefault + MetadataIma);
  rb_log : RadosSaveLog;
  rb_fs : log_fs;
}.

(** What the plugin reads of a mailbox and its namespace. *)
Record mailbox := mk_mailbox {
  mb_name : string;
  mb_mailbox_guid : string;
  mb_ext_id : Z;
  mb_hdr_ext_id : Z;
  mb_owner : option string;
  mb_alt_dir : option string;
  mb_getenv : string → option string;
  mb_plugin_envs : option (list (string * string));
  mb_new_guid : string;                      (** what the guid generator would give *)
}.

Module Rbox.
Section ops.
Context `{Jansson} `{Librados W} `{RadosAdmin W}.
  Abbreviation M := (ST (rbox_storage * W)).

(** [rbox_storage_alloc]. *)
Definition rbox_storage_alloc (fs : log_fs) : rbox_storage :=
    mk_rbox Cluster.initial ∅ Storage.new Storage.new PluginConfig.new ∅ None Log.new fs.

Definition get : M rbox_storage := on_fst st_get.
Definition modify (f : rbox_storage → rbox_storage) : M unit := on_fst (st_modify f).

Definition set_s (x : RadosStorageImpl) (r : rbox_storage) : rbox_storage :=
    mk_rbox (rb_cluster r) (rb_options r) x (rb_alt r) (rb_config r) (rb_cache r) (rb_ms r) (rb_log r) (rb_fs r).
Definition set_alt (x : RadosStorageImpl) (r : rbox_storage) : rbox_storage :=
    mk_rbox (rb_cluster r) (rb_options r) (rb_s r) x (rb_config r) (rb_cache r) (rb_ms r) (rb_log r) (rb_fs r).
Definition set_cluster (x : RadosClusterImpl) (r : rbox_storage) : rbox_storage :=
    mk_rbox x (rb_options r) (rb_s r) (rb_alt r) (rb_config r) (rb_cache r) (rb_ms r) (rb_log r) (rb_fs r).
Definition set_options (x : gmap string string) (r : rbox_storage) : rbox_storage :=
    mk_rbox (rb_cluster r) x (rb_s r) (rb_alt r) (rb_config r) (rb_cache r) (rb_ms r) (rb_log r) (rb_fs r).
Definition set_config (x : RadosDovecotCephCfgImpl) (r : rbox_storage) : rbox_storage :=
    mk_rbox (rb_cluster r) (rb_options r) (rb_s r) (rb_alt r) x (rb_cache r) (rb_ms r) (rb_log r) (rb_fs r).
Definition set_cache (x : gmap string string) (r : rbox_storage) : rbox_storage :=
    mk_rbox (rb_cluster r) (rb_options r) (rb_s r) (rb_alt r) (rb_config r) x (rb_ms r) (rb_log r) (rb_fs r).
Definition set_ms (x : option (MetadataDefault + MetadataIma)) (r : rbox_storage) : rbox_storage :=
    mk_rbox (rb_cluster r) (rb_options r) (rb_s r) (rb_alt r) (rb_config r) (rb_cache r) x (rb_log r) (rb_fs r).
Definition set_log (x : RadosSaveLog) (r : rbox_storage) : rbox_storage :=
    mk_rbox (rb_cluster r) (rb_options r) (rb_s r) (rb_alt r) (rb_config r) (rb_cache r) (rb_ms r) x (rb_fs r).

Definition set_fs (x : log_fs) (r : rbox_storage) : rbox_storage :=
    mk_rbox (rb_cluster r) (rb_options r) (rb_s r) (rb_alt r) (rb_config r) (rb_cache r) (rb_ms r) (rb_log r) x.

(** An operation of a storage, of the configuration or of the namespace manager.
    The last two work on the storage's own context. *)
Definition on_s {A} (m : ST (Storage.state W) A) : M A :=
    λ '(r, w), let '(a, (s, (c, w))) := m (rb_s r, (rb_cluster r, w)) in
               (a, (set_cluster c (set_s s r), w)).
Definition on_alt {A} (m : ST (Storage.state W) A) : M A :=
    λ '(r, w), let '(a, (s, (c, w))) := m (rb_alt r, (rb_cluster r, w)) in
               (a, (set_cluster c (set_alt s r), w)).
Definition put_config (c : RadosCephConfig) (r : rbox_storage) : rbox_storage :=
    set_s (match cc_io_ctx c with Some io => Storage.set_ctx io (rb_s r) | None => rb_s r end)
      (set_config (PluginConfig.set_rados (cc_config c) (rb_config r)) r).
Definition on_config {A} (m : ST (RadosCephConfig * W) A) : M A :=
    λ '(r, w), let '(a, (c, w)) := m (mk_ceph_config (rados_cfg (rb_config r)) (Some (st_io_ctx (rb_s r))), w) in
               (a, (put_config c r, w)).
(** [is_config_valid] of the facade looks at both configurations. *)
Definition on_ns_mgr {A} (m : ST (RadosNamespaceManager * W) A) : M A :=
    λ '(r, w),
    let cfg := rados_cfg (rb_config r) in
    let c := mk_ceph_config (JsonConfig.set_valid (PluginConfig.is_config_valid (rb_config r)) cfg)
               (Some (st_io_ctx (rb_s r))) in
    let '(a, (n, w)) := m (mk_ns_mgr (Some c) (rb_cache r), w) in
    (a, (set_cache (nm_cache n)
           (match nm_config n with
            | Some c' => put_config (mk_ceph_config (JsonConfig.set_valid (cfg_valid cfg) (cc_config c'))
                                       (cc_io_ctx c')) r
            | None => r
            end), w)).

(** [set_config_option] for every setting of dovecot.conf that starts with the
    prefix and one more character. *)
Definition read_plugin_ceph_client_settings (envs : option (list (string * string)))
      (prefix : option string) : M unit :=
    match envs, prefix with
    | Some envs, Some prefix =>
        modify (λ r, set_options (foldl (λ o kv,
          if decide (slen prefix < slen kv.1)%nat then
            if String.prefix prefix kv.1
            then <[str_drop (slen prefix + 1) kv.1 := kv.2]> o else o
          else o) (rb_options r) envs) r)
    | _, _ => mret tt
    end.

(** [env] is [mail_user_plugin_getenv]. *)
Definition read_plugin_configuration (env : string → option string) : M unit :=
    r ← get;
    if negb (PluginConfig.is_config_valid (rb_config r)) then
      modify (λ r, set_config (foldl (λ c kv, PluginConfig.update_metadata kv.1 (env kv.1) c)
                     (rb_config r) (map_items (dc_config (dovecot_cfg (rb_config r))))) r) ;;
      modify (λ r, set_config (PluginConfig.set_config_valid true (rb_config r)) r) ;;
      modify (λ r, set_log (Log.set_save_log_file
                     (PluginConfig.get_rados_save_log_file (rb_config r)) (rb_log r)) r) ;;
      modify (λ r, set_log (Log.open (rb_fs r) (rb_log r)).2 r)
    else mret tt.

(** [open_connection] of one storage with the configured names. *)
Definition open_storage (pool : string) (r : rbox_storage) : ST (Storage.state W) (option Z) :=
    Storage.open_connection_named (map_items (rb_options r)) pool
      (PluginConfig.get_index_pool_name (rb_config r))
      (PluginConfig.get_rados_cluster_name (rb_config r))
      (PluginConfig.get_rados_username (rb_config r)).
Definition wait_method (r : rbox_storage) : rbox_ceph_aio_wait_method :=
    if PluginConfig.is_ceph_aio_wait_for_safe_and_cb (rb_config r)
    then WAIT_FOR_SAFE_AND_CB else WAIT_FOR_COMPLETE_AND_CB.

(** The connections: an exception (a null [alt_dir] makes one too) gives [-1], and with [alt_storage] the answer
    is the one of the alternative storage. *)
Definition open_storages (alt_storage : bool) (alt_dir : option string) : M Z :=
    r ← get;
    modify (λ r, set_s (Storage.set_ceph_wait_method (wait_method r) (rb_s r)) r) ;;
    ret ← on_s (open_storage (PluginConfig.get_pool_name (rb_config r)) r);
    match ret with
    | None => mret (-1)
    | Some ret =>
        if alt_storage then
          match alt_dir with
          | None => mret (-1)
          | Some alt_dir =>
              ret ← on_alt (open_storage alt_dir r);
              match ret with
              | None => mret (-1)
              | Some ret =>
                  modify (λ r, set_alt (Storage.set_ceph_wait_method (wait_method r) (rb_alt r)) r) ;;
                  mret ret
              end
          end
        else mret ret
    end.

(** The user a mailbox belongs to; [owner] is the user of its namespace. *)
Definition mailbox_uid (owner : option string) (r : rbox_storage) : string :=
    match owner with
    | Some username => username +:+ PluginConfig.get_user_suffix (rb_config r)
    | None => PluginConfig.get_public_namespace (rb_config r)
    end.

(** The namespace of the user, created when it does not exist. *)
Definition find_namespace (uid guid : string) (ret : Z) : M (Z * string) :=
    '(found, ns) ← on_ns_mgr (NamespaceMgr.lookup_key uid);
    if (found : bool) then mret (ret, default "" ns) else
    '(added, ns) ← on_ns_mgr (NamespaceMgr.add_namespace_entry uid (Some guid));
    mret (if (added : bool) then 0 else -1, default "" ns).

(** [guid] is what the guid generator gives; [None]: the program aborts. *)
Definition rbox_open_rados_connection (env : string → option string)
      (envs : option (list (string * string))) (alt_storage : bool) (alt_dir : option string)
      (owner : option string) (guid : string) : M (option Z) :=
    r ← get;
    (if negb (PluginConfig.is_config_valid (rb_config r)) then
       read_plugin_configuration env ;;
       read_plugin_ceph_client_settings envs (Some "rbox_ceph_client")
     else mret tt) ;;
    ret ← open_storages alt_storage alt_dir;
    if decide (ret = 1) then mret (Some 0) else
    if decide (ret < 0) then mret (Some ret) else
    ret ← on_config CephConfig.load_cfg;
    match ret with
    | None => mret None
    | Some ret =>
        ret ← (if decide (ret = - ENOENT) then on_config PluginConfig.save_default_rados_config
               else mret ret);
        if decide (ret < 0) then mret None else
        modify (λ r, set_ms (Some (create_metadata_storage (rb_ms r) (st_io_ctx (rb_s r))
                                     (rados_cfg (rb_config r)))) r) ;;
        r ← get;
        '(ret, ns) ← find_namespace (mailbox_uid owner r) guid ret;
        (if decide (ret >= 0) then
           on_s (Storage.set_namespace ns) ;;
           if alt_storage then on_alt (Storage.set_namespace ns) else mret tt
         else mret tt) ;;
        mret (Some ret)
    end.

(** The connection of a mailbox. *)
Definition open_mailbox (mb : mailbox) (alt_storage : bool) : M (option Z) :=
    rbox_open_rados_connection (mb_getenv mb) (mb_plugin_envs mb) alt_storage (mb_alt_dir mb)
      (mb_owner mb) (mb_new_guid mb).
(** [is_alternate_storage_set] and [is_alternate_pool_valid]. *)
Definition RBOX_INDEX_FLAG_ALT : Z := 64.
Definition is_alternate_storage_set (flags : Z) : bool :=
    negb (bool_decide (Z.land (uint8 flags) RBOX_INDEX_FLAG_ALT = 0)).
Definition is_alternate_pool_valid (mb : mailbox) : bool :=
    match mb_alt_dir mb with Some d => negb (bool_decide (c_str d = "")) | None => false end.

(** The metadata module, which works on the context of [s] or of [alt]. *)
Definition storage_ms (alt_storage : bool) (r : rbox_storage) : option (MetadataDefault + MetadataIma) :=
    ms_set_io_ctx (W:=W) (st_io_ctx (if alt_storage then rb_alt r else rb_s r)) <$> rb_ms r.

(** [rbox_storage_destroy], up to the release of the memory. *)
Definition rbox_storage_destroy : M bool :=
    on_s Storage.close_connection ;;
    on_alt Storage.close_connection ;;
    on_s (Storage.cluster Cluster.deinit) ;;
    r ← get;
    modify (set_log (Log.close (rb_log r)).2) ;;
    mret (Log.close (rb_log r)).1.
End ops.
End Rbox.

(** ** The namespace of a connection *)

Section ns_lemmas.
Context `{Jansson} `{Librados W}.

Lemma read_object_config oid (c : RadosCephConfig) (w : W) :
    (CephConfig.read_object oid (c, w)).2.1 = c.
Proof.
    unfold CephConfig.read_object. rewrite bind_eq, config_get_run. cbn [fst snd].
    destruct (cc_io_ctx c); [by rewrite config_world_run|done].
Qed.
Lemma save_object_config oid bl (c : RadosCephConfig) (w : W) :
    (CephConfig.save_object oid bl (c, w)).2.1 = c.
Proof.
    unfold CephConfig.save_object. rewrite bind_eq, config_get_run. cbn [fst snd].
    destruct (cc_io_ctx c); [by rewrite config_world_run|done].
Qed.

(** What the manager's operations keep, and what they answer. *)
Definition same_settings (c : RadosCephConfig) (m : RadosNamespaceManager) : Prop :=
    ∃ c', nm_config m = Some c' ∧ cc_config c' = cc_config c.

Lemma lookup_key_result uid c cache (w : W) :
    let '((ok, v), (m, w')) := NamespaceMgr.lookup_key uid (mk_ns_mgr (Some c) cache, w) in
    same_settings c m ∧
    (ok = true → (((uid = "" ∨ CephConfig.is_user_mapping c = false) ∧ v = Some uid) ∨
                  (is_Some v ∧ nm_cache m !! uid = v))).
Proof.
    unfold NamespaceMgr.lookup_key. case_decide as Hu; [split; [by eexists|auto]|].
    cbn [nm_config nm_cache].
    destruct (CephConfig.is_config_valid c); cbn [negb]; [|split; [by eexists|done]].
    destruct (CephConfig.is_user_mapping c); cbn [negb]; [|split; [by eexists|auto]].
    destruct (cache !! uid) as [v|] eqn:Ec; [split; [by eexists|right; by split; [eexists|]]|].
    cbn. pose proof (read_object_config uid (mk_ceph_config (cc_config c)
      (set_io_ns (user_ns (cc_config c)) <$> cc_io_ctx c)) w) as Hr.
    destruct (CephConfig.read_object _ _) as [[err bl] [c' w']]. cbn in Hr. subst c'.
    case_decide; cbn; (split; [by eexists|]); [|done].
    right. rewrite lookup_insert_eq. by split; [eexists|].
Qed.

Lemma add_entry_result uid guid c cache (w : W) :
    let '((ok, v), (m, w')) :=
      NamespaceMgr.add_namespace_entry uid (Some guid) (mk_ns_mgr (Some c) cache, w) in
    same_settings c m ∧ (ok = true → v = Some guid ∧ nm_cache m !! uid = Some guid).
Proof.
    unfold NamespaceMgr.add_namespace_entry. cbn [nm_config nm_cache].
    destruct (CephConfig.is_config_valid c); cbn [negb]; [|split; [by eexists|done]].
    cbn. pose proof (save_object_config uid guid (mk_ceph_config (cc_config c)
      (set_io_ns (user_ns (cc_config c)) <$> cc_io_ctx c)) w) as Hr.
    destruct (CephConfig.save_object _ _ _) as [err [c' w']]. cbn in Hr. subst c'.
    case_decide; cbn; (split; [by eexists|]); [|done].
    by rewrite lookup_insert_eq.
Qed.
End ns_lemmas.

(** The namespace [ns] is the one of user [uid]: the user's name itself without
    a mapping, or the entry of the namespace manager. *)
Definition namespace_of (r : rbox_storage) (uid ns : string) : Prop :=
  ((uid = "" ∨ user_mapping (rados_cfg (rb_config r)) ≠ "true") ∧ ns = uid) ∨ rb_cache r !! uid = Some ns.

(** The settings of the cluster, whatever their validity. *)
Definition settings_of (r : rbox_storage) : RadosCephJsonConfig := rados_cfg (rb_config r).

Lemma set_valid_set_valid a b c : JsonConfig.set_valid a (JsonConfig.set_valid b c) = JsonConfig.set_valid a c.
Proof. by destruct c. Qed.
Lemma set_valid_same c : JsonConfig.set_valid (cfg_valid c) c = c.
Proof. by destruct c. Qed.

Section connection.
Context `{Jansson} `{Librados W}.

Lemma find_namespace_result uid guid ret (r : rbox_storage) (w : W) :
    let '((ret', ns), (r', w')) := Rbox.find_namespace uid guid ret (r, w) in
    rb_config r' = rb_config r ∧ rb_ms r' = rb_ms r ∧ (0 <= ret' → namespace_of r' uid ns).
Proof.
    unfold Rbox.find_namespace. rewrite bind_eq. unfold Rbox.on_ns_mgr.
    set (cfg := rados_cfg (rb_config r)).
    set (c := mk_ceph_config (JsonConfig.set_valid _ _) _).
    pose proof (lookup_key_result uid c (rb_cache r) w) as Hl.
    destruct (NamespaceMgr.lookup_key _ _) as [[ok v] [m w1]].
    destruct Hl as ((c' & Ec & Es) & Hl). cbn [fst snd]. rewrite Ec.
    set (r1 := Rbox.set_cache _ _).
    assert (rb_config r1 = rb_config r) as Er1.
    { unfold r1. cbn. rewrite Es. unfold c. cbn [cc_config].
      rewrite set_valid_set_valid, set_valid_same. unfold cfg. by destruct (rb_config r). }
    assert (rb_ms r1 = rb_ms r) as Em1 by done.
    assert (rb_cache r1 = nm_cache m) as Ec1 by done. clearbody r1.
    destruct ok.
    { rewrite ret_eq. split; [done|]. split; [done|]. intros _. unfold namespace_of. rewrite Er1, Ec1.
      destruct (Hl eq_refl) as [[[->|Hm] ->]|[[ns ->] Hc]]; cbn.
      - left. auto.
      - left. split; [|done]. right. intros E. revert Hm. unfold CephConfig.is_user_mapping, c.
        cbn. fold cfg in E. destruct cfg. cbn in *. by subst.
      - by right. }
    rewrite bind_eq, Er1. fold cfg.
    set (c2 := mk_ceph_config (JsonConfig.set_valid _ _) _).
    pose proof (add_entry_result uid guid c2 (rb_cache r1) w1) as Ha.
    destruct (NamespaceMgr.add_namespace_entry _ _ _) as [[ok v2] [m2 w2]].
    destruct Ha as ((c3 & Ec2 & Es2) & Ha). cbn [fst snd]. rewrite Ec2, ret_eq.
    split; [|split; [done|]].
    - cbn. rewrite Es2. unfold c2. cbn [cc_config]. rewrite set_valid_set_valid, set_valid_same.
      rewrite Er1. unfold cfg. by destruct (rb_config r).
    - destruct ok; [|lia]. intros _. destruct (Ha eq_refl) as [-> Hc]. by right.
Qed.
End connection.

Section open.
Context `{Jansson} `{Librados W} `{RadosAdmin W}.

Lemma open_storage_answer pool r0 (s : Storage.state W) v :
    Storage.usable s = false → (Rbox.open_storage pool r0 s).1 = Some v → v <= 0.
Proof.
    intros Hu. unfold Rbox.open_storage, Storage.open_connection_named. rewrite Hu, bind_eq.
    case_decide; [cbn; intros [= <-]; lia|]. by apply create_connection_answer.
Qed.

(** Reading dovecot.conf leaves the storage and the cluster alone. *)
Lemma read_configuration_keeps env envs (s : rbox_storage * W) :
    let s' := ((Rbox.read_plugin_configuration env ;;
                Rbox.read_plugin_ceph_client_settings envs (Some "rbox_ceph_client")) s).2 in
    rb_s s'.1 = rb_s s.1 ∧ rb_cluster s'.1 = rb_cluster s.1 ∧ s'.2 = s.2.
Proof.
    destruct s as [r w]. cbn zeta. rewrite bind_eq. unfold Rbox.read_plugin_configuration.
    rewrite bind_eq. cbn [Rbox.get on_fst st_get fst snd].
    destruct (PluginConfig.is_config_valid (rb_config r)); cbn [negb];
      unfold Rbox.read_plugin_ceph_client_settings; destruct envs; done.
Qed.
End open.

(** [rbox_open_rados_connection] of a storage that was not connected: when it
    answers with success, the storage works in the namespace of the mailbox's
    user (the user's name with the configured suffix, or the public namespace),
    and that namespace is the user's entry of the namespace manager, or the name
    itself without a user mapping; a metadata module was chosen. The namespace of
    the shared context is the one the storage reports, although the namespace
    manager worked on the same context in between. *)
Theorem connection_namespace `{Jansson} `{Librados W} `{RadosAdmin W}
    (env : string → option string) envs (alt_dir : option string) owner (guid : string)
    (r : rbox_storage) (w : W) :
  Storage.usable (rb_s r, (rb_cluster r, w)) = false →
  let '(ret, (r', w')) :=
    Rbox.rbox_open_rados_connection env envs false alt_dir owner guid (r, w) in
  ∀ v, ret = Some v → 0 <= v →
    io_ns (st_io_ctx (rb_s r')) = st_nspace (rb_s r') ∧ is_Some (rb_ms r') ∧
    namespace_of r' (Rbox.mailbox_uid owner r') (st_nspace (rb_s r')).
Proof.
  intros Hu. unfold Rbox.rbox_open_rados_connection. rewrite bind_eq. cbn [Rbox.get on_fst st_get fst snd].
  rewrite bind_eq. set (s1 := snd _).
  assert (Storage.usable (rb_s s1.1, (rb_cluster s1.1, s1.2)) = false) as Hu1.
  { subst s1. destruct (PluginConfig.is_config_valid (rb_config r)); cbn [negb]; [exact Hu|].
    destruct (read_configuration_keeps env envs (r, w)) as (E1 & E2 & E3).
    cbv zeta in E1, E2, E3. unfold Storage.usable in *. cbn [fst snd] in *. by rewrite E1, E2. }
  clearbody s1. destruct s1 as [r1 w1]. clear Hu. rewrite bind_eq.
  assert (Hopen : (Rbox.open_storages false alt_dir (r1, w1)).1 ≤ 0).
  { unfold Rbox.open_storages. rewrite bind_eq. cbn [Rbox.get on_fst st_get fst snd].
    rewrite bind_eq. cbn. rewrite bind_eq. unfold Rbox.on_s.
    match goal with |- context [Rbox.open_storage ?p ?q ?st] =>
      pose proof (λ v, open_storage_answer p q st v Hu1) as Ha;
      destruct (Rbox.open_storage p q st) as [[v|] [s [c w2]]] end; cbn in *; [by apply Ha|lia]. }
  destruct (Rbox.open_storages _ _ _) as [ret [r2 w2]]. cbn [fst snd] in *.
  rewrite decide_False by lia. case_decide; [intros v [= <-]; lia|].
  rewrite bind_eq. destruct (Rbox.on_config _ (r2, w2)) as [[ret3|] [r3 w3]]; cbn [fst snd]; [|done].
  rewrite bind_eq.
  match goal with |- context [(if decide (ret3 = - ENOENT) then ?m else ?n) ?st] =>
    destruct ((if decide (ret3 = - ENOENT) then m else n) st) as [ret4 [r4 w4]] end.
  cbn [fst snd]. case_decide; [done|]. rewrite bind_eq. cbn. rewrite bind_eq. cbn.
  rewrite bind_eq. set (r5 := Rbox.set_ms _ r4).
  pose proof (find_namespace_result (Rbox.mailbox_uid owner r5) guid ret4 r5 w4) as Hf.
  destruct (Rbox.find_namespace _ _ _ _) as [[ret5 ns] [r6 w6]]. cbn [fst snd].
  destruct Hf as (Ec & Em & Hf). rewrite bind_eq. destruct (decide (ret5 >= 0)) as [Hr|Hr].
  2: { cbn. intros v [= <-]. lia. }
  cbn. intros v [= <-] _. split; [done|]. split; [cbn; rewrite Em; by eexists|].
  specialize (Hf ltac:(lia)). unfold namespace_of, Rbox.mailbox_uid in *. cbn in *.
  rewrite !Ec in *. exact Hf.
Qed.

(** A plugin that just started, in an empty cluster. *)
Definition fresh_rbox : rbox_storage := Rbox.rbox_storage_alloc (mk_fs (λ _, true) ∅).

Lemma connection_namespace_witness :
  let '(ret, (r', w')) := Rbox.rbox_open_rados_connection (λ _, None) None false None (Some "bob") "g1"
                            (fresh_rbox, mem_empty) in
  ret = Some 0 ∧ io_ns (st_io_ctx (rb_s r')) = "bob_u" ∧ st_nspace (rb_s r') = "bob_u".
Proof.
  pose proof (connection_namespace (λ _, None) None None (Some "bob") "g1" fresh_rbox mem_empty eq_refl) as Hc.
  destruct (Rbox.rbox_open_rados_connection _ _ _ _ _ _ _) as [ret [r' w']] eqn:E.
  assert (ret = Some 0) as -> by (vm_compute in E; congruence).
  assert (st_nspace (rb_s r') = "bob_u") as En by (vm_compute in E; injection E as <- <-; reflexivity).
  destruct (Hc 0 eq_refl ltac:(lia)) as (H1 & _). split; [reflexivity|]. rewrite H1. by split.
Defined.
