(* ===== verification/DovecotIndex.v ===== *)
(** The interface to Dovecot's index: the calls the plugin makes on the index
    transaction, the sync view and the guid generator. Dovecot is not part of
    this repository. Changes are requests that an abstract world records; what
    the views answer is a function of the world. [MemDovecot] is a concrete
    world with a cluster and a mailbox. *)
From S2P Require Export RboxConnection.

(** The requests, with the arguments the plugin gives. *)
Inductive index_action :=
| IxAppend (uid : Z)                                        (** by [mail_index_append] *)
| IxUpdateFlags (seq : Z) (replace : bool) (flags : Z)      (** [MODIFY_REPLACE], otherwise [MODIFY_ADD] *)
| IxRemoveFlags (seq flags : Z)
| IxUpdateKeywords (seq : Z) (keywords : list string)
| IxUpdateModseq (seq modseq : Z)
| IxUpdateExt (seq ext_id : Z) (guid oid : string)
| IxExpunge (seq : Z)
| IxCacheReset
| IxResizeHdr (ext_id size : Z)
| IxUpdateHeaderExt (ext_id offset value : Z)
| IxPop3MaxUid (uid : Z)
| IxSyncBegin                                               (** by [index_storage_expunged_sync_begin] *)
| IxSyncRollback
| IxSyncCommit
| IxNotifyExpunge (uid : Z)
| IxRebuildMetadata (seq uid : Z)                           (** [index_rebuild_index_metadata] *)
| IxRebuildInit                                             (** [index_index_rebuild_init]: begins with an empty index *)
| IxRebuildDeinit
| IxUnsetFscked
| IxUidValidity (uid_validity : Z)                          (** [mail_index_update_header] of one field *)
| IxNextUid (uid_next : Z)
| IxFirstRecentUid (uid : Z)
| IxHighestModseq (modseq : Z)                              (** enables them, too *)
| IxHeaderExt (ext_id rebuild_count : Z) (mailbox_guid : option string) (flags : Z)
| IxExtInitData (ext_id rebuild_count : Z) (mailbox_guid : option string) (flags : Z)
| IxTransactionRollback
| IxTransactionCommit
| IxSetDeleted
| IxSetError
| IxRecent (seq1 seq2 : Z)                                  (** [mailbox_recent_flags_set_seqs] *)
| IxRecentReset
| IxRefresh
| IxExpungingDeinit
| IxFinishUids (next_uid : Z)
| IxMailExpunged (seq : Z)                                  (** [mail_set_expunged] *)
| IxSetCritical
| IxErrorExpunged                                           (** the error that the mails no longer exist *)
| IxCacheAdd (seq field : Z) (data : string)                (** [index_mail_cache_add_idx] *)
| IxPop3UidlExists (seq : Z) (exists_now : bool)            (** [index_pop3_uidl_update_exists] *)
| IxCopyCacheFields (seq : Z)
| IxSetSeqSaving (seq : Z)
| IxErrorNotFound                                           (** the error that the mailbox does not exist *)
| IxErrorExists                                             (** ... or exists already *)
| IxFsyncMode                                               (** of appends and expunges *)
| IxWatchAdd
| IxWatchRemoveAll.

(** A record of the index: the mail's flags, and the guid and oid of the
    extension, when it has one. *)
Record index_record := mk_index_record {
  ir_uid : Z;
  ir_flags : Z;
  ir_ext : option (string * string);
}.

Inductive sync_type := SYNC_EXPUNGE | SYNC_FLAGS | SYNC_KEYWORD_ADD | SYNC_KEYWORD_REMOVE | SYNC_OTHER.
Record sync_rec := mk_sync_rec {
  sr_type : sync_type;
  sr_uid1 : Z;
  sr_uid2 : Z;
  sr_add_flags : Z;
  sr_remove_flags : Z;
  sr_keyword_idx : Z;
}.

Class Dovecot (W : Type) := {
  guid_128_generate : ST W string;                 (** as [guid_128_to_string] shows it *)
  guid_128_hash : string → string;                 (** [mail_generate_guid_128_hash] *)
  guid_128_to_uuid_string : string → string;       (** in the record format *)
  mail_index_append : Z → ST W Z;                  (** the sequence number of the new record *)
  mail_index_do : index_action → ST W unit;
  mail_index_sync_commit : ST W Z;
  mail_index_lookup : Z → W → option index_record;
  mail_index_is_expunged : Z → W → bool;           (** in the transaction *)
  mail_index_lookup_seq_range : Z → Z → W → option (Z * Z);
  mail_index_keywords : W → option (list string);
}.

(** What the plugin relies on: the index calls change no object, and requests
    are recorded in order; the calls to the cluster record nothing. *)
Class DovecotLaws (W : Type) `{LibradosLaws W} `{Dovecot W} := {
  ix_log : W → list index_action;
  guid_generate_law : ∀ w, objs (guid_128_generate w).2 = objs w ∧ ix_log (guid_128_generate w).2 = ix_log w;
  index_append_law : ∀ uid w,
    objs (mail_index_append uid w).2 = objs w ∧ ix_log (mail_index_append uid w).2 = ix_log w ++ [IxAppend uid];
  index_do_law : ∀ a w,
    objs (mail_index_do a w).2 = objs w ∧ ix_log (mail_index_do a w).2 = ix_log w ++ [a];
  sync_commit_law : ∀ w,
    objs (mail_index_sync_commit w).2 = objs w ∧
    ix_log (mail_index_sync_commit w).2 =
      ix_log w ++ (if decide ((mail_index_sync_commit w).1 < 0) then [] else [IxSyncCommit]);
  operate_log : ∀ c oid ops (w : W), ix_log (io_operate c oid ops w).2 = ix_log w;
  aio_operate_log : ∀ c oid ops (w : W), ix_log (io_aio_operate c oid ops w).2 = ix_log w;
  getxattrs_log : ∀ c oid (w : W), ix_log (io_getxattrs c oid w).2 = ix_log w;
  omap_get_keys_log : ∀ c oid (w : W), ix_log (io_omap_get_keys c oid w).2 = ix_log w;
  omap_get_vals_by_keys_log : ∀ c oid ks (w : W), ix_log (io_omap_get_vals_by_keys c oid ks w).2 = ix_log w;
}.

(** ** A concrete world *)

Record MemIndex := mk_mem_index {
  mi_log : list index_action;
  mi_records : gmap Z index_record;
  mi_expunged : gset Z;
  mi_guids : nat;
  mi_keywords : list string;
  mi_commit : Z;                 (** what the next commit answers *)
}.
Record MemDovecot := mk_mem_dovecot { md_cluster : MemCluster; md_index : MemIndex }.

Module MemDv.
Definition cluster {A} (m : ST MemCluster A) : ST MemDovecot A :=
    λ '(mk_mem_dovecot c i), let '(a, c) := m c in (a, mk_mem_dovecot c i).
Definition index {A} (m : ST MemIndex A) : ST MemDovecot A :=
    λ '(mk_mem_dovecot c i), let '(a, i) := m i in (a, mk_mem_dovecot c i).
Definition log (a : index_action) (i : MemIndex) : MemIndex :=
    mk_mem_index (mi_log i ++ [a]) (mi_records i) (mi_expunged i) (mi_guids i) (mi_keywords i) (mi_commit i).
Definition add (uid : Z) : ST MemIndex Z := λ i,
    let seq := Z.of_nat (size (mi_records i)) + 1 in
    (seq, mk_mem_index (mi_log i) (<[seq := mk_index_record uid 0 None]> (mi_records i)) (mi_expunged i)
            (mi_guids i) (mi_keywords i) (mi_commit i)).
Definition apply (a : index_action) (i : MemIndex) : MemIndex :=
    match a with
    | IxExpunge seq =>
        mk_mem_index (mi_log i) (mi_records i) ({[seq]} ∪ mi_expunged i) (mi_guids i) (mi_keywords i) (mi_commit i)
    | IxUpdateExt seq _ guid oid =>
        mk_mem_index (mi_log i)
          (alter (λ r, mk_index_record (ir_uid r) (ir_flags r) (Some (guid, oid))) seq (mi_records i))
          (mi_expunged i) (mi_guids i) (mi_keywords i) (mi_commit i)
    | _ => i
    end.
Definition guid (n : nat) : string := "guid" +:+ to_string (Z.of_nat n).
Definition generate : ST MemIndex string := λ i,
    (guid (mi_guids i), mk_mem_index (mi_log i) (mi_records i) (mi_expunged i) (S (mi_guids i))
                          (mi_keywords i) (mi_commit i)).
Definition empty : MemDovecot := mk_mem_dovecot mem_empty (mk_mem_index [] ∅ ∅ 0 [] 0).
End MemDv.

#[export] Instance dv_librados : Librados MemDovecot := {
  io_operate c oid ops := MemDv.cluster (io_operate c oid ops);
  io_aio_operate c oid ops := MemDv.cluster (io_aio_operate c oid ops);
  io_read c oid len off := MemDv.cluster (io_read c oid len off);
  io_stat c oid := MemDv.cluster (io_stat c oid);
  io_getxattrs c oid := MemDv.cluster (io_getxattrs c oid);
  io_omap_get_keys c oid := MemDv.cluster (io_omap_get_keys c oid);
  io_omap_get_vals_by_keys c oid ks := MemDv.cluster (io_omap_get_vals_by_keys c oid ks);
  io_omap_get_vals c oid p := MemDv.cluster (io_omap_get_vals c oid p);
  io_operate_read c oid ops := MemDv.cluster (io_operate_read c oid ops);
  io_aio_operate_read c oid ops := MemDv.cluster (io_aio_operate_read c oid ops);
  io_nobjects c f := MemDv.cluster (io_nobjects c f);
  io_nobjects_from c pos := MemDv.cluster (io_nobjects_from c pos);
}.

#[export] Program Instance dv_laws : LibradosLaws MemDovecot := {| objs w := mc_objs (md_cluster w) |}.
Next Obligation.
  intros c oid ops [w i]. cbn. pose proof (operate_law c oid ops w) as E. cbn in E.
  by destruct (Mem.operate c oid ops w).
Qed.
Next Obligation.
  intros c oid ops [w i]. cbn. pose proof (aio_operate_law c oid ops w) as E. cbn in E.
  by destruct (Mem.aio_operate c oid ops w) as [[? ?] ?].
Qed.
Next Obligation.
  intros c oid len off [w i]. pose proof (read_law c oid len off w) as E. cbn in *.
  by destruct (Mem.read_obj _ _ _ _ w) as [[? ?] ?].
Qed.
Next Obligation.
  intros c oid [w i]. pose proof (stat_law c oid w) as E. cbn in *.
  by destruct (Mem.read_obj _ _ _ _ w) as [[? ?] ?].
Qed.
Next Obligation.
  intros c oid [w i]. pose proof (getxattrs_law c oid w) as E. cbn in *.
  by destruct (Mem.read_obj _ _ _ _ w) as [[? ?] ?].
Qed.
Next Obligation.
  intros c oid [w i]. pose proof (omap_get_keys_law c oid w) as E. cbn in *.
  by destruct (Mem.read_obj _ _ _ _ w) as [[? ?] ?].
Qed.
Next Obligation.
  intros c oid ks [w i]. pose proof (omap_get_vals_by_keys_law c oid ks w) as E. cbn in *.
  by destruct (Mem.read_obj _ _ _ _ w) as [[? ?] ?].
Qed.
Next Obligation.
  intros c oid p [w i]. pose proof (omap_get_vals_law c oid p w) as E. cbn in *.
  by destruct (Mem.read_obj _ _ _ _ w) as [[? ?] ?].
Qed.
Next Obligation.
  intros c oid ops [w i]. pose proof (operate_read_law c oid ops w) as E. cbn in *.
  by destruct (Mem.operate_read _ _ _ w) as [[? ?] ?].
Qed.
Next Obligation.
  intros c oid ops [w i]. pose proof (aio_operate_read_law c oid ops w) as E. cbn in *.
  by destruct (Mem.aio_operate_read _ _ _ w) as [[[? ?] ?] ?].
Qed.
Next Obligation. by intros c pos [w i]. Qed.
Next Obligation. by intros c f [w i]. Qed.

#[export] Instance dv_admin : RadosAdmin MemDovecot := {
  ra_init names := MemDv.cluster (ra_init names);
  ra_conf_parse_env := MemDv.cluster ra_conf_parse_env;
  ra_conf_read_file := MemDv.cluster ra_conf_read_file;
  ra_conf_get o := MemDv.cluster (ra_conf_get o);
  ra_conf_set o v := MemDv.cluster (ra_conf_set o v);
  ra_connect := MemDv.cluster ra_connect;
  ra_shutdown := MemDv.cluster ra_shutdown;
  ra_pool_list2 := MemDv.cluster ra_pool_list2;
  ra_pool_create pool := MemDv.cluster (ra_pool_create pool);
  ra_ioctx_create pool := MemDv.cluster (ra_ioctx_create pool);
  ra_mon_command cmd := MemDv.cluster (ra_mon_command cmd);
}.

#[export] Instance dv_dovecot : Dovecot MemDovecot := {
  guid_128_generate := MemDv.index MemDv.generate;
  guid_128_hash s := "h" +:+ s;
  guid_128_to_uuid_string s := "u" +:+ s;
  mail_index_append uid := MemDv.index (λ i, MemDv.add uid (MemDv.log (IxAppend uid) i));
  mail_index_do a := MemDv.index (λ i, (tt, MemDv.apply a (MemDv.log a i)));
  mail_index_sync_commit := MemDv.index (λ i,
    (mi_commit i, if decide (mi_commit i < 0) then i else MemDv.log IxSyncCommit i));
  mail_index_lookup seq w := mi_records (md_index w) !! seq;
  mail_index_is_expunged seq w := bool_decide (seq ∈ mi_expunged (md_index w));
  mail_index_lookup_seq_range uid1 uid2 w :=
    match List.filter (λ seq, match mi_records (md_index w) !! seq with
                              | Some r => bool_decide (uid1 <= ir_uid r <= uid2)
                              | None => false
                              end) (seqZ 1 (Z.of_nat (size (mi_records (md_index w))))) with
    | [] => None
    | seq :: l => Some (seq, List.last l seq)
    end;
  mail_index_keywords w := Some (mi_keywords (md_index w));
}.

#[export] Program Instance dv_dovecot_laws : DovecotLaws MemDovecot := {| ix_log w := mi_log (md_index w) |}.
Next Obligation. by intros [c i]. Qed.
Next Obligation. by intros uid [c i]. Qed.
Next Obligation. intros a [c i]. by destruct a. Qed.
Next Obligation.
  intros [c i]. cbn. case_decide; cbn; [by rewrite app_nil_r|done].
Qed.
Next Obligation. intros c oid ops [w i]. cbn. by destruct (Mem.operate c oid ops w). Qed.
Next Obligation. intros c oid ops [w i]. cbn. by destruct (Mem.aio_operate c oid ops w). Qed.
Next Obligation. intros c oid [w i]. cbn. by destruct (Mem.read_obj _ _ _ _ w). Qed.
Next Obligation. intros c oid [w i]. cbn. by destruct (Mem.read_obj _ _ _ _ w). Qed.
Next Obligation. intros c oid ks [w i]. cbn. by destruct (Mem.read_obj _ _ _ _ w). Qed.

#[export] Program Instance dv_calm : CalmWorld MemDovecot := {| calm w := mc_faults (md_cluster w) = [] |}.
Next Obligation.
  intros c oid ops [w i] Hw. pose proof (calm_operate c oid ops w Hw) as Hc. cbn in *.
  by destruct (Mem.operate c oid ops w).
Qed.
Next Obligation.
  intros c oid ops [w i] Hw. pose proof (calm_aio_operate c oid ops w Hw) as Hc. cbn in *.
  by destruct (Mem.aio_operate c oid ops w) as [[? ?] ?].
Qed.
