(* ===== verification/RadosDictionary.v ===== *)
(** [RadosDictionaryImpl] (librmb/rados-dictionary-impl.h/.cpp): the objects and
    the contexts of a user's dictionary, and the queue of lookups that have not
    been waited for. The configuration and the namespace manager point to one of
    the two contexts of the dictionary, the one that was created first; the
    pointer is kept, the context itself is kept once. *)
From S2P Require Export DovecotIndex.
Local Open Scope rmb_scope.

Definition DICT_PATH_PRIVATE : string := "priv/".
Definition DICT_PATH_SHARED : string := "shared/".

(** What the callback of a lookup works on ([rados_dict_lookup_context]). *)
Record rados_dict_lookup_context := mk_lookup {
  lc_key : string;
  lc_context : Z;
  lc_callback : bool;                        (** [callback != nullptr] *)
  lc_result_map : attrs;
  lc_ret : Z;                                (** the completion's return value *)
}.

(** A completion: its address and what its callback is given. *)
Record aio_completion := mk_completion { ac_id : Z; ac_lookup : rados_dict_lookup_context }.

(** The context a pointer points to. *)
Inductive dict_ctx := SharedCtx | PrivateCtx.
#[export] Instance dict_ctx_eq_dec : EqDecision dict_ctx.
Proof. solve_decision. Defined.

Record RadosDictionaryImpl := mk_dictionary {
  rd_cluster : RadosClusterImpl;
  rd_poolname : string;
  rd_username : string;
  rd_oid : string;
  rd_shared_oid : string;
  rd_shared_io_ctx : option ioctx;           (** [None] before it is created *)
  rd_shared_created : bool;
  rd_private_oid : string;
  rd_private_io_ctx : option ioctx;
  rd_private_created : bool;
  rd_completions : list aio_completion;
  rd_cfg : option (RadosDovecotCephCfgImpl * dict_ctx);
  rd_namespace_mgr : option (gmap string string);   (** its cache *)
  rd_cfg_object_name : string;
}.

Module RadosDictionary.
Definition new (c : RadosClusterImpl) (poolname username oid cfg_object_name : string) : RadosDictionaryImpl :=
    mk_dictionary c poolname username oid oid None false oid None false [] None None cfg_object_name.

Definition set_cluster (x : RadosClusterImpl) (d : RadosDictionaryImpl) : RadosDictionaryImpl :=
    mk_dictionary x (rd_poolname d) (rd_username d) (rd_oid d) (rd_shared_oid d) (rd_shared_io_ctx d)
      (rd_shared_created d) (rd_private_oid d) (rd_private_io_ctx d) (rd_private_created d)
      (rd_completions d) (rd_cfg d) (rd_namespace_mgr d) (rd_cfg_object_name d).
Definition set_username (x : string) (d : RadosDictionaryImpl) : RadosDictionaryImpl :=
    mk_dictionary (rd_cluster d) (rd_poolname d) x (rd_oid d) (rd_shared_oid d) (rd_shared_io_ctx d)
      (rd_shared_created d) (rd_private_oid d) (rd_private_io_ctx d) (rd_private_created d)
      (rd_completions d) (rd_cfg d) (rd_namespace_mgr d) (rd_cfg_object_name d).
Definition set_shared (x : option ioctx) (created : bool) (d : RadosDictionaryImpl) : RadosDictionaryImpl :=
    mk_dictionary (rd_cluster d) (rd_poolname d) (rd_username d) (rd_oid d) (rd_shared_oid d) x
      created (rd_private_oid d) (rd_private_io_ctx d) (rd_private_created d)
      (rd_completions d) (rd_cfg d) (rd_namespace_mgr d) (rd_cfg_object_name d).
Definition set_private (x : option ioctx) (created : bool) (d : RadosDictionaryImpl) : RadosDictionaryImpl :=
    mk_dictionary (rd_cluster d) (rd_poolname d) (rd_username d) (rd_oid d) (rd_shared_oid d) (rd_shared_io_ctx d)
      (rd_shared_created d) (rd_private_oid d) x created
      (rd_completions d) (rd_cfg d) (rd_namespace_mgr d) (rd_cfg_object_name d).
Definition set_completions (x : list aio_completion) (d : RadosDictionaryImpl) : RadosDictionaryImpl :=
    mk_dictionary (rd_cluster d) (rd_poolname d) (rd_username d) (rd_oid d) (rd_shared_oid d) (rd_shared_io_ctx d)
      (rd_shared_created d) (rd_private_oid d) (rd_private_io_ctx d) (rd_private_created d)
      x (rd_cfg d) (rd_namespace_mgr d) (rd_cfg_object_name d).
Definition set_cfg (x : option (RadosDovecotCephCfgImpl * dict_ctx)) (d : RadosDictionaryImpl) : RadosDictionaryImpl :=
    mk_dictionary (rd_cluster d) (rd_poolname d) (rd_username d) (rd_oid d) (rd_shared_oid d) (rd_shared_io_ctx d)
      (rd_shared_created d) (rd_private_oid d) (rd_private_io_ctx d) (rd_private_created d)
      (rd_completions d) x (rd_namespace_mgr d) (rd_cfg_object_name d).
Definition set_namespace_mgr (x : option (gmap string string)) (d : RadosDictionaryImpl) : RadosDictionaryImpl :=
    mk_dictionary (rd_cluster d) (rd_poolname d) (rd_username d) (rd_oid d) (rd_shared_oid d) (rd_shared_io_ctx d)
      (rd_shared_created d) (rd_private_oid d) (rd_private_io_ctx d) (rd_private_created d)
      (rd_completions d) (rd_cfg d) x (rd_cfg_object_name d).

(** Through a pointer. *)
Definition ctx_of (p : dict_ctx) (d : RadosDictionaryImpl) : option ioctx :=
    match p with SharedCtx => rd_shared_io_ctx d | PrivateCtx => rd_private_io_ctx d end.
Definition put_ctx (p : dict_ctx) (io : option ioctx) (d : RadosDictionaryImpl) : RadosDictionaryImpl :=
    match p with
    | SharedCtx => set_shared io (rd_shared_created d) d
    | PrivateCtx => set_private io (rd_private_created d) d
    end.

(** The keys a dictionary accepts: [key.compare(0, strlen(p), p) == 0]. *)
Definition is_private_key (key : string) : bool := String.prefix DICT_PATH_PRIVATE key.
Definition is_shared_key (key : string) : bool := String.prefix DICT_PATH_SHARED key.

Definition get_shared_oid (d : RadosDictionaryImpl) : string := rd_shared_oid d.
Definition get_private_oid (d : RadosDictionaryImpl) : string := rd_private_oid d.
Definition get_full_oid (key : string) (d : RadosDictionaryImpl) : string :=
    if is_private_key key then get_private_oid d
    else if is_shared_key key then get_shared_oid d
    else "".

Section ops.
Context `{Jansson} `{Librados W} `{RadosAdmin W} `{Dovecot W}.
  Abbreviation M := (ST (RadosDictionaryImpl * W)).

Definition get : M RadosDictionaryImpl := on_fst st_get.
Definition modify (f : RadosDictionaryImpl → RadosDictionaryImpl) : M unit := on_fst (st_modify f).
Definition world {A} (m : ST W A) : M A := on_snd m.
Definition on_cluster {A} (m : ST (RadosClusterImpl * W) A) : M A :=
    λ '(d, w), let '(a, (c, w)) := m (rd_cluster d, w) in (a, (set_cluster c d, w)).

(** An operation of the configuration object, on the context it points to; it
    aborts on a context that was never created. *)
Definition on_rados_cfg {A} (m : ST (RadosCephConfig * W) A) : M (option A) :=
    λ '(d, w),
    match rd_cfg d with
    | None => (None, (d, w))
    | Some (cfg, p) =>
        match ctx_of p d with
        | None => (None, (d, w))
        | Some io =>
            let '(a, (c, w)) := m (mk_ceph_config (rados_cfg cfg) (Some io), w) in
            (Some a, (put_ctx p (cc_io_ctx c) (set_cfg (Some (PluginConfig.set_rados (cc_config c) cfg, p)) d), w))
        end
    end.

(** An operation of the namespace manager, which sees both halves of the
    configuration as valid or none. *)
Definition on_namespace_mgr {A} (m : ST (RadosNamespaceManager * W) A) : M (option A) :=
    λ '(d, w),
    match rd_cfg d with
    | None => (None, (d, w))
    | Some (cfg, p) =>
        let valid := PluginConfig.is_config_valid cfg in
        let c := mk_ceph_config (JsonConfig.set_valid valid (rados_cfg cfg)) (ctx_of p d) in
        let '(a, (n, w)) := m (mk_ns_mgr (Some c) (default ∅ (rd_namespace_mgr d)), w) in
        (Some a, (put_ctx p (c' ← nm_config n; cc_io_ctx c') (set_namespace_mgr (Some (nm_cache n)) d), w))
    end.

Definition load_configuration (io_ctx : dict_ctx) : M (option bool) :=
    d ← get;
    match rd_cfg d with
    | Some _ => aret true
    | None =>
        let cfg := PluginConfig.set_config_valid true
                     (PluginConfig.set_rbox_cfg_object_name (rd_cfg_object_name d) PluginConfig.new) in
        modify (set_cfg (Some (cfg, io_ctx))) ;;
        ret ←! on_rados_cfg CephConfig.load_cfg;
        match ret with
        | None => abort                                          (* not caught in [load_cfg] *)
        | Some load_cfg =>
            loaded ←! (if decide (load_cfg = - ENOENT) then
                         on_rados_cfg PluginConfig.save_default_rados_config ;; aret true
                       else aret (negb (bool_decide (load_cfg < 0))));
            modify (λ d, if decide (rd_username d = "") then
                           set_username (from_option (λ c, PluginConfig.get_public_namespace c.1) "" (rd_cfg d)) d
                         else d) ;;
            aret loaded
        end
    end.

(** The answer and [*ns], which was empty before. *)
Definition lookup_namespace (username_ : string) : M (option (bool * string)) :=
    d ← get;
    '(found, ns) ←! on_namespace_mgr (NamespaceMgr.lookup_key username_);
    if (found : bool) then aret (false, default "" ns) else
    guid ← (if from_option (λ c, PluginConfig.is_config_valid c.1) false (rd_cfg d)
            then world guid_128_generate else mret "");
    '(added, ns) ←! on_namespace_mgr (NamespaceMgr.add_namespace_entry username_ (Some guid));
    aret (added, default "" ns).

(** [set_namespace] on a context; it aborts on one that was never created. *)
Definition set_namespace (p : dict_ctx) (ns : string) : M (option unit) :=
    d ← get;
    match ctx_of p d with
    | None => abort
    | Some io => lift (modify (put_ctx p (Some (set_io_ns ns io))))
    end.

(** What [io_ctx_create] leaves in the context it is given. *)
Definition created_ctx (old new : option ioctx) : option ioctx := match new with Some io => Some io | None => old end.

Definition get_shared_io_ctx : M (option (option ioctx)) :=
    d ← get;
    (if negb (rd_shared_created d) then
       '(r, io) ←! on_cluster (Cluster.io_ctx_create (rd_poolname d));
       modify (λ d, set_shared (created_ctx (rd_shared_io_ctx d) io) (bool_decide (r = 0)) d) ;;
       loaded ←! load_configuration SharedCtx;
       if (loaded : bool) then
         d ← get;
         let user := from_option (λ c, PluginConfig.get_public_namespace c.1) "" (rd_cfg d) in
         '(_, ns) ←! lookup_namespace user;
         set_namespace SharedCtx ns
       else aret tt
     else aret tt) ≫= λ r, match r with None => abort | Some _ =>
    d ← get;
    aret (rd_shared_io_ctx d) end.

Definition get_private_io_ctx : M (option (option ioctx)) :=
    d ← get;
    (if negb (rd_private_created d) then
       '(r, io) ←! on_cluster (Cluster.io_ctx_create (rd_poolname d));
       modify (λ d, set_private (created_ctx (rd_private_io_ctx d) io) (rd_private_created d) d) ;;
       if decide (r = 0) then
         loaded ←! load_configuration PrivateCtx;
         if (loaded : bool) then
           d ← get;
           let user := rd_username d +:+ from_option (λ c, PluginConfig.get_user_suffix c.1) "" (rd_cfg d) in
           '(_, ns) ←! lookup_namespace user;
           modify (λ d, set_private (rd_private_io_ctx d) true d) ;;
           set_namespace PrivateCtx ns
         else aret tt
       else aret tt
     else aret tt) ≫= λ r, match r with None => abort | Some _ =>
    d ← get;
    aret (rd_private_io_ctx d) end.

(** The context of a key; the program aborts for a key that is in neither path. *)
Definition get_io_ctx (key : string) : M (option (option ioctx)) :=
    if is_private_key key then get_private_io_ctx
    else if is_shared_key key then get_shared_io_ctx
    else abort.

(** A call on a context: a null context aborts. *)
Definition with_ctx {A} (m : M (option (option ioctx))) (f : ioctx → ST W A) : M (option A) :=
    io ←! m;
    match io with None => abort | Some io => lift (world (f io)) end.

(** [get]: the code and [*value_r], if it was assigned. *)
Definition dict_get (key : string) : M (option (Z * option string)) :=
    d ← get;
    '(err, outs) ←! with_ctx (get_io_ctx key)
      (λ io, io_operate_read io (get_full_oid key d) [RdOmapByKeys {[key]}]);
    if decide (err = 0) then
      match outs with
      | (r_val, map) :: _ =>
          if decide (r_val = 0) then
            match map !! key with
            | Some v => aret (0, Some v)
            | None => aret (- ENOENT, None)
            end
          else aret (r_val, None)
      | [] => aret (-1, None)
      end
    else aret (err, None).
End ops.

Definition push_back_completion (c : aio_completion) (d : RadosDictionaryImpl) : RadosDictionaryImpl :=
    set_completions (rd_completions d ++ [c]) d.
(** [completions.remove(c)] removes every occurrence of the pointer. *)
Definition remove_completion (c : aio_completion) (d : RadosDictionaryImpl) : RadosDictionaryImpl :=
    set_completions (List.filter (λ c', negb (bool_decide (ac_id c' = ac_id c))) (rd_completions d)) d.
(** The loop with [fuel] rounds left: the completions that were waited for, in
    order, and the dictionary; [None]: more rounds are needed. *)
Fixpoint wait_for_completions (fuel : nat) (d : RadosDictionaryImpl) :
      option (list aio_completion * RadosDictionaryImpl) :=
    match rd_completions d with
    | [] => Some ([], d)
    | c :: _ =>
        match fuel with
        | O => None
        | S fuel =>
            '(l, d) ← wait_for_completions fuel (remove_completion c d);
            Some (c :: l, d)
        end
    end.
End RadosDictionary.

(** ** Lemmas *)

Section context_lemmas.
Context `{Jansson} `{LibradosLaws W} `{RadosAdmin W} `{Dovecot W}.
Import RadosDictionary.

Lemma dict_get_run (s : RadosDictionaryImpl * W) : get s = (s.1, s).
Proof. by destruct s. Qed.
Lemma dict_modify_run f (s : RadosDictionaryImpl * W) : modify f s = (tt, (f s.1, s.2)).
Proof. by destruct s. Qed.
Lemma dict_world_run {A} (m : ST W A) (s : RadosDictionaryImpl * W) :
    world m s = ((m s.2).1, (s.1, (m s.2).2)).
Proof. unfold world. destruct s. by rewrite on_snd_run. Qed.

Lemma on_mgr_run {A} (m : ST (RadosNamespaceManager * W) A) d (w : W) cfg p :
    rd_cfg d = Some (cfg, p) →
    let c := mk_ceph_config (JsonConfig.set_valid (PluginConfig.is_config_valid cfg) (rados_cfg cfg)) (ctx_of p d) in
    let r := m (mk_ns_mgr (Some c) (default ∅ (rd_namespace_mgr d)), w) in
    on_namespace_mgr m (d, w) =
      (Some r.1, (put_ctx p (c' ← nm_config r.2.1; cc_io_ctx c')
                    (set_namespace_mgr (Some (nm_cache r.2.1)) d), r.2.2)).
Proof. intros E c r. unfold on_namespace_mgr, r, c. rewrite E. by destruct (m _) as [? [? ?]]. Qed.

(** Overwriting the manager and the context it points to, twice. *)
Lemma put_put p x x' c c' d :
    put_ctx p x (set_namespace_mgr c (put_ctx p x' (set_namespace_mgr c' d))) =
      put_ctx p x (set_namespace_mgr c d).
Proof. by destruct p. Qed.
Lemma put_ctx_cfg p x c d : rd_cfg (put_ctx p x (set_namespace_mgr c d)) = rd_cfg d.
Proof. by destruct p. Qed.
Lemma ctx_of_put p x c d : ctx_of p (put_ctx p x (set_namespace_mgr c d)) = x.
Proof. by destruct p. Qed.
Lemma namespace_mgr_put p x c d : rd_namespace_mgr (put_ctx p x (set_namespace_mgr c d)) = c.
Proof. by destruct p. Qed.

(** A lookup with the mapping of users switched off touches no context. *)
Lemma lookup_namespace_unmapped uid d (w : W) cfg p :
    uid ≠ "" → rd_cfg d = Some (cfg, p) → PluginConfig.is_config_valid cfg = true →
    user_mapping (rados_cfg cfg) ≠ "true" →
    lookup_namespace uid (d, w) =
      (Some (false, uid), (put_ctx p (ctx_of p d) (set_namespace_mgr (Some (default ∅ (rd_namespace_mgr d))) d), w)).
Proof.
    intros Hu Hc Hv Hm. unfold lookup_namespace. rewrite bind_eq, dict_get_run. cbn [fst snd].
    rewrite abind_eq, (on_mgr_run _ d w cfg p Hc). unfold NamespaceMgr.lookup_key.
    cbn [nm_config nm_cache]. rewrite decide_False by done.
    unfold CephConfig.is_config_valid, CephConfig.is_user_mapping. rewrite Hv.
    destruct (rados_cfg cfg) eqn:Er. cbn in *. rewrite bool_decide_eq_false_2 by done. cbn. done.
Qed.

(** With the mapping switched on, a lookup that misses the cache leaves the
    context that the configuration points to in the default namespace. *)
Lemma lookup_namespace_mapped uid d (w : W) cfg p io :
    uid ≠ "" → rd_cfg d = Some (cfg, p) → PluginConfig.is_config_valid cfg = true →
    user_mapping (rados_cfg cfg) = "true" → ctx_of p d = Some io →
    default ∅ (rd_namespace_mgr d) !! uid = None →
    let '(r, (d', w')) := lookup_namespace uid (d, w) in
    is_Some r ∧ ∃ cache, d' = put_ctx p (Some (set_io_ns "" io)) (set_namespace_mgr cache d).
Proof.
    intros Hu Hc Hv Hm Hio Hmiss. unfold lookup_namespace. rewrite bind_eq, dict_get_run. cbn [fst snd].
    rewrite abind_eq, (on_mgr_run _ d w cfg p Hc).
    set (c := mk_ceph_config _ _).
    assert (CephConfig.is_config_valid c = true) as Hcv by (unfold c; cbn; by destruct (rados_cfg cfg)).
    assert (CephConfig.is_user_mapping c = true) as Hcm.
    { unfold c, CephConfig.is_user_mapping. cbn. apply bool_decide_eq_true_2. by destruct (rados_cfg cfg). }
    pose proof (lookup_miss c io _ uid w Hu Hio Hcv Hcm Hmiss) as Hl.
    destruct (NamespaceMgr.lookup_key _ _) as [[ok v] [m w1]]. cbn [fst snd].
    destruct Hl as (Em & _ & _). rewrite Em. cbn [mbind option_bind cc_io_ctx after_io].
    destruct ok; [split; [by eexists|by eexists]|].
    set (d1 := put_ctx p _ _).
    rewrite Hc. cbn [from_option fst]. rewrite Hv, bind_eq, dict_world_run. cbn [fst snd].
    set (guid := fst (guid_128_generate w1)). set (w2 := snd (guid_128_generate w1)).
    rewrite abind_eq, (on_mgr_run _ d1 w2 cfg p) by (unfold d1; by rewrite put_ctx_cfg).
    set (c2 := mk_ceph_config (JsonConfig.set_valid (PluginConfig.is_config_valid cfg) (rados_cfg cfg)) (ctx_of p d1)).
    assert (cc_io_ctx c2 = Some (set_io_ns "" io)) as Hio2 by (unfold c2, d1; cbn; by rewrite ctx_of_put).
    pose proof (add_entry c2 _ (default ∅ (rd_namespace_mgr d1)) uid guid w2 Hio2 Hcv) as Ha.
    destruct (NamespaceMgr.add_namespace_entry _ _ _) as [[ok2 v2] [m2 w3]]. cbn [fst snd].
    destruct Ha as (Em2 & _). rewrite Em2. cbn. split; [by eexists|].
    exists (Some (nm_cache m2)). unfold d1. by rewrite put_put.
Qed.
End context_lemmas.

(** ** Properties *)

(** C21. The first use of the shared path of a dictionary whose private path is in
    use. Without a mapping of users the shared context gets the public namespace
    and the private one is left alone. With a mapping, the public namespace is
    looked up through the private context and that context ends in the default
    namespace of the pool, where it stays: every later private key of this user
    is read and written there. *)
Theorem dict_shared_access_moves_private `{Jansson} `{LibradosLaws W} `{RadosAdmin W} `{Dovecot W}
    (d : RadosDictionaryImpl) cfg io (w : W) :
  let public := PluginConfig.get_public_namespace cfg in
  rd_cfg d = Some (cfg, PrivateCtx) → rd_private_io_ctx d = Some io →
  rd_private_created d = true → rd_shared_created d = false →
  PluginConfig.is_config_valid cfg = true → public ≠ "" →
  let '(r, (d', w')) := RadosDictionary.get_shared_io_ctx (d, w) in
  is_Some r →
  RadosDictionary.get_private_io_ctx (d', w') = (Some (rd_private_io_ctx d'), (d', w')) ∧
  (user_mapping (rados_cfg cfg) ≠ "true" →
     rd_private_io_ctx d' = Some io ∧ io_ns <$> rd_shared_io_ctx d' = Some public) ∧
  (user_mapping (rados_cfg cfg) = "true" → default ∅ (rd_namespace_mgr d) !! public = None →
     rd_private_io_ctx d' = Some (set_io_ns "" io)).
Proof.
  intros public Hc Hio Hp Hs Hv Hne. unfold RadosDictionary.get_shared_io_ctx.
  rewrite bind_eq, dict_get_run. cbn [fst snd]. rewrite Hs. cbn [negb].
  rewrite bind_eq, abind_eq. unfold RadosDictionary.on_cluster.
  destruct (Cluster.io_ctx_create _ _) as [[[r nio]|] [cl w1]]; cbn [fst snd]; [|by intros []]. rewrite bind_eq, dict_modify_run.
  cbn [fst snd]. set (d1 := RadosDictionary.set_shared _ _ _).
  assert (rd_cfg d1 = Some (cfg, PrivateCtx)) as Hc1 by done.
  assert (RadosDictionary.ctx_of PrivateCtx d1 = Some io) as Hio1 by done.
  assert (rd_private_created d1 = true) as Hp1 by done.
  assert (rd_namespace_mgr d1 = rd_namespace_mgr d) as Hn1 by done. clearbody d1.
  unfold RadosDictionary.load_configuration. rewrite abind_eq, bind_eq, dict_get_run. cbn [fst snd].
  rewrite Hc1, aret_run. cbn [fst snd]. rewrite bind_eq, dict_get_run. cbn [fst snd]. rewrite Hc1.
  cbn [from_option fst]. change (PluginConfig.get_public_namespace cfg) with public. rewrite abind_eq.
  set (res := RadosDictionary.lookup_namespace public (d1, w1)).
  assert (is_Some res.1 → ∃ io' cache, res.2.1 = RadosDictionary.put_ctx PrivateCtx (Some io')
            (RadosDictionary.set_namespace_mgr cache d1) ∧
          (user_mapping (rados_cfg cfg) ≠ "true" → io' = io ∧ res.1 = Some (false, public)) ∧
          (user_mapping (rados_cfg cfg) = "true" → default ∅ (rd_namespace_mgr d) !! public = None →
             io' = set_io_ns "" io)) as Hres.
  { intros Hr. destruct (decide (user_mapping (rados_cfg cfg) = "true")) as [Hm|Hm].
    - destruct (default ∅ (rd_namespace_mgr d1) !! public) as [ns|] eqn:Ec.
      + exists io, (Some (default ∅ (rd_namespace_mgr d1))). split; [|split; [done|]].
        * unfold res, RadosDictionary.lookup_namespace. rewrite bind_eq, dict_get_run. cbn [fst snd].
          rewrite abind_eq, (on_mgr_run _ d1 w1 cfg _ Hc1). unfold NamespaceMgr.lookup_key. cbn [nm_config nm_cache].
          rewrite decide_False by done. unfold CephConfig.is_config_valid, CephConfig.is_user_mapping.
          rewrite Hv. destruct (rados_cfg cfg) eqn:Er. cbn in Hm |- *. subst. rewrite bool_decide_eq_true_2 by done.
          cbn. rewrite Ec. cbn. by rewrite <- Hio1.
        * intros _ Hmiss. rewrite <- Hn1 in Hmiss. congruence.
      + pose proof (lookup_namespace_mapped public d1 w1 cfg PrivateCtx io Hne Hc1 Hv Hm Hio1 Ec) as Hl.
        fold res in Hl. destruct res as [? [? ?]]. destruct Hl as (_ & cache & ->).
        by exists (set_io_ns "" io), cache.
    - exists io, (Some (default ∅ (rd_namespace_mgr d1))). unfold res.
      rewrite (lookup_namespace_unmapped public d1 w1 cfg PrivateCtx Hne Hc1 Hv Hm), Hio1. done. }
  clearbody res. destruct res as [[[b ns]|] [d2 w2]]; cbn [fst snd] in *; [|cbn; by intros [? [=]]].
  destruct (Hres ltac:(by eexists)) as (io' & cache & -> & Hoff & Hon). clear Hres.
  unfold RadosDictionary.set_namespace. rewrite bind_eq, dict_get_run. cbn [fst snd RadosDictionary.ctx_of].
  destruct (rd_shared_io_ctx _) as [sio|] eqn:Esio; [|by intros [? [=]]].
  rewrite lift_run, dict_modify_run. cbn. rewrite bind_eq, dict_get_run. cbn.
  intros _. split; [|split].
  - unfold RadosDictionary.get_private_io_ctx. rewrite bind_eq, dict_get_run. cbn. rewrite Hp1. reflexivity.
  - intros Hm. destruct (Hoff Hm) as [-> [= _ ->]]. done.
  - intros Hm Hmiss. by rewrite (Hon Hm Hmiss).
Qed.

(** A dictionary in a cluster whose configuration maps users. *)
Definition mapped_cfg : RadosDovecotCephCfgImpl :=
  PluginConfig.set_rados (JsonConfig.set_valid true (JsonConfig.set_user_mapping "true" JsonConfig.new))
    (PluginConfig.set_config_valid true PluginConfig.new).
Definition private_dict : RadosDictionaryImpl :=
  mk_dictionary (mk_cluster true 1 true) "mail_dictionaries" "t1" "oid" "oid" None false
    "oid" (Some (mk_ioctx "mail_dictionaries" "guid-t1")) true [] (Some (mapped_cfg, PrivateCtx)) None "rbox_cfg".

Lemma dict_shared_access_moves_private_witness :
  let s := RadosDictionary.get_shared_io_ctx (private_dict, MemDv.empty) in
  rd_private_io_ctx s.2.1 = Some (mk_ioctx "mail_dictionaries" "").
Proof.
  intros s.
  pose proof (dict_shared_access_moves_private private_dict mapped_cfg
    (mk_ioctx "mail_dictionaries" "guid-t1") MemDv.empty eq_refl eq_refl eq_refl eq_refl) as Hd.
  premise Hd; [vm_compute; reflexivity|]. premise Hd; [vm_compute; discriminate|].
  fold s in Hd. assert (is_Some s.1) as Hs by (vm_compute; by eexists).
  destruct s as [r [d' w']]. cbn [fst snd] in *. by apply Hd.
Defined.
