(* ===== verification/DictRados.v ===== *)
(** The dictionary that Dovecot uses: dict-rados/dict-rados.cpp. Lookups,
    transactions and iterations over the entries of a user's private object and
    of the shared one. *)
From S2P Require Export RadosDictionary.
From Stdlib Require Import Ascii.
Local Open Scope rmb_scope.

(** [rados_commit_ret]. *)
Definition RADOS_COMMIT_RET_OK : Z := 1.
Definition RADOS_COMMIT_RET_NOTFOUND : Z := 0.
Definition RADOS_COMMIT_RET_FAILED : Z := -1.

(** What the uri of a dictionary names. *)
Record dict_uri := mk_uri {
  du_oid : string;
  du_poolname : string;
  du_clustername : string;
  du_rados_username : string;
  du_ceph_cfg : string;
}.

Record dict_lookup_result := mk_lookup_result { lr_ret : Z; lr_value : option string }.

(** [rados_dict], and what was handed to lookup callbacks so far. *)
Record rados_dict := mk_dict {
  dt_d : RadosDictionaryImpl;
  dt_answers : list (Z * dict_lookup_result);
  dt_next_id : Z;                            (** the address of the next completion *)
}.

(** [rados_dict_transaction_context]. *)
Record rados_dict_transaction_context := mk_tx {
  tx_changed : bool;
  tx_atomic_inc_not_found : bool;
  tx_set_map : gmap string string;
  tx_unset_set : gset string;
  tx_atomic_inc_map : gmap string Z;
  tx_dirty_private : bool;
  tx_locked_private : bool;
  tx_dirty_shared : bool;
  tx_locked_shared : bool;
}.

(** [kv_map]: what is left from [map_iter] on, in the map's order. *)
Record kv_map := mk_kv { kv_rval : Z; kv_key : string; kv_items : list (string * string) }.
Record dict_iterate_flags := mk_flags {
  if_recurse : bool;
  if_exact_key : bool;
  if_no_value : bool;
  if_unsupported : bool;                     (** sorting or asynchronous *)
}.
(** [rados_dict_iterate_context]: what is left from [results_iter] on. *)
Record rados_dict_iterate_context := mk_iter {
  it_flags : dict_iterate_flags;
  it_failed : bool;
  it_results : list kv_map;
}.
Inductive iterate_result :=
| ItFound (key : string) (value : option string)
| ItEnd
| ItUndefined                                (** the iterator is past the end *)
| ItMoreFuel.

Module Uri.
Definition defaults : dict_uri := mk_uri "" "mail_dictionaries" "ceph" "client.admin" "rbox_cfg".
Definition explode (str : string) (sep : Ascii.ascii) : list string := getline_split sep str.

(** One property; [None]: [substr] throws; [Some None]: the uri is invalid. *)
Definition property (it : string) (u : dict_uri) : option (option dict_uri) :=
    if String.prefix "oid=" it then
      Some (Some (mk_uri (str_drop 4 it) (du_poolname u) (du_clustername u) (du_rados_username u) (du_ceph_cfg u)))
    else if String.prefix "pool=" it then
      Some (Some (mk_uri (du_oid u) (str_drop 5 it) (du_clustername u) (du_rados_username u) (du_ceph_cfg u)))
    else if String.prefix "dict_cluster_name=" it then
      Some (Some (mk_uri (du_oid u) (du_poolname u) (str_drop 18 it) (du_rados_username u) (du_ceph_cfg u)))
    else if String.prefix "dict_user_name=" it then
      if decide (16 <= slen it)%nat then
        Some (Some (mk_uri (du_oid u) (du_poolname u) (du_clustername u) (str_drop 16 it) (du_ceph_cfg u)))
      else None
    else if String.prefix "dict_cfg_object_name=" it then
      Some (Some (mk_uri (du_oid u) (du_poolname u) (du_clustername u) (du_rados_username u) (str_drop 21 it)))
    else Some None.
Fixpoint properties (props : list string) (u : dict_uri) : option (option dict_uri) :=
    match props with
    | [] => Some (Some u)
    | it :: props =>
        match property it u with
        | Some (Some u) => properties props u
        | r => r
        end
    end.
Definition parse (uri : option string) : option (option dict_uri) :=
    match uri with
    | Some uri => properties (explode uri ":"%char) defaults
    | None => Some (Some defaults)
    end.
End Uri.

Module Tx.
Definition new : rados_dict_transaction_context := mk_tx false false ∅ ∅ ∅ false false false false.
Definition set_dirty (private : bool) (t : rados_dict_transaction_context) : rados_dict_transaction_context :=
    mk_tx (tx_changed t) (tx_atomic_inc_not_found t) (tx_set_map t) (tx_unset_set t) (tx_atomic_inc_map t)
      (private || tx_dirty_private t) (tx_locked_private t) (negb private || tx_dirty_shared t) (tx_locked_shared t).
Definition set_changed (t : rados_dict_transaction_context) : rados_dict_transaction_context :=
    mk_tx true (tx_atomic_inc_not_found t) (tx_set_map t) (tx_unset_set t) (tx_atomic_inc_map t)
      (tx_dirty_private t) (tx_locked_private t) (tx_dirty_shared t) (tx_locked_shared t).
Definition set_maps (s : gmap string string) (u : gset string) (i : gmap string Z)
      (t : rados_dict_transaction_context) : rados_dict_transaction_context :=
    mk_tx (tx_changed t) (tx_atomic_inc_not_found t) s u i
      (tx_dirty_private t) (tx_locked_private t) (tx_dirty_shared t) (tx_locked_shared t).

(** [is_private]: marks the path as dirty; [None]: the key is in neither path. *)
Definition is_private (key : string) (t : rados_dict_transaction_context) :
      option bool * rados_dict_transaction_context :=
    if RadosDictionary.is_private_key key then (Some true, set_dirty true t)
    else if RadosDictionary.is_shared_key key then (Some false, set_dirty false t)
    else (None, t).
Definition set_locked (key : string) (t : rados_dict_transaction_context) : rados_dict_transaction_context :=
    let shared := RadosDictionary.is_shared_key key in
    let private := negb shared && RadosDictionary.is_private_key key in
    mk_tx (tx_changed t) (tx_atomic_inc_not_found t) (tx_set_map t) (tx_unset_set t) (tx_atomic_inc_map t)
      (tx_dirty_private t) (private || tx_locked_private t) (tx_dirty_shared t) (shared || tx_locked_shared t).
Definition is_locked (key : string) (t : rados_dict_transaction_context) : option bool :=
    if RadosDictionary.is_shared_key key then Some (tx_locked_shared t)
    else if RadosDictionary.is_private_key key then Some (tx_locked_private t)
    else None.
Definition ENORESULT : Z := 1000.
Definition get_result (result : Z) : Z :=
    if decide (result < 0 ∧ result ≠ - ENORESULT) then RADOS_COMMIT_RET_FAILED else RADOS_COMMIT_RET_OK.

Definition add_set_item (key value : string) (t : rados_dict_transaction_context) : rados_dict_transaction_context :=
    set_maps (<[key := value]> (tx_set_map t)) (tx_unset_set t ∖ {[key]}) (tx_atomic_inc_map t) t.
Definition add_unset_item (key : string) (t : rados_dict_transaction_context) : rados_dict_transaction_context :=
    set_maps (tx_set_map t) ({[key]} ∪ tx_unset_set t) (tx_atomic_inc_map t) t.
Definition add_atomic_inc_item (key : string) (diff : Z) (t : rados_dict_transaction_context) :
      rados_dict_transaction_context :=
    let diff := match tx_atomic_inc_map t !! key with Some n => int64 (diff + n) | None => diff end in
    set_maps (tx_set_map t) (tx_unset_set t) (<[key := diff]> (tx_atomic_inc_map t)) t.

Definition rados_dict_set (key value : string) (t : rados_dict_transaction_context) : rados_dict_transaction_context :=
    add_set_item key value (set_changed t).
Definition rados_dict_unset (key : string) (t : rados_dict_transaction_context) : rados_dict_transaction_context :=
    add_unset_item key (set_changed t).
Definition rados_dict_atomic_inc (key : string) (diff : Z) (t : rados_dict_transaction_context) :
      rados_dict_transaction_context :=
    add_atomic_inc_item key diff t.
End Tx.

Module DictRados.
Section ops.
Context `{Jansson} `{Librados W} `{RadosAdmin W} `{Dovecot W}.

(** [dict_escape_string] of Dovecot. *)
Variable dict_escape_string : string → string.

(** The answer of [rados_dict_init]: the new dictionary, or an error. *)
Definition rados_dict_init (uri : option string) (set_username : string) :
      ST (RadosClusterImpl * W) (option (option rados_dict)) :=
    match Uri.parse uri with
    | None => abort
    | Some None => aret None
    | Some (Some u) =>
        let username := if decide (is_Some (str_find "/" set_username))
                        then dict_escape_string set_username else set_username in
        ret ← Cluster.init [] (Some (du_rados_username u, du_clustername u));
        if decide (ret < 0) then aret None else
        c ← on_fst st_get;
        aret (Some (mk_dict (RadosDictionary.new c (du_poolname u) username (du_oid u) (du_ceph_cfg u)) [] 0))
    end.

  Abbreviation M := (ST (rados_dict * W)).
Definition get : M rados_dict := on_fst st_get.
Definition on_d {A} (m : ST (RadosDictionaryImpl * W) A) : M A :=
    λ '(t, w), let '(a, (d, w)) := m (dt_d t, w) in (a, (mk_dict d (dt_answers t) (dt_next_id t), w)).

(** ** Lookups *)

(** [rados_lookup_complete_callback]. *)
Definition lookup_result (lc : rados_dict_lookup_context) : dict_lookup_result :=
    if decide (lc_ret lc = 0) then
      match lc_result_map lc !! lc_key lc with
      | Some v => mk_lookup_result RADOS_COMMIT_RET_OK (Some (c_str v))
      | None => mk_lookup_result RADOS_COMMIT_RET_NOTFOUND None
      end
    else if decide (lc_ret lc = - ENOENT) then mk_lookup_result RADOS_COMMIT_RET_NOTFOUND None
    else mk_lookup_result RADOS_COMMIT_RET_FAILED None.
Definition rados_lookup_complete_callback (lc : rados_dict_lookup_context) : list (Z * dict_lookup_result) :=
    if lc_callback lc then [(lc_context lc, lookup_result lc)] else [].

Definition add_answers (l : list (Z * dict_lookup_result)) (t : rados_dict) : rados_dict :=
    mk_dict (dt_d t) (dt_answers t ++ l) (dt_next_id t).

(** Every completion that is still in the queue; a round of the wait removes one
    at least. *)
Definition wait_pure (t : rados_dict) : option rados_dict :=
    '(l, d) ← RadosDictionary.wait_for_completions (length (rd_completions (dt_d t))) (dt_d t);
    Some (mk_dict d (dt_answers t ++ concat (rados_lookup_complete_callback ∘ ac_lookup <$> l)) (dt_next_id t)).
Definition rados_dict_wait : M (option unit) :=
    λ '(t, w), match wait_pure t with
               | Some t => (Some tt, (t, w))
               | None => (None, (t, w))
               end.

Definition push_completion (lc : rados_dict_lookup_context) (t : rados_dict) : rados_dict :=
    mk_dict (RadosDictionary.push_back_completion (mk_completion (dt_next_id t) lc) (dt_d t)) (dt_answers t)
      (dt_next_id t + 1).

(** The result of the read is fixed when it is submitted; the callback runs when
    the dictionary waits. *)
Definition rados_dict_lookup_async (key : string) (callback : bool) (context : Z) : M (option unit) :=
    t ← get;
    '((err, val), outs) ←! on_d (RadosDictionary.with_ctx (RadosDictionary.get_io_ctx key)
      (λ io, io_aio_operate_read io (RadosDictionary.get_full_oid key (dt_d t)) [RdOmapByKeys {[key]}]));
    if decide (err < 0) then
      (if callback
       then on_fst (st_modify (add_answers [(context, mk_lookup_result RADOS_COMMIT_RET_FAILED None)]))
       else mret tt) ;;
      aret tt
    else
      on_fst (st_modify (push_completion (mk_lookup key context callback (from_option snd ∅ (head outs)) val))) ;;
      aret tt.

(** The code and [*value_r]. *)
Definition rados_dict_lookup (key : string) : M (option (Z * option string)) :=
    t ← get;
    '(err, result_map) ←! on_d (RadosDictionary.with_ctx (RadosDictionary.get_io_ctx key)
      (λ io, io_omap_get_vals_by_keys io (RadosDictionary.get_full_oid key (dt_d t)) {[key]}));
    if decide (err = 0) then
      match (result_map : attrs) !! key with
      | Some v => aret (RADOS_COMMIT_RET_OK, Some (c_str v))
      | None => aret (RADOS_COMMIT_RET_NOTFOUND, None)
      end
    else if decide (err < 0 ∧ err ≠ - ENOENT) then aret (RADOS_COMMIT_RET_FAILED, None)
    else aret (RADOS_COMMIT_RET_NOTFOUND, None).

Definition rados_dict_deinit : M (option unit) :=
    _ ←! rados_dict_wait;
    lift (on_d (RadosDictionary.on_cluster Cluster.deinit)).

(** ** Transactions *)

  Abbreviation T := (ST (rados_dict_transaction_context * (RadosDictionaryImpl * W))).

Definition is_private (key : string) : T (option bool) := on_fst (Tx.is_private key).

(** One request on the object and the context of its path; the result is only
    logged. *)
Definition deploy_item (key : string) (f : ioctx → string → ST W Z) : T (option unit) :=
    private ←! is_private key;
    d ← on_snd RadosDictionary.get;
    let oid := if (private : bool) then RadosDictionary.get_private_oid d else RadosDictionary.get_shared_oid d in
    _ ←! on_snd (RadosDictionary.with_ctx
           (if private then RadosDictionary.get_private_io_ctx else RadosDictionary.get_shared_io_ctx)
           (λ io, f io oid));
    aret tt.
Fixpoint deploy_items {A} (key : A → string) (f : A → ioctx → string → ST W Z) (l : list A) : T (option unit) :=
    match l with
    | [] => aret tt
    | x :: l => _ ←! deploy_item (key x) (f x); deploy_items key f l
    end.

Definition deploy_set_map : T (option unit) :=
    t ← on_fst st_get;
    _ ←! deploy_items fst (λ kv io oid, io_omap_set io oid {[kv.1 := kv.2]}) (map_items (tx_set_map t));
    lift (on_fst (st_modify (λ t, Tx.set_maps ∅ (tx_unset_set t) (tx_atomic_inc_map t) t))).
Definition deploy_atomic_inc_map : T (option unit) :=
    t ← on_fst st_get;
    _ ←! deploy_items fst (λ kv io oid, Extended.osd_add io oid kv.1 kv.2)
           (if tx_atomic_inc_not_found t then [] else map_items (tx_atomic_inc_map t));
    lift (on_fst (st_modify (λ t, Tx.set_maps (tx_set_map t) (tx_unset_set t) ∅ t))).
Definition deploy_unset_set : T (option unit) :=
    t ← on_fst st_get;
    _ ←! deploy_items id (λ key io oid, io_omap_rm_keys io oid {[key]}) (set_items (tx_unset_set t));
    lift (on_fst (st_modify (λ t, Tx.set_maps (tx_set_map t) ∅ (tx_atomic_inc_map t) t))).

(** The code the callback is given. *)
Definition rados_dict_transaction_commit : T (option Z) :=
    _ ←! deploy_set_map;
    _ ←! deploy_atomic_inc_map;
    _ ←! deploy_unset_set;
    t ← on_fst st_get;
    aret (if tx_atomic_inc_not_found t then RADOS_COMMIT_RET_NOTFOUND else RADOS_COMMIT_RET_OK).

(** ** Iteration *)

(** The parts of a query for a set of paths: one for all of them if the keys are
    exact, otherwise one for each; and the results it fills. *)
Definition query (flags : dict_iterate_flags) (keys : gset string) : list read_op :=
    if if_exact_key flags then [RdOmapByKeys keys] else RdOmapPrefix <$> set_items keys.
Definition query_keys (flags : dict_iterate_flags) (keys : gset string) : list string :=
    if if_exact_key flags then [""] else set_items keys.
Definition query_results (keys : list string) (outs : list (Z * attrs)) : list kv_map :=
    zip_with (λ k out, mk_kv out.1 k (map_items out.2)) keys outs.

Definition run_query (flags : dict_iterate_flags) (keys : gset string)
      (ctx : ST (RadosDictionaryImpl * W) (option (option ioctx))) (oid : string) :
      ST (RadosDictionaryImpl * W) (option ((Z * Z) * list kv_map)) :=
    '(codes, outs) ←! RadosDictionary.with_ctx ctx (λ io, io_aio_operate_read io oid (query flags keys));
    aret (codes, query_results (query_keys flags keys) outs).

(** [paths] are the keys up to the null pointer. *)
Definition rados_dict_iterate_init (paths : list string) (flags : dict_iterate_flags) :
      ST (RadosDictionaryImpl * W) (option rados_dict_iterate_context) :=
    if if_unsupported flags then abort else
    let shared_keys : gset string := list_to_set (List.filter RadosDictionary.is_shared_key paths) in
    let private_keys : gset string := list_to_set
      (List.filter (λ key, negb (RadosDictionary.is_shared_key key) && RadosDictionary.is_private_key key) paths) in
    if decide (private_keys = ∅ ∧ shared_keys = ∅) then aret (mk_iter flags true []) else
    d ← RadosDictionary.get;
    '((err_p, val_p), results_p) ←!
      (if decide (private_keys = ∅) then aret ((0, 0), [])
       else run_query flags private_keys RadosDictionary.get_private_io_ctx (RadosDictionary.get_private_oid d));
    if decide (err_p < 0) then aret (mk_iter flags true results_p) else
    '((err_s, val_s), results_s) ←!
      (if decide (shared_keys = ∅) then aret ((0, 0), [])
       else run_query flags shared_keys RadosDictionary.get_shared_io_ctx (RadosDictionary.get_shared_oid d));
    let results := results_p ++ results_s in
    let failed := bool_decide (err_s < 0) || bool_decide (val_p < 0) || bool_decide (val_s < 0)
                  || existsb (λ r, bool_decide (kv_rval r < 0)) results in
    aret (mk_iter flags failed results).
End ops.

(** The loop over exhausted results; [None]: there is no further one. *)
Fixpoint skip_exhausted (results : list kv_map) : option (list kv_map) :=
    match results with
    | [] => None
    | kv :: rest =>
        match kv_items kv with
        | [] => skip_exhausted rest
        | _ => Some results
        end
    end.

(** Is an entry shown? *)
Definition matches (flags : dict_iterate_flags) (path key : string) : bool :=
    if_recurse flags || if_exact_key flags || negb (bool_decide (is_Some (str_find_from "/" key (slen path)))).

(** [rados_dict_iterate] calls itself for an entry that is not shown. *)
Fixpoint rados_dict_iterate (fuel : nat) (iter : rados_dict_iterate_context) :
      iterate_result * rados_dict_iterate_context :=
    if it_failed iter then (ItEnd, iter) else
    match it_results iter with
    | [] => (ItUndefined, iter)
    | _ =>
        match skip_exhausted (it_results iter) with
        | None => (ItEnd, mk_iter (it_flags iter) false [])
        | Some results =>
            match results with
            | mk_kv rval path ((key, value) :: items) :: rest =>
                let iter' := mk_iter (it_flags iter) false (mk_kv rval path items :: rest) in
                if matches (it_flags iter) path key then
                  (ItFound (c_str key) (if if_no_value (it_flags iter) then None else Some (c_str value)), iter')
                else match fuel with
                     | O => (ItMoreFuel, iter)
                     | S fuel => rados_dict_iterate fuel iter'
                     end
            | _ => (ItUndefined, iter)
            end
        end
    end.
Definition rados_dict_iterate_deinit (iter : rados_dict_iterate_context) : Z := if it_failed iter then -1 else 0.

(** Dovecot's loop: the entries of at most [n] calls, and whether the last one
    said that there are no more. *)
Fixpoint iterate_all (n fuel : nat) (iter : rados_dict_iterate_context) : list (string * option string) * bool :=
    match n with
    | O => ([], false)
    | S n =>
        match rados_dict_iterate fuel iter with
        | (ItFound k v, iter) => let '(l, e) := iterate_all n fuel iter in ((k, v) :: l, e)
        | (ItEnd, _) => ([], true)
        | _ => ([], false)
        end
    end.
End DictRados.

(** ** Lemmas: lookups *)

(** What an operation of the dictionary leaves alone. *)
Definition keeps {D S A V} (f : D → V) (m : ST (D * S) A) : Prop := ∀ s, f (m s).2.1 = f s.1.

Section keeps.
Context {D S V : Type} (f : D → V).

Lemma keeps_ret {A} (a : A) : keeps (S:=S) f (mret a).
Proof. done. Qed.
Lemma keeps_bind {A B} (m : ST (D * S) A) (k : A → ST (D * S) B) :
    keeps f m → (∀ a, keeps f (k a)) → keeps f (m ≫= k).
Proof. intros Hm Hk s. rewrite bind_eq, Hk. apply Hm. Qed.
Lemma keeps_abind {A B} (m : ST (D * S) (option A)) (k : A → ST (D * S) (option B)) :
    keeps f m → (∀ a, keeps f (k a)) → keeps f (abind m k).
Proof. intros Hm Hk. apply keeps_bind; [done|]. intros [a|]; [apply Hk|apply keeps_ret]. Qed.
Lemma keeps_fmap {A B} (g : A → B) (m : ST (D * S) A) : keeps f m → keeps f (g <$> m).
Proof. intros Hm s. rewrite fmap_eq. apply Hm. Qed.
Lemma keeps_modify (g : D → D) : (∀ d, f (g d) = f d) → keeps (S:=S) f (on_fst (st_modify g)).
Proof. intros Hg [d s]. cbn. apply Hg. Qed.
Lemma keeps_world {A} (m : ST S A) : keeps f (on_snd m).
Proof. intros [d s]. by rewrite on_snd_run. Qed.
Lemma keeps_get : keeps (S:=S) f (on_fst st_get).
Proof. by intros [d s]. Qed.
End keeps.

Create HintDb keeps.
#[export] Hint Resolve keeps_ret keeps_bind keeps_abind keeps_fmap keeps_modify keeps_world keeps_get : keeps.

Section completions.
Context `{Jansson} `{Librados W} `{RadosAdmin W} `{Dovecot W}.
Import RadosDictionary.
  Abbreviation kc := (keeps rd_completions).

Lemma put_ctx_completions p io d : rd_completions (put_ctx p io d) = rd_completions d.
Proof. by destruct p. Qed.

Lemma on_cluster_keeps {A} (m : ST (RadosClusterImpl * W) A) : kc (on_cluster m).
Proof. intros [d w]. unfold on_cluster. by destruct (m _) as [? [? ?]]. Qed.
Lemma on_rados_cfg_keeps {A} (m : ST (RadosCephConfig * W) A) : kc (on_rados_cfg m).
Proof.
    intros [d w]. unfold on_rados_cfg. destruct (rd_cfg d) as [[cfg p]|]; [|done].
    destruct (ctx_of p d); [|done]. destruct (m _) as [? [? ?]]. cbn. by rewrite put_ctx_completions.
Qed.
Lemma on_namespace_mgr_keeps {A} (m : ST (RadosNamespaceManager * W) A) : kc (on_namespace_mgr m).
Proof.
    intros [d w]. unfold on_namespace_mgr. destruct (rd_cfg d) as [[cfg p]|]; [|done].
    destruct (m _) as [? [? ?]]. cbn. by rewrite put_ctx_completions.
Qed.
Lemma set_namespace_keeps p ns : kc (set_namespace (W:=W) p ns).
Proof.
    apply keeps_bind; [apply keeps_get|]. intros d. destruct (ctx_of p d); [|apply keeps_ret].
    apply keeps_fmap, keeps_modify. intros. by rewrite put_ctx_completions.
Qed.
#[local] Hint Resolve on_cluster_keeps on_rados_cfg_keeps on_namespace_mgr_keeps set_namespace_keeps : keeps.
#[local] Hint Extern 1 (kc (modify _)) => (apply keeps_modify; intros; repeat case_match; done) : keeps.
#[local] Hint Extern 1 (kc get) => apply keeps_get : keeps.
#[local] Hint Extern 1 (kc (world _)) => apply keeps_world : keeps.
#[local] Hint Extern 1 (kc (aret _)) => apply keeps_ret : keeps.
#[local] Hint Extern 1 (kc abort) => apply keeps_ret : keeps.
#[local] Hint Extern 1 (kc (lift _)) => apply keeps_fmap : keeps.
Ltac keeps_auto := repeat first [progress eauto with keeps nocore | apply keeps_abind | apply keeps_bind
    | progress intros | case_match | case_decide].

Lemma load_configuration_keeps p : kc (load_configuration (W:=W) p).
Proof. unfold load_configuration. keeps_auto. Qed.
Lemma lookup_namespace_keeps uid : kc (lookup_namespace (W:=W) uid).
Proof. unfold lookup_namespace. keeps_auto. Qed.
#[local] Hint Resolve load_configuration_keeps lookup_namespace_keeps : keeps.
Lemma get_io_ctx_keeps key : kc (get_io_ctx (W:=W) key).
Proof. unfold get_io_ctx, get_private_io_ctx, get_shared_io_ctx. keeps_auto. Qed.
Lemma with_ctx_keeps {A} m (f : ioctx → ST W A) : kc m → kc (with_ctx m f).
Proof. intros. unfold with_ctx. keeps_auto. Qed.
End completions.

(** *** The queue of completions *)

Definition pending_ids (t : rados_dict) : list Z := ac_id <$> rd_completions (dt_d t).
(** The completions are distinct objects, older than the next one. *)
Definition queue_ok (t : rados_dict) : Prop :=
  NoDup (pending_ids t) ∧ Forall (λ i, i < dt_next_id t) (pending_ids t).
(** The callbacks that are still to run. *)
Definition pending_contexts (t : rados_dict) : list Z :=
  (concat (DictRados.rados_lookup_complete_callback ∘ ac_lookup <$> rd_completions (dt_d t))).*1.

Lemma remove_head c l :
  NoDup (ac_id <$> c :: l) → List.filter (λ c', negb (bool_decide (ac_id c' = ac_id c))) (c :: l) = l.
Proof.
  cbn. rewrite bool_decide_eq_true_2 by done. cbn. intros Hnd. apply list.NoDup_cons in Hnd as [Hc _].
  induction l as [|c' l IH]; [done|]. cbn in Hc |- *.
  rewrite bool_decide_eq_false_2; [cbn; f_equal; apply IH|]; set_solver.
Qed.

(** The wait takes one round for each completion, in the order of submission. *)
Lemma wait_runs d :
  NoDup (ac_id <$> rd_completions d) →
  RadosDictionary.wait_for_completions (length (rd_completions d)) d =
    Some (rd_completions d, RadosDictionary.set_completions [] d).
Proof.
  remember (rd_completions d) as l eqn:E. revert d E. induction l as [|c l IH]; intros d E Hnd.
  - cbn. rewrite <- E. destruct d. cbn in *. by subst.
  - cbn [RadosDictionary.wait_for_completions length]. rewrite <- E.
    rewrite (IH (RadosDictionary.remove_completion c d)); [by destruct d| |].
    + cbn. rewrite <- E. symmetry. by apply remove_head.
    + by apply list.NoDup_cons in Hnd as [_ ?].
Qed.

(** Lookups submitted one after the other, each with a callback. *)
Fixpoint submit_lookups `{Jansson} `{Librados W} `{RadosAdmin W} `{Dovecot W} (l : list (string * Z)) :
    ST (rados_dict * W) (option unit) :=
  match l with
  | [] => aret tt
  | (key, ctx) :: l => _ ←! DictRados.rados_dict_lookup_async key true ctx; submit_lookups l
  end.

Section answers.
Context `{Jansson} `{Librados W} `{RadosAdmin W} `{Dovecot W}.

(** The contexts whose callbacks ran or will run. *)
Definition all_contexts (t : rados_dict) : list Z := (dt_answers t).*1 ++ pending_contexts t.

Lemma lookup_async_once key ctx t (w : W) :
    queue_ok t →
    let '(r, (t', _)) := DictRados.rados_dict_lookup_async key true ctx (t, w) in
    queue_ok t' ∧ (is_Some r → all_contexts t' ≡ₚ ctx :: all_contexts t).
Proof.
    intros Hq. unfold DictRados.rados_dict_lookup_async. rewrite bind_eq. cbn [DictRados.get on_fst st_get fst snd].
    rewrite abind_eq. unfold DictRados.on_d.
    match goal with |- context [RadosDictionary.with_ctx ?m ?f (dt_d t, w)] =>
      pose proof (with_ctx_keeps m f (get_io_ctx_keeps key) (dt_d t, w)) as Hk;
      destruct (RadosDictionary.with_ctx m f (dt_d t, w)) as [r [d w']] end.
    cbn [fst snd] in *. set (t1 := mk_dict d (dt_answers t) (dt_next_id t)).
    assert (queue_ok t1) as Hq1 by (unfold queue_ok, pending_ids, t1; cbn; by rewrite Hk).
    assert (all_contexts t1 = all_contexts t) as Ea by (unfold all_contexts, pending_contexts, t1; cbn; by rewrite Hk).
    rewrite <- Ea. clearbody t1. clear Hk Ea Hq d.
    destruct r as [[[err val] outs]|]; [|split; [done|by intros [? [=]]]].
    case_decide; rewrite bind_eq; cbn; (split; [|intros _]).
    - exact Hq1.
    - unfold all_contexts, pending_contexts, DictRados.add_answers. cbn. rewrite fmap_app. cbn.
      by rewrite <- (Permutation_cons_append (dt_answers t1).*1).
    - destruct Hq1 as [Hnd Hlt]. unfold queue_ok, pending_ids, DictRados.push_completion. cbn.
      rewrite fmap_app. cbn. fold (pending_ids t1). split.
      + apply list.NoDup_app. split; [done|]. split; [|apply list.NoDup_singleton].
        intros i Hi ->%list_elem_of_singleton. pose proof (proj1 (list.Forall_forall _ _) Hlt _ Hi). cbn in *. lia.
      + apply list.Forall_app. split; [|apply list.Forall_singleton; lia].
        eapply list.Forall_impl; [exact Hlt|]. intros; cbn in *; lia.
    - unfold all_contexts, pending_contexts, DictRados.push_completion. cbn.
      rewrite fmap_app, concat_app, fmap_app. cbn. rewrite app_assoc.
      by rewrite <- Permutation_cons_append.
Qed.

Lemma submit_lookups_once l t (w : W) :
    queue_ok t →
    let '(r, (t', _)) := submit_lookups l (t, w) in
    queue_ok t' ∧ (is_Some r → all_contexts t' ≡ₚ l.*2 ++ all_contexts t).
Proof.
    revert t w. induction l as [|[key ctx] l IH]; intros t w Hq; [by split|].
    cbn [submit_lookups]. rewrite abind_eq. pose proof (lookup_async_once key ctx t w Hq) as Hl.
    destruct (DictRados.rados_dict_lookup_async key true ctx (t, w)) as [[[]|] [t1 w1]]; cbn [fst snd];
      destruct Hl as [Hq1 Hl]; [|split; [done|by intros [? [=]]]].
    specialize (IH t1 w1 Hq1). destruct (submit_lookups l (t1, w1)) as [r [t2 w2]].
    destruct IH as [Hq2 IH]. split; [done|]. intros Hr. rewrite (IH Hr), (Hl ltac:(by eexists)). cbn.
    by rewrite Permutation_middle.
Qed.
End answers.

(** ** Properties *)

(** C20. Every lookup is answered: after any number of asynchronous lookups, whose
    submission or completion may fail, the wait ends after one round for each
    lookup in the queue, leaves no lookup behind, and the callback of every
    lookup ran exactly once, counting those that ran before. *)
Theorem dict_lookups_answered `{Jansson} `{Librados W} `{RadosAdmin W} `{Dovecot W}
    (l : list (string * Z)) (t : rados_dict) (w : W) :
  queue_ok t →
  let '(r, (t1, w1)) := submit_lookups l (t, w) in
  is_Some r →
  ∃ t2, DictRados.rados_dict_wait (t1, w1) = (Some tt, (t2, w1)) ∧
    rd_completions (dt_d t2) = [] ∧ queue_ok t2 ∧
    (dt_answers t2).*1 ≡ₚ l.*2 ++ (dt_answers t).*1 ++ pending_contexts t.
Proof.
  intros Hq. pose proof (submit_lookups_once l t w Hq) as Hs.
  destruct (submit_lookups l (t, w)) as [r [t1 w1]]. destruct Hs as [[Hnd Hlt] Hs]. intros Hr.
  unfold DictRados.rados_dict_wait, DictRados.wait_pure. rewrite wait_runs by done. cbn.
  eexists. split; [reflexivity|]. cbn. split; [done|]. split.
  - split; constructor.
  - rewrite fmap_app. exact (Hs Hr).
Qed.

Definition empty_dict : rados_dict := mk_dict private_dict [] 0.

Lemma dict_lookups_answered_witness :
  let '(r, (t1, w1)) := submit_lookups [("priv/a", 1); ("priv/b", 2)] (empty_dict, MemDv.empty) in
  is_Some r ∧ ∃ t2, DictRados.rados_dict_wait (t1, w1) = (Some tt, (t2, w1)) ∧ (dt_answers t2).*1 ≡ₚ [1; 2].
Proof.
  pose proof (dict_lookups_answered [("priv/a", 1); ("priv/b", 2)] empty_dict MemDv.empty) as Hd.
  premise Hd; [split; constructor|].
  assert (is_Some (submit_lookups [("priv/a", 1); ("priv/b", 2)] (empty_dict, MemDv.empty)).1) as Hs
    by (vm_compute; by eexists).
  destruct (submit_lookups _ _) as [r [t1 w1]]. cbn [fst] in Hs. split; [done|].
  destruct (Hd Hs) as (t2 & E & _ & _ & Hp). by exists t2.
Defined.
