(* ===== verification/DictSpec.v ===== *)
(** What a dictionary promises, and that dict-rados.cpp implements it: an
    abstract dictionary is a partial map from keys to values, a transaction is a
    list of requests that is applied in order, and an iteration enumerates the
    entries below its paths. *)
From S2P Require Export DictRados.
From Stdlib Require Import Ascii.
Local Open Scope rmb_scope.

(** ** The abstract dictionary *)

Abbreviation dictionary := (string → option string).

Inductive dict_request :=
| ReqSet (key value : string)
| ReqUnset (key : string)
| ReqInc (key : string) (diff : Z).

Definition req_key (r : dict_request) : string :=
  match r with ReqSet k _ => k | ReqUnset k => k | ReqInc k _ => k end.
Definition valid_key (key : string) : bool :=
  RadosDictionary.is_private_key key || RadosDictionary.is_shared_key key.

(** Adding to a counter: a missing one starts at the number added, and a value
    that is no number is left alone. *)
Definition spec_inc (n : Z) (v : option string) : option string :=
  match v with
  | None => Some (to_string n)
  | Some old => match stol old with ParseOk x => Some (to_string (x + n)) | _ => Some old end
  end.

Definition update (key : string) (u : option string → option string) (v : dictionary) : dictionary :=
  λ k, if decide (k = key) then u (v k) else v k.
Definition spec_step (v : dictionary) (r : dict_request) : dictionary :=
  match r with
  | ReqSet k x => update k (λ _, Some x) v
  | ReqUnset k => update k (λ _, None) v
  | ReqInc k n => update k (spec_inc n) v
  end.
Definition spec_run (rs : list dict_request) (v : dictionary) : dictionary := foldl spec_step v rs.

(** ** The transaction of the code *)

Definition tx_step (t : rados_dict_transaction_context) (r : dict_request) : rados_dict_transaction_context :=
  match r with
  | ReqSet k x => Tx.rados_dict_set k x t
  | ReqUnset k => Tx.rados_dict_unset k t
  | ReqInc k n => Tx.rados_dict_atomic_inc k n t
  end.

(** What a commit makes of a dictionary. *)
Definition commit_view (t : rados_dict_transaction_context) (v : dictionary) : dictionary := λ k,
  if decide (k ∈ tx_unset_set t) then None else
  let v1 := match tx_set_map t !! k with Some x => Some x | None => v k end in
  match tx_atomic_inc_map t !! k with Some n => spec_inc n v1 | None => v1 end.

Definition in_long (z : Z) : Prop := - 2 ^ 63 <= z <= 2 ^ 63 - 1.
#[export] Instance in_long_dec z : Decision (in_long z).
Proof. unfold in_long. apply _. Defined.

(** The order of requests that a transaction keeps: a key is not set after it was
    incremented, and not incremented after it was unset; sums stay in range. *)
Definition req_ok (t : rados_dict_transaction_context) (v : dictionary) (r : dict_request) : Prop :=
  valid_key (req_key r) = true ∧
  match r with
  | ReqSet k _ => tx_atomic_inc_map t !! k = None
  | ReqUnset _ => True
  | ReqInc k n =>
      k ∉ tx_unset_set t ∧ in_long (n + default 0 (tx_atomic_inc_map t !! k)) ∧
      (tx_atomic_inc_map t !! k = None ∨ (stol <$> v k) ≠ Some ParseRange)
  end.
Fixpoint requests_ok (t : rados_dict_transaction_context) (v : dictionary) (rs : list dict_request) : Prop :=
  match rs with
  | [] => True
  | r :: rs => req_ok t v r ∧ requests_ok (tx_step t r) (spec_step v r) rs
  end.

#[export] Instance parse_result_eq_dec : EqDecision parse_result.
Proof. solve_decision. Defined.
#[export] Instance req_ok_dec t v r : Decision (req_ok t v r).
Proof. unfold req_ok. destruct r; apply _. Defined.
#[export] Instance requests_ok_dec t v rs : Decision (requests_ok t v rs).
Proof. revert t v. induction rs; intros; cbn; apply _. Defined.

Lemma stol_to_string z : in_long z → stol (to_string z) = ParseOk z.
Proof. intros. by apply stoX_to_string. Qed.
Lemma stol_to_string_range z : stol (to_string z) ≠ ParseRange → in_long z.
Proof.
  unfold stol, stoX, in_long. rewrite parse_signed_to_string.
  destruct (_ && _) eqn:E; [|done]. apply andb_true_iff in E as [?%Z.leb_le ?%Z.leb_le]. lia.
Qed.

(** Two increments are one of the sum. *)
Lemma spec_inc_inc n n1 v :
  (stol <$> spec_inc n1 v) ≠ Some ParseRange → spec_inc n (spec_inc n1 v) = spec_inc (n + n1) v.
Proof.
  assert (∀ y, stol (to_string y) ≠ ParseRange → spec_inc n (Some (to_string y)) = Some (to_string (y + n))) as Hy.
  { intros y Hy. cbn. by rewrite stol_to_string by by apply stol_to_string_range. }
  destruct v as [old|]; cbn [spec_inc fmap option_fmap option_map].
  - destruct (stol old) as [x| |] eqn:E; cbn [fmap option_fmap option_map]; intros Hr.
    + etransitivity; [apply (Hy (x + n1)); congruence|]. do 2 f_equal. lia.
    + cbn. by rewrite E.
    + cbn. by rewrite E.
  - intros Hr. etransitivity; [apply (Hy n1); congruence|]. do 2 f_equal. lia.
Qed.

(** One request. *)
Lemma commit_view_step t v0 r :
  req_ok t (commit_view t v0) r → ∀ k, commit_view (tx_step t r) v0 k = spec_step (commit_view t v0) r k.
Proof.
  intros [_ Hok] k. destruct r as [k' x|k'|k' n]; cbn in Hok |- *; unfold update, commit_view; cbn.
  - destruct (decide (k = k')) as [->|Hne].
    + rewrite decide_False by set_solver. by rewrite lookup_insert_eq, Hok.
    + rewrite lookup_insert_ne by done. repeat case_decide; [done|set_solver..|done].
  - destruct (decide (k = k')) as [->|Hne]; [by rewrite decide_True by set_solver|].
    repeat case_decide; [done|set_solver..|done].
  - destruct Hok as (Hu & Hl & Hs). destruct (decide (k = k')) as [->|Hne].
    + rewrite !decide_False by done. rewrite lookup_insert_eq.
      unfold commit_view in Hs. rewrite decide_False in Hs by done.
      destruct (tx_atomic_inc_map t !! k') as [n1|]; [|done]. destruct Hs as [?|Hs]; [done|].
      rewrite spec_inc_inc by done. f_equal. apply wrap_s_small; [lia|]. unfold in_long in Hl. cbn in Hl. lia.
    + by rewrite lookup_insert_ne.
Qed.

Lemma update_ext k u v v' : (∀ k, v k = v' k) → ∀ k', update k u v k' = update k u v' k'.
Proof. intros E k'. unfold update. by rewrite E. Qed.
Lemma spec_step_ext r v v' : (∀ k, v k = v' k) → ∀ k, spec_step v r k = spec_step v' r k.
Proof. intros E. destruct r; by apply update_ext. Qed.
Lemma spec_run_ext rs v v' : (∀ k, v k = v' k) → ∀ k, spec_run rs v k = spec_run rs v' k.
Proof.
  revert v v'. induction rs as [|r rs IH]; intros v v' E; [done|]. cbn. by apply IH, spec_step_ext.
Qed.
Lemma req_ok_ext t v v' r : (∀ k, v k = v' k) → req_ok t v r → req_ok t v' r.
Proof. intros E. destruct r; unfold req_ok; cbn; by rewrite ?E. Qed.
Lemma requests_ok_ext t v v' rs : (∀ k, v k = v' k) → requests_ok t v rs → requests_ok t v' rs.
Proof.
  revert t v v'. induction rs as [|r rs IH]; intros t v v' E; [done|]. cbn. intros [Hr Hrs].
  split; [by eapply req_ok_ext|]. eapply IH; [|exact Hrs]. by apply spec_step_ext.
Qed.

(** All requests: the transaction's tables commit to what the requests do one
    after the other. *)
Lemma commit_view_run rs t v0 :
  requests_ok t (commit_view t v0) rs →
  ∀ k, commit_view (foldl tx_step t rs) v0 k = spec_run rs (commit_view t v0) k.
Proof.
  revert t. induction rs as [|r rs IH]; intros t Hok k; [done|]. destruct Hok as [Hr Hrs]. cbn.
  pose proof (commit_view_step t v0 r Hr) as Hs. rewrite IH.
  - by apply spec_run_ext.
  - eapply requests_ok_ext; [|exact Hrs]. intros k'. by rewrite Hs.
Qed.

(** ** The entries of a dictionary in the cluster *)

(** The object of a key, and the value of the key in it. *)
Definition dict_okey (d : RadosDictionaryImpl) (key : string) : option okey :=
  if RadosDictionary.is_private_key key
  then io ← rd_private_io_ctx d; Some (io, rd_private_oid d)
  else io ← rd_shared_io_ctx d; Some (io, rd_shared_oid d).
Definition omap_at (m : store) (o : okey) : dictionary := λ k, ob ← m !! o; ob_omap ob !! k.
Definition dict_view (d : RadosDictionaryImpl) (m : store) : dictionary := λ k,
  o ← dict_okey d k; omap_at m o k.

(** Both contexts are in use. *)
Definition contexts_open (d : RadosDictionaryImpl) : Prop :=
  rd_private_created d = true ∧ is_Some (rd_private_io_ctx d) ∧
  rd_shared_created d = true ∧ is_Some (rd_shared_io_ctx d).

(** A write operation that only touches one omap entry. *)
Definition local_op (key : string) (op : write_op) (u : option string → option string) : Prop :=
  ∀ now m (o : option robject),
    let v : dictionary := λ k, ob ← o; ob_omap ob !! k in
    match apply_op now m o op with
    | Some o' => ∃ ob', o' = Some ob' ∧ ∀ k, ob_omap ob' !! k = update key u v k
    | None => u (v key) = v key
    end.

Lemma omap_set_local key x : local_op key (OpOmapSet {[key := x]}) (λ _, Some x).
Proof.
  intros now m o v. cbn. eexists. split; [done|]. intros k. cbn. unfold update, v. case_decide as E.
  - subst. rewrite <- insert_union_singleton_l. by rewrite lookup_insert_eq.
  - rewrite <- insert_union_singleton_l. rewrite lookup_insert_ne by done. by destruct o; cbn; rewrite ?lookup_empty.
Qed.
Lemma exec_add_local key n : local_op key (OpExecAdd key n) (spec_inc n).
Proof.
  intros now m o v. cbn. unfold update, v.
  destruct o as [ob|]; cbn; [|rewrite lookup_empty].
  - destruct (ob_omap ob !! key) as [old|] eqn:E; cbn.
    + destruct (stol old) as [x| |] eqn:Es; [|done..]. eexists. split; [done|]. intros k. cbn.
      case_decide; [subst|by rewrite lookup_insert_ne]. rewrite lookup_insert_eq, E. cbn. by rewrite Es.
    + eexists. split; [done|]. intros k. cbn.
      case_decide; [subst|by rewrite lookup_insert_ne]. by rewrite lookup_insert_eq, E.
  - eexists. split; [done|]. intros k. cbn.
    case_decide; [subst; by rewrite lookup_insert_eq|by rewrite lookup_insert_ne].
Qed.
Lemma omap_rm_local key : local_op key (OpOmapRmKeys {[key]}) (λ _, None).
Proof.
  intros now m o v. cbn. unfold update, v. destruct o as [ob|]; cbn; [|done].
  eexists. split; [done|]. intros k. cbn. case_decide as E.
  - subst. apply map_lookup_filter_None. right. intros x _. cbn. set_solver.
  - apply option_eq. intros x. rewrite map_lookup_filter_Some. cbn. set_solver.
Qed.

Section commit.
Context `{Jansson} `{CalmWorld W} `{RadosAdmin W} `{Dovecot W}.

Lemma calm_local io oid key op u (w : W) :
    calm w → local_op key op u →
    let w' := (io_operate io oid [op] w).2 in
    calm w' ∧ ∀ o k, omap_at (objs w') o k =
      if decide (o = (io, oid)) then update key u (omap_at (objs w) o) k else omap_at (objs w) o k.
Proof.
    intros Hw Hl w'. split.
    { pose proof (calm_operate io oid [op] w Hw) as Hc. unfold w'. destruct (io_operate _ _ _ w). apply Hc. }
    destruct (calm_effect io oid [op] w Hw) as [now E]. fold w' in E. rewrite E. clear E w'.
    intros o k. unfold apply_ops. cbn [apply_obj].
    specialize (Hl now (objs w) (touch now <$> objs w !! (io, oid))). cbv zeta in Hl.
    assert (∀ k, (ob ← touch now <$> objs w !! (io, oid); ob_omap ob !! k) = omap_at (objs w) (io, oid) k) as Ev.
    { intros k'. unfold omap_at. by destruct (objs w !! (io, oid)). }
    destruct (apply_op now _ _ op) as [o'|]; cbn [mbind option_bind default].
    - destruct Hl as (ob' & -> & Hob). cbn. unfold omap_at at 1. case_decide as Eo.
      + subst. rewrite lookup_insert_eq. cbn. rewrite Hob. unfold update. by rewrite Ev.
      + by rewrite lookup_insert_ne.
    - cbn. case_decide; [|done]. subst. unfold update. case_decide; [|done]. subst.
      rewrite Ev in Hl. by rewrite Hl.
Qed.

Lemma view_update d key io oid op u (w : W) :
    calm w → local_op key op u → dict_okey d key = Some (io, oid) →
    let w' := (io_operate io oid [op] w).2 in
    calm w' ∧ ∀ k, dict_view d (objs w') k = update key u (dict_view d (objs w)) k.
Proof.
    intros Hw Hl Hk w'. destruct (calm_local io oid key op u w Hw Hl) as [Hw' Ho]. split; [done|].
    intros k. unfold dict_view, update. fold w' in Ho. destruct (decide (k = key)) as [->|Hne].
    - rewrite Hk. cbn. rewrite Ho, decide_True by done. unfold update. by rewrite decide_True.
    - destruct (dict_okey d k) as [o|]; [|done]. cbn. rewrite Ho. case_decide; [|done].
      unfold update. by rewrite decide_False.
Qed.

Lemma private_ctx_run d (w : W) :
    rd_private_created d = true →
    RadosDictionary.get_private_io_ctx (d, w) = (Some (rd_private_io_ctx d), (d, w)).
Proof.
    intros E. unfold RadosDictionary.get_private_io_ctx. rewrite bind_eq, dict_get_run. cbn. by rewrite E.
Qed.
Lemma shared_ctx_run d (w : W) :
    rd_shared_created d = true →
    RadosDictionary.get_shared_io_ctx (d, w) = (Some (rd_shared_io_ctx d), (d, w)).
Proof.
    intros E. unfold RadosDictionary.get_shared_io_ctx. rewrite bind_eq, dict_get_run. cbn. by rewrite E.
Qed.

(** A request to a dictionary whose contexts are open goes to the object of its key. *)
Lemma deploy_item_run key f t d (w : W) :
    valid_key key = true → contexts_open d →
    ∃ io oid, dict_okey d key = Some (io, oid) ∧
      DictRados.deploy_item key f (t, (d, w)) =
        (Some tt, (Tx.set_dirty (RadosDictionary.is_private_key key) t, (d, (f io oid w).2))).
Proof.
    intros Hk (Hp & [pio Hpio] & Hs & [sio Hsio]). unfold valid_key in Hk. unfold dict_okey.
    unfold DictRados.deploy_item, DictRados.is_private. rewrite abind_eq, on_fst_run. unfold Tx.is_private.
    destruct (RadosDictionary.is_private_key key) eqn:Ep; cbn [orb] in Hk.
    - rewrite Hpio. cbn [mbind option_bind]. exists pio, (rd_private_oid d). split; [done|]. cbn [fst snd].
      rewrite bind_eq, on_snd_run, dict_get_run. cbn [fst snd]. rewrite abind_eq, on_snd_run. cbn [fst snd].
      unfold RadosDictionary.with_ctx. rewrite abind_eq, private_ctx_run by done. cbn [fst snd]. rewrite Hpio.
      rewrite lift_run, dict_world_run. cbn. done.
    - rewrite Hk. rewrite Hsio. cbn [mbind option_bind]. exists sio, (rd_shared_oid d). split; [done|]. cbn [fst snd].
      rewrite bind_eq, on_snd_run, dict_get_run. cbn [fst snd]. rewrite abind_eq, on_snd_run. cbn [fst snd].
      unfold RadosDictionary.with_ctx. rewrite abind_eq, shared_ctx_run by done. cbn [fst snd]. rewrite Hsio.
      rewrite lift_run, dict_world_run. cbn. done.
Qed.

(** The tables of a transaction, which marking paths as dirty leaves alone. *)
Definition same_tables (t t' : rados_dict_transaction_context) : Prop :=
    tx_set_map t' = tx_set_map t ∧ tx_unset_set t' = tx_unset_set t ∧
    tx_atomic_inc_map t' = tx_atomic_inc_map t ∧ tx_atomic_inc_not_found t' = tx_atomic_inc_not_found t.

(** Requests on distinct keys, one after the other. *)
Lemma deploy_items_run {A} (key : A → string) (op : A → write_op) (u : A → option string → option string) l t d (w : W) :
    contexts_open d → calm w → NoDup (key <$> l) →
    (∀ x, x ∈ l → valid_key (key x) = true ∧ local_op (key x) (op x) (u x)) →
    ∃ t' w', DictRados.deploy_items key (λ x io oid, io_operate io oid [op x]) l (t, (d, w)) = (Some tt, (t', (d, w'))) ∧
      calm w' ∧ same_tables t t' ∧
      (∀ x, x ∈ l → dict_view d (objs w') (key x) = u x (dict_view d (objs w) (key x))) ∧
      (∀ k, k ∉ key <$> l → dict_view d (objs w') k = dict_view d (objs w) k).
Proof.
    intros Ho. revert t w. induction l as [|x l IH]; intros t w Hw Hnd Hl.
    { exists t, w. repeat (split; [done|]). split; [|done]. intros x Hx. set_solver. }
    apply list.NoDup_cons in Hnd as [Hx Hnd]. cbn [DictRados.deploy_items]. rewrite abind_eq.
    destruct (Hl x ltac:(left)) as [Hkx Hlx].
    destruct (deploy_item_run (key x) (λ io oid, io_operate io oid [op x]) t d w Hkx Ho) as (io & oid & Hok & ->).
    cbn [fst snd]. destruct (view_update d (key x) io oid (op x) (u x) w Hw Hlx Hok) as [Hw1 Hv].
    destruct (IH (Tx.set_dirty (RadosDictionary.is_private_key (key x)) t) _ Hw1 Hnd) as (t' & w' & -> & Hw' & Ht & Hin & Hout).
    { intros y Hy. apply Hl. by right. }
    exists t', w'. split; [done|]. split; [done|]. split; [done|]. split.
    - intros y [->|Hy]%elem_of_cons.
      + rewrite Hout by done. rewrite Hv. unfold update. by rewrite decide_True.
      + rewrite (Hin y Hy), Hv. unfold update. rewrite decide_False; [done|].
        intros E. apply Hx. rewrite <- E. by apply list_elem_of_fmap_2.
    - intros k Hk. cbn in Hk. rewrite Hout, Hv by set_solver. unfold update. rewrite decide_False; [done|]. set_solver.
Qed.
End commit.

(** ** The commit *)

(** Only keys of the two paths. *)
Definition keys_ok (t : rados_dict_transaction_context) : Prop :=
  (∀ k x, tx_set_map t !! k = Some x → valid_key k = true) ∧
  (∀ k, k ∈ tx_unset_set t → valid_key k = true) ∧
  (∀ k n, tx_atomic_inc_map t !! k = Some n → valid_key k = true) ∧
  tx_atomic_inc_not_found t = false.

Lemma keys_ok_step t r : valid_key (req_key r) = true → keys_ok t → keys_ok (tx_step t r).
Proof.
  intros Hr (Hs & Hu & Hi & Hn). destruct r as [k x|k|k n]; cbn in *; (split; [|split; [|split; [|done]]]); cbn.
  - intros k' x' [[<- _]|[_ ?]]%lookup_insert_Some; [done|by eapply Hs].
  - intros k' ?. apply Hu. set_solver.
  - exact Hi.
  - exact Hs.
  - intros k' [->%elem_of_singleton|?]%elem_of_union; [done|by apply Hu].
  - exact Hi.
  - exact Hs.
  - exact Hu.
  - intros k' n' [[<- _]|[_ ?]]%lookup_insert_Some; [done|by eapply Hi].
Qed.
Lemma keys_ok_run t v rs : requests_ok t v rs → keys_ok t → keys_ok (foldl tx_step t rs).
Proof.
  revert t v. induction rs as [|r rs IH]; intros t v Hok Ht; [done|]. destruct Hok as [[Hk _] Hrs].
  cbn. eapply IH; [exact Hrs|]. by apply keys_ok_step.
Qed.

Section commit_run.
Context `{Jansson} `{CalmWorld W} `{RadosAdmin W} `{Dovecot W}.

(** Deploying a table. *)
Lemma deploy_map_run {V} (m : gmap string V) (op : string → V → write_op) (u : V → option string → option string)
      t d (w : W) :
    contexts_open d → calm w → (∀ k x, m !! k = Some x → valid_key k = true) →
    (∀ k x, local_op k (op k x) (u x)) →
    ∃ t' w', DictRados.deploy_items fst (λ kv io oid, io_operate io oid [op kv.1 kv.2]) (map_items m) (t, (d, w)) =
        (Some tt, (t', (d, w'))) ∧ calm w' ∧ same_tables t t' ∧
      ∀ k, dict_view d (objs w') k =
        match m !! k with Some x => u x (dict_view d (objs w) k) | None => dict_view d (objs w) k end.
Proof.
    intros Ho Hw Hm Hl.
    destruct (deploy_items_run fst (λ kv, op kv.1 kv.2) (λ kv, u kv.2) (map_items m) t d w Ho Hw)
      as (t' & w' & E & Hw' & Ht & Hin & Hout).
    { apply NoDup_map_items. }
    { intros [k x] Hx%elem_of_map_items. cbn. split; [by eapply Hm|apply Hl]. }
    exists t', w'. repeat (split; [done|]). intros k. destruct (m !! k) as [x|] eqn:Ek.
    - by apply (Hin (k, x)), elem_of_map_items.
    - apply Hout. intros ([k' x] & -> & Hx%elem_of_map_items)%list_elem_of_fmap. cbn in Ek. congruence.
Qed.

Lemma commit_run t d (w : W) :
    contexts_open d → calm w → keys_ok t →
    ∃ t' w', DictRados.rados_dict_transaction_commit (t, (d, w)) = (Some RADOS_COMMIT_RET_OK, (t', (d, w'))) ∧
      calm w' ∧ ∀ k, dict_view d (objs w') k = commit_view t (dict_view d (objs w)) k.
Proof.
    intros Ho Hw (Hs & Hu & Hi & Hn). unfold DictRados.rados_dict_transaction_commit.
    destruct (deploy_map_run (tx_set_map t) (λ k x, OpOmapSet {[k := x]}) (λ x _, Some x) t d w Ho Hw Hs
      (λ k x, omap_set_local k x)) as (t1 & w1 & E1 & Hw1 & (_ & Eu1 & Ei1 & En1) & V1).
    set (t1' := Tx.set_maps ∅ (tx_unset_set t1) (tx_atomic_inc_map t1) t1).
    assert (DictRados.deploy_set_map (t, (d, w)) = (Some tt, (t1', (d, w1)))) as E1'.
    { unfold DictRados.deploy_set_map. rewrite bind_eq, on_fst_run. cbn [st_get fst snd].
      rewrite (abind_run _ _ _ _ _ E1). by rewrite lift_run, on_fst_run. }
    rewrite (abind_run _ _ _ _ _ E1'). clear E1 E1'.
    destruct (deploy_map_run (tx_atomic_inc_map t) OpExecAdd spec_inc t1' d w1 Ho Hw1 Hi exec_add_local)
      as (t2 & w2 & E2 & Hw2 & (_ & Eu2 & _ & En2) & V2).
    set (t2' := Tx.set_maps (tx_set_map t2) (tx_unset_set t2) ∅ t2).
    assert (DictRados.deploy_atomic_inc_map (t1', (d, w1)) = (Some tt, (t2', (d, w2)))) as E2'.
    { unfold DictRados.deploy_atomic_inc_map. rewrite bind_eq, on_fst_run. cbn [st_get fst snd].
      assert (tx_atomic_inc_not_found t1' = false) as -> by (cbn; congruence).
      assert (tx_atomic_inc_map t1' = tx_atomic_inc_map t) as -> by (cbn; congruence).
      rewrite (abind_run _ _ _ _ _ E2). by rewrite lift_run, on_fst_run. }
    rewrite (abind_run _ _ _ _ _ E2'). clear E2 E2'.
    assert (tx_unset_set t2' = tx_unset_set t) as Eu by (cbn; rewrite Eu2; cbn; congruence).
    destruct (deploy_items_run id (λ k, OpOmapRmKeys {[k]}) (λ _ _, None) (set_items (tx_unset_set t)) t2' d w2 Ho Hw2)
      as (t3 & w3 & E3 & Hw3 & (_ & _ & _ & En3) & Hin & Hout).
    { rewrite list_fmap_id. unfold set_items. rewrite merge_sort_Permutation. apply NoDup_elements. }
    { intros k Hk%elem_of_set_items. split; [by apply Hu|apply omap_rm_local]. }
    assert (DictRados.deploy_unset_set (t2', (d, w2)) =
      (Some tt, (Tx.set_maps (tx_set_map t3) ∅ (tx_atomic_inc_map t3) t3, (d, w3)))) as E3'.
    { unfold DictRados.deploy_unset_set. rewrite bind_eq, on_fst_run. cbn [st_get fst snd]. rewrite Eu.
      rewrite (abind_run _ _ _ _ _ E3). by rewrite lift_run, on_fst_run. }
    rewrite (abind_run _ _ _ _ _ E3'), bind_eq, on_fst_run. cbn [fst snd st_get tx_atomic_inc_not_found Tx.set_maps].
    rewrite En3. cbn. rewrite En2. cbn. rewrite En1, Hn. do 2 eexists. split; [reflexivity|]. split; [done|].
    intros k. unfold commit_view. rewrite list_fmap_id in Hout. case_decide as Hk.
    - apply (Hin k). by apply elem_of_set_items.
    - rewrite Hout by (by rewrite elem_of_set_items). rewrite V2, V1. done.
Qed.
End commit_run.

(** ** Properties *)

(** C18. A transaction on a dictionary in use implements the abstract one: in a
    cluster without failures, and for requests in the order the transaction
    keeps, the commit answers OK and every key of the dictionary, in the private
    and in the shared object, has the value that the requests give it one after
    the other. *)
Theorem dict_commit_refines `{Jansson} `{CalmWorld W} `{RadosAdmin W} `{Dovecot W}
    (rs : list dict_request) (d : RadosDictionaryImpl) (w : W) :
  contexts_open d → calm w → requests_ok Tx.new (dict_view d (objs w)) rs →
  ∃ t' w', DictRados.rados_dict_transaction_commit (foldl tx_step Tx.new rs, (d, w)) =
      (Some RADOS_COMMIT_RET_OK, (t', (d, w'))) ∧ calm w' ∧
    ∀ k, dict_view d (objs w') k = spec_run rs (dict_view d (objs w)) k.
Proof.
  intros Ho Hw Hrs.
  assert (∀ k, commit_view Tx.new (dict_view d (objs w)) k = dict_view d (objs w) k) as E0.
  { intros k. unfold commit_view. cbn. by rewrite !lookup_empty. }
  assert (keys_ok Tx.new) as Hk0 by (split; [|split; [|split]]; cbn; intros *; rewrite ?lookup_empty; done || set_solver).
  destruct (commit_run (foldl tx_step Tx.new rs) d w Ho Hw) as (t' & w' & E & Hw' & V).
  { by eapply keys_ok_run. }
  exists t', w'. split; [done|]. split; [done|]. intros k. rewrite V, commit_view_run.
  - by apply spec_run_ext.
  - eapply requests_ok_ext; [|exact Hrs]. intros. by rewrite E0.
Qed.

(** The dictionary of a user, with both contexts in use. *)
Definition open_dict : RadosDictionaryImpl :=
  mk_dictionary (mk_cluster true 1 true) "mail_dictionaries" "t1" "oid"
    "oid" (Some (mk_ioctx "mail_dictionaries" "public")) true
    "oid" (Some (mk_ioctx "mail_dictionaries" "guid-t1")) true [] (Some (mapped_cfg, PrivateCtx)) None "rbox_cfg".

Lemma dict_commit_refines_witness :
  let rs := [ReqSet "priv/quota" "5"; ReqInc "priv/quota" 2; ReqSet "shared/a" "x"; ReqUnset "shared/a"] in
  ∃ w', (DictRados.rados_dict_transaction_commit (foldl tx_step Tx.new rs, (open_dict, MemDv.empty))).2.2.2 = w' ∧
    dict_view open_dict (objs w') "priv/quota" = Some "7" ∧ dict_view open_dict (objs w') "shared/a" = None.
Proof.
  intros rs. eexists. split; [reflexivity|].
  destruct (dict_commit_refines rs open_dict MemDv.empty) as (t' & w' & E & _ & V).
  - split; [done|]. split; [by eexists|]. split; [done|by eexists].
  - done.
  - apply (bool_decide_unpack _). vm_compute. exact I.
  - rewrite E. cbn [fst snd]. rewrite !V. split; vm_compute; reflexivity.
Defined.

(** ** Iteration *)

Abbreviation entry_list := (list (string * string)).

(** The entries that are left, those shown of them, and how they are shown. *)
Definition total (results : list kv_map) : nat := list_sum ((λ kv, length (kv_items kv)) <$> results).
Definition visible (flags : dict_iterate_flags) (path : string) (l : entry_list) : entry_list :=
  filter (λ e, DictRados.matches flags path e.1 = true) l.
Definition left_entries (flags : dict_iterate_flags) (results : list kv_map) : entry_list :=
  concat ((λ kv, visible flags (kv_key kv) (kv_items kv)) <$> results).
Definition shown (flags : dict_iterate_flags) (e : string * string) : string * option string :=
  (c_str e.1, if if_no_value flags then None else Some (c_str e.2)).

Lemma skip_exhausted_spec flags results :
  match DictRados.skip_exhausted results with
  | None => left_entries flags results = []
  | Some [] => False
  | Some (kv :: rest) => ∃ e items, kv_items kv = e :: items ∧
      left_entries flags results = left_entries flags (kv :: rest) ∧ total results = total (kv :: rest)
  end.
Proof.
  induction results as [|kv rest IH]; [done|]. cbn [DictRados.skip_exhausted].
  destruct (kv_items kv) as [|e items] eqn:E; [|by exists e, items].
  assert (left_entries flags (kv :: rest) = left_entries flags rest) as El.
  { unfold left_entries. cbn. by rewrite E. }
  assert (total (kv :: rest) = total rest) as Et by (unfold total; cbn; by rewrite E).
  rewrite El, Et. exact IH.
Qed.

(** One call, given fuel for every entry that is left: the next entry that is
    shown, or the end. *)
Lemma iterate_step fuel flags results :
  results ≠ [] → (total results <= fuel)%nat →
  match left_entries flags results with
  | [] => (DictRados.rados_dict_iterate fuel (mk_iter flags false results)).1 = ItEnd
  | e :: es => ∃ results',
      DictRados.rados_dict_iterate fuel (mk_iter flags false results) =
        (ItFound (shown flags e).1 (shown flags e).2, mk_iter flags false results') ∧
      results' ≠ [] ∧ left_entries flags results' = es ∧ (total results' < total results)%nat
  end.
Proof.
  revert results. induction fuel as [|fuel IH]; intros results Hne Hf.
  all: pose proof (skip_exhausted_spec flags results) as Hs.
  all: destruct results as [|kv0 rest0]; [done|]; cbn [DictRados.rados_dict_iterate it_failed it_results it_flags].
  all: destruct (DictRados.skip_exhausted (kv0 :: rest0)) as [[|[rval path items] rest]|]; [done| |by rewrite Hs].
  all: destruct Hs as ([k v] & items' & Ei & El & Et); cbn [kv_items] in Ei; subst items; rewrite El, Et in *.
  all: assert (total (mk_kv rval path ((k, v) :: items') :: rest) = S (total (mk_kv rval path items' :: rest))) as Es by done.
  { rewrite Es in Hf. lia. }
  assert (left_entries flags (mk_kv rval path ((k, v) :: items') :: rest) =
    (if decide (DictRados.matches flags path k = true) then [(k, v)] else []) ++
      left_entries flags (mk_kv rval path items' :: rest)) as ->.
  { unfold left_entries, visible. cbn. by case_decide. }
  destruct (DictRados.matches flags path k) eqn:Em; cbn [app].
  - rewrite decide_True by done. cbn [app]. eexists. split; [reflexivity|]. split; [done|]. split; [done|]. lia.
  - rewrite decide_False by done. cbn [app]. rewrite Es in Hf |- *.
    specialize (IH (mk_kv rval path items' :: rest) ltac:(done) ltac:(lia)).
    destruct (left_entries flags (mk_kv rval path items' :: rest)) as [|e es]; [done|].
    destruct IH as (results' & -> & ? & ? & ?). exists results'. repeat (split; [done|]). lia.
Qed.

(** All calls: they end, and enumerate what is left. *)
Lemma iterate_all_spec fuel flags n results :
  results ≠ [] → (total results <= fuel)%nat → (total results < n)%nat →
  DictRados.iterate_all n fuel (mk_iter flags false results) = (shown flags <$> left_entries flags results, true).
Proof.
  revert results. induction n as [|n IH]; intros results Hne Hf Hn; [lia|]. cbn [DictRados.iterate_all].
  pose proof (iterate_step fuel flags results Hne Hf) as Hs.
  destruct (left_entries flags results) as [|e es].
  - destruct (DictRados.rados_dict_iterate _ _) as [r it]. cbn in Hs. by subst.
  - destruct Hs as (results' & -> & Hne' & <- & Ht). rewrite IH by (done || lia). done.
Qed.

(** The paths of a query, and the entries that it shows of an object. *)
Definition private_paths (paths : list string) : gset string :=
  list_to_set (List.filter (λ key, negb (RadosDictionary.is_shared_key key) && RadosDictionary.is_private_key key) paths).
Definition shared_paths (paths : list string) : gset string :=
  list_to_set (List.filter RadosDictionary.is_shared_key paths).
Definition path_entries (flags : dict_iterate_flags) (omap : attrs) (path : string) : entry_list :=
  visible flags path (map_items (filter (λ kv, String.prefix path kv.1 = true) omap)).
Definition scope_entries (flags : dict_iterate_flags) (keys : gset string) (omap : attrs) : entry_list :=
  if decide (keys = ∅) then []
  else if if_exact_key flags then map_items (filter (λ kv, kv.1 ∈ keys) omap)
  else concat (path_entries flags omap <$> set_items keys).
(** The entries of the object of a scope. *)
Definition omap_of (m : store) (io : option ioctx) (oid : string) : attrs :=
  from_option ob_omap ∅ (io' ← io; m !! (io', oid)).

Section iterate.
Context `{Jansson} `{LibradosLaws W} `{RadosAdmin W} `{Dovecot W}.

Lemma visible_exact flags path l : if_exact_key flags = true → visible flags path l = l.
Proof.
    intros E. unfold visible. induction l as [|e l IH]; [done|].
    rewrite filter_cons_True; [by rewrite IH|]. unfold DictRados.matches. by rewrite E, orb_true_r.
Qed.

(** The results of a query whose parts succeeded. *)
Lemma query_results_entries flags keys outs ob :
    keys ≠ ∅ →
    Forall2 (λ op out, 0 <= out.1 → out.2 = read_view op ob) (DictRados.query flags keys) outs →
    existsb (λ r, bool_decide (kv_rval r < 0)) (DictRados.query_results (DictRados.query_keys flags keys) outs) = false →
    left_entries flags (DictRados.query_results (DictRados.query_keys flags keys) outs) =
      scope_entries flags keys (ob_omap ob) ∧
    DictRados.query_results (DictRados.query_keys flags keys) outs ≠ [].
Proof.
    intros Hk. unfold DictRados.query, DictRados.query_keys, scope_entries. rewrite decide_False by done.
    destruct (if_exact_key flags) eqn:Ef.
    - intros Hf. inversion_clear Hf as [|? out ? outs' Hout Hnil]. inversion_clear Hnil. destruct out as [r m].
      cbn in Hout |- *. rewrite orb_false_r. case_bool_decide; [done|]. intros _. split; [|done].
      rewrite (Hout ltac:(lia)). unfold left_entries. cbn [fmap list_fmap concat kv_key kv_items].
      rewrite app_nil_r. exact (visible_exact flags "" _ Ef).
    - intros Hf Hex. split.
      + revert outs Hf Hex. generalize (set_items keys). intros l. induction l as [|p l IH]; intros outs Hf Hex;
          destruct outs as [|out outs']; inversion_clear Hf as [|? ? ? ? Hout Hrest]; [done|]. cbn in Hex.
        apply orb_false_iff in Hex as [Hr Hex]. apply bool_decide_eq_false in Hr. cbn [fmap list_fmap concat].
        unfold left_entries in *. cbn. f_equal; [|by apply IH]. by rewrite (Hout ltac:(lia)).
      + assert (set_items keys ≠ []) as Hi.
        { intros E. apply Hk. apply elem_of_equiv_empty_L. intros x Hx%elem_of_set_items. rewrite E in Hx. set_solver. }
        destruct (set_items keys); [done|]. by inversion_clear Hf.
Qed.

(** One query on an open context. *)
Lemma run_query_entries flags keys ctx io oid d (w : W) :
    keys ≠ ∅ → (∀ w, ctx (d, w) = (Some (Some io), (d, w))) →
    let '(r, (d', w')) := DictRados.run_query flags keys ctx oid (d, w) in
    d' = d ∧ objs w' = objs w ∧
    ∃ sub val results, r = Some ((sub, val), results) ∧
      (0 <= sub → 0 <= val → existsb (λ r, bool_decide (kv_rval r < 0)) results = false →
       left_entries flags results = scope_entries flags keys (omap_of (objs w) (Some io) oid) ∧ results ≠ []).
Proof.
    intros Hk Hctx. unfold DictRados.run_query, RadosDictionary.with_ctx. rewrite !abind_eq, Hctx. cbn [fst snd].
    rewrite lift_run, dict_world_run. cbn [fst snd].
    pose proof (aio_operate_read_law io oid (DictRados.query flags keys) w) as Hl.
    destruct (io_aio_operate_read _ _ _ w) as [[[sub val] outs] w']. cbn. destruct Hl as (Ho & Hlen & Hl).
    split; [done|]. split; [done|]. do 3 eexists. split; [reflexivity|]. intros Hs Hv Hex.
    destruct (Hl Hs) as [_ Hr]. destruct (Hr Hv) as (ob & Hob & Hf). unfold omap_of. cbn. rewrite Hob. cbn.
    by apply query_results_entries.
Qed.
End iterate.

(** C19. An iteration is complete and ends: when its queries succeed, calling
    [rados_dict_iterate] until it answers FALSE gives exactly the entries of the
    private object below the private paths and then those of the shared object
    below the shared paths, path by path and in the order of the keys, each with
    its value unless none were asked for; entries in a deeper directory are left
    out unless the iteration is recursive, and exact keys are looked up as they
    are. A call skips at most as many entries as are left. *)
Theorem dict_iterate_complete `{Jansson} `{LibradosLaws W} `{RadosAdmin W} `{Dovecot W}
    paths flags it (d d' : RadosDictionaryImpl) (w w' : W) :
  contexts_open d →
  DictRados.rados_dict_iterate_init paths flags (d, w) = (Some it, (d', w')) → it_failed it = false →
  DictRados.iterate_all (S (total (it_results it))) (total (it_results it)) it =
    (shown flags <$> scope_entries flags (private_paths paths) (omap_of (objs w) (rd_private_io_ctx d) (rd_private_oid d))
                     ++ scope_entries flags (shared_paths paths) (omap_of (objs w) (rd_shared_io_ctx d) (rd_shared_oid d)),
     true) ∧ objs w' = objs w ∧ d' = d.
Proof.
  intros (Hp & [pio Hpio] & Hs & [sio Hsio]). unfold DictRados.rados_dict_iterate_init.
  destruct (if_unsupported flags); [done|]. fold (shared_paths paths). fold (private_paths paths).
  set (pk := private_paths paths). set (sk := shared_paths paths).
  case_decide as Hempty; [intros [= <- _ _]; done|]. rewrite bind_eq, dict_get_run. cbn [fst snd].
  assert (∀ w, RadosDictionary.get_private_io_ctx (d, w) = (Some (Some pio), (d, w))) as Rp.
  { intros. rewrite private_ctx_run by done. by rewrite Hpio. }
  assert (∀ w, RadosDictionary.get_shared_io_ctx (d, w) = (Some (Some sio), (d, w))) as Rs.
  { intros. rewrite shared_ctx_run by done. by rewrite Hsio. }
  rewrite Hpio, Hsio. rewrite abind_eq.
  match goal with |- context [(if decide (pk = ∅) then ?m else ?n) (d, w)] =>
    set (q := (if decide (pk = ∅) then m else n) (d, w)) end.
  assert (∃ err_p val_p results_p w1, q = (Some ((err_p, val_p), results_p), (d, w1)) ∧ objs w1 = objs w ∧
    (0 <= err_p → 0 <= val_p → existsb (λ r, bool_decide (kv_rval r < 0)) results_p = false →
     left_entries flags results_p = scope_entries flags pk (omap_of (objs w) (Some pio) (rd_private_oid d)) ∧
     (pk ≠ ∅ → results_p ≠ []))) as (err_p & val_p & results_p & w1 & Eq & Ho1 & Hq).
  { unfold q. case_decide as Hpk.
    - exists 0, 0, [], w. repeat (split; [done|]). intros. unfold scope_entries. by rewrite decide_True.
    - pose proof (run_query_entries flags pk _ pio (rd_private_oid d) d w Hpk Rp) as Hr.
      destruct (DictRados.run_query _ _ _ _ _) as [r [d1 w1]]. destruct Hr as (-> & Ho & sub & val & results & -> & Hr).
      exists sub, val, results, w1. split; [done|]. split; [done|]. naive_solver. }
  rewrite Eq. cbn [fst snd]. clear Eq q. case_decide as Hep; [intros [= <- _ _]; done|]. rewrite abind_eq.
  match goal with |- context [(if decide (sk = ∅) then ?m else ?n) (d, w1)] =>
    set (q := (if decide (sk = ∅) then m else n) (d, w1)) end.
  assert (∃ err_s val_s results_s w2, q = (Some ((err_s, val_s), results_s), (d, w2)) ∧ objs w2 = objs w ∧
    (0 <= err_s → 0 <= val_s → existsb (λ r, bool_decide (kv_rval r < 0)) results_s = false →
     left_entries flags results_s = scope_entries flags sk (omap_of (objs w) (Some sio) (rd_shared_oid d)) ∧
     (sk ≠ ∅ → results_s ≠ []))) as (err_s & val_s & results_s & w2 & Eq & Ho2 & Hq2).
  { unfold q. case_decide as Hsk.
    - exists 0, 0, [], w1. repeat (split; [done|]). intros. unfold scope_entries. by rewrite decide_True.
    - pose proof (run_query_entries flags sk _ sio (rd_shared_oid d) d w1 Hsk Rs) as Hr.
      destruct (DictRados.run_query _ _ _ _ _) as [r [d1 w2]]. destruct Hr as (-> & Ho & sub & val & results & -> & Hr).
      rewrite Ho1 in *. exists sub, val, results, w2. split; [done|]. split; [done|]. naive_solver. }
  rewrite Eq. cbn [fst snd]. clear Eq q. rewrite aret_run. intros [= <- <- <-]. cbn [it_failed it_results].
  intros Hf. rewrite Hf. repeat apply orb_false_iff in Hf as [Hf ?]. rewrite !bool_decide_eq_false in *.
  rewrite existsb_app in *. match goal with Hx : _ || _ = false |- _ => apply orb_false_iff in Hx as [? ?] end.
  destruct (Hq ltac:(lia) ltac:(lia) ltac:(done)) as [<- Hnp], (Hq2 ltac:(lia) ltac:(lia) ltac:(done)) as [<- Hns].
  split; [|done]. rewrite iterate_all_spec; [| |lia|lia].
  - unfold left_entries. by rewrite fmap_app, concat_app.
  - destruct (decide (pk = ∅)) as [->|Hpk]; [|specialize (Hnp Hpk); by destruct results_p].
    destruct (decide (sk = ∅)) as [->|Hsk]; [tauto|]. specialize (Hns Hsk). by destruct results_p, results_s.
Qed.

(** A dictionary with two quota entries, one of them in a directory. *)
Definition quota_world : MemDovecot :=
  mk_mem_dovecot (mk_mem {[ (mk_ioctx "mail_dictionaries" "guid-t1", "oid") :=
    mk_robject "" ∅ (list_to_map [("priv/quota/a", "1"); ("priv/quota/b/c", "2")]) 0 ]} [] 0)
    (mk_mem_index [] ∅ ∅ 0 [] 0).

Lemma dict_iterate_complete_witness :
  let flags := mk_flags false false false false in
  ∃ it, (DictRados.rados_dict_iterate_init ["priv/quota/"] flags (open_dict, quota_world)).1 = Some it ∧
    DictRados.iterate_all (S (total (it_results it))) (total (it_results it)) it =
      ([("priv/quota/a", Some "1")], true).
Proof.
  intros flags.
  pose proof (λ it d' w', dict_iterate_complete ["priv/quota/"] flags it open_dict d' quota_world w') as Hd.
  assert (∃ it, (DictRados.rados_dict_iterate_init ["priv/quota/"] flags (open_dict, quota_world)).1 = Some it ∧
    it_failed it = false) as (it & Eit & Hf).
  { eexists. split; [vm_compute; reflexivity|reflexivity]. }
  destruct (DictRados.rados_dict_iterate_init _ _ _) as [r [d' w']]. cbn in Eit. subst r.
  exists it. split; [done|]. specialize (Hd it d' w').
  premise Hd; [split; [done|]; split; [by eexists|]; split; [done|by eexists]|].
  destruct (Hd eq_refl Hf) as (-> & _). vm_compute. reflexivity.
Defined.
