(* ===== verification/RboxSync.v ===== *)
(** Synchronising a mailbox with its index: storage-rbox/rbox-sync.cpp. The
    index decides which mails are gone; their objects are removed after the
    changes of the index were committed. *)
From S2P Require Export DovecotIndex AltStorage.

Record expunged_item := mk_item { ei_uid : Z; ei_oid : string; ei_alt_storage : bool }.
(** [rbox_sync_context]: the mails to remove. *)
Record rbox_sync_context := mk_sync { sy_expunged_items : list expunged_item }.

Module RboxSync.
Section ops.
Context `{Jansson} `{Librados W} `{RadosAdmin W} `{Dovecot W}.
  Abbreviation M := (ST (rbox_sync_context * (rbox_storage * W))).
Variable mb : mailbox.

Definition rbox {A} (m : ST (rbox_storage * W) A) : M A := on_snd m.
Definition world {A} (m : ST W A) : M A := on_snd (on_snd m).
Definition ask {A} (f : W → A) : M A := λ s, (f s.2.2, s).
Definition index (a : index_action) : M unit := world (mail_index_do a).
Definition add_item (i : expunged_item) : M unit :=
    on_fst (st_modify (λ c, mk_sync (sy_expunged_items c ++ [i]))).

(** The oid of a record, [None] for [-1]. *)
Definition rbox_get_oid_from_index (seq : Z) (w : W) : option string :=
    r ← mail_index_lookup seq w; snd <$> ir_ext r.

(** The sequence numbers [seq1 .. seq2]. *)
Definition seqs (seq1 seq2 : Z) : list Z := seqZ seq1 (seq2 - seq1 + 1).
Definition alt_of (rec : index_record) : bool :=
    Rbox.is_alternate_storage_set (ir_flags rec) && Rbox.is_alternate_pool_valid mb.

(** One turn of the loop of [rbox_sync_expunge]. *)
Definition expunge_one (seq : Z) : M unit :=
    rec ← ask (mail_index_lookup seq);
    match rec with
    | None => mret tt
    | Some rec =>
        gone ← ask (mail_index_is_expunged seq);
        if (gone : bool) then mret tt else
        index (IxExpunge seq) ;;
        oid ← ask (rbox_get_oid_from_index seq);
        match oid with
        | None => mret tt
        | Some oid => add_item (mk_item (ir_uid rec) oid (alt_of rec))
        end
    end.
Definition rbox_sync_expunge (seq1 seq2 : Z) : M unit := st_iter expunge_one (seqs seq1 seq2).

(** A keyword operation of the metadata module for one mail. *)
Definition keyword_op (alt : bool) (oid key : string) (value : option string) (keyword_idx : Z) :
      M (option Z) :=
    λ '(c, (r, w)),
    match Rbox.storage_ms alt r with
    | None => (None, (c, (r, w)))
    | Some ms =>
        let '(ret, w) :=
          match value with
          | None => ms_remove_keyword_metadata ms oid key w
          | Some v => ms_update_keyword_metadata ms oid (Some (Metadata.of_pair key v)) w
          end in
        (Some ret, (c, (r, w)))
    end.

(** The loop of [update_extended_metadata]; [ret] is the last result. [None]:
    the program aborts. *)
Fixpoint update_extended_loop (keyword_idx : Z) (remove : bool) (l : list Z) (ret : Z) : M (option Z) :=
    match l with
    | [] => mret (Some ret)
    | seq :: l =>
        rec ← ask (mail_index_lookup seq);
        match rec with
        | None => update_extended_loop keyword_idx remove l ret
        | Some rec =>
            opened ← rbox (Rbox.open_mailbox mb (alt_of rec));
            match opened with
            | None => mret None
            | Some opened =>
                if decide (opened < 0) then mret (Some (-1)) else
                oid ← ask (rbox_get_oid_from_index seq);
                match oid with
                | None => update_extended_loop keyword_idx remove l ret
                | Some oid =>
                    let key := to_string keyword_idx in
                    keywords ← ask mail_index_keywords;
                    match keywords, remove with
                    | None, false => update_extended_loop keyword_idx remove l ret
                    | _, _ =>
                        match (if remove then Some None
                               else Some <$> (keywords ≫= λ k, k !! Z.to_nat keyword_idx)) with
                        | None => mret None
                        | Some value =>
                            ret ← keyword_op (alt_of rec) oid key value keyword_idx;
                            match ret with
                            | None => mret None
                            | Some ret => if decide (ret < 0) then mret (Some ret)
                                          else update_extended_loop keyword_idx remove l ret
                            end
                        end
                    end
                end
            end
        end
    end.
Definition update_extended_metadata (seq1 seq2 keyword_idx : Z) (remove : bool) : M (option Z) :=
    update_extended_loop keyword_idx remove (seqs seq1 seq2) 0.

(** The mail of one record goes to the other storage. *)
Definition move_one (oid : string) (inverse : bool) : M (option Z) :=
    λ '(c, (r, w)),
    match Rbox.storage_ms false r with
    | None => (None, (c, (r, w)))
    | Some ms =>
        let '((ret, _), ((s, a), (cl, w))) :=
          AltStorage.move_to_alt true oid ms inverse ((rb_s r, rb_alt r), (rb_cluster r, w)) in
        (ret, (c, (Rbox.set_cluster cl (Rbox.set_alt a (Rbox.set_s s r)), w)))
    end.
Fixpoint move_loop (inverse : bool) (l : list Z) (ret : Z) : M (option Z) :=
    match l with
    | [] => mret (Some ret)
    | seq :: l =>
        oid ← ask (rbox_get_oid_from_index seq);
        match oid with
        | None => move_loop inverse l ret
        | Some oid =>
            ret ← move_one oid inverse;
            match ret with
            | None => mret None
            | Some ret =>
                (if decide (ret >= 0) then
                   index (if inverse then IxRemoveFlags seq Rbox.RBOX_INDEX_FLAG_ALT
                          else IxUpdateFlags seq false Rbox.RBOX_INDEX_FLAG_ALT)
                 else mret tt) ;;
                move_loop inverse l ret
            end
        end
    end.
Definition move_to_alt (seq1 seq2 : Z) (inverse : bool) : M (option Z) :=
    opened ← rbox (Rbox.open_mailbox mb true);
    match opened with
    | None => mret None
    | Some opened => if decide (opened < 0) then mret (Some (-1))
                     else move_loop inverse (seqs seq1 seq2) (-1)
    end.

(** The retries of a removal that timed out. *)
Fixpoint retry_remove (io : ioctx) (oid : string) (n : nat) (ret : Z) : ST W Z :=
    match n with
    | O => mret ret
    | S n =>
        ret ← io_remove io oid;
        if decide (ret >= 0) then mret ret else retry_remove io oid n ret
    end.
Definition max_retry : nat := 10.
Definition remove_object (io : ioctx) (oid : string) : ST W Z :=
    ret ← io_remove io oid;
    if decide (ret = - ETIMEDOUT) then retry_remove io oid max_retry ret else mret ret.

Definition rbox_sync_object_expunge (item : expunged_item) : M (option Z) :=
    opened ← rbox (Rbox.open_mailbox mb (ei_alt_storage item));
    match opened with
    | None => mret None
    | Some opened =>
        if decide (opened < 0) then mret (Some opened) else
        r ← rbox Rbox.get;
        ret ← world (remove_object (st_io_ctx (if ei_alt_storage item then rb_alt r else rb_s r))
                       (ei_oid item));
        index (IxNotifyExpunge (ei_uid item)) ;;
        mret (Some ret)
    end.

(** [None]: the program aborts before the rest of the items. *)
Fixpoint expunge_items (items : list expunged_item) : M (option unit) :=
    match items with
    | [] => mret (Some tt)
    | item :: items =>
        r ← rbox_sync_object_expunge item;
        match r with None => mret None | Some _ => expunge_items items end
    end.
Definition rbox_sync_expunge_rbox_objects : M (option unit) :=
    c ← on_fst st_get;
    r ← expunge_items (sy_expunged_items c);
    match r with None => mret None | Some _ => index (IxNotifyExpunge 0) ;; mret (Some tt) end.

Definition rbox_sync_finish (success : bool) : M (option Z) :=
    if success then
      ret ← world mail_index_sync_commit;
      if decide (ret < 0) then index IxSetError ;; index IxExpungingDeinit ;; mret (Some (-1)) else
      r ← rbox_sync_expunge_rbox_objects;
      match r with None => mret None | Some _ => index IxExpungingDeinit ;; mret (Some 0) end
    else index IxSyncRollback ;; index IxExpungingDeinit ;; mret (Some (-1)).

(** The configuration asks to keep the attribute of stored mails up to date. *)
Definition updates_attribute (k : rbox_metadata_key) (r : rbox_storage) : bool :=
    PluginConfig.is_mail_attribute k (rb_config r) &&
    JsonConfig.is_update_attributes (rados_cfg (rb_config r)) &&
    JsonConfig.is_updateable_attribute k (rados_cfg (rb_config r)).

(** Reads the flags of a mail's object, changes them and writes them back; the
    number is the last result, [ret] when nothing was written. *)
Definition update_flags_of (alt : bool) (oid : string) (add_flags remove_flags ret : Z) :
      M (option Z) :=
    λ '(c, (r, w)),
    match Rbox.storage_ms alt r with
    | None => (None, (c, (r, w)))
    | Some ms =>
        let '((loaded, mail), w) := ms_load_metadata ms (Mail.set_oid oid Mail.new) w in
        match loaded with
        | None => (None, (c, (r, w)))
        | Some loaded =>
            if decide (loaded < 0) then (Some ret, (c, (r, w))) else
            (* a missing attribute is a null pointer that is made a string *)
            match string_to_flags <$> get_metadata_key RBOX_METADATA_OLDV1_FLAGS (rm_attrset mail) with
            | None => (None, (c, (r, w)))
            | Some None => (Some ret, (c, (r, w)))
            | Some (Some flags) =>
                let flags := if decide (add_flags = 0) then flags else Z.lor flags add_flags in
                let flags := if decide (remove_flags = 0) then flags else Z.ldiff flags remove_flags in
                let '(ok, text) := flags_to_string flags "" in
                if (ok : bool) then
                  let '((ret, _), w) := ms_set_metadata ms mail
                    (Metadata.convert_string RBOX_METADATA_OLDV1_FLAGS text) w in
                  (Some ret, (c, (r, w)))
                else (Some ret, (c, (r, w)))
            end
        end
    end.
Fixpoint update_flags_loop (add_flags remove_flags : Z) (l : list Z) (ret : Z) : M (option Z) :=
    match l with
    | [] => mret (Some ret)
    | seq :: l =>
        rec ← ask (mail_index_lookup seq);
        match rec with
        | None => update_flags_loop add_flags remove_flags l ret
        | Some rec =>
            opened ← rbox (Rbox.open_mailbox mb (alt_of rec));
            match opened with
            | None => mret None
            | Some opened =>
                if decide (opened < 0) then mret (Some (-1)) else
                oid ← ask (rbox_get_oid_from_index seq);
                match oid with
                | None => update_flags_loop add_flags remove_flags l ret
                | Some oid =>
                    ret ← update_flags_of (alt_of rec) oid add_flags remove_flags ret;
                    match ret with
                    | None => mret None
                    | Some ret => update_flags_loop add_flags remove_flags l ret
                    end
                end
            end
        end
    end.
Definition update_flags (seq1 seq2 add_flags remove_flags : Z) : M (option Z) :=
    update_flags_loop add_flags remove_flags (seqs seq1 seq2) 0.

(** One record of the index log whose mails are in the view; [Some (-1)] ends
    the synchronisation with an error, [Some 1] goes on. *)
Definition continue_unless_aborted (r : option Z) : option Z := (λ _, 1) <$> r.
Definition sync_one (rec : sync_rec) (seq1 seq2 : Z) : M (option Z) :=
    r ← rbox Rbox.get;
    match sr_type rec with
    | SYNC_EXPUNGE => rbox_sync_expunge seq1 seq2 ;; mret (Some 1)
    | SYNC_FLAGS =>
        if Rbox.is_alternate_storage_set (sr_add_flags rec) && Rbox.is_alternate_pool_valid mb
        then ret ← move_to_alt seq1 seq2 false; mret (continue_unless_aborted ret)
        else if Rbox.is_alternate_storage_set (sr_remove_flags rec) && Rbox.is_alternate_pool_valid mb
        then ret ← move_to_alt seq1 seq2 true; mret (continue_unless_aborted ret)
        else if updates_attribute RBOX_METADATA_OLDV1_FLAGS r
        then ret ← update_flags seq1 seq2 (uint8 (sr_add_flags rec)) (uint8 (sr_remove_flags rec));
             mret (continue_unless_aborted ret)
        else mret (Some 1)
    | SYNC_KEYWORD_ADD | SYNC_KEYWORD_REMOVE =>
        if updates_attribute RBOX_METADATA_OLDV1_KEYWORDS r then
          ret ← update_extended_metadata seq1 seq2 (sr_keyword_idx rec)
                  (match sr_type rec with SYNC_KEYWORD_REMOVE => true | _ => false end);
          mret (match ret with
                | Some ret => Some (if decide (ret < 0) then -1 else 1)
                | None => None
                end)
        else mret (Some 1)
    | SYNC_OTHER => mret (Some 1)
    end.

(** The loop over the records of the index log. *)
Fixpoint sync_records (recs : list sync_rec) : M (option Z) :=
    match recs with
    | [] => mret (Some 1)
    | rec :: recs =>
        range ← ask (mail_index_lookup_seq_range (sr_uid1 rec) (sr_uid2 rec));
        match range with
        | None => sync_records recs
        | Some (seq1, seq2) =>
            ret ← sync_one rec seq1 seq2;
            match ret with
            | Some ret => if decide (ret < 0) then mret (Some ret) else sync_records recs
            | None => mret None
            end
        end
    end.
End ops.
End RboxSync.

(** ** Running the monad *)

Section run.
Context {W : Type}.
  Implicit Types s : rbox_sync_context * (rbox_storage * W).

Lemma sync_rbox_run {A} (m : ST (rbox_storage * W) A) s :
    RboxSync.rbox m s = ((m s.2).1, (s.1, (m s.2).2)).
Proof. destruct s. apply on_snd_run. Qed.
Lemma sync_world_run {A} (m : ST W A) s :
    RboxSync.world m s = ((m s.2.2).1, (s.1, (s.2.1, (m s.2.2).2))).
Proof. destruct s as [c [r w]]. unfold RboxSync.world. by rewrite !on_snd_run. Qed.
Lemma sync_ask_run {A} (f : W → A) s : RboxSync.ask f s = (f s.2.2, s).
Proof. done. Qed.
Lemma rbox_get_run (s : rbox_storage * W) : Rbox.get s = (s.1, s).
Proof. by destruct s. Qed.
End run.

Ltac syrun := repeat (first
  [ rewrite ret_eq | rewrite bind_eq | rewrite sync_rbox_run | rewrite sync_world_run
  | rewrite sync_ask_run | rewrite rbox_get_run ]; cbn [fst snd]).

(** ** Removing the objects *)

Lemma foldl_pointwise {A B} (f g : B → A → B) l b : (∀ b a, f b a = g b a) → foldl f b l = foldl g b l.
Proof. intros E. revert b. induction l as [|a l IH]; intros b; cbn; [done|]. by rewrite E. Qed.

(** The storage is connected and configured, so nothing has to be opened. *)
Definition ready (mb : mailbox) (alt : bool) (r : rbox_storage) : Prop :=
  PluginConfig.is_config_valid (rb_config r) = true ∧ cl_connected (rb_cluster r) = true ∧
  st_io_ctx_created (rb_s r) = true ∧
  (alt = true → is_Some (mb_alt_dir mb) ∧ st_io_ctx_created (rb_alt r) = true).

(** Two storages that only differ in how they wait for the cluster. *)
Definition same_storage (r r' : rbox_storage) : Prop :=
  rb_cluster r' = rb_cluster r ∧ rb_config r' = rb_config r ∧
  st_io_ctx (rb_s r') = st_io_ctx (rb_s r) ∧ st_io_ctx (rb_alt r') = st_io_ctx (rb_alt r) ∧
  st_io_ctx_created (rb_s r') = st_io_ctx_created (rb_s r) ∧
  st_io_ctx_created (rb_alt r') = st_io_ctx_created (rb_alt r).

Lemma same_storage_ready mb alt r r' : same_storage r r' → ready mb alt r → ready mb alt r'.
Proof. unfold ready. by intros (-> & -> & _ & _ & -> & ->). Qed.

(** The object of an item. *)
Definition item_ctx (r : rbox_storage) (item : expunged_item) : ioctx :=
  st_io_ctx (if ei_alt_storage item then rb_alt r else rb_s r).
Definition item_key (r : rbox_storage) (item : expunged_item) : okey := (item_ctx r item, ei_oid item).

Lemma same_storage_ctx r r' item : same_storage r r' → item_ctx r' item = item_ctx r item.
Proof. intros (_ & _ & E1 & E2 & _). unfold item_ctx. by destruct (ei_alt_storage item). Qed.

Section sync_lemmas.
Context `{Jansson} `{Librados W} `{RadosAdmin W}.

Lemma open_storage_usable pool q (s : Storage.state W) :
    Storage.usable s = true → Rbox.open_storage pool q s = (Some 1, s).
Proof. intros Hu. unfold Rbox.open_storage, Storage.open_connection_named. by rewrite Hu. Qed.

Lemma open_storages_ready (mb : mailbox) (alt : bool) (r : rbox_storage) (w : W) :
    ready mb alt r →
    ∃ r', Rbox.open_storages alt (mb_alt_dir mb) (r, w) = (1, (r', w)) ∧ same_storage r r'.
Proof.
    intros (_ & Hc & Hs & Ha). unfold Rbox.open_storages. rewrite bind_eq.
    cbn [Rbox.get on_fst st_get fst snd].
    rewrite bind_eq. cbn [Rbox.modify on_fst st_modify fst snd]. rewrite bind_eq. unfold Rbox.on_s.
    rewrite open_storage_usable by (unfold Storage.usable; cbn; by rewrite Hc, Hs).
    cbn [fst snd]. destruct alt; [|eexists; split; [reflexivity|done]].
    destruct (Ha eq_refl) as [[d ->] Hac]. rewrite bind_eq. unfold Rbox.on_alt.
    rewrite open_storage_usable by (unfold Storage.usable; cbn; by rewrite Hc, Hac).
    eexists. split; [reflexivity|done].
Qed.

Lemma open_mailbox_ready (mb : mailbox) (alt : bool) (r : rbox_storage) (w : W) :
    ready mb alt r →
    ∃ r', Rbox.open_mailbox mb alt (r, w) = (Some 0, (r', w)) ∧ same_storage r r'.
Proof.
    intros Hr. destruct (open_storages_ready mb alt r w Hr) as (r' & Er & Hs).
    unfold Rbox.open_mailbox, Rbox.rbox_open_rados_connection.
    rewrite bind_eq. cbn [Rbox.get on_fst st_get fst snd].
    rewrite (proj1 Hr). cbn [negb]. rewrite bind_eq. cbn [mret ST_ret fst snd].
    rewrite bind_eq, Er. cbn [fst snd]. exists r'. by split.
Qed.
End sync_lemmas.

Section removal.
Context `{LibradosLaws W}.

Lemma io_remove_spec c oid (w : W) :
    let '(r, w') := io_remove c oid w in
    (∀ k, k ≠ (c, oid) → objs w' !! k = objs w !! k) ∧
    (objs w' !! (c, oid) = objs w !! (c, oid) ∨ objs w' !! (c, oid) = None) ∧
    (0 <= r → objs w' !! (c, oid) = None).
Proof.
    unfold io_remove. pose proof (operate_frame c oid [OpRemove] w) as Hf.
    destruct (operate_law c oid [OpRemove] w) as (now & Hok & Hfail).
    destruct (io_operate c oid [OpRemove] w) as [r w']. cbn [fst snd] in *.
    assert (apply_ops now (c, oid) [OpRemove] (objs w) = Some (objs w') →
            objs w' !! (c, oid) = None) as Hgone.
    { unfold apply_ops. cbn. destruct (objs w !! (c, oid)); cbn; [|done].
      intros [= <-]. apply lookup_delete_eq. }
    split; [done|]. split; [|intros Hr; by apply Hgone, Hok].
    destruct (decide (r < 0)) as [Hr|Hr]; [|right; apply Hgone, Hok; lia].
    destruct (Hfail Hr) as [->|[_ ?]]; [by left|right; by apply Hgone].
Qed.

Lemma remove_object_spec c oid (w : W) :
    let '(r, w') := RboxSync.remove_object c oid w in
    (∀ k, k ≠ (c, oid) → objs w' !! k = objs w !! k) ∧
    (objs w' !! (c, oid) = objs w !! (c, oid) ∨ objs w' !! (c, oid) = None) ∧
    (0 <= r → objs w' !! (c, oid) = None).
Proof.
    unfold RboxSync.remove_object. rewrite bind_eq.
    pose proof (io_remove_spec c oid w) as Hr. destruct (io_remove c oid w) as [r w1]. cbn [fst snd].
    destruct Hr as (Hf & Hs & Hok). case_decide as Ht; [|rewrite ret_eq; auto].
    assert (∀ n r0 (w0 : W), r0 < 0 → let '(r, w') := RboxSync.retry_remove c oid n r0 w0 in
      (∀ k, k ≠ (c, oid) → objs w' !! k = objs w0 !! k) ∧
      (objs w' !! (c, oid) = objs w0 !! (c, oid) ∨ objs w' !! (c, oid) = None) ∧
      (0 <= r → objs w' !! (c, oid) = None)) as Hn.
    { clear. intros n. induction n as [|n IH]; intros r0 w0 Hr0; cbn [RboxSync.retry_remove].
      - rewrite ret_eq. split; [done|]. split; [by left|lia].
      - rewrite bind_eq. pose proof (io_remove_spec c oid w0) as Hr.
        destruct (io_remove c oid w0) as [r w1]. cbn [fst snd]. destruct Hr as (Hf & Hs & Hok).
        case_decide as Hd; [by rewrite ret_eq|].
        specialize (IH r w1 ltac:(lia)). destruct (RboxSync.retry_remove c oid n r w1) as [r' w2].
        destruct IH as (Hf' & Hs' & Hok'). split; [intros k Hk; by rewrite Hf', Hf|].
        split; [|done]. destruct Hs' as [->|]; auto. }
    specialize (Hn RboxSync.max_retry r w1 ltac:(unfold ETIMEDOUT in *; lia)).
    destruct (RboxSync.retry_remove _ _ _ _ _) as [r' w2]. destruct Hn as (Hf' & Hs' & Hok').
    split; [intros k Hk; by rewrite Hf', Hf|]. split; [|done]. destruct Hs' as [->|]; auto.
Qed.

(** The answer to the [n]th removal from a world on, and a removal that was given up: the
    first one failed, and when it timed out all of the ten others did, each in the world
    that the ones before it left. *)
Definition attempt c oid (w : W) (n : nat) : Z := (io_remove c oid (Nat.iter n (λ w, (io_remove c oid w).2) w)).1.
Definition gave_up c oid (w : W) : Prop :=
    attempt c oid w 0 < 0 ∧ (attempt c oid w 0 = - ETIMEDOUT → ∀ n, (n <= 10)%nat → attempt c oid w n < 0).
Lemma retry_remove_fails c oid n r (w : W) :
    (RboxSync.retry_remove c oid n r w).1 < 0 → ∀ m, (m < n)%nat → attempt c oid w m < 0.
Proof.
    revert r w. induction n as [|n IH]; intros r w; cbn [RboxSync.retry_remove]; [lia|].
    rewrite bind_eq. case_decide as Hd; [rewrite ret_eq; cbn; lia|]. intros Hf [|m] Hm; [unfold attempt; cbn; lia|].
    unfold attempt. rewrite Nat.iter_succ_r. apply (IH _ _ Hf). lia.
Qed.
Lemma remove_object_fails c oid (w : W) : (RboxSync.remove_object c oid w).1 < 0 → gave_up c oid w.
Proof.
    unfold RboxSync.remove_object, gave_up, attempt at 1 2. rewrite bind_eq. cbn [Nat.iter].
    case_decide as Ht; [|rewrite ret_eq; by intros]. intros Hf. split; [unfold ETIMEDOUT in *; cbn; lia|].
    intros _ [|n] Hn; [unfold attempt, ETIMEDOUT in *; cbn; lia|]. unfold attempt. rewrite Nat.iter_succ_r.
    apply (retry_remove_fails _ _ _ _ _ Hf). unfold RboxSync.max_retry. lia.
Qed.

Lemma remove_object_log `{!Dovecot W} `{!DovecotLaws W} c oid (w : W) :
    ix_log (RboxSync.remove_object c oid w).2 = ix_log w.
Proof.
    assert (∀ n r (w : W), ix_log (RboxSync.retry_remove c oid n r w).2 = ix_log w) as Hn.
    { induction n as [|n IH]; intros r w0; cbn [RboxSync.retry_remove]; [done|].
      rewrite bind_eq. case_decide; [by rewrite ret_eq; apply operate_log|].
      rewrite IH. apply operate_log. }
    unfold RboxSync.remove_object. rewrite bind_eq.
    case_decide; [rewrite Hn|rewrite ret_eq]; apply operate_log.
Qed.
End removal.

Section finish.
Context `{Jansson} `{LibradosLaws W} `{RadosAdmin W} `{!Dovecot W} `{!DovecotLaws W}.
Context (mb : mailbox).
  Abbreviation state := (rbox_sync_context * (rbox_storage * W))%type.
  Implicit Types s : state.

(** Objects only disappear, the ones of [items] at most. *)
Definition only_removes (r : rbox_storage) (items : list expunged_item) (w w' : W) : Prop :=
    ∀ k, objs w' !! k = objs w !! k ∨
         (objs w' !! k = None ∧ ∃ item, item ∈ items ∧ k = item_key r item).

(** The world in which the turn of the [n]th item comes: the items before it were removed and
    notified. *)
Definition after_item (r : rbox_storage) (w : W) (item : expunged_item) : W :=
    (mail_index_do (IxNotifyExpunge (ei_uid item)) (RboxSync.remove_object (item_ctx r item) (ei_oid item) w).2).2.
Definition world_at (r : rbox_storage) (items : list expunged_item) (w : W) (n : nat) : W :=
    foldl (after_item r) w (take n items).
(** In the end the object of the item is gone, or its removal was given up when its turn came. *)
Definition removed_or_failed (r : rbox_storage) (w_then w' : W) (item : expunged_item) : Prop :=
    objs w' !! item_key r item = None ∨ gave_up (item_ctx r item) (ei_oid item) w_then.

Lemma only_removes_trans r l1 l2 (w w1 w2 : W) :
    only_removes r l1 w w1 → only_removes r l2 w1 w2 → only_removes r (l1 ++ l2) w w2.
Proof.
    intros H1' H2' k. destruct (H2' k) as [->|[-> (i & Hi & ->)]].
    - destruct (H1' k) as [->|[-> (i & Hi & ->)]]; [by left|]. right. split; [done|].
      exists i. split; [|done]. apply elem_of_app. by left.
    - right. split; [done|]. exists i. split; [|done]. apply elem_of_app. by right.
Qed.

Lemma object_expunge_spec item c (r : rbox_storage) (w : W) :
    ready mb (ei_alt_storage item) r →
    let '(ret, (c', (r', w'))) := RboxSync.rbox_sync_object_expunge mb item (c, (r, w)) in
    is_Some ret ∧ c' = c ∧ same_storage r r' ∧ only_removes r [item] w w' ∧
    removed_or_failed r w w' item ∧ w' = after_item r w item ∧ ix_log w' = ix_log w ++ [IxNotifyExpunge (ei_uid item)].
Proof.
    intros Hr. unfold RboxSync.rbox_sync_object_expunge.
    destruct (open_mailbox_ready mb (ei_alt_storage item) r w Hr) as (r' & Er & Hs).
    rewrite bind_eq, sync_rbox_run. cbn [fst snd]. rewrite Er. cbn [fst snd].
    rewrite decide_False by lia. unfold RboxSync.index. syrun.
    pose proof (same_storage_ctx r r' item Hs) as Ec. unfold item_ctx in Ec at 1. rewrite Ec.
    pose proof (remove_object_spec (item_ctx r item) (ei_oid item) w) as Hrm.
    pose proof (remove_object_log (item_ctx r item) (ei_oid item) w) as Hlog.
    pose proof (remove_object_fails (item_ctx r item) (ei_oid item) w) as Hgu.
    assert ((mail_index_do (IxNotifyExpunge (ei_uid item)) (RboxSync.remove_object (item_ctx r item) (ei_oid item) w).2).2
      = after_item r w item) as Ea by done.
    destruct (RboxSync.remove_object _ _ w) as [ret w1]. cbn [fst snd] in *.
    destruct Hrm as (Hf & Hk & Hok).
    destruct (index_do_law (IxNotifyExpunge (ei_uid item)) w1) as [Eo El].
    split; [by eexists|]. split; [done|]. split; [done|]. split; [|split; [|split; [done|]]].
    - intros k. rewrite Eo. destruct (decide (k = item_key r item)) as [->|Hne]; [|left; by apply Hf].
      destruct Hk as [Hk|Hk]; [by left|]. right. split; [done|]. exists item. by split; [left|].
    - unfold removed_or_failed, item_key. rewrite Eo.
      destruct (decide (0 <= ret)) as [Hret|Hret]; [left; by apply Hok|right]. apply Hgu. lia.
    - by rewrite El, Hlog.
Qed.

Lemma expunge_items_spec items c (r : rbox_storage) (w : W) :
    (∀ item, item ∈ items → ready mb (ei_alt_storage item) r) →
    let '(ret, (c', (r', w'))) := RboxSync.expunge_items mb items (c, (r, w)) in
    is_Some ret ∧ c' = c ∧ same_storage r r' ∧ only_removes r items w w' ∧
    (∀ n item, items !! n = Some item → removed_or_failed r (world_at r items w n) w' item) ∧
    ix_log w' = ix_log w ++ ((λ i, IxNotifyExpunge (ei_uid i)) <$> items).
Proof.
    revert r w. induction items as [|item items IH]; intros r w Hr; cbn [RboxSync.expunge_items].
    { rewrite ret_eq. split; [by eexists|]. split; [done|]. split; [by repeat split|].
      split; [intros k; by left|]. split; [done|]. by rewrite app_nil_r. }
    rewrite bind_eq. pose proof (object_expunge_spec item c r w (Hr item ltac:(left))) as Ho.
    destruct (RboxSync.rbox_sync_object_expunge mb item (c, (r, w))) as [ret [c1 [r1 w1]]].
    destruct Ho as ([v ->] & -> & Hs & Hrem & Hitem & Ew & Hlog). cbn [fst snd].
    assert (∀ i, item_key r1 i = item_key r i) as Ek
      by (intros i; unfold item_key; by rewrite (same_storage_ctx r r1 i Hs)).
    assert (∀ l w w', only_removes r1 l w w' → only_removes r l w w') as Hor.
    { intros l wa wb Hl k. destruct (Hl k) as [?|[? (i & Hi & ->)]]; [by left|right].
      split; [done|]. exists i. by rewrite Ek. }
    specialize (IH r1 w1). premise IH.
    { intros i Hi. apply (same_storage_ready _ _ r r1 Hs). apply Hr. by right. }
    destruct (RboxSync.expunge_items mb items (c, (r1, w1))) as [ret [c2 [r2 w2]]].
    destruct IH as (Hsome & -> & Hs2 & Hrem2 & Hitems & Hlog2). split; [done|]. split; [done|].
    split.
    { destruct Hs as (? & ? & ? & ? & ? & ?), Hs2 as (? & ? & ? & ? & ? & ?). repeat split; congruence. }
    split; [apply (only_removes_trans r [item] items w w1 w2 Hrem), Hor, Hrem2|].
    split; [|by rewrite Hlog2, Hlog, <- app_assoc].
    assert (∀ n, world_at r1 items w1 n = world_at r (item :: items) w (S n)) as Ea.
    { intros n. unfold world_at. cbn [take foldl]. rewrite <- Ew. apply foldl_pointwise.
      intros w0 i. unfold after_item. by rewrite (same_storage_ctx r r1 i Hs). }
    intros [|n] i; cbn [lookup list_lookup]; [intros [= <-]|intros Hi].
    - destruct Hitem as [Hn|Hf]; [|by right]. left.
      destruct (Hor _ _ _ Hrem2 (item_key r item)) as [->|[-> _]]; done.
    - destruct (Hitems n i Hi) as [Hn|Hf]; [left; by rewrite <- Ek|right].
      rewrite <- Ea. by rewrite <- (same_storage_ctx r r1 i Hs).
Qed.
End finish.

(** C17. Finishing a synchronisation on a connected storage: objects are removed
    only when the changes of the index were committed. Without a commit no object
    changes. With one, the only objects that change are the ones of the recorded
    mails, in the storage each was kept in, and each of them is gone, unless its removal
    was given up: when its turn came, after the mails before it, the cluster answered its
    removal with an error, eleven times if the first one was a timeout. Every mail is
    notified, in order, after the commit. *)
Theorem sync_removes_after_commit `{Jansson} `{LibradosLaws W} `{RadosAdmin W} `{!Dovecot W} `{!DovecotLaws W}
    (mb : mailbox) items (r : rbox_storage) (w : W) :
  (∀ item, item ∈ items → ready mb (ei_alt_storage item) r) →
  let '(ret, (_, (_, w'))) := RboxSync.rbox_sync_finish mb true (mk_sync items, (r, w)) in
  ((mail_index_sync_commit w).1 < 0 →
     ret = Some (-1) ∧ objs w' = objs w ∧ ix_log w' = ix_log w ++ [IxSetError; IxExpungingDeinit]) ∧
  (0 <= (mail_index_sync_commit w).1 →
     ret = Some 0 ∧ only_removes r items w w' ∧
     (∀ n item, items !! n = Some item →
        removed_or_failed r (world_at r items (mail_index_sync_commit w).2 n) w' item) ∧
     ix_log w' = ix_log w ++ [IxSyncCommit] ++ ((λ i, IxNotifyExpunge (ei_uid i)) <$> items)
                   ++ [IxNotifyExpunge 0; IxExpungingDeinit]).
Proof.
  intros Hr. unfold RboxSync.rbox_sync_finish, RboxSync.index. rewrite bind_eq, sync_world_run. cbn [fst snd].
  pose proof (sync_commit_law w) as [Eo El].
  destruct (mail_index_sync_commit w) as [ret w1]. cbn [fst snd] in *.
  destruct (decide (ret < 0)) as [Hneg|Hpos].
  { syrun. split; [|lia]. intros _.
    destruct (index_do_law IxSetError w1) as [Eo1 El1].
    destruct (index_do_law IxExpungingDeinit (mail_index_do IxSetError w1).2) as [Eo2 El2].
    by rewrite Eo2, Eo1, El2, El1, Eo, El, app_nil_r, <- app_assoc. }
  rewrite bind_eq. unfold RboxSync.rbox_sync_expunge_rbox_objects. rewrite bind_eq.
  cbn [on_fst st_get fst snd sy_expunged_items]. rewrite bind_eq.
  pose proof (expunge_items_spec mb items (mk_sync items) r w1 Hr) as He.
  destruct (RboxSync.expunge_items mb items _) as [v [c2 [r2 w2]]].
  destruct He as ([u ->] & -> & Hs & Hrem & Hitems & Hlog). cbn [fst snd]. unfold RboxSync.index. syrun.
  destruct (index_do_law (IxNotifyExpunge 0) w2) as [Eo1 El1].
  destruct (index_do_law IxExpungingDeinit (mail_index_do (IxNotifyExpunge 0) w2).2) as [Eo2 El2].
  rewrite Eo1 in Eo2. rewrite El1 in El2. split; [lia|]. intros _.
  split; [done|]. split; [|split].
  - intros k. rewrite Eo2. unfold only_removes in Hrem. rewrite <- Eo. apply Hrem.
  - intros n i Hi. destruct (Hitems n i Hi); [left; by rewrite Eo2|by right].
  - by rewrite El2, Hlog, El, <- !app_assoc.
Qed.

(** A connected plugin in the namespace ["u1"], with one mail. *)
Definition ready_rbox : rbox_storage :=
  mk_rbox (mk_cluster true 1 true) ∅ (mem_storage "u1") Storage.new
    (mk_plugin_cfg (RadosConfigOps.set_config_valid true RadosConfigOps.new)
                   (JsonConfig.set_valid true JsonConfig.new))
    ∅ (Some (inl (mk_default (mk_ioctx "mail_storage" "u1")))) Log.new (mk_fs (λ _, true) ∅).
Definition inbox : mailbox :=
  mk_mailbox "INBOX" "mbguid" 1 2 (Some "bob") None (λ _, None) None "g".
Definition one_mail : MemDovecot :=
  mk_mem_dovecot (mk_mem {[ (mk_ioctx "mail_storage" "u1", "o1") := mk_robject "From: a" ∅ ∅ 5 ]} [] 1000)
    (mk_mem_index [] {[1 := mk_index_record 7 0 (Some ("g1", "o1"))]} ∅ 0 [] 0).

Lemma sync_removes_after_commit_witness :
  let '(ret, (_, (_, w'))) :=
    RboxSync.rbox_sync_finish inbox true (mk_sync [mk_item 7 "o1" false], (ready_rbox, one_mail)) in
  ret = Some 0 ∧ objs w' !! (mk_ioctx "mail_storage" "u1", "o1") = None ∧
  ix_log w' = [IxSyncCommit; IxNotifyExpunge 7; IxNotifyExpunge 0; IxExpungingDeinit].
Proof.
  pose proof (sync_removes_after_commit inbox [mk_item 7 "o1" false] ready_rbox one_mail) as Hs.
  premise Hs.
  { intros i ->%list_elem_of_singleton. by repeat split. }
  destruct (RboxSync.rbox_sync_finish _ _ _) as [ret [c [r w']]].
  destruct Hs as [_ Hs]. destruct (Hs ltac:(cbn; lia)) as (-> & _ & Hg & Hl).
  split; [reflexivity|]. split; [|exact Hl].
  destruct (Hg 0%nat _ eq_refl) as [Hn|[Hf _]]; [exact Hn|]. vm_compute in Hf. discriminate.
Defined.
