(* ===== verification/Keeps.v ===== *)
(** What the calls to the cluster keep, every component keeps: a property of the
    world that no single call to librados changes is kept by opening the
    connection, by reading and writing attributes, by moving mails and by the
    repair of a mailbox. The index log is such a property. *)
From S2P Require Export Stays RboxSync FindMails.
Local Open Scope rmb_scope.

(** [P] is kept by what connecting, configuring and looking up a namespace call: the
    administration, reading an object and writing one. *)
Class WriteKeeps {W} `{Librados W} `{RadosAdmin W} (P : W → Prop) : Prop := {
  write_keeps_admin :: AdminKeeps P;
  keep_read_call : ∀ c oid len off, triple P (io_read c oid len off) (λ _, P);
  keep_write_full : ∀ c oid bl, triple P (io_write_full c oid bl) (λ _, P);
}.
(** [P] is kept by every call to the cluster. *)
Class ClusterKeeps {W} `{Librados W} `{RadosAdmin W} (P : W → Prop) : Prop := {
  cluster_keeps_admin :: AdminKeeps P;
  keep_operate : ∀ c oid ops, triple P (io_operate c oid ops) (λ _, P);
  keep_aio_operate : ∀ c oid ops, triple P (io_aio_operate c oid ops) (λ _, P);
  keep_read : ∀ c oid len off, triple P (io_read c oid len off) (λ _, P);
  keep_stat : ∀ c oid, triple P (io_stat c oid) (λ _, P);
  keep_getxattrs : ∀ c oid, triple P (io_getxattrs c oid) (λ _, P);
  keep_omap_get_keys : ∀ c oid, triple P (io_omap_get_keys c oid) (λ _, P);
  keep_omap_get_vals_by_keys : ∀ c oid ks, triple P (io_omap_get_vals_by_keys c oid ks) (λ _, P);
  keep_nobjects : ∀ c f, triple P (io_nobjects c f) (λ _, P);
  keep_nobjects_from : ∀ c pos, triple P (io_nobjects_from c pos) (λ _, P);
}.

(** One call to the cluster. *)
Ltac by_call := try unfold stays; first
  [ apply keep_operate | apply keep_aio_operate | apply keep_read | apply keep_stat | apply keep_getxattrs
  | apply keep_omap_get_keys | apply keep_omap_get_vals_by_keys | apply keep_nobjects | apply keep_nobjects_from
  | by_admin_call ].

#[export] Instance cluster_keeps_writes `{ClusterKeeps W P} : WriteKeeps P.
Proof. split; [apply _|apply keep_read|intros; apply keep_operate]. Qed.

Section writes.
Context `{Jansson} `{WriteKeeps W P}.
Abbreviation PS := (at_snd (at_snd P)).
#[local] Hint Extern 2 (stays P _) => (try unfold stays; first [apply keep_read_call | apply keep_write_full | by_admin_call]) : stays.
#[local] Hint Resolve storage_world_stays open_connection_named_stays : stays.

(** *** The configuration and the namespaces *)

Lemma config_get_stays : stays (at_snd P) CephConfig.get.
Proof. apply stays_on_fst. Qed.
Lemma config_modify_stays f : stays (at_snd P) (CephConfig.modify f).
Proof. apply stays_on_fst. Qed.
Lemma config_world_stays {A} (m : ST W A) : stays P m → stays (at_snd P) (CephConfig.world m).
Proof. apply stays_on_snd. Qed.
Lemma config_set_ns_stays ns : stays (at_snd P) (CephConfig.set_io_ctx_namespace ns).
Proof. apply stays_on_fst. Qed.
#[local] Hint Resolve config_get_stays config_modify_stays config_world_stays config_set_ns_stays : stays.
Lemma read_retry_stays io oid n r : stays P (CephConfig.read_retry io oid n r).
Proof. revert r. induction n as [|n IH]; intros r; cbn [CephConfig.read_retry]; stay. Qed.
#[local] Hint Resolve read_retry_stays : stays.
Lemma read_object_stays oid : stays (at_snd P) (CephConfig.read_object oid).
Proof. unfold CephConfig.read_object. stay. Qed.
Lemma save_object_stays oid bl : stays (at_snd P) (CephConfig.save_object oid bl).
Proof. unfold CephConfig.save_object. stay. Qed.
#[local] Hint Resolve read_object_stays save_object_stays : stays.
Lemma load_cfg_stays : stays (at_snd P) CephConfig.load_cfg.
Proof. unfold CephConfig.load_cfg. stay. Qed.
Lemma save_default_config_stays : stays (at_snd P) PluginConfig.save_default_rados_config.
Proof. unfold PluginConfig.save_default_rados_config, CephConfig.save_cfg. stay. Qed.
#[local] Hint Resolve load_cfg_stays save_default_config_stays : stays.

Lemma lookup_key_stays uid : stays (at_snd P) (NamespaceMgr.lookup_key uid).
Proof.
  intros [m w] Hs. unfold NamespaceMgr.lookup_key. case_decide; [done|]. destruct (nm_config m) as [c|]; [|done].
  destruct (negb (CephConfig.is_config_valid c)); [done|]. destruct (negb (CephConfig.is_user_mapping c)); [done|].
  destruct (nm_cache m !! uid); [done|].
  pose proof (config_set_ns_stays (user_ns (cc_config c)) (c, w) Hs) as Hs1.
  destruct (CephConfig.set_io_ctx_namespace _ (c, w)) as [? [c1 w1]].
  pose proof (read_object_stays uid (c1, w1) Hs1) as Hs2.
  destruct (CephConfig.read_object uid (c1, w1)) as [[err bl] [c2 w2]].
  pose proof (config_set_ns_stays "" (c2, w2) Hs2) as Hs3.
  destruct (CephConfig.set_io_ctx_namespace "" (c2, w2)) as [? [c3 w3]]. by case_decide.
Qed.
Lemma add_namespace_entry_stays uid guid : stays (at_snd P) (NamespaceMgr.add_namespace_entry uid guid).
Proof.
  intros [m w] Hs. unfold NamespaceMgr.add_namespace_entry. destruct (nm_config m) as [c|]; [|done].
  destruct (negb (CephConfig.is_config_valid c)); [done|]. destruct guid as [value|]; [|done].
  pose proof (config_set_ns_stays (user_ns (cc_config c)) (c, w) Hs) as Hs1.
  destruct (CephConfig.set_io_ctx_namespace _ (c, w)) as [? [c1 w1]].
  pose proof (save_object_stays uid value (c1, w1) Hs1) as Hs2.
  destruct (CephConfig.save_object uid value (c1, w1)) as [err [c2 w2]].
  pose proof (config_set_ns_stays "" (c2, w2) Hs2) as Hs3.
  destruct (CephConfig.set_io_ctx_namespace "" (c2, w2)) as [? [c3 w3]]. by case_decide.
Qed.
#[local] Hint Resolve lookup_key_stays add_namespace_entry_stays : stays.

(** *** The plugin's storage *)

Lemma rbox_get_stays : stays (at_snd P) (Rbox.get (W:=W)).
Proof. apply stays_on_fst. Qed.
Lemma rbox_modify_stays f : stays (at_snd P) (Rbox.modify (W:=W) f).
Proof. apply stays_on_fst. Qed.
Lemma on_s_stays {A} (m : ST (Storage.state W) A) : stays PS m → stays (at_snd P) (Rbox.on_s m).
Proof.
  intros Hm [r w] Hs. unfold Rbox.on_s. pose proof (Hm (rb_s r, (rb_cluster r, w)) Hs) as Hr.
  by destruct (m _) as [? [? [? ?]]].
Qed.
Lemma on_alt_stays {A} (m : ST (Storage.state W) A) : stays PS m → stays (at_snd P) (Rbox.on_alt m).
Proof.
  intros Hm [r w] Hs. unfold Rbox.on_alt. pose proof (Hm (rb_alt r, (rb_cluster r, w)) Hs) as Hr.
  by destruct (m _) as [? [? [? ?]]].
Qed.
Lemma on_config_stays {A} (m : ST (RadosCephConfig * W) A) : stays (at_snd P) m → stays (at_snd P) (Rbox.on_config m).
Proof.
  intros Hm [r w] Hs. unfold Rbox.on_config.
  pose proof (Hm (mk_ceph_config (rados_cfg (rb_config r)) (Some (st_io_ctx (rb_s r))), w) Hs) as Hr.
  by destruct (m _) as [? [? ?]].
Qed.
Lemma on_ns_mgr_stays {A} (m : ST (RadosNamespaceManager * W) A) :
  stays (at_snd P) m → stays (at_snd P) (Rbox.on_ns_mgr m).
Proof.
  intros Hm [r w] Hs. unfold Rbox.on_ns_mgr.
  match goal with |- context [m ?s] => pose proof (Hm s Hs) as Hr; by destruct (m s) as [? [? ?]] end.
Qed.
#[local] Hint Resolve rbox_get_stays rbox_modify_stays on_s_stays on_alt_stays on_config_stays on_ns_mgr_stays : stays.
Lemma set_namespace_stays ns : stays PS (Storage.set_namespace (W:=W) ns).
Proof. apply stays_on_fst. Qed.
Lemma open_storage_stays pool r : stays PS (Rbox.open_storage pool r).
Proof. apply open_connection_named_stays. Qed.
#[local] Hint Resolve set_namespace_stays open_storage_stays : stays.
Lemma open_storages_stays alt dir : stays (at_snd P) (Rbox.open_storages alt dir).
Proof. unfold Rbox.open_storages. stay. Qed.
Lemma find_namespace_stays uid guid ret : stays (at_snd P) (Rbox.find_namespace uid guid ret).
Proof. unfold Rbox.find_namespace. stay. Qed.
Lemma read_configuration_stays env : stays (at_snd P) (Rbox.read_plugin_configuration (W:=W) env).
Proof. unfold Rbox.read_plugin_configuration. stay. Qed.
Lemma read_client_settings_stays envs p : stays (at_snd P) (Rbox.read_plugin_ceph_client_settings (W:=W) envs p).
Proof. unfold Rbox.read_plugin_ceph_client_settings. stay. Qed.
#[local] Hint Resolve open_storages_stays find_namespace_stays read_configuration_stays read_client_settings_stays : stays.
Lemma open_mailbox_stays mb alt : stays (at_snd P) (Rbox.open_mailbox mb alt).
Proof. unfold Rbox.open_mailbox, Rbox.rbox_open_rados_connection. stay. Qed.
End writes.
#[export] Hint Resolve open_mailbox_stays on_s_stays on_alt_stays on_config_stays rbox_get_stays rbox_modify_stays
  set_namespace_stays : stays.
#[export] Hint Extern 1 (WriteKeeps _) => (apply cluster_keeps_writes) : stays.
Section cluster.
Context `{Jansson} `{ClusterKeeps W P}.

#[local] Hint Extern 2 (stays P _) => by_call : stays.

(** *** A storage *)

Abbreviation PS := (at_snd (at_snd P)).
#[local] Hint Resolve storage_world_stays : stays.
Lemma read_mail_stays oid : stays PS (Storage.read_mail (W:=W) oid).
Proof. apply guarded_stays. stay. Qed.
Lemma find_mails_stays f : stays PS (Storage.find_mails (W:=W) f).
Proof. apply guarded_stays. stay. Qed.
Lemma ceph_index_read_stays junk : stays PS (Storage.ceph_index_read (W:=W) junk).
Proof. unfold Storage.ceph_index_read. stay. Qed.
Lemma ceph_index_overwrite_stays oids : stays PS (Storage.ceph_index_overwrite (W:=W) oids).
Proof. unfold Storage.ceph_index_overwrite, io_write_full. stay. Qed.
Lemma chunk_loop_stays {S} (Q : S → Prop) body n i r :
  (∀ j, stays Q (body j)) → stays Q (chunk_loop body n i r).
Proof.
  intros Hb. revert i r. induction n as [|n IH]; intros i r; cbn [chunk_loop]; [apply stays_ret|].
  apply stays_bind; [apply Hb|]. intros [v|]; [|apply stays_ret]. case_decide; [apply stays_ret|apply IH].
Qed.
Lemma save_mail_op_stays ops mail : stays PS (Storage.save_mail_op (W:=W) ops mail).
Proof.
  unfold Storage.save_mail_op, Storage.split_buffer_and_exec_op. apply guarded_stays. stay.
  apply guarded_stays. stay. apply chunk_loop_stays. stay.
Qed.
#[local] Hint Resolve open_connection_named_stays read_mail_stays find_mails_stays ceph_index_read_stays
  ceph_index_overwrite_stays save_mail_op_stays : stays.
Lemma thread_oids_stays junk pgs : stays PS (FindMails.thread_oids (W:=W) junk pgs).
Proof. induction pgs as [|pg pgs IH]; cbn [FindMails.thread_oids]; stay. Qed.
#[local] Hint Resolve thread_oids_stays : stays.
Lemma osd_oids_stays junk osds : stays PS (FindMails.osd_oids (W:=W) junk osds).
Proof. induction osds as [|[osd pgs] osds IH]; cbn [FindMails.osd_oids]; stay. Qed.
#[local] Hint Resolve osd_oids_stays : stays.
Lemma find_mails_async_stays junk pool : stays PS (FindMails.find_mails_async junk pool).
Proof. unfold FindMails.find_mails_async. stay. Qed.

(** *** The metadata modules *)

Lemma reads_kept io oid : kept_by_reads P oid io.
Proof.
  intros w Hw. split; [by apply keep_getxattrs|]. split; [by apply keep_omap_get_keys|].
  intros ks. by apply keep_omap_get_vals_by_keys.
Qed.
Lemma ms_load_stays (ms : MetadataDefault + MetadataIma) mail : stays P (ms_load_metadata ms mail).
Proof.
  intros w Hw. apply (load_metadata_keeps P (rm_oid mail) ms mail eq_refl (reads_kept _ _) w Hw).
Qed.
Lemma ms_update_stays (ms : MetadataDefault + MetadataIma) oid l : stays P (ms_update_metadata ms oid l).
Proof.
  apply update_metadata_keeps; [apply reads_kept|]. intros ops w Hw. by apply keep_aio_operate.
Qed.
Lemma ms_set_stays (ms : MetadataDefault + MetadataIma) mail x : stays P (ms_set_metadata ms mail x).
Proof.
  destruct ms as [t|t]; cbn; [unfold MetadataDefaultOps.set_metadata|unfold MetadataImaOps.set_metadata];
    unfold io_setxattr; stay.
Qed.
Lemma ms_keyword_stays (ms : MetadataDefault + MetadataIma) oid x : stays P (ms_update_keyword_metadata ms oid x).
Proof.
  destruct ms as [t|t]; cbn; [unfold MetadataDefaultOps.update_keyword_metadata|unfold MetadataImaOps.update_keyword_metadata];
    unfold io_omap_set; stay.
Qed.
Lemma ms_remove_keyword_stays (ms : MetadataDefault + MetadataIma) oid x : stays P (ms_remove_keyword_metadata ms oid x).
Proof. destruct ms as [t|t]; apply keep_operate. Qed.
#[local] Hint Resolve ms_load_stays ms_update_stays ms_set_stays ms_keyword_stays ms_remove_keyword_stays : stays.

(** *** Moving a mail to the other storage *)

Lemma on_primary_stays {A} (m : ST (Storage.state W) A) : stays PS m → stays PS (AltStorage.on_primary m).
Proof.
  intros Hm [[p a] w] Hs. unfold AltStorage.on_primary. pose proof (Hm (p, w) Hs). by destruct (m _) as [? [? ?]].
Qed.
Lemma on_alternative_stays {A} (m : ST (Storage.state W) A) : stays PS m → stays PS (AltStorage.on_alt m).
Proof.
  intros Hm [[p a] w] Hs. unfold AltStorage.on_alt. pose proof (Hm (a, w) Hs). by destruct (m _) as [? [? ?]].
Qed.
Lemma alt_io_ctx_stays i : stays PS (AltStorage.get_io_ctx (W:=W) i).
Proof. by intros s Hs. Qed.
#[local] Hint Resolve on_primary_stays on_alternative_stays alt_io_ctx_stays : stays.
Lemma copy_to_alt_stays b src dest (ms : MetadataDefault + MetadataIma) inverse :
  stays PS (AltStorage.copy_to_alt (W:=W) b src dest ms inverse).
Proof. unfold AltStorage.copy_to_alt. stay. Qed.
#[local] Hint Resolve copy_to_alt_stays : stays.
Lemma move_to_alt_stays b oid (ms : MetadataDefault + MetadataIma) inverse :
  stays PS (AltStorage.move_to_alt (W:=W) b oid ms inverse).
Proof.
  apply stays_bind; [stay|]. intros [[ret|] ms']; [|stay]. case_decide; [|stay].
  apply stays_bind; [apply alt_io_ctx_stays|]. unfold io_remove. stay.
Qed.
#[local] Hint Resolve move_to_alt_stays : stays.

(** *** The index *)

(** An index request that neither begins nor ends a synchronisation. *)
Definition no_sync (a : index_action) : bool :=
  match a with IxSyncBegin | IxSyncCommit | IxSyncRollback => false | _ => true end.

Section index.
Context `{Dovecot W}.
Hypothesis index_stays : ∀ a, no_sync a = true → stays P (mail_index_do a).
#[local] Hint Extern 2 (stays P (mail_index_do _)) => (apply index_stays; done) : stays.
Variable mb : mailbox.

Lemma sync_rbox_stays {A} (m : ST (rbox_storage * W) A) : stays (at_snd P) m → stays PS (RboxSync.rbox m).
Proof. apply stays_on_snd. Qed.
Lemma sync_world_stays {A} (m : ST W A) : stays P m → stays PS (RboxSync.world m).
Proof. intros Hm. by apply stays_on_snd, stays_on_snd. Qed.
Lemma sync_ask_stays {A} (f : W → A) : stays PS (RboxSync.ask f).
Proof. by intros s Hs. Qed.
Lemma sync_index_stays a : no_sync a = true → stays PS (RboxSync.index a).
Proof. intros Ha. by apply sync_world_stays, index_stays. Qed.
Lemma sync_add_stays i : stays PS (RboxSync.add_item (W:=W) i).
Proof. apply stays_on_fst. Qed.
#[local] Hint Resolve sync_rbox_stays sync_world_stays sync_ask_stays sync_add_stays : stays.
#[local] Hint Extern 2 (stays _ (RboxSync.index _)) => (apply sync_index_stays; first [done|by case_match]) : stays.

Lemma expunge_stays seq1 seq2 : stays PS (RboxSync.rbox_sync_expunge mb seq1 seq2).
Proof. unfold RboxSync.rbox_sync_expunge, RboxSync.expunge_one. stay. Qed.
Lemma keyword_op_stays alt oid key value idx : stays PS (RboxSync.keyword_op (W:=W) alt oid key value idx).
Proof.
  intros [c [r w]] Hs. unfold RboxSync.keyword_op. destruct (Rbox.storage_ms alt r) as [ms|]; [|done].
  destruct value as [v|].
  - pose proof (ms_keyword_stays ms oid (Some (Metadata.of_pair key v)) w Hs). by destruct (ms_update_keyword_metadata _ _ _ w).
  - pose proof (ms_remove_keyword_stays ms oid key w Hs). by destruct (ms_remove_keyword_metadata _ _ _ w).
Qed.
#[local] Hint Resolve expunge_stays keyword_op_stays : stays.
Lemma update_extended_stays seq1 seq2 idx remove :
  stays PS (RboxSync.update_extended_metadata mb seq1 seq2 idx remove).
Proof.
  unfold RboxSync.update_extended_metadata. generalize 0 as ret. induction (RboxSync.seqs seq1 seq2) as [|seq l IH];
    intros ret; cbn [RboxSync.update_extended_loop]; stay.
Qed.
Lemma move_one_stays oid inverse : stays PS (RboxSync.move_one (W:=W) oid inverse).
Proof.
  intros [c [r w]] Hs. unfold RboxSync.move_one. destruct (Rbox.storage_ms false r) as [ms|]; [|done].
  pose proof (move_to_alt_stays true oid ms inverse ((rb_s r, rb_alt r), (rb_cluster r, w)) Hs).
  by destruct (AltStorage.move_to_alt _ _ _ _ _) as [[? ?] [[? ?] [? ?]]].
Qed.
#[local] Hint Resolve update_extended_stays move_one_stays : stays.
Lemma move_loop_stays inverse l ret : stays PS (RboxSync.move_loop inverse l ret).
Proof. revert ret. induction l as [|seq l IH]; intros ret; cbn [RboxSync.move_loop]; stay. Qed.
#[local] Hint Resolve move_loop_stays : stays.
Lemma sync_move_to_alt_stays seq1 seq2 inverse : stays PS (RboxSync.move_to_alt mb seq1 seq2 inverse).
Proof. unfold RboxSync.move_to_alt. stay. Qed.
Lemma update_flags_of_stays alt oid add rem ret : stays PS (RboxSync.update_flags_of (W:=W) alt oid add rem ret).
Proof.
  intros [c [r w]] Hs. unfold RboxSync.update_flags_of. destruct (Rbox.storage_ms alt r) as [ms|]; [|done].
  pose proof (ms_load_stays ms (Mail.set_oid oid Mail.new) w Hs) as Hl.
  destruct (ms_load_metadata ms _ w) as [[[loaded|] mail] w1]; [|done]. case_decide; [done|].
  destruct (string_to_flags <$> _) as [[flags|]|]; [|done|done].
  destruct (flags_to_string _ _) as [[] text]; [|done].
  pose proof (ms_set_stays ms mail (Metadata.convert_string RBOX_METADATA_OLDV1_FLAGS text) w1 Hl).
  by destruct (ms_set_metadata ms mail _ w1) as [[? ?] ?].
Qed.
#[local] Hint Resolve sync_move_to_alt_stays update_flags_of_stays : stays.
Lemma update_flags_stays seq1 seq2 add rem : stays PS (RboxSync.update_flags mb seq1 seq2 add rem).
Proof.
  unfold RboxSync.update_flags. generalize 0 as ret. induction (RboxSync.seqs seq1 seq2) as [|seq l IH];
    intros ret; cbn [RboxSync.update_flags_loop]; stay.
Qed.
#[local] Hint Resolve update_flags_stays : stays.
Lemma sync_one_stays rec seq1 seq2 : stays PS (RboxSync.sync_one mb rec seq1 seq2).
Proof. unfold RboxSync.sync_one. stay. Qed.
#[local] Hint Resolve sync_one_stays : stays.
Lemma sync_records_stays recs : stays PS (RboxSync.sync_records mb recs).
Proof. induction recs as [|rec recs IH]; cbn [RboxSync.sync_records]; stay. Qed.
End index.
End cluster.

#[export] Hint Resolve find_mails_stays ceph_index_read_stays ceph_index_overwrite_stays find_mails_async_stays ms_load_stays ms_update_stays
  storage_world_stays : stays.

(** ** The index log

    No call to the cluster records anything in the index. *)
Class QuietCluster (W : Type) `{DovecotLaws W} `{RadosAdmin W} : Prop :=
  quiet_cluster : ∀ l, ClusterKeeps (λ w, ix_log w = l).

Lemma quiet_keeps `{QuietCluster W} (Q : list index_action → Prop) : ClusterKeeps (λ w, Q (ix_log w)).
Proof.
  assert (Hq : ∀ A (m : ST W A), (∀ l, triple (λ w, ix_log w = l) m (λ _ w, ix_log w = l)) →
    triple (λ w, Q (ix_log w)) m (λ _ w, Q (ix_log w))).
  { intros A m Hm w Hw. by rewrite (Hm (ix_log w) w eq_refl). }
  split; [split|..]; intros; apply Hq; intros l; pose proof (quiet_cluster l); by_call.
Qed.

#[export] Instance dv_quiet : QuietCluster MemDovecot.
Proof.
  assert (Hc : ∀ A (m : ST MemCluster A) l, triple (λ w, ix_log w = l) (MemDv.cluster m) (λ _ w, ix_log w = l)).
  { intros A m l [c i] Hw. cbn in *. by destruct (m c). }
  intros l. split; [split|..]; intros; apply Hc.
Qed.
