(* ===== verification/DovecotBox.v ===== *)
(** The second half of the interface to Dovecot: a mailbox's index header, its
    index transactions, the list of mailboxes and the beginning of a
    synchronisation. Opening a mailbox makes its index the one that the calls
    refer to. [MemDovecot] has one mailbox, INBOX. *)
From S2P Require Export RboxSync.

(** [struct rbox_index_header] (rbox-storage-struct.h); an empty guid is [None]. *)
Record rbox_index_header := mk_index_header {
  ih_rebuild_count : Z;
  ih_mailbox_guid : option string;
  ih_flags : Z;
}.

(** What the plugin reads of Dovecot's index header. *)
Record mail_index_header := mk_mail_header {
  mh_uid_validity : Z;
  mh_next_uid : Z;
  mh_first_recent_uid : Z;
  mh_fsckd : bool;
}.

(** An entry of the list of mailboxes. *)
Record mailbox_info := mk_info {
  mi_vname : string;
  mi_selectable : bool;                      (** neither [NONEXISTENT] nor [NOSELECT] *)
  mi_other_storage : bool;                   (** of another storage *)
  mi_virtual : bool;
}.

Class DovecotBoxes (W : Type) := {
  mail_index_get_header_ext : Z → W → Z * rbox_index_header;   (** the size, and the data read as a header *)
  mail_index_header_ext_bytes : Z → W → option (list Z);       (** the same, as bytes; [None]: a null pointer *)
  mail_index_get_header : W → mail_index_header;
  mail_index_modseq_get_highest : W → Z;
  mailbox_uidvalidity_next : ST W Z;
  mail_index_transaction_commit : ST W Z;
  mail_index_reset_fscked : ST W bool;
  index_storage_get_sync_flags : W → Z;
  index_storage_expunged_sync_begin : Z → ST W (Z * list sync_rec);
  index_mailbox_want_full_sync : Z → W → bool;
  mailbox_open : string → ST W (option mailbox);               (** [None]: it failed *)
  mailbox_list_infos : string → W → list mailbox_info;         (** of a namespace *)
  mailbox_list_iter_deinit : string → ST W Z;
  mailbox_messages : string → ST W (option Z);                 (** [STATUS_MESSAGES]; [None]: it failed *)
  index_storage_mailbox_delete : ST W Z;
  mail_index_append_finish_uids : Z → ST W (list Z);           (** the uids of the new records *)
  MAIL_INDEX_SYNC_FLAG_REQUIRE_CHANGES : Z;                    (** of [enum mail_index_sync_flags] *)
  MAIL_INDEX_SYNC_FLAG_FSYNC : Z;
  MAIL_INDEX_SYNC_FLAG_AVOID_FLAG_UPDATES : Z;
  MAILBOX_SYNC_FLAG_FORCE_RESYNC : Z;                          (** of [enum mailbox_sync_flags] *)
  guid_128_from_string : string → option string;
  guid_128_from_uuid_string : string → option string;
}.

(** The synchronisations that were begun and not ended. *)
Definition open_syncs (log : list index_action) : Z :=
  foldr (λ a n, match a with IxSyncBegin => n + 1 | IxSyncCommit | IxSyncRollback => n - 1 | _ => n end) 0 log.
(** [m] neither begins nor ends a synchronisation. *)
Definition keeps_syncs {A} `{DovecotLaws W} (m : ST W A) : Prop :=
  ∀ w, open_syncs (ix_log (m w).2) = open_syncs (ix_log w).

(** What the calls record: a synchronisation is begun when the answer is
    positive, and the calls on mailboxes leave it as it is. *)
Class DovecotBoxesLaws (W : Type) `{DovecotLaws W} `{DovecotBoxes W} := {
  uidvalidity_next_law : keeps_syncs mailbox_uidvalidity_next;
  transaction_commit_law : keeps_syncs mail_index_transaction_commit;
  reset_fscked_law : keeps_syncs mail_index_reset_fscked;
  mailbox_open_law : ∀ name, keeps_syncs (mailbox_open name);
  list_iter_deinit_law : ∀ ns, keeps_syncs (mailbox_list_iter_deinit ns);
  sync_begin_law : ∀ flags w,
    open_syncs (ix_log (index_storage_expunged_sync_begin flags w).2) =
    open_syncs (ix_log w) + (if decide (0 < (index_storage_expunged_sync_begin flags w).1.1) then 1 else 0);
  append_finish_uids_law : ∀ next_uid w,
    objs (mail_index_append_finish_uids next_uid w).2 = objs w ∧
    ix_log (mail_index_append_finish_uids next_uid w).2 = ix_log w ++ [IxFinishUids next_uid];
}.

(** ** In the concrete world *)

Definition mem_mailbox (name : string) : mailbox :=
  mk_mailbox name "box-guid" 1 2 (Some "t1") None (λ _, None) (Some []) "guid9".

#[export] Instance dv_boxes : DovecotBoxes MemDovecot := {
  mail_index_get_header_ext _ w := (32, mk_index_header 0 (Some "box-guid") 0);
  mail_index_header_ext_bytes _ _ := Some (replicate 24 0);
  mail_index_get_header w := mk_mail_header 1 (Z.of_nat (size (mi_records (md_index w))) + 1) 1 false;
  mail_index_modseq_get_highest _ := 1;
  mailbox_uidvalidity_next := mret 7;
  mail_index_transaction_commit := MemDv.index (λ i,
    (mi_commit i, if decide (mi_commit i < 0) then i else MemDv.log IxTransactionCommit i));
  mail_index_reset_fscked := mret false;
  index_storage_get_sync_flags _ := 0;
  index_storage_expunged_sync_begin _ := MemDv.index (λ i, ((1, []), MemDv.log IxSyncBegin i));
  index_mailbox_want_full_sync _ _ := true;
  mailbox_open name := mret (Some (mem_mailbox name));
  mailbox_list_infos _ _ := [mk_info "INBOX" true false false];
  mailbox_list_iter_deinit _ := mret 0;
  mail_index_append_finish_uids next_uid := MemDv.index (λ i,
    let fresh := List.filter (λ p, bool_decide (ir_uid p.2 = 0)) (map_to_list (mi_records i)) in
    (seqZ next_uid (Z.of_nat (length fresh)), MemDv.log (IxFinishUids next_uid) i));
  mailbox_messages _ := MemDv.index (λ i, (Some (Z.of_nat (size (mi_records i))), i));
  index_storage_mailbox_delete := mret 0;
  MAIL_INDEX_SYNC_FLAG_REQUIRE_CHANGES := 8;
  MAIL_INDEX_SYNC_FLAG_FSYNC := 16;
  MAIL_INDEX_SYNC_FLAG_AVOID_FLAG_UPDATES := 4;
  MAILBOX_SYNC_FLAG_FORCE_RESYNC := 2;
  guid_128_from_string s := if decide (s = "") then None else Some s;
  guid_128_from_uuid_string s := if decide (s = "") then None else Some s;
}.

Lemma open_syncs_app l1 l2 : open_syncs (l1 ++ l2) = open_syncs l1 + open_syncs l2.
Proof. unfold open_syncs. induction l1 as [|a l1 IH]; cbn; [done|]. rewrite IH. destruct a; lia. Qed.

#[export] Program Instance dv_boxes_laws : DovecotBoxesLaws MemDovecot.
Next Obligation. by intros. Qed.
Next Obligation. intros [c i]. cbn -[open_syncs]. case_decide; cbn -[open_syncs]; [done|]. rewrite open_syncs_app. cbn. lia. Qed.
Next Obligation. by intros. Qed.
Next Obligation. by intros. Qed.
Next Obligation. by intros. Qed.
Next Obligation. intros flags [c i]. cbn -[open_syncs]. by rewrite open_syncs_app. Qed.
Next Obligation. by intros uid [c i]. Qed.
