(* ===== verification/RboxMailbox.v ===== *)
(** A mailbox of the plugin and its index header: the rest of
    storage-rbox/rbox-storage.cpp. *)
From S2P Require Export DovecotBox.
Local Open Scope rmb_scope.

(** What the storage knows of a corrupted index. *)
Record rbox_health := mk_health { corrupted_rebuild_count : Z; corrupted : bool }.

(** [struct mailbox_update]. *)
Record mailbox_update := mk_update {
  mu_mailbox_guid : option string;
  mu_uid_validity : Z;
  mu_min_next_uid : Z;
  mu_min_first_recent_uid : Z;
  mu_min_highest_modseq : Z;
}.

(** A namespace of Dovecot: its mailboxes' name and its owner. *)
Record mail_namespace := mk_namespace { ns_name : string; ns_owner : option string }.

#[export] Instance rbox_index_header_eq_dec : EqDecision rbox_index_header.
Proof. solve_decision. Defined.

Module RboxMailbox.
Definition SDBOX_INDEX_HEADER_MIN_SIZE : Z := 4.
(** [sizeof(struct rbox_index_header)]. *)
Definition header_size : Z := 24.
Definition zero_header : rbox_index_header := mk_index_header 0 None 0.

Section ops.
Context `{Jansson} `{Librados W} `{RadosAdmin W} `{Dovecot W} `{DovecotBoxes W}.

Definition ask {A} (f : W → A) : ST W A := λ w, (f w, w).
Definition set_ext_init_data (mb : mailbox) (hdr : rbox_index_header) : ST W unit :=
    mail_index_do (IxExtInitData (mb_hdr_ext_id mb) (ih_rebuild_count hdr) (ih_mailbox_guid hdr) (ih_flags hdr)).

(** The code, [*hdr] if it was filled, and [*need_resize_r]. *)
Definition rbox_read_header (mb : mailbox) (creating : bool) : ST W ((Z * option rbox_index_header) * bool) :=
    '(data_size, hdr) ← ask (mail_index_get_header_ext (mb_hdr_ext_id mb));
    let need_resize := bool_decide (data_size < header_size) in
    if bool_decide (data_size < SDBOX_INDEX_HEADER_MIN_SIZE) && (negb creating || negb (bool_decide (data_size = 0)))
    then mret ((-1, None), need_resize)
    else if decide (ih_mailbox_guid hdr = None) then mret ((-1, Some hdr), need_resize)
    else set_ext_init_data mb hdr ;; mret ((0, Some hdr), need_resize).

(** The mailbox's new guid. *)
Definition rbox_update_header (mb : mailbox) (creating : bool) (update : option mailbox_update) : ST W string :=
    '((ret, hdr), need_resize) ← rbox_read_header mb creating;
    let '(hdr, need_resize) := if decide (ret < 0) then (zero_header, true) else (default zero_header hdr, need_resize) in
    guid ← (match update ≫= mu_mailbox_guid, ih_mailbox_guid hdr with
            | Some g, _ => mret g
            | None, Some g => mret g
            | None, None => guid_128_generate
            end);
    let new_hdr := mk_index_header (ih_rebuild_count hdr) (Some guid) (ih_flags hdr) in
    (if need_resize : bool then mail_index_do (IxResizeHdr (mb_hdr_ext_id mb) header_size) else mret tt) ;;
    (if decide (hdr = new_hdr) then mret tt
     else mail_index_do (IxHeaderExt (mb_hdr_ext_id mb) (ih_rebuild_count new_hdr) (ih_mailbox_guid new_hdr)
                           (ih_flags new_hdr))) ;;
    mret guid.

(** [trans] is a transaction of the caller or [false] for one of its own;
    [new_inbox] is an inbox that is being created. The code and the new guid. *)
Definition rbox_mailbox_create_indexes (mb : mailbox) (creating new_inbox : bool)
      (update : option mailbox_update) (trans : bool) : ST W (Z * string) :=
    hdr ← ask mail_index_get_header;
    uid_validity ← (match update with
      | Some u => if decide (mu_uid_validity u = 0)
                  then if decide (mh_uid_validity hdr = 0) then mailbox_uidvalidity_next else mret (mh_uid_validity hdr)
                  else mret (mu_uid_validity u)
      | None => if decide (mh_uid_validity hdr = 0) then mailbox_uidvalidity_next else mret (mh_uid_validity hdr)
      end);
    (if decide (mh_uid_validity hdr = uid_validity) then mret tt else mail_index_do (IxUidValidity uid_validity)) ;;
    highest ← ask mail_index_modseq_get_highest;
    (match update with
     | None => mret tt
     | Some u =>
         (if decide (mh_next_uid hdr < mu_min_next_uid u) then mail_index_do (IxNextUid (mu_min_next_uid u))
          else mret tt) ;;
         (if decide (mu_min_first_recent_uid u ≠ 0 ∧ mh_first_recent_uid hdr < mu_min_first_recent_uid u)
          then mail_index_do (IxFirstRecentUid (mu_min_first_recent_uid u)) else mret tt) ;;
         (if decide (mu_min_highest_modseq u ≠ 0 ∧ highest < mu_min_highest_modseq u)
          then mail_index_do (IxHighestModseq (mu_min_highest_modseq u)) else mret tt)
     end) ;;
    (if new_inbox then mail_index_do (IxPop3MaxUid 0) else mret tt) ;;
    guid ← rbox_update_header mb creating update;
    if negb trans then
      ret ← mail_index_transaction_commit;
      if decide (ret < 0) then mail_index_do IxSetError ;; mret (-1, guid) else mret (0, guid)
    else mret (0, guid).

(** The flag at [flags_offset] of a header extension; [data] are its bytes. *)
Definition rbox_header_have_flag (data : list Z) (flags_offset : nat) (flag : Z) : bool :=
    let flags := default 0 (data !! flags_offset) in negb (bool_decide (Z.land flags flag = 0)).

  Abbreviation M := (ST (rbox_health * (rbox_storage * W))).
Definition rbox {A} (m : ST (rbox_storage * W) A) : M A := on_snd m.
Definition world {A} (m : ST W A) : M A := on_snd (on_snd m).
Definition health : M rbox_health := on_fst st_get.
Definition set_count (n : Z) : M unit := on_fst (st_modify (λ h, mk_health n (corrupted h))).

Definition rbox_set_mailbox_corrupted (mb : mailbox) (creating : bool) : M unit :=
    '((ret, hdr), _) ← world (rbox_read_header mb creating);
    let count := from_option ih_rebuild_count 0 hdr in
    on_fst (st_modify (λ _, mk_health (if decide (ret < 0 ∨ count = 0) then 1 else count) true)).

(** ** Deleting a mailbox *)

(** The messages of the mailboxes of a namespace; one that cannot be counted
    counts as one message. *)
Fixpoint count_messages (infos : list mailbox_info) (total_mails : Z) : ST W Z :=
    match infos with
    | [] => mret total_mails
    | info :: infos =>
        if mi_selectable info then
          status ← mailbox_messages (mi_vname info);
          count_messages infos (int32 (total_mails + default 1 status))
        else count_messages infos total_mails
    end.

(** One namespace; [ret] is the last result. [None]: the namespace has no owner. *)
Definition check_namespace (ns : mail_namespace) (ret : Z) : ST (rbox_storage * W) (option Z) :=
    infos ← on_snd (ask (mailbox_list_infos (ns_name ns)));
    total_mails ← on_snd (count_messages infos 0);
    ended ← on_snd (mailbox_list_iter_deinit (ns_name ns));
    let ret := if decide (ended < 0) then -1 else ret in
    if decide (total_mails = 0) then
      match ns_owner ns with
      | None => abort
      | Some username =>
          r ← Rbox.get;
          let uid := username +:+ PluginConfig.get_user_suffix (rb_config r) in
          Rbox.on_ns_mgr (NamespaceMgr.lookup_key uid) ;;
          Rbox.on_s (Storage.set_namespace (PluginConfig.get_user_ns (rb_config r))) ;;
          lift (Rbox.on_s (Storage.delete_mail_oid uid))
      end
    else aret ret.
Fixpoint check_users_mailbox_delete_ns_object (namespaces : list mail_namespace) (ret : Z) :
      ST (rbox_storage * W) (option Z) :=
    match namespaces with
    | [] => aret ret
    | ns :: namespaces =>
        ret ←! check_namespace ns ret;
        check_users_mailbox_delete_ns_object namespaces ret
    end.

(** [namespaces] are those from the one with the inbox on. *)
Definition rbox_storage_mailbox_delete (mb : mailbox) (namespaces : list mail_namespace) :
      ST (rbox_storage * W) (option Z) :=
    ret ← on_snd index_storage_mailbox_delete;
    if decide (ret < 0) then aret ret else
    Rbox.read_plugin_configuration (mb_getenv mb) ;;
    ret ←! Rbox.open_mailbox mb false;
    if decide (ret < 0) then aret ret else
    r ← Rbox.get;
    match PluginConfig.get_object_search_method (rb_config r) with
    | None => abort
    | Some method =>
        (if decide (method = 2 ∧ mb_name mb = "INBOX") then Rbox.on_s Storage.ceph_index_delete ;; mret tt
         else mret tt) ;;
        if negb (PluginConfig.is_rbox_check_empty_mailboxes (rb_config r)) then aret ret
        else if PluginConfig.is_user_mapping (rb_config r)
        then check_users_mailbox_delete_ns_object namespaces 0
        else aret ret
    end.
End ops.
End RboxMailbox.
