(* ===== verification/RboxRebuild.v ===== *)
(** Rebuilding the index of a user's mailboxes from the mail objects:
    storage-rbox/rbox-sync-rebuild.cpp. All objects of the user are read once,
    grouped by the guid of their mailbox, and every mailbox takes the mails of
    its group; mails that no mailbox takes are given to INBOX and the whole is
    done once more. *)
From S2P Require Export RboxMailbox FindMails.
Local Open Scope rmb_scope.

(** [std::map<std::string, std::list<RadosMail>>]. *)
Abbreviation mail_groups := (gmap string (list RadosMail)).

Record rbox_sync_rebuild_ctx := mk_rebuild { rc_alt_storage : bool; rc_next_uid : Z }.

Module Rebuild.

(** One object whose attributes were loaded. *)
Definition add_mail (mail : RadosMail) (rados_mails : mail_groups) : option mail_groups :=
  mailbox_guid ← get_metadata_key RBOX_METADATA_MAILBOX_GUID (rm_attrset mail);
  Some (<[mailbox_guid := default [] (rados_mails !! mailbox_guid) ++ [mail]]> rados_mails).

Section ops.
Context `{Jansson} `{Librados W} `{RadosAdmin W} `{Dovecot W} `{DovecotBoxes W}.
  Abbreviation R := (ST (rbox_storage * W)).
  Abbreviation M := (ST (rbox_health * (rbox_storage * W))).

Definition index (a : index_action) : R unit := on_snd (mail_index_do a).
Definition ask {A} (f : W → A) : R A := on_snd (RboxMailbox.ask f).

(** A call of the metadata module on the context of the storage or of the
    alternative one; it aborts when there is no module. *)
Definition on_ms {A} (alt_storage : bool) (f : (MetadataDefault + MetadataIma) → ST W A) : R (option A) :=
    r ← Rbox.get;
    match Rbox.storage_ms (W:=W) alt_storage r with
    | None => abort
    | Some ms => lift (on_snd (f ms))
    end.

(** ** Loading the mails *)

Definition load_one (alt_storage : bool) (oid : string) (rados_mails : mail_groups) : R (option mail_groups) :=
    '(ret, mail_object) ←! on_ms alt_storage (λ ms, ms_load_metadata ms (Mail.set_oid oid Mail.new));
    match ret with
    | None => abort
    | Some ret =>
        if bool_decide (ret < 0) || negb (validate_metadata (rm_attrset mail_object)) then aret rados_mails
        else mret (add_mail mail_object rados_mails)
    end.
Fixpoint load_mails (alt_storage : bool) (oids : list string) (rados_mails : mail_groups) : R (option mail_groups) :=
    match oids with
    | [] => aret rados_mails
    | oid :: oids =>
        rados_mails ←! load_one alt_storage oid rados_mails;
        load_mails alt_storage oids rados_mails
    end.
Definition load_rados_mail_metadata (alt_storage : bool) (mail_list : gset string) : R (option mail_groups) :=
    load_mails alt_storage (set_items mail_list) ∅.

(** ** One mailbox *)

(** [std::stoi] of a C string; a null pointer or an exception aborts. *)
Definition stoi_or_abort (s : option string) : option Z :=
    match stoi <$> s with Some (ParseOk n) => Some n | _ => None end.

Definition rbox_sync_add_object (mb : mailbox) (oi : string) (mail_obj : RadosMail) (alt_storage : bool)
      (next_uid : Z) : R (option Z) :=
    let xattr_mail_uid := get_metadata_key RBOX_METADATA_MAIL_UID (rm_attrset mail_obj) in
    let xattr_guid := get_metadata_key RBOX_METADATA_GUID (rm_attrset mail_obj) in
    seq ← on_snd (mail_index_append next_uid);
    match stoi_or_abort xattr_mail_uid with
    | None => abort
    | Some uid =>
        let uid := uint32 uid in
        (if bool_decide (uid = INT_MAX) || rm_lost_object mail_obj then mret tt
         else index (IxRebuildMetadata seq uid)) ;;
        match guid_128_from_string (c_str oi) with
        | None => aret (-1)
        | Some oid =>
            match xattr_guid with
            | None => abort
            | Some xattr_guid =>
                match guid_128_from_uuid_string xattr_guid with
                | None => aret (-1)
                | Some guid =>
                    index (IxUpdateExt seq (mb_ext_id mb) guid oid) ;;
                    (if alt_storage then index (IxUpdateFlags seq false Rbox.RBOX_INDEX_FLAG_ALT) else mret tt) ;;
                    updated ←! on_ms false (λ ms, ms_update_metadata ms (rm_oid mail_obj)
                                                     [Metadata.convert_uint RBOX_METADATA_MAIL_UID next_uid]);
                    match updated with None => abort | Some _ => aret 0 end
                end
            end
        end
    end.

(** The loop over the mails of a mailbox: the last result, the mails as they are
    afterwards and the next uid. *)
Definition restore (mail : RadosMail) : RadosMail := Mail.set_index_ref true (Mail.set_restored true mail).
Fixpoint add_objects (mb : mailbox) (alt_storage : bool) (mails : list RadosMail) (ret next_uid : Z) :
      R (option ((Z * list RadosMail) * Z)) :=
    match mails with
    | [] => aret ((ret, []), next_uid)
    | mail :: mails =>
        if rm_restored mail then
          '((ret, mails), next_uid) ←! add_objects mb alt_storage mails ret next_uid;
          aret ((ret, mail :: mails), next_uid)
        else
          ret ←! rbox_sync_add_object mb (rm_oid mail) mail alt_storage next_uid;
          if decide (ret < 0) then aret ((ret, mail :: mails), next_uid) else
          '((ret, mails), next_uid) ←! add_objects mb alt_storage mails ret (uint32 (next_uid + 1));
          aret ((ret, restore mail :: mails), next_uid)
    end.

Definition first_uid (hdr : mail_index_header) (next_uid : Z) : Z :=
    if decide (next_uid = INT_MAX) then if decide (mh_next_uid hdr = 0) then 1 else mh_next_uid hdr else next_uid.
Definition rbox_sync_rebuild_entry (mb : mailbox) (rados_mails : mail_groups) (ctx : rbox_sync_rebuild_ctx) :
      R (option (Z * mail_groups)) :=
    hdr ← ask mail_index_get_header;
    let next_uid := first_uid hdr (rc_next_uid ctx) in
    match rados_mails !! mb_mailbox_guid mb with
    | None => aret (0, rados_mails)
    | Some mails =>
        '((ret, mails), _) ←! add_objects mb (rc_alt_storage ctx) mails 0 next_uid;
        let rados_mails := <[mb_mailbox_guid mb := mails]> rados_mails in
        if decide (ret < 0) then index IxSetDeleted ;; aret (-1, rados_mails) else aret (ret, rados_mails)
    end.

Definition rbox_sync_set_uidvalidity : ST W unit :=
    hdr ← RboxMailbox.ask mail_index_get_header;
    uid_validity ← (if decide (mh_uid_validity hdr = 0) then mailbox_uidvalidity_next else mret (mh_uid_validity hdr));
    mail_index_do (IxUidValidity uid_validity).

Definition rbox_sync_update_header (mb : mailbox) : ST W unit :=
    '((ret, hdr), _) ← RboxMailbox.rbox_read_header mb false;
    let hdr := if decide (ret < 0) then RboxMailbox.zero_header else default RboxMailbox.zero_header hdr in
    guid ← (match ih_mailbox_guid hdr with Some g => mret g | None => guid_128_generate end);
    let count := uint32 (ih_rebuild_count hdr + 1) in
    RboxMailbox.set_ext_init_data mb
      (mk_index_header (if decide (count = 0) then 1 else count) (Some guid) (ih_flags hdr)).

Definition rbox_sync_index_rebuild_objects (mb : mailbox) (rados_mails : mail_groups) :
      R (option (Z * mail_groups)) :=
    on_snd rbox_sync_set_uidvalidity ;;
    r ←! rbox_sync_rebuild_entry mb rados_mails (mk_rebuild false INT_MAX);
    on_snd (rbox_sync_update_header mb) ;;
    aret r.

(** The mailbox was rebuilt by another process since it was found corrupted. *)
Definition already_rebuilt (hdr : option rbox_index_header) (count : Z) : bool :=
    match hdr with
    | Some hdr => negb (bool_decide (ih_rebuild_count hdr = count)) && negb (bool_decide (ih_rebuild_count hdr = 0))
    | None => false
    end.

Definition rbox_sync_index_rebuild (mb : mailbox) (force : bool) (rados_mails : mail_groups) :
      M (option (Z * mail_groups)) :=
    h ← RboxMailbox.health;
    others ← (if negb force then
                '((ret, hdr), _) ← RboxMailbox.world (RboxMailbox.rbox_read_header mb false);
                mret (bool_decide (ret = 0) && already_rebuilt hdr (corrupted_rebuild_count h))
              else mret false);
    if (others : bool) then RboxMailbox.set_count 0 ;; aret (0, rados_mails) else
    RboxMailbox.world (mail_index_do IxRebuildInit) ;;
    '(ret, rados_mails) ←! RboxMailbox.rbox (rbox_sync_index_rebuild_objects mb rados_mails);
    RboxMailbox.world (mail_index_do IxRebuildDeinit) ;;
    ret ← (if decide (ret < 0) then RboxMailbox.world (mail_index_do IxTransactionRollback) ;; mret ret
           else RboxMailbox.world (mail_index_do IxUnsetFscked ;; mail_index_transaction_commit));
    RboxMailbox.set_count 0 ;;
    aret (ret, rados_mails).

(** ** All mailboxes *)

(** What [psize] and [pseed] hold before they are assigned. *)
Variable junk : Z.

(** The objects of the user, by the configured search method. *)
Definition search_mails : R (option (gset string)) :=
    r ← Rbox.get;
    match PluginConfig.get_object_search_method (rb_config r) with
    | None => abort
    | Some method =>
        if decide (method = 1) then
          match PluginConfig.get_object_search_threads (rb_config r) with
          | None => abort
          | Some _ => Rbox.on_s (FindMails.find_mails_async junk (st_pool_name (rb_s r)))
          end
        else if decide (method = 2) then lift (Rbox.on_s (Storage.ceph_index_read junk))
        else oids ← Rbox.on_s (Storage.find_mails None); aret (list_to_set oids)
    end.
(** Every object that was loaded. *)
Definition valid_objects (rados_mails : mail_groups) : gset string :=
    list_to_set (rm_oid <$> concat (snd <$> map_items rados_mails)).
Definition load_all : R (option mail_groups) :=
    mail_list ←! search_mails;
    rados_mails ←! load_rados_mail_metadata false mail_list;
    r ← Rbox.get;
    match PluginConfig.get_object_search_method (rb_config r) with
    | None => abort
    | Some method =>
        (if decide (method = 2) then Rbox.on_s (Storage.ceph_index_overwrite (valid_objects rados_mails)) ;; mret tt
         else mret tt) ;;
        aret rados_mails
    end.

(** The loop over the mailboxes of a namespace: the answer ([None] when the loop
    ran to its end) and the mails. *)
Fixpoint repair_mailboxes (infos : list mailbox_info) (force : bool) (rados_mails : mail_groups) (ret : Z) :
      M (option ((option Z * Z) * mail_groups)) :=
    match infos with
    | [] => aret ((None, ret), rados_mails)
    | info :: infos =>
        if negb (mi_selectable info) then repair_mailboxes infos force rados_mails ret else
        if mi_other_storage info || mi_virtual info then aret ((Some 0, ret), rados_mails) else
        mb ← RboxMailbox.world (mailbox_open (mi_vname info));
        match mb with
        | None => aret ((Some (-1), ret), rados_mails)
        | Some mb =>
            loaded ←! (if decide (rados_mails = ∅) then
                         opened ←! RboxMailbox.rbox (Rbox.open_mailbox mb false);
                         if decide (opened < 0) then aret None
                         else groups ←! RboxMailbox.rbox load_all; aret (Some groups)
                       else aret (Some rados_mails));
            match loaded with
            | None => aret ((Some (-1), ret), rados_mails)
            | Some rados_mails =>
                '(ret, rados_mails) ←! rbox_sync_index_rebuild mb force rados_mails;
                repair_mailboxes infos force rados_mails ret
            end
        end
    end.
Definition repair_namespace (ns : string) (force : bool) (rados_mails : mail_groups) : M (option (Z * mail_groups)) :=
    infos ← RboxMailbox.world (RboxMailbox.ask (mailbox_list_infos ns));
    '((early, ret), rados_mails) ←! repair_mailboxes infos force rados_mails 0;
    match early with
    | Some ret => aret (ret, rados_mails)
    | None =>
        ended ← RboxMailbox.world (mailbox_list_iter_deinit ns);
        aret (if decide (ended < 0) then -1 else ret, rados_mails)
    end.
(** The results of the namespaces are not looked at. *)
Fixpoint repair_namespaces (namespaces : list string) (force : bool) (rados_mails : mail_groups) :
      M (option mail_groups) :=
    match namespaces with
    | [] => aret rados_mails
    | ns :: namespaces =>
        '(_, rados_mails) ←! repair_namespace ns force rados_mails;
        repair_namespaces namespaces force rados_mails
    end.

(** ** The inbox *)

Fixpoint find_inbox_loop (infos : list mailbox_info) (ret : Z) (guid : option string) :
      ST W ((option Z * Z) * option string) :=
    match infos with
    | [] => mret ((None, ret), guid)
    | info :: infos =>
        if negb (mi_selectable info) then find_inbox_loop infos ret guid else
        if mi_virtual info then mret ((Some (-1), ret), guid) else
        mb ← mailbox_open (mi_vname info);
        match mb with
        | None => mret ((Some (-1), ret), guid)
        | Some mb =>
            if decide (mi_vname info = "INBOX") then find_inbox_loop infos 0 (Some (mb_mailbox_guid mb))
            else find_inbox_loop infos ret guid
        end
    end.
(** The code and the guid, if it was assigned. *)
Definition find_inbox_mailbox_guid (ns : string) : ST W (Z * option string) :=
    infos ← RboxMailbox.ask (mailbox_list_infos ns);
    '((early, ret), guid) ← find_inbox_loop infos (-1) None;
    match early with
    | Some ret => mret (ret, guid)
    | None =>
        ended ← mailbox_list_iter_deinit ns;
        mret (if decide (ended < 0) then -1 else ret, guid)
    end.
Fixpoint find_default_mailbox_guid (namespaces : list string) : ST W (option string) :=
    match namespaces with
    | [] => mret None
    | ns :: namespaces =>
        '(ret, guid) ← find_inbox_mailbox_guid ns;
        if decide (ret = 0) then mret (Some (default "" guid)) else find_default_mailbox_guid namespaces
    end.

(** ** The rebuild of a user *)

Definition unassigned (rados_mails : mail_groups) : list RadosMail :=
    List.filter (λ mail, negb (rm_restored mail)) (concat (snd <$> map_items rados_mails)).

(** The object of a mail is given to INBOX. *)
Definition reset_ops (guid : string) : list write_op :=
    let metadata := Metadata.convert_string RBOX_METADATA_MAILBOX_GUID guid in
    let metadata_uid := Metadata.convert_int RBOX_METADATA_MAIL_UID INT_MAX in
    [OpSetxattr (c_str (md_key metadata_uid)) (md_bl metadata_uid); OpSetxattr (c_str (md_key metadata)) (md_bl metadata)].
Definition assign_to_inbox (guid : string) (mail : RadosMail) : R unit :=
    r ← Rbox.get;
    on_snd (io_operate (st_io_ctx (rb_s r)) (rm_oid mail) (reset_ops guid)) ;; mret tt.

(** One pass; [again] is what is done when mails were given to INBOX. *)
Definition rebuild_pass (namespaces : list string) (force : bool) (again : M (option Z)) : M (option Z) :=
    rados_mails ←! repair_namespaces namespaces force ∅;
    match unassigned rados_mails with
    | [] => aret 0
    | mails =>
        inbox ← RboxMailbox.world (find_default_mailbox_guid namespaces);
        match inbox with
        | None => aret 0
        | Some guid => RboxMailbox.rbox (st_iter (assign_to_inbox guid) mails) ;; again
        end
    end.
(** [namespaces] are those from the one with the inbox on. *)
Definition rbox_storage_rebuild_in_context (namespaces : list string) (force firstTry : bool) : M (option Z) :=
    rebuild_pass namespaces force
      (if firstTry then rebuild_pass namespaces force (aret (-1)) else aret (-1)).
End ops.
End Rebuild.
