(* ===== verification/RebuildSpec.v ===== *)
(** What a rebuild promises: every mail of a mailbox gets one record of the index
    with a uid of its own, and the mails no mailbox takes are given to INBOX. *)
From S2P Require Export RboxRebuild.

Module RebuildSpec.

(** ** What the index log shows *)

(** The uids appended, and the guids and objects recorded. *)
Definition appended (log : list index_action) : list Z :=
  omap (λ a, match a with IxAppend uid => Some uid | _ => None end) log.
Definition recorded (log : list index_action) : list (string * string) :=
  omap (λ a, match a with IxUpdateExt _ _ guid oid => Some (guid, oid) | _ => None end) log.

(** The mails that an entry has still to restore, and the group afterwards. *)
Definition fresh (mails : list RadosMail) : list RadosMail := List.filter (λ mail, negb (rm_restored mail)) mails.
Definition all_restored (mails : list RadosMail) : list RadosMail :=
  (λ mail, if rm_restored mail then mail else Rebuild.restore mail) <$> mails.

(** The record of a mail, when its guid and its object's name can be read. *)
Definition mail_record `{DovecotBoxes W} (mail : RadosMail) : option (string * string) :=
  oid ← guid_128_from_string (c_str (rm_oid mail));
  xattr_guid ← get_metadata_key RBOX_METADATA_GUID (rm_attrset mail);
  guid ← guid_128_from_uuid_string xattr_guid;
  Some (guid, oid).

Lemma appended_app l1 l2 : appended (l1 ++ l2) = appended l1 ++ appended l2.
Proof. apply omap_app. Qed.
Lemma recorded_app l1 l2 : recorded (l1 ++ l2) = recorded l1 ++ recorded l2.
Proof. apply omap_app. Qed.
Lemma restored_restore mail : rm_restored (Rebuild.restore mail) = true.
Proof. by destruct mail. Qed.
Lemma all_restored_spec mails : Forall (λ mail, rm_restored mail = true) (all_restored mails).
Proof.
  unfold all_restored. rewrite Forall_fmap. apply list.Forall_forall. intros mail _. cbn.
  destruct (rm_restored mail) eqn:E; [done|apply restored_restore].
Qed.
Lemma fresh_restored mails : fresh (all_restored mails) = [].
Proof.
  unfold fresh. induction (all_restored_spec mails) as [|mail l Hm _ IH]; [done|]. cbn. by rewrite Hm.
Qed.

Section proofs.
Context `{Jansson} `{DovecotLaws W} `{RadosAdmin W} `{!DovecotBoxes W}.

(** ** One step of a rebuild

    [adv keys new s s']: the storage stays, the log grows by [new], and only the
    objects of [keys] change. *)
Definition adv (keys : list (ioctx * string)) (new : list index_action) (s s' : rbox_storage * W) : Prop :=
  s'.1 = s.1 ∧ ix_log s'.2 = ix_log s.2 ++ new ∧
  ∀ k, k ∉ keys → objs s'.2 !! k = objs s.2 !! k.

Lemma adv_refl s : adv [] [] s s.
Proof. split; [done|]. split; [by rewrite app_nil_r|done]. Qed.
Lemma adv_trans k1 k2 n1 n2 s1 s2 s3 :
  adv k1 n1 s1 s2 → adv k2 n2 s2 s3 → adv (k1 ++ k2) (n1 ++ n2) s1 s3.
Proof.
  intros (E1 & L1 & O1) (E2 & L2 & O2). split; [congruence|]. split; [by rewrite L2, L1, (assoc_L (++))|].
  intros k Hk. rewrite list.elem_of_app in Hk. rewrite O2, O1; [done|naive_solver..].
Qed.

Lemma index_adv a s : adv [] [a] s (Rebuild.index a s).2.
Proof.
  destruct s as [r w]. unfold Rebuild.index. rewrite on_snd_run. cbn.
  destruct (index_do_law a w) as [Eo El]. split; [done|]. split; [done|]. intros k _. cbn. by rewrite Eo.
Qed.
Lemma append_adv uid s : adv [] [IxAppend uid] s (on_snd (mail_index_append uid) s : Z * (rbox_storage * W)).2.
Proof.
  destruct s as [r w]. rewrite on_snd_run. cbn. destruct (index_append_law uid w) as [Eo El].
  split; [done|]. split; [done|]. intros k _. cbn. by rewrite Eo.
Qed.

(** The attributes of one object are updated. *)
Lemma update_adv io (ms : MetadataDefault + MetadataIma) oid l r (w : W) :
  ms_io_ctx (W:=W) ms = io → adv [(io, oid)] [] (r, w) (r, (ms_update_metadata ms oid l w).2).
Proof.
  intros <-. split; [done|]. rewrite app_nil_r. cbn [snd].
  enough (ix_log (ms_update_metadata ms oid l w).2 = ix_log w ∧
    ∀ k, k ≠ (ms_io_ctx (W:=W) ms, oid) → objs (ms_update_metadata ms oid l w).2 !! k = objs w !! k) as [El Eo].
  { split; [done|]. intros k Hk. apply Eo. set_solver. }
  refine (update_metadata_keeps
    (λ w', ix_log w' = ix_log w ∧ ∀ k, k ≠ (ms_io_ctx (W:=W) ms, oid) → objs w' !! k = objs w !! k)
    oid ms l _ _ w _); [..|done].
  - intros w' [El Eo]. rewrite getxattrs_log, omap_get_keys_log.
    pose proof (getxattrs_law (ms_io_ctx (W:=W) ms) oid w') as L1.
    pose proof (omap_get_keys_law (ms_io_ctx (W:=W) ms) oid w') as L2.
    destruct (io_getxattrs _ _ w') as [[? ?] w1], (io_omap_get_keys _ _ w') as [[? ?] w2].
    cbn [fst snd]. destruct L1 as [-> _], L2 as [-> _]. split; [done|]. split; [done|]. intros ks.
    rewrite omap_get_vals_by_keys_log.
    pose proof (omap_get_vals_by_keys_law (ms_io_ctx (W:=W) ms) oid ks w') as L3.
    destruct (io_omap_get_vals_by_keys _ _ _ w') as [[? ?] w3]. cbn [fst snd]. by destruct L3 as [-> _].
  - intros ops w' [El Eo]. rewrite aio_operate_log. split; [done|].
    intros k Hk. by rewrite aio_operate_frame, Eo.
Qed.
Lemma adv_keys k1 k2 new s s' : (∀ k, k ∈ k1 → k ∈ k2) → adv k1 new s s' → adv k2 new s s'.
Proof. intros Hk (E & El & Eo). split; [done|]. split; [done|]. intros k Hn. apply Eo. naive_solver. Qed.

Lemma on_ms_some {A} (f : (MetadataDefault + MetadataIma) → ST W A) alt s a s' :
  Rebuild.on_ms alt f s = (Some a, s') →
  ∃ ms, Rbox.storage_ms (W:=W) alt s.1 = Some ms ∧ a = (f ms s.2).1 ∧ s' = (s.1, (f ms s.2).2).
Proof.
  destruct s as [r w]. unfold Rebuild.on_ms. rewrite bind_eq, rbox_get_run. cbn [fst snd].
  destruct (Rbox.storage_ms alt r) as [ms|]; [|done]. rewrite lift_run, on_snd_run. cbn. intros [= <- <-]. by exists ms.
Qed.
Lemma storage_ms_io alt r ms :
  Rbox.storage_ms (W:=W) alt r = Some ms → ms_io_ctx (W:=W) ms = st_io_ctx (if alt then rb_alt r else rb_s r).
Proof.
  unfold Rbox.storage_ms. destruct (rb_ms r) as [ms'|]; [|done]. cbn. intros [= <-].
  by destruct ms' as [[?]|[? ?]].
Qed.

(** The object of a mail, where the storage looks for it. *)
Definition mail_key (s : rbox_storage * W) (mail : RadosMail) : ioctx * string := (st_io_ctx (rb_s s.1), rm_oid mail).

(** A request that appends and records nothing, made or not. *)
Lemma quiet_adv (b : bool) a s :
  appended [a] = [] → recorded [a] = [] →
  ∃ l s', (if b then Rebuild.index a else mret tt) s = (tt, s') ∧ adv [] l s s' ∧ appended l = [] ∧ recorded l = [].
Proof.
  intros Ha Hr. destruct b; [|exists [], s; by split; [|split; [apply adv_refl|]]].
  exists [a]. pose proof (index_adv a s) as A. destruct (Rebuild.index a s) as [[] s1]. by exists s1.
Qed.
Lemma if_negb {A} (b : bool) (x y : A) : (if b then x else y) = (if negb b then y else x).
Proof. by destruct b. Qed.

(** Adding one mail appends one record for it, which is filled in unless its
    guid or the name of its object cannot be read. *)
Lemma add_object_spec mb mail alt uid s ret s' :
  Rebuild.rbox_sync_add_object mb (rm_oid mail) mail alt uid s = (Some ret, s') →
  ∃ new, adv [mail_key s mail] new s s' ∧ appended new = [uid] ∧
    recorded new = option_list (mail_record mail) ∧ ret = if mail_record mail then 0 else -1.
Proof.
  unfold Rebuild.rbox_sync_add_object. rewrite bind_eq.
  pose proof (append_adv uid s) as A1. revert A1.
  destruct (on_snd (mail_index_append uid) s) as [seq s1]. cbn [fst snd]. intros A1.
  destruct (Rebuild.stoi_or_abort _) as [uid0|]; [|done].
  rewrite (if_negb (bool_decide (uint32 uid0 = INT_MAX) || rm_lost_object mail)).
  destruct (quiet_adv (negb (bool_decide (uint32 uid0 = INT_MAX) || rm_lost_object mail))
    (IxRebuildMetadata seq (uint32 uid0)) s1 eq_refl eq_refl) as (l1 & s2 & E1 & A2 & La1 & Lr1).
  rewrite (bind_run _ _ _ _ _ E1). pose proof (adv_trans _ _ _ _ _ _ _ A1 A2) as A3. clear A1 A2 E1.
  unfold mail_record.
  assert (Hstop : ∃ new, adv [mail_key s mail] new s s2 ∧ appended new = [uid] ∧ recorded new = []).
  { eexists. split; [eapply adv_keys, A3; set_solver|]. by rewrite appended_app, recorded_app, La1, Lr1. }
  destruct (guid_128_from_string _) as [oid|]; cbn [mbind option_bind].
  2: { rewrite aret_run. intros [= <- <-]. destruct Hstop as (new & ? & ? & ?). by exists new. }
  destruct (get_metadata_key RBOX_METADATA_GUID _) as [xg|]; cbn [mbind option_bind]; [|done].
  destruct (guid_128_from_uuid_string xg) as [guid|]; cbn [mbind option_bind].
  2: { rewrite aret_run. intros [= <- <-]. destruct Hstop as (new & ? & ? & ?). by exists new. }
  clear Hstop. rewrite bind_eq. pose proof (index_adv (IxUpdateExt seq (mb_ext_id mb) guid oid) s2) as A4. revert A4.
  destruct (Rebuild.index _ s2) as [[] s3]. cbn [fst snd]. intros A4.
  destruct (quiet_adv alt (IxUpdateFlags seq false Rbox.RBOX_INDEX_FLAG_ALT) s3 eq_refl eq_refl)
    as (l2 & s4 & E2 & A5 & La2 & Lr2).
  rewrite (bind_run _ _ _ _ _ E2). clear E2.
  pose proof (adv_trans _ _ _ _ _ _ _ A3 (adv_trans _ _ _ _ _ _ _ A4 A5)) as A6. clear A3 A4 A5.
  rewrite abind_eq. destruct (Rebuild.on_ms _ _ s4) as [[u|] s5] eqn:Eu; cbn [fst snd]; [|done].
  destruct u; [|done]. rewrite aret_run. intros [= <- <-].
  apply on_ms_some in Eu. destruct Eu as (ms & Hms & _ & ->), s4 as [r4 w4]. cbn [fst snd] in *.
  exists ((([IxAppend uid] ++ l1) ++ [IxUpdateExt seq (mb_ext_id mb) guid oid] ++ l2) ++ []).
  split; [|by rewrite !appended_app, !recorded_app, La1, Lr1, La2, Lr2].
  pose proof (proj1 A6) as Er. cbn in Er. subst r4.
  refine (adv_keys _ _ _ _ _ _ (adv_trans _ _ _ _ _ _ _ A6 (update_adv _ ms _ _ _ _ (storage_ms_io _ _ _ Hms)))).
  done.
Qed.
Lemma seqZ_cons1 u n : 0 <= n → seqZ u (1 + n) = [u] ++ seqZ (u + 1) n.
Proof. intros Hn. rewrite seqZ_app by lia. done. Qed.

(** The outcome of a run over the mails of a group: every mail that was not
    restored has its record, or the first one that cannot be recorded stops it. *)
Definition entry_outcome (mails mails' : list RadosMail) (uid ret : Z) (new : list index_action) : Prop :=
  (0 <= ret ∧ mails' = all_restored mails ∧ appended new = seqZ uid (Z.of_nat (length (fresh mails))) ∧
   Some <$> recorded new = mail_record <$> fresh mails) ∨
  (ret = -1 ∧ ∃ n mail, fresh mails !! n = Some mail ∧ mail_record mail = None ∧
   appended new = seqZ uid (Z.of_nat n + 1) ∧ Some <$> recorded new = mail_record <$> take n (fresh mails) ∧
   length (fresh mails') = (length (fresh mails) - n)%nat).

Lemma entry_outcome_skip mail mails mails' uid ret new :
  rm_restored mail = true → entry_outcome mails mails' uid ret new →
  entry_outcome (mail :: mails) (mail :: mails') uid ret new.
Proof. unfold entry_outcome, fresh, all_restored. intros Hm. cbn. rewrite Hm. cbn. naive_solver. Qed.

Lemma entry_outcome_add mail p mails mails' uid ret new1 new :
  rm_restored mail = false → mail_record mail = Some p → appended new1 = [uid] → recorded new1 = [p] →
  entry_outcome mails mails' (uid + 1) ret new →
  entry_outcome (mail :: mails) (Rebuild.restore mail :: mails') uid ret (new1 ++ new).
Proof.
  unfold entry_outcome, fresh, all_restored. intros Hm Hp Ha Hr. cbn [List.filter fmap list_fmap].
  rewrite Hm, appended_app, recorded_app, Ha, Hr, restored_restore. cbn [negb length].
  intros [(? & -> & -> & E)|(-> & n & m & Hn & Hnr & -> & E & El)].
  - left. split; [done|]. split; [done|]. rewrite Nat2Z.inj_succ, <- Z.add_1_l, seqZ_cons1 by lia.
    split; [done|]. cbn. by rewrite Hp, E.
  - right. split; [done|]. exists (S n), m. split; [done|]. split; [done|].
    rewrite (Nat2Z.inj_succ n), <- Z.add_1_l, <- (Z.add_assoc 1), seqZ_cons1 by lia.
    split; [done|]. cbn. rewrite Hp, E. split; [done|]. exact El.
Qed.

Lemma add_objects_spec mb alt mails ret0 uid s ret mails' uid' s' :
  0 <= ret0 → 0 <= uid → uid + Z.of_nat (length mails) < 2 ^ 32 →
  Rebuild.add_objects mb alt mails ret0 uid s = (Some ((ret, mails'), uid'), s') →
  ∃ new, adv (mail_key s <$> mails) new s s' ∧ entry_outcome mails mails' uid ret new.
Proof.
  revert ret0 uid s ret mails' uid' s'. induction mails as [|mail mails IH]; intros ret0 uid s ret mails' uid' s' Hr0 Hu Hn.
  { cbn. intros [= <- <- <- <-]. exists []. split; [apply adv_refl|]. by left. }
  cbn [Rebuild.add_objects length] in *. destruct (rm_restored mail) eqn:Er.
  - rewrite abind_eq. destruct (Rebuild.add_objects mb alt mails ret0 uid s) as [[[[r1 l1] u1]|] s1] eqn:E; [|done].
    cbn [fst snd]. rewrite aret_run. intros [= <- <- <- <-].
    apply IH in E as (new & A & O); [|lia..]. exists new. split; [|by apply entry_outcome_skip].
    eapply adv_keys, A. cbn. set_solver.
  - rewrite abind_eq. destruct (Rebuild.rbox_sync_add_object mb (rm_oid mail) mail alt uid s) as [[r1|] s1] eqn:E; [|done].
    cbn [fst snd]. apply add_object_spec in E as (new1 & A1 & Ha & Hr & ->).
    destruct (mail_record mail) as [p|] eqn:Ep.
    + rewrite decide_False by lia. rewrite abind_eq, (wrap_u_small 32 (uid + 1)) by lia.
      destruct (Rebuild.add_objects mb alt mails 0 (uid + 1) s1) as [[[[r2 l2] u2]|] s2] eqn:E2; [|done].
      cbn [fst snd]. rewrite aret_run. intros [= <- <- <- <-].
      apply IH in E2 as (new & A2 & O); [|lia..]. exists (new1 ++ new).
      split; [|by eapply entry_outcome_add].
      eapply adv_keys; [|eapply adv_trans; [exact A1|exact A2]].
      intros k. unfold mail_key. rewrite (proj1 A1). cbn. set_solver.
    + rewrite decide_True by lia. rewrite aret_run. intros [= <- <- <- <-]. exists new1.
      split; [eapply adv_keys, A1; cbn; set_solver|]. right. split; [done|]. exists 0%nat, mail.
      unfold fresh. cbn. rewrite Er, Ha, Hr. by rewrite Nat.sub_0_r.
Qed.
(** ** Grouping the mails *)

Lemma on_ms_run {A} (f : (MetadataDefault + MetadataIma) → ST W A) alt r w :
  Rebuild.on_ms alt f (r, w) =
  match Rbox.storage_ms (W:=W) alt r with
  | None => (None, (r, w))
  | Some ms => (Some (f ms w).1, (r, (f ms w).2))
  end.
Proof.
  unfold Rebuild.on_ms. rewrite bind_eq, rbox_get_run. cbn [fst snd].
  destruct (Rbox.storage_ms alt r); [|done]. by rewrite lift_run, on_snd_run.
Qed.

(** A load whose mail is taken, and the mailbox it is put to. *)
Definition accepted (load : Z * RadosMail) : bool :=
  bool_decide (0 <= load.1) && validate_metadata (rm_attrset load.2).
Definition group_of (mail : RadosMail) : string := default "" (get_metadata_key RBOX_METADATA_MAILBOX_GUID (rm_attrset mail)).
Definition put_mail (mail : RadosMail) (groups : mail_groups) : mail_groups :=
  <[group_of mail := default [] (groups !! group_of mail) ++ [mail]]> groups.

Lemma validate_has_guid m : validate_metadata m = true → is_Some (get_metadata_key RBOX_METADATA_MAILBOX_GUID m).
Proof. rewrite validate_metadata_spec. naive_solver. Qed.
Lemma add_mail_put mail groups :
  validate_metadata (rm_attrset mail) = true → Rebuild.add_mail mail groups = Some (put_mail mail groups).
Proof.
  intros Hv. destruct (validate_has_guid _ Hv) as [g Hg]. unfold Rebuild.add_mail, put_mail, group_of. by rewrite Hg.
Qed.

(** The answer of a load: none when the module is missing or aborts. *)
Definition load_result (alt : bool) (oid : string) (r : rbox_storage) (w : W) : option (Z * RadosMail) :=
  ms ← Rbox.storage_ms (W:=W) alt r;
  let '(ret, mail) := (ms_load_metadata ms (Mail.set_oid oid Mail.new) w).1 in (λ ret, (ret, mail)) <$> ret.

Lemma load_keeps_objs (ms : MetadataDefault + MetadataIma) oid (w : W) :
  let '((ret, mail), w') := ms_load_metadata ms (Mail.set_oid oid Mail.new) w in
  objs w' = objs w ∧ rm_oid mail = oid.
Proof.
  pose proof (load_metadata_keeps (λ w', objs w' = objs w) oid ms (Mail.set_oid oid Mail.new) eq_refl) as Hk.
  destruct (ms_load_metadata _ _ w) as [[ret mail] w'] eqn:E. 
  premise Hk; [|specialize (Hk w eq_refl); by rewrite E in Hk].
  intros w1 E1.
  pose proof (getxattrs_law (ms_io_ctx (W:=W) ms) oid w1) as L1.
  pose proof (omap_get_keys_law (ms_io_ctx (W:=W) ms) oid w1) as L2.
  destruct (io_getxattrs _ _ w1) as [[? ?] w2], (io_omap_get_keys _ _ w1) as [[? ?] w3].
  destruct L1 as [L1 _], L2 as [L2 _]. split; [by etransitivity|]. split; [by etransitivity|]. intros ks.
  pose proof (omap_get_vals_by_keys_law (ms_io_ctx (W:=W) ms) oid ks w1) as L3.
  destruct (io_omap_get_vals_by_keys _ _ _ w1) as [[? ?] w4]. destruct L3 as [L3 _]. by etransitivity.
Qed.

Lemma load_one_spec alt oid groups r w :
  let '(res, (r', w')) := Rebuild.load_one alt oid groups (r, w) in
  r' = r ∧ objs w' = objs w ∧
  res = (λ load, if accepted load then put_mail load.2 groups else groups) <$> load_result alt oid r w ∧
  ∀ load, load_result alt oid r w = Some load → rm_oid load.2 = oid.
Proof.
  unfold Rebuild.load_one, load_result. rewrite abind_eq, on_ms_run.
  destruct (Rbox.storage_ms alt r) as [ms|]; cbn [fst snd mbind option_bind]; [|done].
  pose proof (load_keeps_objs ms oid w) as Hk.
  destruct (ms_load_metadata ms _ w) as [[ret mail] w']. destruct Hk as [Ho Hm]. cbn [fst snd].
  destruct ret as [ret|]; cbn; [|by repeat split].
  unfold accepted. cbn.
  assert (E : bool_decide (0 <= ret) = negb (bool_decide (ret < 0))).
  { repeat case_bool_decide; try done; lia. }
  rewrite E. destruct (bool_decide (ret < 0)); cbn; [by repeat split; try intros load [= <-]|].
  destruct (validate_metadata (rm_attrset mail)) eqn:Ev; cbn; rewrite ?add_mail_put by done;
    by repeat split; try intros load [= <-].
Qed.
Definition put_load (groups : mail_groups) (load : Z * RadosMail) : mail_groups :=
  if accepted load then put_mail load.2 groups else groups.

Lemma load_mails_spec alt oids groups r w :
  let '(res, (r', w')) := Rebuild.load_mails alt oids groups (r, w) in
  r' = r ∧ objs w' = objs w ∧
  match res with
  | Some groups' => ∃ loads, (λ load, rm_oid load.2) <$> loads = oids ∧
      (∀ load, load ∈ loads → ∃ wi, objs wi = objs w ∧ load_result alt (rm_oid load.2) r wi = Some load) ∧
      groups' = foldl put_load groups loads
  | None => ∃ oid wi, oid ∈ oids ∧ objs wi = objs w ∧ load_result alt oid r wi = None
  end.
Proof.
  revert groups w. induction oids as [|oid oids IH]; intros groups w; cbn [Rebuild.load_mails].
  { cbn. split; [done|]. split; [done|]. exists []. split; [done|]. split; [|done].
    intros load Hl. by apply elem_of_nil in Hl. }
  rewrite abind_eq. pose proof (load_one_spec alt oid groups r w) as Hone.
  destruct (Rebuild.load_one alt oid groups (r, w)) as [res [r1 w1]]. destruct Hone as (-> & Eo & -> & Ho). cbn [fst snd].
  destruct (load_result alt oid r w) as [load|] eqn:El; cbn [fmap option_fmap option_map].
  2: { split; [done|]. split; [done|]. exists oid, w. split; [left|done]. }
  specialize (IH (if accepted load then put_mail load.2 groups else groups) w1).
  destruct (Rebuild.load_mails alt oids _ (r, w1)) as [[groups'|] [r2 w2]]; destruct IH as (-> & Eo2 & IH).
  - split; [done|]. split; [congruence|]. destruct IH as (loads & Hoid & Hl & ->).
    exists (load :: loads). cbn. rewrite (Ho load eq_refl), Hoid. split; [done|]. split; [|done].
    intros load' [->|Hin]%elem_of_cons; [exists w; rewrite (Ho load eq_refl); done|].
    destruct (Hl load' Hin) as (wi & Hwi & ?). exists wi. split; [congruence|done].
  - split; [done|]. split; [congruence|]. destruct IH as (oid' & wi & Hin & Hwi & ?).
    exists oid', wi. split; [by right|]. split; [congruence|done].
Qed.
End proofs.

(** ** Groups as lists *)

Lemma put_mail_lookup mail groups g :
  default [] (put_mail mail groups !! g) = default [] (groups !! g) ++ (if decide (group_of mail = g) then [mail] else []).
Proof.
  unfold put_mail. rewrite lookup_insert. case_decide; [by subst|by rewrite app_nil_r].
Qed.
Lemma foldl_put_lookup loads groups g :
  default [] (foldl put_load groups loads !! g) =
  default [] (groups !! g) ++ (snd <$> List.filter (λ load, accepted load && bool_decide (group_of load.2 = g)) loads).
Proof.
  revert groups. induction loads as [|load loads IH]; intros groups; cbn; [by rewrite app_nil_r|].
  rewrite IH. unfold put_load. destruct (accepted load); cbn; [|done].
  rewrite put_mail_lookup, <- (assoc_L (++)). f_equal. case_decide as Hd.
  - by rewrite bool_decide_eq_true_2.
  - by rewrite bool_decide_eq_false_2.
Qed.

Definition all_mails (groups : mail_groups) : list RadosMail := concat (snd <$> map_items groups).
Lemma all_mails_insert g l groups : all_mails (<[g := l]> groups) ≡ₚ l ++ all_mails (delete g groups).
Proof.
  unfold all_mails. rewrite !map_items_perm, <- insert_delete_eq.
  by rewrite map_to_list_insert by apply lookup_delete_eq.
Qed.
Lemma put_mail_perm mail groups : all_mails (put_mail mail groups) ≡ₚ mail :: all_mails groups.
Proof.
  unfold put_mail. rewrite all_mails_insert.
  destruct (groups !! group_of mail) as [l|] eqn:E; cbn [default from_option id].
  - rewrite <- (insert_id groups (group_of mail) l E) at 2. rewrite all_mails_insert. solve_Permutation.
  - by rewrite delete_id.
Qed.
Lemma foldl_put_perm loads groups :
  all_mails (foldl put_load groups loads) ≡ₚ all_mails groups ++ (snd <$> List.filter accepted loads).
Proof.
  revert groups. induction loads as [|load loads IH]; intros groups; cbn; [by rewrite app_nil_r|].
  rewrite IH. unfold put_load. destruct (accepted load); cbn; [|done].
  rewrite put_mail_perm. solve_Permutation.
Qed.
Lemma filter_sublist {A} (f : A → bool) (l : list A) : sublist (List.filter f l) l.
Proof. induction l as [|x l IH]; cbn; [done|]. destruct (f x); by constructor. Qed.
(** ** Giving mails to INBOX *)

(** The attributes of a mail that is given to the mailbox [guid]. *)
Definition reset_attrs (guid : string) (m : attrs) : attrs :=
  <[rbox_metadata_key_to_char RBOX_METADATA_MAILBOX_GUID := guid +:+ nul_string]>
  (<[rbox_metadata_key_to_char RBOX_METADATA_MAIL_UID := to_string INT_MAX +:+ nul_string]> m).
Definition given_to (guid : string) (ob ob' : robject) : Prop :=
  ob_data ob' = ob_data ob ∧ ob_omap ob' = ob_omap ob ∧ ob_xattrs ob' = reset_attrs guid (ob_xattrs ob).

Lemma reset_attrs_idem guid m : reset_attrs guid (reset_attrs guid m) = reset_attrs guid m.
Proof.
  apply map_eq. intros k. unfold reset_attrs. rewrite !lookup_insert. by repeat case_decide.
Qed.
Lemma c_str_nul s : c_str (s +:+ nul_string) = c_str s.
Proof. induction s as [|c s IH]; cbn; [done|]. by rewrite <- IH. Qed.
Lemma reset_attrs_other guid m k :
  k ≠ RBOX_METADATA_MAILBOX_GUID → k ≠ RBOX_METADATA_MAIL_UID →
  get_metadata_key k (reset_attrs guid m) = get_metadata_key k m.
Proof.
  intros Hg Hu. unfold get_metadata_key, get_metadata, reset_attrs.
  by rewrite !lookup_insert_ne by by intros E%(inj rbox_metadata_key_to_char).
Qed.
Lemma reset_attrs_guid guid m :
  get_metadata_key RBOX_METADATA_MAILBOX_GUID (reset_attrs guid m) = Some (c_str guid).
Proof. unfold get_metadata_key, get_metadata, reset_attrs. rewrite lookup_insert_eq. cbn. by rewrite c_str_nul. Qed.
Lemma reset_attrs_uid guid m :
  get_metadata_key RBOX_METADATA_MAIL_UID (reset_attrs guid m) = Some (to_string INT_MAX).
Proof.
  unfold get_metadata_key, get_metadata, reset_attrs. rewrite lookup_insert_ne, lookup_insert_eq by done. cbn [fmap option_fmap option_map].
  by rewrite c_str_nul.
Qed.
Lemma reset_attrs_valid guid m : validate_metadata m = true → validate_metadata (reset_attrs guid m) = true.
Proof.
  rewrite !validate_metadata_spec, reset_attrs_guid, reset_attrs_uid, !reset_attrs_other by done. naive_solver.
Qed.

Lemma assign_to_inbox_spec `{CalmWorld W} guid mail r (w : W) :
  calm w →
  let '(_, (r', w')) := Rebuild.assign_to_inbox guid mail (r, w) in
  let key := (st_io_ctx (rb_s r), rm_oid mail) in
  r' = r ∧ calm w' ∧ (∀ k, k ≠ key → objs w' !! k = objs w !! k) ∧
  ∀ ob, objs w !! key = Some ob → ∃ ob', objs w' !! key = Some ob' ∧ given_to guid ob ob'.
Proof.
  intros Hw. unfold Rebuild.assign_to_inbox. rewrite bind_eq, rbox_get_run. cbn [fst snd].
  rewrite bind_eq, on_snd_run. cbn [fst snd]. rewrite ret_eq.
  set (key := (st_io_ctx (rb_s r), rm_oid mail)).
  split; [done|]. split.
  { pose proof (calm_operate (st_io_ctx (rb_s r)) (rm_oid mail) (Rebuild.reset_ops guid) w Hw) as Hc.
    destruct (io_operate _ _ _ w). by destruct Hc. }
  split; [intros k Hk; by apply operate_frame|].
  destruct (calm_effect (st_io_ctx (rb_s r)) (rm_oid mail) (Rebuild.reset_ops guid) w Hw) as [now ->].
  intros ob Hob. unfold apply_ops. fold key. rewrite Hob. cbn [fmap option_fmap option_map Rebuild.reset_ops apply_obj apply_op mbind option_bind default from_option id].
  rewrite lookup_insert_eq. eexists. split; [done|]. by split.
Qed.

Lemma assign_all_spec `{CalmWorld W} guid mails r (w : W) :
  calm w →
  let '(_, (r', w')) := st_iter (Rebuild.assign_to_inbox guid) mails (r, w) in
  let keys := (λ mail, (st_io_ctx (rb_s r), rm_oid mail)) <$> mails in
  r' = r ∧ (∀ k, k ∉ keys → objs w' !! k = objs w !! k) ∧
  ∀ k ob, k ∈ keys → objs w !! k = Some ob → ∃ ob', objs w' !! k = Some ob' ∧ given_to guid ob ob'.
Proof.
  revert w. induction mails as [|mail mails IH]; intros w Hw.
  { cbn. split; [done|]. split; [done|]. intros k ob Hk. by apply elem_of_nil in Hk. }
  cbn [st_iter]. rewrite bind_eq. pose proof (assign_to_inbox_spec guid mail r w Hw) as Hone.
  destruct (Rebuild.assign_to_inbox guid mail (r, w)) as [[] [r1 w1]]. destruct Hone as (-> & Hw1 & Hf1 & Hs1).
  cbn [fst snd]. specialize (IH w1 Hw1).
  destruct (st_iter _ mails (r, w1)) as [[] [r2 w2]]. destruct IH as (-> & Hf2 & Hs2). cbn.
  split; [done|]. split.
  { intros k Hk. rewrite not_elem_of_cons in Hk. destruct Hk as [Hk Hks]. by rewrite Hf2, Hf1. }
  intros k ob Hk Hob.
  set (key := (st_io_ctx (rb_s r), rm_oid mail)) in *.
  set (keys := (λ mail, (st_io_ctx (rb_s r), rm_oid mail)) <$> mails) in *.
  assert (Hmid : ∃ ob1, objs w1 !! k = Some ob1 ∧ (ob1 = ob ∨ given_to guid ob ob1) ∧ (k ∉ keys → k = key)).
  { destruct (decide (k = key)) as [->|Hne].
    - destruct (Hs1 ob Hob) as (ob1 & ? & ?). exists ob1. eauto.
    - exists ob. rewrite Hf1 by done. split; [done|]. split; [by left|]. apply elem_of_cons in Hk. naive_solver. }
  destruct Hmid as (ob1 & Hob1 & Hrel & Hin).
  destruct (decide (k ∈ keys)) as [Hks|Hks].
  - destruct (Hs2 k ob1 Hks Hob1) as (ob2 & ? & Hg2). exists ob2. split; [done|].
    destruct Hrel as [->|Hg1]; [done|]. destruct Hg1 as (D1 & M1 & X1), Hg2 as (D2 & M2 & X2).
    split; [congruence|]. split; [congruence|]. by rewrite X2, X1, reset_attrs_idem.
  - specialize (Hin Hks) as ->. destruct (Hs1 ob Hob) as (ob2 & E2 & Hg). exists ob2. by rewrite Hf2.
Qed.
End RebuildSpec.

(** ** Properties *)

(** C23. Rebuilding a mailbox from its group of mails: the mails that were not
    restored yet are appended to the index in their order with consecutive uids
    from the next uid on, one record with guid and object name for each, and are
    then marked as restored, so that a second run appends nothing; mails that
    were restored before are left alone. The first mail whose guid or object name
    cannot be read ends the run with an error: the records of the mails before it
    were made, the mailbox is marked deleted, and it and those after it stay
    unrestored. Groups of other mailboxes and objects of other mails are not
    touched in any case. *)
Theorem rebuild_entry_restores `{Jansson} `{DovecotLaws W} `{RadosAdmin W} `{!DovecotBoxes W}
    (mb : mailbox) (groups groups' : mail_groups) (ctx : rbox_sync_rebuild_ctx) (r r' : rbox_storage) (w w' : W) (ret : Z) :
  let guid := mb_mailbox_guid mb in
  let mails := default [] (groups !! guid) in
  let mails' := default [] (groups' !! guid) in
  let uid := Rebuild.first_uid (mail_index_get_header w) (rc_next_uid ctx) in
  0 <= uid → uid + Z.of_nat (length mails) < 2 ^ 32 →
  Rebuild.rbox_sync_rebuild_entry mb groups ctx (r, w) = (Some (ret, groups'), (r', w')) →
  delete guid groups' = delete guid groups ∧ r' = r ∧
  (∀ k, k ∉ (λ mail, (st_io_ctx (rb_s r), rm_oid mail)) <$> mails → objs w' !! k = objs w !! k) ∧
  ∃ new, ix_log w' = ix_log w ++ new ∧
    ((0 <= ret ∧ mails' = RebuildSpec.all_restored mails ∧ RebuildSpec.fresh mails' = [] ∧
      RebuildSpec.appended new = seqZ uid (Z.of_nat (length (RebuildSpec.fresh mails))) ∧
      Some <$> RebuildSpec.recorded new = RebuildSpec.mail_record <$> RebuildSpec.fresh mails) ∨
     (ret = -1 ∧ (∃ before, new = before ++ [IxSetDeleted]) ∧ ∃ n mail,
      RebuildSpec.fresh mails !! n = Some mail ∧ RebuildSpec.mail_record mail = None ∧
      RebuildSpec.appended new = seqZ uid (Z.of_nat n + 1) ∧
      Some <$> RebuildSpec.recorded new = RebuildSpec.mail_record <$> take n (RebuildSpec.fresh mails) ∧
      length (RebuildSpec.fresh mails') = (length (RebuildSpec.fresh mails) - n)%nat)).
Proof.
  intros guid mails mails' uid Hu Hb. subst mails mails'.
  unfold Rebuild.rbox_sync_rebuild_entry, Rebuild.ask, RboxMailbox.ask. rewrite bind_eq, on_snd_run. cbn [fst snd].
  fold guid uid. destruct (groups !! guid) as [mails|] eqn:Eg; cbn [default from_option id] in *.
  2: { rewrite aret_run. intros [= <- <- <- <-]. rewrite Eg. split; [done|]. split; [done|]. split; [done|].
       exists []. split; [by rewrite app_nil_r|]. left. done. }
  rewrite abind_eq. destruct (Rebuild.add_objects mb _ mails 0 uid (r, w)) as [[[[r1 l1] u1]|] s1] eqn:E; [|done].
  cbn [fst snd]. apply RebuildSpec.add_objects_spec in E as (new & A & O); [|lia..].
  destruct (decide (r1 < 0)) as [Hr|Hr].
  - rewrite bind_eq. pose proof (RebuildSpec.index_adv IxSetDeleted s1) as A2. revert A2.
    destruct (Rebuild.index IxSetDeleted s1) as [[] s2]. cbn [fst snd]. intros A2.
    rewrite aret_run. intros [= <- <- ->]. pose proof (RebuildSpec.adv_trans _ _ _ _ _ _ _ A A2) as (E1 & El & Eo). cbn in E1. subst r'.
    rewrite app_nil_r in Eo. rewrite lookup_insert, decide_True by done. rewrite delete_insert_eq. cbn.
    split; [done|]. split; [done|]. split; [exact Eo|]. eexists. split; [exact El|]. right.
    destruct O as [[? _]|(_ & n & mail & Hn & Hm & Ha & Hrec & Hl)]; [lia|].
    split; [done|]. split; [by eexists|]. exists n, mail.
    rewrite RebuildSpec.appended_app, RebuildSpec.recorded_app, !app_nil_r. done.
  - rewrite aret_run. intros [= <- <- ->]. destruct A as (E1 & El & Eo). cbn in E1. subst r'.
    rewrite lookup_insert, decide_True by done. rewrite delete_insert_eq. cbn.
    split; [done|]. split; [done|]. split; [exact Eo|]. eexists. split; [exact El|]. left.
    destruct O as [(? & -> & Ha & Hrec)|[? _]]; [|lia]. by rewrite RebuildSpec.fresh_restored.
Qed.

(** The attributes of a mail, and a cluster with a mail of INBOX and one of a
    mailbox that is gone. *)
Definition mail_attrs (mailbox_guid guid uid : string) : attrs :=
  {[ "U" := uid; "R" := "100"; "Z" := "9"; "V" := "9"; "M" := mailbox_guid; "G" := guid ]}.
Definition two_mails : MemDovecot :=
  mk_mem_dovecot
    (mk_mem {[ (mk_ioctx "mail_storage" "u1", "o1") := mk_robject "From: a" (mail_attrs "box-guid" "g1" "3") ∅ 5;
               (mk_ioctx "mail_storage" "u1", "o2") := mk_robject "From: b" (mail_attrs "gone" "g2" "3") ∅ 5 ]} [] 1000)
    (mk_mem_index [] ∅ ∅ 0 [] 0).
Definition mail_of (oid mailbox_guid guid : string) : RadosMail :=
  Mail.set_oid oid (Mail.set_metadata (mail_attrs mailbox_guid guid "3") Mail.new).

Definition entry_groups : mail_groups :=
  {[ "box-guid" := [mail_of "o1" "box-guid" "g1"; Rebuild.restore (mail_of "o3" "box-guid" "g3"); mail_of "o4" "box-guid" "g4"] ]}.
Definition entry_run := Rebuild.rbox_sync_rebuild_entry (mem_mailbox "INBOX") entry_groups (mk_rebuild false INT_MAX) (ready_rbox, two_mails).
Definition entry_after : mail_groups := default ∅ (snd <$> entry_run.1).

Lemma rebuild_entry_restores_witness :
  RebuildSpec.fresh (default [] (entry_after !! "box-guid")) = [] ∧
  ∃ new, ix_log entry_run.2.2 = new ∧ RebuildSpec.appended new = [1; 2] ∧
    Some <$> RebuildSpec.recorded new = [Some ("g1", "o1"); Some ("g4", "o4")].
Proof.
  pose proof (rebuild_entry_restores (mem_mailbox "INBOX") entry_groups entry_after (mk_rebuild false INT_MAX) ready_rbox ready_rbox
    two_mails entry_run.2.2 0) as Hs. cbv zeta in Hs.
  premise Hs; [by vm_compute|]. premise Hs; [by vm_compute|]. premise Hs; [vm_compute; reflexivity|].
  destruct Hs as (_ & _ & _ & new & El & [(_ & _ & Hf & Ha & Hr)|[? _]]); [|discriminate].
  split; [exact Hf|]. exists new. split; [exact El|]. split; [exact Ha|exact Hr].
Defined.

(** C25. Loading the mails of a user partitions them by mailbox: every object of
    the list is loaded once from the unchanged cluster; the group of a mailbox
    has, in the order of the list, exactly the mails whose load succeeded, whose
    attributes are valid and name that mailbox; every such mail is in exactly one
    group, once. The program is only aborted when a load is (there is no module,
    or an attribute is not what the module expects). *)
Theorem rebuild_groups_mails `{Jansson} `{DovecotLaws W} `{RadosAdmin W} `{!DovecotBoxes W}
    (alt_storage : bool) (mail_list : gset string) (r : rbox_storage) (w : W) :
  let '(res, (r', w')) := Rebuild.load_rados_mail_metadata alt_storage mail_list (r, w) in
  r' = r ∧ objs w' = objs w ∧
  match res with
  | None => ∃ oid wi, oid ∈ mail_list ∧ objs wi = objs w ∧ RebuildSpec.load_result alt_storage oid r wi = None
  | Some groups => ∃ loads,
      (λ load, rm_oid load.2) <$> loads = set_items mail_list ∧
      (∀ load, load ∈ loads →
         ∃ wi, objs wi = objs w ∧ RebuildSpec.load_result alt_storage (rm_oid load.2) r wi = Some load) ∧
      (∀ guid, default [] (groups !! guid) =
         snd <$> List.filter (λ load, RebuildSpec.accepted load && bool_decide (RebuildSpec.group_of load.2 = guid)) loads) ∧
      RebuildSpec.all_mails groups ≡ₚ snd <$> List.filter RebuildSpec.accepted loads ∧
      NoDup (rm_oid <$> RebuildSpec.all_mails groups)
  end.
Proof.
  unfold Rebuild.load_rados_mail_metadata.
  pose proof (RebuildSpec.load_mails_spec alt_storage (set_items mail_list) ∅ r w) as Hs.
  destruct (Rebuild.load_mails alt_storage _ _ (r, w)) as [[groups|] [r' w']]; destruct Hs as (-> & Eo & Hs);
    (split; [done|]; split; [done|]).
  - destruct Hs as (loads & Hoid & Hl & ->). exists loads. split; [done|]. split; [done|].
    split; [intros guid; by rewrite RebuildSpec.foldl_put_lookup|].
    assert (Hp : RebuildSpec.all_mails (foldl RebuildSpec.put_load ∅ loads) ≡ₚ snd <$> List.filter RebuildSpec.accepted loads).
    { by rewrite RebuildSpec.foldl_put_perm. }
    split; [done|]. rewrite Hp, <- list_fmap_compose. change (rm_oid ∘ snd) with (λ load : Z * RadosMail, rm_oid load.2).
    assert (Hnd : NoDup ((λ load : Z * RadosMail, rm_oid load.2) <$> loads)).
    { rewrite Hoid. unfold set_items. rewrite merge_sort_Permutation. apply NoDup_elements. }
    eapply sublist_NoDup; [exact Hnd|apply fmap_sublist, RebuildSpec.filter_sublist].
  - destruct Hs as (oid & wi & Hin & ?). exists oid, wi. by rewrite <- elem_of_set_items.
Qed.

(** C24. The mails that no mailbox took are given to INBOX: when a pass leaves
    mails that were not restored and INBOX is found, then every object of such a
    mail keeps its contents and its other attributes, names INBOX as its mailbox,
    has the uid that says it was lost, and is still valid if it was (so that the
    next pass loads it into the group of INBOX); no other object changes, and the
    rebuild goes on with one more pass, after which it gives up. When nothing is
    left or there is no INBOX, the rebuild ends with success and touches no object. *)
Theorem rebuild_gives_rest_to_inbox `{Jansson} `{CalmWorld W} `{RadosAdmin W} `{Dovecot W} `{!DovecotBoxes W}
    (junk : Z) (namespaces : list string) (force : bool) s (groups : mail_groups) h h1 (r r1 : rbox_storage) (w w1 : W) inbox :
  let pass := Rebuild.rebuild_pass junk namespaces force in
  let mails := Rebuild.unassigned groups in
  let keys := (λ mail, (st_io_ctx (rb_s r), rm_oid mail)) <$> mails in
  Rebuild.repair_namespaces junk namespaces force ∅ s = (Some groups, (h1, (r1, w1))) →
  RboxMailbox.world (Rebuild.find_default_mailbox_guid namespaces) (h1, (r1, w1)) = (inbox, (h, (r, w))) →
  calm w →
  match mails, inbox with
  | [], _ => Rebuild.rbox_storage_rebuild_in_context junk namespaces force true s = (Some 0, (h1, (r1, w1)))
  | _, None => Rebuild.rbox_storage_rebuild_in_context junk namespaces force true s = (Some 0, (h, (r, w)))
  | _, Some guid => ∃ w',
      Rebuild.rbox_storage_rebuild_in_context junk namespaces force true s = pass (aret (-1)) (h, (r, w')) ∧
      (∀ k, k ∉ keys → objs w' !! k = objs w !! k) ∧
      ∀ k ob, k ∈ keys → objs w !! k = Some ob → ∃ ob', objs w' !! k = Some ob' ∧
        ob_data ob' = ob_data ob ∧ ob_omap ob' = ob_omap ob ∧
        get_metadata_key RBOX_METADATA_MAILBOX_GUID (ob_xattrs ob') = Some (c_str guid) ∧
        get_metadata_key RBOX_METADATA_MAIL_UID (ob_xattrs ob') = Some (to_string INT_MAX) ∧
        (∀ key, key ≠ RBOX_METADATA_MAILBOX_GUID → key ≠ RBOX_METADATA_MAIL_UID →
           get_metadata_key key (ob_xattrs ob') = get_metadata_key key (ob_xattrs ob)) ∧
        (validate_metadata (ob_xattrs ob) = true → validate_metadata (ob_xattrs ob') = true)
  end.
Proof.
  intros pass mails keys Hrep Hin Hw.
  assert (Erun : Rebuild.rbox_storage_rebuild_in_context junk namespaces force true s =
    match mails with
    | [] => aret 0
    | _ => inbox ← RboxMailbox.world (Rebuild.find_default_mailbox_guid namespaces);
           match inbox with
           | None => aret 0
           | Some guid => RboxMailbox.rbox (st_iter (Rebuild.assign_to_inbox guid) mails) ;; pass (aret (-1))
           end
    end (h1, (r1, w1))).
  { unfold Rebuild.rbox_storage_rebuild_in_context. unfold Rebuild.rebuild_pass at 1. rewrite (abind_run _ _ _ _ _ Hrep).
    subst mails. by destruct (Rebuild.unassigned groups). }
  rewrite Erun. subst keys mails. clear Erun Hrep. destruct (Rebuild.unassigned groups) as [|mail rest]; [done|].
  set (mails := mail :: rest). rewrite (bind_run _ _ _ _ _ Hin).
  destruct inbox as [guid|]; [|done].
  pose proof (RebuildSpec.assign_all_spec guid mails r w Hw) as Ha.
  destruct (st_iter _ mails (r, w)) as [[] [r2 w2]] eqn:Ei. destruct Ha as (-> & Hf & Hg). exists w2.
  split; [|split; [exact Hf|]].
  - rewrite bind_eq. unfold RboxMailbox.rbox. by rewrite on_snd_run, Ei.
  - intros k ob Hk Hob. destruct (Hg k ob Hk Hob) as (ob' & E' & Ed & Eo & Ex). exists ob'. rewrite Ex.
    split; [done|]. split; [done|]. split; [done|].
    split; [apply RebuildSpec.reset_attrs_guid|]. split; [apply RebuildSpec.reset_attrs_uid|].
    split; [intros key; apply RebuildSpec.reset_attrs_other|apply RebuildSpec.reset_attrs_valid].
Qed.

Definition before_repair : rbox_health * (rbox_storage * MemDovecot) := (mk_health 1 true, (ready_rbox, two_mails)).
Definition left_over : mail_groups := default ∅ (Rebuild.repair_namespaces 0 ["inbox"] true ∅ before_repair).1.
Definition after_repair : MemDovecot := (Rebuild.repair_namespaces 0 ["inbox"] true ∅ before_repair).2.2.2.

Lemma rebuild_gives_rest_to_inbox_witness :
  ∃ w' ob', Rebuild.rbox_storage_rebuild_in_context 0 ["inbox"] true true before_repair =
      Rebuild.rebuild_pass 0 ["inbox"] true (aret (-1)) (mk_health 0 true, (ready_rbox, w')) ∧
    objs w' !! (mk_ioctx "mail_storage" "u1", "o2") = Some ob' ∧
    get_metadata_key RBOX_METADATA_MAILBOX_GUID (ob_xattrs ob') = Some "box-guid".
Proof.
  pose proof (rebuild_gives_rest_to_inbox 0 ["inbox"] true before_repair left_over (mk_health 0 true) (mk_health 0 true)
    ready_rbox ready_rbox after_repair after_repair (Some "box-guid")) as Hr. cbv zeta in Hr.
  premise Hr; [vm_compute; reflexivity|]. premise Hr; [vm_compute; reflexivity|]. premise Hr; [vm_compute; reflexivity|].
  assert (El : Rebuild.unassigned left_over = [mail_of "o2" "gone" "g2"]).
  { vm_compute. reflexivity. }
  rewrite El in Hr. destruct Hr as (w' & Erun & _ & Hob).
  destruct (Hob (mk_ioctx "mail_storage" "u1", "o2") (mk_robject "From: b" (mail_attrs "gone" "g2" "3") ∅ 5))
    as (ob' & E2 & _ & _ & Hg & _); [apply elem_of_cons; by left|vm_compute; reflexivity|].
  exists w', ob'. split; [exact Erun|]. split; [exact E2|exact Hg].
Defined.
