(* ===== verification/SyncBegin.v ===== *)
(** Beginning a synchronisation: the rest of storage-rbox/rbox-sync.cpp. A
    mailbox may be rebuilt first; then the index begins to synchronise and the
    records of its log are handled. *)
From S2P Require Export RboxRebuild Keeps.
Local Open Scope rmb_scope.

(** [enum rbox_sync_flags]. *)
Definition RBOX_SYNC_FLAG_FORCE : Z := 1.
Definition RBOX_SYNC_FLAG_FSYNC : Z := 2.
Definition RBOX_SYNC_FLAG_FORCE_REBUILD : Z := 4.
Definition has_flag (flags flag : Z) : bool := negb (bool_decide (Z.land flags flag = 0)).

Module SyncBegin.
Definition RBOX_REBUILD_COUNT : nat := 3.

Section ops.
Context `{Jansson} `{Librados W} `{RadosAdmin W} `{Dovecot W} `{DovecotBoxes W}.
  Abbreviation M := (ST (rbox_health * (rbox_storage * W))).
  Abbreviation N := (ST (rbox_health * (rbox_sync_context * (rbox_storage * W)))).

Definition on_sync {A} (m : ST (rbox_sync_context * (rbox_storage * W)) A) : N A := on_snd m.
Definition on_box {A} (m : M A) : N A :=
    λ '(h, (c, s)), let '(a, (h, s)) := m (h, s) in (a, (h, (c, s))).

(** [junk] is what variables hold that are not initialised; [namespaces] are the
    user's from the one with the inbox on; [have_fsckd] says that the build knows
    [MAIL_INDEX_HDR_FLAG_FSCKD]. *)
Variables (junk : Z) (namespaces : list string) (have_fsckd : bool) (mb : mailbox).

Definition rbox_refresh_header (retry : bool) : ST W Z :=
    '((ret, _), _) ← RboxMailbox.rbox_read_header mb false;
    if bool_decide (ret < 0) && retry then
      mail_index_do IxRefresh ;;
      '((ret, _), _) ← RboxMailbox.rbox_read_header mb false;
      mret ret
    else mret ret.

(** The records of the log of the index, once its header is seen to be sound. *)
Definition rbox_sync_index (recs : list sync_rec) : N (option Z) :=
    hdr ← on_sync (RboxSync.ask mail_index_get_header);
    if decide (mh_uid_validity hdr = 0) then
      if decide (mh_next_uid hdr = 1) then
        '(ret, _) ← on_box (RboxMailbox.world (RboxMailbox.rbox_mailbox_create_indexes mb false false None true));
        aret (if decide (ret < 0) then -1 else 1)
      else on_box (RboxMailbox.rbox_set_mailbox_corrupted mb false) ;; aret 0
    else
      range ← on_sync (RboxSync.ask (mail_index_lookup_seq_range (mh_first_recent_uid hdr) (mh_next_uid hdr)));
      (match range with
       | Some (seq1, seq2) => on_sync (RboxSync.index (IxRecent seq1 seq2))
       | None => mret tt
       end) ;;
      on_sync (RboxSync.sync_records mb recs).

(** Whether the mailbox is to be rebuilt. *)
Definition wants_rebuild (flags : Z) : M bool :=
    h ← RboxMailbox.health;
    rebuild ←
      (if has_flag flags RBOX_SYNC_FLAG_FORCE_REBUILD || negb (bool_decide (corrupted_rebuild_count h = 0))
       then mret true
       else ret ← RboxMailbox.world (rbox_refresh_header true); mret (bool_decide (ret < 0)));
    if have_fsckd then hdr ← RboxMailbox.world (RboxMailbox.ask mail_index_get_header); mret (mh_fsckd hdr)
    else mret rebuild.

(** The loop over the attempts; the last result, [-1] when none succeeded. *)
Fixpoint rebuild_loop (force : bool) (attempts : nat) : M (option Z) :=
    match attempts with
    | O => aret (-1)
    | S attempts =>
        ret ←! Rebuild.rbox_storage_rebuild_in_context junk namespaces force true;
        if decide (ret >= 0) then RboxMailbox.world (mail_index_do IxRecentReset) ;; aret ret
        else rebuild_loop force attempts
    end.

Definition index_sync_flags (sync_flags flags : Z) (rebuild : bool) : Z :=
    let sync_flags := uint8 sync_flags in
    let sync_flags := if negb rebuild && negb (has_flag flags RBOX_SYNC_FLAG_FORCE)
                      then Z.lor sync_flags (MAIL_INDEX_SYNC_FLAG_REQUIRE_CHANGES (W:=W)) else sync_flags in
    let sync_flags := if has_flag flags RBOX_SYNC_FLAG_FSYNC
                      then Z.lor sync_flags (MAIL_INDEX_SYNC_FLAG_FSYNC (W:=W)) else sync_flags in
    uint8 (Z.lor sync_flags (MAIL_INDEX_SYNC_FLAG_AVOID_FLAG_UPDATES (W:=W))).

(** The index begins to synchronise: the answer and the records of the log. *)
Definition index_sync_begin (sync_flags : Z) : M (Z * list sync_rec) :=
    '(ret, recs) ← RboxMailbox.world (index_storage_expunged_sync_begin sync_flags);
    fscked ← RboxMailbox.world mail_index_reset_fscked;
    (if fscked : bool then RboxMailbox.rbox_set_mailbox_corrupted mb false else mret tt) ;;
    mret (ret, recs).

(** The handling of the log in a new context; [None] as a context: it was freed. *)
Definition sync_in_context (rebuild : bool) (recs : list sync_rec) (ret : Z) :
      M (option (Z * option rbox_sync_context)) :=
    λ '(h, s),
    let '(r, (h, (ctx, s))) :=
      (ret ←! (if negb rebuild then rbox_sync_index recs else aret ret);
       if decide (ret <= 0) then
         on_sync (RboxSync.index IxSyncRollback) ;;
         if decide (ret < 0) then on_sync (RboxSync.index IxExpungingDeinit) ;; aret (-1) else aret 0
       else aret 0) (h, (mk_sync [], s)) in
    ((λ ret, (ret, if decide (ret < 0) then None else Some ctx)) <$> r, (h, s)).

(** The result and the context, if one is handed out. *)
Definition rbox_sync_begin (flags : Z) : M (option (Z * option rbox_sync_context)) :=
    rebuild ← wants_rebuild flags;
    ret ←! (if (rebuild : bool) then rebuild_loop (has_flag flags RBOX_SYNC_FLAG_FORCE_REBUILD) RBOX_REBUILD_COUNT
            else aret 0);
    sync_flags ← RboxMailbox.world (RboxMailbox.ask index_storage_get_sync_flags);
    '(ret, recs) ← (if decide (ret >= 0) then index_sync_begin (index_sync_flags sync_flags flags rebuild)
                    else mret (ret, []));
    if decide (ret <= 0) then
      RboxMailbox.world (mail_index_do IxExpungingDeinit) ;; aret (ret, None)
    else sync_in_context rebuild recs ret.

(** [rbox_sync_finish] of a context that was handed out. *)
Definition finish (ctx : rbox_sync_context) (success : bool) : M (option Z) :=
    λ '(h, s), let '(ret, (_, s)) := RboxSync.rbox_sync_finish mb success (ctx, s) in (ret, (h, s)).

Definition rbox_sync (flags : Z) : M (option Z) :=
    '(ret, ctx) ←! rbox_sync_begin flags;
    if decide (ret < 0) then aret (-1) else
    match ctx with
    | None => aret 0
    | Some ctx => finish ctx true
    end.

(** The answer says whether the synchronisation failed. *)
Definition rbox_storage_sync_init (opened : bool) (flags : Z) : M (option bool) :=
    ret ← (if opened then mret 0
           else box ← RboxMailbox.world (mailbox_open (mb_name mb));
                mret (match box with Some _ => 0 | None => -1 end));
    fscked ← RboxMailbox.world mail_index_reset_fscked;
    (if fscked : bool then RboxMailbox.rbox_set_mailbox_corrupted mb false else mret tt) ;;
    h ← RboxMailbox.health;
    full ← RboxMailbox.world (RboxMailbox.ask (index_mailbox_want_full_sync flags));
    ret ←! (if bool_decide (ret = 0) && (full || negb (bool_decide (corrupted_rebuild_count h = 0)))
            then rbox_sync (if has_flag flags (MAILBOX_SYNC_FLAG_FORCE_RESYNC (W:=W)) then RBOX_SYNC_FLAG_FORCE_REBUILD else 0)
            else aret ret);
    aret (bool_decide (ret < 0)).
End ops.
End SyncBegin.

(** ** What keeps the synchronisations that are open *)

Section balance.
Context `{Jansson} `{QuietCluster W} `{!DovecotBoxes W} `{!DovecotBoxesLaws W}.
Variables (junk : Z) (namespaces : list string) (have_fsckd : bool) (n : Z).

(** [n] synchronisations are open. *)
Definition open_count (w : W) : Prop := open_syncs (ix_log w) = n.
Abbreviation P := open_count.
Abbreviation PB := (at_snd (at_snd P)).

#[local] Instance open_count_keeps : ClusterKeeps P := quiet_keeps (λ l, open_syncs l = n).
#[local] Hint Resolve open_count_keeps : stays.
#[local] Hint Extern 3 (stays P _) => by_call : stays.

Lemma index_do_stays a : no_sync a = true → stays P (mail_index_do a).
Proof.
  intros Ha w Hw. unfold open_count in *. destruct (index_do_law a w) as [_ ->]. rewrite open_syncs_app, Hw.
  destruct a; try done; cbn; lia.
Qed.
Lemma index_append_stays uid : stays P (mail_index_append uid).
Proof.
  intros w Hw. unfold open_count in *. destruct (index_append_law uid w) as [_ ->]. rewrite open_syncs_app, Hw. cbn. lia.
Qed.
Lemma keeps_syncs_stays {A} (m : ST W A) : keeps_syncs m → stays P m.
Proof. intros Hm w Hw. unfold open_count in *. by rewrite Hm. Qed.
Lemma generate_stays : stays P guid_128_generate.
Proof. intros w Hw. unfold open_count in *. by destruct (guid_generate_law w) as [_ ->]. Qed.
#[local] Hint Extern 2 (stays P (mail_index_do _)) => (apply index_do_stays; done) : stays.
#[local] Hint Resolve index_append_stays generate_stays : stays.
#[local] Hint Extern 2 (stays P _) => (apply keeps_syncs_stays; first
  [apply uidvalidity_next_law | apply transaction_commit_law | apply reset_fscked_law | apply mailbox_open_law
  | apply list_iter_deinit_law]) : stays.

Lemma ask_stays {A} (f : W → A) : stays P (RboxMailbox.ask f).
Proof. by intros w Hw. Qed.
Lemma box_rbox_stays {A} (m : ST (rbox_storage * W) A) : stays (at_snd P) m → stays PB (RboxMailbox.rbox m).
Proof. apply stays_on_snd. Qed.
Lemma box_world_stays {A} (m : ST W A) : stays P m → stays PB (RboxMailbox.world m).
Proof. intros Hm. by apply stays_on_snd, stays_on_snd. Qed.
Lemma health_stays : stays PB (RboxMailbox.health (W:=W)).
Proof. apply stays_on_fst. Qed.
Lemma set_count_stays c : stays PB (RboxMailbox.set_count (W:=W) c).
Proof. apply stays_on_fst. Qed.
#[local] Hint Resolve @ask_stays @box_rbox_stays @box_world_stays health_stays set_count_stays : stays.

Lemma read_header_stays (mb : mailbox) creating : stays P (RboxMailbox.rbox_read_header mb creating).
Proof. unfold RboxMailbox.rbox_read_header, RboxMailbox.set_ext_init_data. stay. Qed.
#[local] Hint Resolve read_header_stays : stays.
Lemma set_corrupted_stays (mb : mailbox) creating : stays PB (RboxMailbox.rbox_set_mailbox_corrupted mb creating).
Proof. unfold RboxMailbox.rbox_set_mailbox_corrupted. stay. Qed.
Lemma update_header_stays (mb : mailbox) creating u : stays P (RboxMailbox.rbox_update_header mb creating u).
Proof. unfold RboxMailbox.rbox_update_header. stay. Qed.
#[local] Hint Resolve set_corrupted_stays update_header_stays : stays.
Lemma create_indexes_stays (mb : mailbox) creating new_inbox u trans :
  stays P (RboxMailbox.rbox_mailbox_create_indexes mb creating new_inbox u trans).
Proof. unfold RboxMailbox.rbox_mailbox_create_indexes. stay. Qed.
Lemma refresh_header_stays (mb : mailbox) retry : stays P (SyncBegin.rbox_refresh_header mb retry).
Proof. unfold SyncBegin.rbox_refresh_header. stay. Qed.
#[local] Hint Resolve create_indexes_stays refresh_header_stays : stays.
Lemma wants_rebuild_stays (mb : mailbox) flags : stays PB (SyncBegin.wants_rebuild have_fsckd mb flags).
Proof. unfold SyncBegin.wants_rebuild. stay. Qed.
#[local] Hint Resolve wants_rebuild_stays : stays.

(** *** A rebuild *)

Lemma index_stays a : no_sync a = true → stays (at_snd P) (Rebuild.index a).
Proof. intros Ha. by apply stays_on_snd, index_do_stays. Qed.
Lemma rebuild_ask_stays {A} (f : W → A) : stays (at_snd P) (Rebuild.ask f).
Proof. apply stays_on_snd, ask_stays. Qed.
#[local] Hint Extern 2 (stays _ (Rebuild.index _)) => (apply index_stays; done) : stays.
#[local] Hint Resolve @rebuild_ask_stays : stays.
Lemma on_ms_stays {A} alt (f : (MetadataDefault + MetadataIma) → ST W A) :
  (∀ ms, stays P (f ms)) → stays (at_snd P) (Rebuild.on_ms alt f).
Proof. intros Hf. unfold Rebuild.on_ms. stay. Qed.
Lemma load_one_stays alt oid groups : stays (at_snd P) (Rebuild.load_one alt oid groups).
Proof. unfold Rebuild.load_one. apply stays_abind; [apply on_ms_stays; stay|stay]. Qed.
#[local] Hint Resolve load_one_stays : stays.
Lemma load_mails_stays alt oids groups : stays (at_snd P) (Rebuild.load_mails alt oids groups).
Proof. revert groups. induction oids as [|oid oids IH]; intros groups; cbn [Rebuild.load_mails]; stay. Qed.
Lemma add_object_stays mb oi mail alt uid : stays (at_snd P) (Rebuild.rbox_sync_add_object mb oi mail alt uid).
Proof.
  assert (Hm : ∀ oid l, stays (at_snd P) (Rebuild.on_ms false (λ ms, ms_update_metadata ms oid l)))
    by (intros; apply on_ms_stays; stay).
  unfold Rebuild.rbox_sync_add_object. stay.
Qed.
#[local] Hint Resolve load_mails_stays add_object_stays : stays.
Lemma add_objects_stays mb alt mails ret uid : stays (at_snd P) (Rebuild.add_objects mb alt mails ret uid).
Proof. revert ret uid. induction mails as [|mail mails IH]; intros ret uid; cbn [Rebuild.add_objects]; stay. Qed.
#[local] Hint Resolve add_objects_stays : stays.
Lemma rebuild_objects_stays mb groups : stays (at_snd P) (Rebuild.rbox_sync_index_rebuild_objects mb groups).
Proof.
  unfold Rebuild.rbox_sync_index_rebuild_objects, Rebuild.rbox_sync_set_uidvalidity, Rebuild.rbox_sync_rebuild_entry,
    Rebuild.rbox_sync_update_header, RboxMailbox.set_ext_init_data. stay.
Qed.
#[local] Hint Resolve rebuild_objects_stays : stays.
Lemma index_rebuild_stays mb force groups : stays PB (Rebuild.rbox_sync_index_rebuild mb force groups).
Proof. unfold Rebuild.rbox_sync_index_rebuild. stay. Qed.
Lemma load_all_stays : stays (at_snd P) (Rebuild.load_all junk).
Proof. unfold Rebuild.load_all, Rebuild.search_mails, Rebuild.load_rados_mail_metadata. stay. Qed.
#[local] Hint Resolve index_rebuild_stays load_all_stays : stays.
Lemma repair_mailboxes_stays infos force groups ret : stays PB (Rebuild.repair_mailboxes junk infos force groups ret).
Proof. revert groups ret. induction infos as [|info infos IH]; intros groups ret; cbn [Rebuild.repair_mailboxes]; stay. Qed.
#[local] Hint Resolve repair_mailboxes_stays : stays.
Lemma repair_namespaces_stays nss force groups : stays PB (Rebuild.repair_namespaces junk nss force groups).
Proof.
  revert groups. induction nss as [|ns nss IH]; intros groups; cbn [Rebuild.repair_namespaces];
    unfold Rebuild.repair_namespace; stay.
Qed.
Lemma find_inbox_loop_stays infos ret guid : stays P (Rebuild.find_inbox_loop infos ret guid).
Proof. revert ret guid. induction infos as [|info infos IH]; intros ret guid; cbn [Rebuild.find_inbox_loop]; stay. Qed.
#[local] Hint Resolve repair_namespaces_stays find_inbox_loop_stays : stays.
Lemma find_default_stays nss : stays P (Rebuild.find_default_mailbox_guid nss).
Proof.
  induction nss as [|ns nss IH]; cbn [Rebuild.find_default_mailbox_guid]; unfold Rebuild.find_inbox_mailbox_guid; stay.
Qed.
#[local] Hint Resolve find_default_stays : stays.
Lemma rebuild_pass_stays force again :
  stays PB again → stays PB (Rebuild.rebuild_pass junk namespaces force again).
Proof. intros Ha. unfold Rebuild.rebuild_pass, Rebuild.assign_to_inbox. stay. Qed.
Lemma rebuild_in_context_stays force first : stays PB (Rebuild.rbox_storage_rebuild_in_context junk namespaces force first).
Proof.
  apply rebuild_pass_stays. destruct first; [|stay]. apply rebuild_pass_stays. stay.
Qed.
#[local] Hint Resolve rebuild_in_context_stays : stays.
Lemma rebuild_loop_stays force k : stays PB (SyncBegin.rebuild_loop junk namespaces force k).
Proof. induction k as [|k IH]; cbn [SyncBegin.rebuild_loop]; stay. Qed.
#[local] Hint Resolve rebuild_loop_stays : stays.

(** *** The handling of the log *)

Lemma on_sync_stays {A} (m : ST (rbox_sync_context * (rbox_storage * W)) A) :
  stays PB m → stays (at_snd PB) (SyncBegin.on_sync m).
Proof. apply stays_on_snd. Qed.
Lemma on_box_stays {A} (m : ST (rbox_health * (rbox_storage * W)) A) :
  stays PB m → stays (at_snd PB) (SyncBegin.on_box m).
Proof.
  intros Hm [h [c s]] Hs. unfold SyncBegin.on_box. pose proof (Hm (h, s) Hs). by destruct (m (h, s)) as [? [? ?]].
Qed.
Lemma handle_records_stays mb recs : stays PB (RboxSync.sync_records mb recs).
Proof. apply sync_records_stays, index_do_stays. Qed.
Lemma sync_index_request_stays a : no_sync a = true → stays PB (RboxSync.index a).
Proof. intros Ha. by apply stays_on_snd, stays_on_snd, index_do_stays. Qed.
Lemma sync_index_log_stays mb recs : stays (at_snd PB) (SyncBegin.rbox_sync_index mb recs).
Proof.
  unfold SyncBegin.rbox_sync_index.
  assert (Ha : ∀ A (f : W → A), stays (at_snd PB) (SyncBegin.on_sync (RboxSync.ask f)))
    by (intros A f; apply on_sync_stays; intros s Hs; exact Hs).
  apply stays_bind; [apply Ha|]. intros hdr. case_decide; [case_decide|].
  - apply stays_bind; [apply on_box_stays; stay|stay].
  - apply stays_bind; [apply on_box_stays; stay|stay].
  - apply stays_bind; [apply Ha|]. intros range. apply stays_bind.
    + destruct range as [[seq1 seq2]|]; [by apply on_sync_stays, sync_index_request_stays|apply stays_ret].
    + intros _. apply on_sync_stays, handle_records_stays.
Qed.
End balance.

(** The records are handled with success or with an error; nothing but a broken
    index gives [0], and then the mailbox is marked as corrupted. *)
Lemma sync_records_nonzero `{Jansson} `{Librados W} `{RadosAdmin W} `{!Dovecot W} mb recs s :
  (RboxSync.sync_records mb recs s).1 ≠ Some 0.
Proof.
  revert s. induction recs as [|rec recs IH]; intros s; cbn [RboxSync.sync_records]; [done|].
  rewrite bind_eq. destruct (RboxSync.ask _ s) as [[[seq1 seq2]|] s1]; cbn [fst snd]; [|apply IH].
  rewrite bind_eq. destruct (RboxSync.sync_one mb rec seq1 seq2 s1) as [[ret|] s2]; cbn [fst snd]; [|done].
  case_decide; [|apply IH]. cbn. intros [= ->]. lia.
Qed.
Lemma sync_index_zero `{Jansson} `{Librados W} `{RadosAdmin W} `{!Dovecot W} `{!DovecotBoxes W} mb recs s s' :
  SyncBegin.rbox_sync_index mb recs s = (Some 0, s') → corrupted s'.1 = true.
Proof.
  destruct s as [h [c s]]. unfold SyncBegin.rbox_sync_index, SyncBegin.on_sync. rewrite bind_eq, on_snd_run. cbn [fst snd RboxSync.ask].
  case_decide; [case_decide|].
  - rewrite bind_eq. destruct (SyncBegin.on_box _ _) as [[ret guid] s1]. cbn [fst snd]. rewrite aret_run.
    intros [= E _]. case_decide; lia.
  - rewrite bind_eq, aret_run. intros [= <-].
    unfold SyncBegin.on_box, RboxMailbox.rbox_set_mailbox_corrupted. rewrite bind_eq.
    destruct (RboxMailbox.world _ _) as [[[ret hdr] resize] [h1 s1]]. cbn [fst snd]. by rewrite on_fst_run.
  - rewrite bind_eq, on_snd_run. cbn [fst snd RboxSync.ask]. rewrite bind_eq.
    match goal with |- context [on_snd (RboxSync.sync_records mb recs) ?s] => destruct s as [h1 s1] end.
    rewrite on_snd_run. intros [= E _]. by destruct (sync_records_nonzero mb recs s1).
Qed.

Section begin.
Context `{Jansson} `{QuietCluster W} `{!DovecotBoxes W} `{!DovecotBoxesLaws W}.
Variables (junk : Z) (namespaces : list string) (have_fsckd : bool) (mb : mailbox).

Lemma rollback_request n s :
  at_snd (at_snd (open_count n)) s →
  at_snd (at_snd (open_count (n - 1))) (RboxSync.index (W:=W) IxSyncRollback s : unit * (rbox_sync_context * _)).2.
Proof.
  destruct s as [c [r w]]. unfold RboxSync.index, at_snd, open_count. rewrite sync_world_run. cbn [fst snd]. intros <-.
  destruct (index_do_law IxSyncRollback w) as [_ ->]. rewrite open_syncs_app. cbn. lia.
Qed.

(** A context that is handed out belongs to an open synchronisation, unless the
    index was found broken. *)
Lemma sync_in_context_spec n rebuild recs ret h s :
  0 < ret → at_snd (open_count n) s →
  let '(res, (h', s')) := SyncBegin.sync_in_context (W:=W) mb rebuild recs ret (h, s) in
  ∀ r ctx, res = Some (r, ctx) →
    match ctx with
    | None => r = -1 ∧ at_snd (open_count (n - 1)) s'
    | Some _ => r = 0 ∧ (at_snd (open_count n) s' ∨ (corrupted h' = true ∧ at_snd (open_count (n - 1)) s'))
    end.
Proof.
  intros Hr Hs. unfold SyncBegin.sync_in_context. rewrite abind_eq.
  set (first := if negb rebuild then SyncBegin.rbox_sync_index mb recs else aret ret).
  assert (Hst : stays (at_snd (at_snd (at_snd (open_count n)))) first).
  { subst first. destruct (negb rebuild); [apply sync_index_log_stays|apply stays_ret]. }
  pose proof (Hst (h, (mk_sync [], s)) Hs) as Hn. clear Hst.
  assert (Hz : ∀ s', first (h, (mk_sync [], s)) = (Some 0, s') → corrupted s'.1 = true).
  { intros s'. subst first. destruct (negb rebuild); [apply sync_index_zero|]. rewrite aret_run. intros [= E _]. lia. }
  destruct (first (h, (mk_sync [], s))) as [[r1|] [h1 [c1 s1]]]; cbn [fst snd] in *; [|done].
  destruct (decide (r1 <= 0)) as [Hle|Hgt].
  2: { rewrite aret_run. cbn. intros r ctx [= <- <-]. split; [done|]. left. exact Hn. }
  rewrite bind_eq. unfold SyncBegin.on_sync. rewrite on_snd_run. cbn [fst snd].
  pose proof (rollback_request n (c1, s1) Hn) as Hb. destruct (RboxSync.index IxSyncRollback _) as [[] [c2 s2]].
  cbn [fst snd] in *. destruct (decide (r1 < 0)) as [Hlt|Hnl].
  - rewrite bind_eq, on_snd_run. cbn [fst snd].
    pose proof (sync_index_request_stays (n - 1) IxExpungingDeinit eq_refl (c2, s2) Hb) as Hc.
    destruct (RboxSync.index IxExpungingDeinit _) as [[] [c3 s3]]. cbn. intros r ctx [= <- <-]. by split.
  - cbn. intros r ctx [= <- <-]. split; [done|]. right.
    split; [|exact Hb]. apply (Hz (h1, (c1, s1))). by replace r1 with 0 by lia.
Qed.

Lemma box_ask_run {A} (f : W → A) s : RboxMailbox.world (RboxMailbox.ask f) s = (f s.2.2, s).
Proof. by destruct s as [h [r w]]. Qed.

(** The index begins to synchronise. *)
Lemma index_sync_begin_spec n sync_flags s :
  at_snd (at_snd (open_count n)) s →
  let '((ret, _), s') := SyncBegin.index_sync_begin (W:=W) mb sync_flags s in
  at_snd (at_snd (open_count (n + (if decide (0 < ret) then 1 else 0)))) s'.
Proof.
  destruct s as [h [r w]]. intros Hs. unfold SyncBegin.index_sync_begin, RboxMailbox.world.
  rewrite bind_eq, !on_snd_run. cbn [fst snd].
  pose proof (sync_begin_law sync_flags w) as Hl.
  destruct (index_storage_expunged_sync_begin sync_flags w) as [[ret recs] w1]. cbn [fst snd] in *.
  rewrite bind_eq, !on_snd_run. cbn [fst snd].
  assert (H1s : open_count (n + (if decide (0 < ret) then 1 else 0)) (mail_index_reset_fscked w1).2).
  { unfold open_count. rewrite reset_fscked_law, Hl. unfold at_snd, open_count in Hs. cbn in Hs. by rewrite Hs. }
  destruct (mail_index_reset_fscked w1) as [fscked w2]. cbn [fst snd] in *. rewrite bind_eq, ret_eq.
  destruct fscked; [by apply set_corrupted_stays|exact H1s].
Qed.
End begin.

(** C26. Beginning a synchronisation leaves none behind: when [rbox_sync_begin]
    returns, the answer is [0] or an error, an error hands out no context, and
    without a context every synchronisation of the index that was begun was also
    ended, whether the mailbox was rebuilt first, an attribute could not be
    written or the log was handled. With a context exactly one more is open, to be
    ended by [rbox_sync_finish] — or none is: an index without uid validity marks
    the mailbox as corrupted and is rolled back, and the context handed out is of
    the synchronisation that was ended. *)
Theorem sync_begin_balance `{Jansson} `{QuietCluster W} `{!DovecotBoxes W} `{!DovecotBoxesLaws W}
    (junk : Z) (namespaces : list string) (have_fsckd : bool) (mb : mailbox) (flags : Z) h (r : rbox_storage) (w : W) :
  let '(res, (h', (_, w'))) := SyncBegin.rbox_sync_begin junk namespaces have_fsckd mb flags (h, (r, w)) in
  let opened := open_syncs (ix_log w') - open_syncs (ix_log w) in
  ∀ ret ctx, res = Some (ret, ctx) →
    ret <= 0 ∧ (ret < 0 → ctx = None) ∧
    match ctx with
    | None => opened = 0
    | Some _ => opened = 1 ∨ (opened = 0 ∧ corrupted h' = true)
    end.
Proof.
  set (n := open_syncs (ix_log w)). set (PB := at_snd (S:=rbox_health) (at_snd (S:=rbox_storage) (open_count (W:=W) n))).
  assert (Hs : PB (h, (r, w))) by done.
  unfold SyncBegin.rbox_sync_begin. rewrite bind_eq.
  pose proof (wants_rebuild_stays have_fsckd n mb flags (h, (r, w)) Hs) as H1s.
  destruct (SyncBegin.wants_rebuild have_fsckd mb flags (h, (r, w))) as [rebuild s1]. cbn [fst snd] in *. clear Hs.
  rewrite abind_eq. set (loop := if rebuild then _ else aret 0).
  assert (Hloop : stays PB loop) by (subst loop; destruct rebuild; [apply rebuild_loop_stays|apply stays_ret]).
  pose proof (Hloop s1 H1s) as H2s. clear Hloop H1s.
  destruct (loop s1) as [[ret|] s2]; cbn [fst snd] in *; [|by destruct s2 as [? [? ?]]].
  rewrite (bind_run _ _ _ _ _ (box_ask_run _ _)). destruct s2 as [h2 [r2 w2]].
  rewrite bind_eq.
  match goal with |- context [(if decide (ret >= 0) then ?a else ?b) (h2, (r2, w2))] =>
    assert (Hb : let '((ret0, _), s3) := (if decide (ret >= 0) then a else b) (h2, (r2, w2)) in
      at_snd (at_snd (open_count (n + (if decide (0 < ret0) then 1 else 0)))) s3);
    [|destruct ((if decide (ret >= 0) then a else b) (h2, (r2, w2))) as [[ret0 recs] s3]] end.
  { case_decide; [by apply index_sync_begin_spec|]. rewrite ret_eq, decide_False by lia. by rewrite Z.add_0_r. }
  cbn [fst snd]. destruct (decide (ret0 <= 0)) as [Hle|Hgt].
  - rewrite decide_False, Z.add_0_r in Hb by lia. rewrite bind_eq.
    pose proof (box_world_stays n _ (index_do_stays n IxExpungingDeinit eq_refl) s3 Hb) as Hd.
    destruct (RboxMailbox.world (mail_index_do IxExpungingDeinit) s3) as [[] [h4 [r4 w4]]]. cbn.
    intros r0 ctx [= <- <-]. split; [lia|]. split; [done|]. unfold at_snd, open_count in Hd. cbn in Hd. lia.
  - rewrite decide_True in Hb by lia. destruct s3 as [h3 [r3 w3]].
    pose proof (sync_in_context_spec mb (n + 1) rebuild recs ret0 h3 (r3, w3) ltac:(lia) Hb) as Hc.
    destruct (SyncBegin.sync_in_context mb rebuild recs ret0 (h3, (r3, w3))) as [res [h4 [r4 w4]]].
    intros r0 ctx Hres. specialize (Hc r0 ctx Hres). unfold at_snd, open_count in Hc. cbn in Hc.
    destruct ctx as [ctx|].
    + destruct Hc as [-> Hc]. split; [lia|]. split; [lia|]. destruct Hc as [Hc|[Hcor Hc]]; [left; lia|right; split; [lia|done]].
    + destruct Hc as [-> Hc]. split; [lia|]. split; [done|]. lia.
Qed.

Definition begun := SyncBegin.rbox_sync_begin 0 ["inbox"] true inbox RBOX_SYNC_FLAG_FORCE (mk_health 0 false, (ready_rbox, one_mail)).
Lemma sync_begin_balance_witness :
  begun.1 = Some (0, Some (mk_sync [])) ∧ open_syncs (ix_log begun.2.2.2) - open_syncs (ix_log one_mail) = 1.
Proof.
  pose proof (sync_begin_balance 0 ["inbox"] true inbox RBOX_SYNC_FLAG_FORCE (mk_health 0 false) ready_rbox one_mail) as Hb.
  fold begun in Hb. assert (E : begun.1 = Some (0, Some (mk_sync []))) by (vm_compute; reflexivity).
  split; [exact E|]. assert (Ec : corrupted begun.2.1 = false) by (vm_compute; reflexivity).
  destruct begun as [res [h' [r' w']]]. cbn [fst snd] in *.
  destruct (Hb 0 (Some (mk_sync [])) E) as (_ & _ & [Ho|[_ Hc]]); [exact Ho|congruence].
Defined.
