(* ===== verification/RboxSave.v ===== *)
(** Saving a mail: storage-rbox/rbox-save.h, rbox-save.cpp and the output stream
    ostream-bufferlist.cpp that collects the mail's text. *)
From S2P Require Export SaveWrite RboxSync.

(** What Dovecot gives for a mail ([mail_save_data]). *)
Record mail_save_data := mk_save_data {
  sd_uid : Z;
  sd_flags : Z;
  sd_pvt_flags : Z;
  sd_keywords : option (list string);
  sd_min_modseq : Z;
  sd_received_date : Z;
  sd_save_date : Z;
  sd_guid : option string;
  sd_pop3_uidl : option string;
  sd_pop3_order : Z;
  sd_from_envelope : option string;
}.

(** The stream Dovecot writes to: none, the plugin's own, or one that another
    plugin (zlib) put on top of it. *)
Inductive output_ptr := NullOutput | OwnOutput | PluginOutput.

(** [struct bufferlist_ostream]: the offset, the mail whose buffer it fills, and
    whether every write goes to the cluster. *)
Record ostream := mk_ostream { os_offset : Z; os_mail : nat; os_execute_write_ops : bool }.

Record rbox_save_context := mk_save_context {
  sc_data : mail_save_data;          (** _ctx->data *)
  sc_output : output_ptr;          (** [data.output] *)
  sc_output_stream : option ostream;
  sc_dest_mail : bool;          (** a non-null [dest_mail] *)
  sc_dest_mail_allocated : bool;
  sc_transaction : bool;          (** a non-null [transaction] *)
  sc_copying : bool;
  sc_moving : bool;
  sc_mail_count : Z;
  sc_mail_guid : string;
  sc_mail_oid : string;
  sc_sync_ctx : option rbox_sync_context;          (** [None]: null *)
  sc_seq : Z;
  sc_input : bool;          (** a non-null [input] *)
  sc_heap : gmap nat RadosMail;          (** the allocated mails *)
  sc_next : nat;          (** the next address *)
  sc_rados_mails : list (option nat);          (** addresses; [None] is null *)
  sc_rados_mail : option nat;
  sc_highest_pop3_uidl_seq : Z;          (** one bit *)
  sc_have_pop3_uidls : bool;
  sc_have_pop3_orders : bool;
  sc_failed : bool;
  sc_finished : bool;
}.

Module SaveContext.
Definition set_data (x : mail_save_data) (c : rbox_save_context) : rbox_save_context :=
    mk_save_context x (sc_output c) (sc_output_stream c) (sc_dest_mail c) (sc_dest_mail_allocated c)
      (sc_transaction c) (sc_copying c) (sc_moving c) (sc_mail_count c) (sc_mail_guid c) (sc_mail_oid c)
      (sc_sync_ctx c) (sc_seq c) (sc_input c) (sc_heap c) (sc_next c) (sc_rados_mails c) (sc_rados_mail c)
      (sc_highest_pop3_uidl_seq c) (sc_have_pop3_uidls c) (sc_have_pop3_orders c) (sc_failed c)
      (sc_finished c).
Definition set_output (x : output_ptr) (c : rbox_save_context) : rbox_save_context :=
    mk_save_context (sc_data c) x (sc_output_stream c) (sc_dest_mail c) (sc_dest_mail_allocated c)
      (sc_transaction c) (sc_copying c) (sc_moving c) (sc_mail_count c) (sc_mail_guid c) (sc_mail_oid c)
      (sc_sync_ctx c) (sc_seq c) (sc_input c) (sc_heap c) (sc_next c) (sc_rados_mails c) (sc_rados_mail c)
      (sc_highest_pop3_uidl_seq c) (sc_have_pop3_uidls c) (sc_have_pop3_orders c) (sc_failed c)
      (sc_finished c).
Definition set_output_stream (x : option ostream) (c : rbox_save_context) : rbox_save_context :=
    mk_save_context (sc_data c) (sc_output c) x (sc_dest_mail c) (sc_dest_mail_allocated c)
      (sc_transaction c) (sc_copying c) (sc_moving c) (sc_mail_count c) (sc_mail_guid c) (sc_mail_oid c)
      (sc_sync_ctx c) (sc_seq c) (sc_input c) (sc_heap c) (sc_next c) (sc_rados_mails c) (sc_rados_mail c)
      (sc_highest_pop3_uidl_seq c) (sc_have_pop3_uidls c) (sc_have_pop3_orders c) (sc_failed c)
      (sc_finished c).
Definition set_dest_mail (x : bool) (c : rbox_save_context) : rbox_save_context :=
    mk_save_context (sc_data c) (sc_output c) (sc_output_stream c) x (sc_dest_mail_allocated c)
      (sc_transaction c) (sc_copying c) (sc_moving c) (sc_mail_count c) (sc_mail_guid c) (sc_mail_oid c)
      (sc_sync_ctx c) (sc_seq c) (sc_input c) (sc_heap c) (sc_next c) (sc_rados_mails c) (sc_rados_mail c)
      (sc_highest_pop3_uidl_seq c) (sc_have_pop3_uidls c) (sc_have_pop3_orders c) (sc_failed c)
      (sc_finished c).
Definition set_dest_mail_allocated (x : bool) (c : rbox_save_context) : rbox_save_context :=
    mk_save_context (sc_data c) (sc_output c) (sc_output_stream c) (sc_dest_mail c) x (sc_transaction c)
      (sc_copying c) (sc_moving c) (sc_mail_count c) (sc_mail_guid c) (sc_mail_oid c) (sc_sync_ctx c)
      (sc_seq c) (sc_input c) (sc_heap c) (sc_next c) (sc_rados_mails c) (sc_rados_mail c)
      (sc_highest_pop3_uidl_seq c) (sc_have_pop3_uidls c) (sc_have_pop3_orders c) (sc_failed c)
      (sc_finished c).
Definition set_transaction (x : bool) (c : rbox_save_context) : rbox_save_context :=
    mk_save_context (sc_data c) (sc_output c) (sc_output_stream c) (sc_dest_mail c)
      (sc_dest_mail_allocated c) x (sc_copying c) (sc_moving c) (sc_mail_count c) (sc_mail_guid c)
      (sc_mail_oid c) (sc_sync_ctx c) (sc_seq c) (sc_input c) (sc_heap c) (sc_next c) (sc_rados_mails c)
      (sc_rados_mail c) (sc_highest_pop3_uidl_seq c) (sc_have_pop3_uidls c) (sc_have_pop3_orders c)
      (sc_failed c) (sc_finished c).
Definition set_copying (x : bool) (c : rbox_save_context) : rbox_save_context :=
    mk_save_context (sc_data c) (sc_output c) (sc_output_stream c) (sc_dest_mail c)
      (sc_dest_mail_allocated c) (sc_transaction c) x (sc_moving c) (sc_mail_count c) (sc_mail_guid c)
      (sc_mail_oid c) (sc_sync_ctx c) (sc_seq c) (sc_input c) (sc_heap c) (sc_next c) (sc_rados_mails c)
      (sc_rados_mail c) (sc_highest_pop3_uidl_seq c) (sc_have_pop3_uidls c) (sc_have_pop3_orders c)
      (sc_failed c) (sc_finished c).
Definition set_moving (x : bool) (c : rbox_save_context) : rbox_save_context :=
    mk_save_context (sc_data c) (sc_output c) (sc_output_stream c) (sc_dest_mail c)
      (sc_dest_mail_allocated c) (sc_transaction c) (sc_copying c) x (sc_mail_count c) (sc_mail_guid c)
      (sc_mail_oid c) (sc_sync_ctx c) (sc_seq c) (sc_input c) (sc_heap c) (sc_next c) (sc_rados_mails c)
      (sc_rados_mail c) (sc_highest_pop3_uidl_seq c) (sc_have_pop3_uidls c) (sc_have_pop3_orders c)
      (sc_failed c) (sc_finished c).
Definition set_mail_count (x : Z) (c : rbox_save_context) : rbox_save_context :=
    mk_save_context (sc_data c) (sc_output c) (sc_output_stream c) (sc_dest_mail c)
      (sc_dest_mail_allocated c) (sc_transaction c) (sc_copying c) (sc_moving c) x (sc_mail_guid c)
      (sc_mail_oid c) (sc_sync_ctx c) (sc_seq c) (sc_input c) (sc_heap c) (sc_next c) (sc_rados_mails c)
      (sc_rados_mail c) (sc_highest_pop3_uidl_seq c) (sc_have_pop3_uidls c) (sc_have_pop3_orders c)
      (sc_failed c) (sc_finished c).
Definition set_mail_guid (x : string) (c : rbox_save_context) : rbox_save_context :=
    mk_save_context (sc_data c) (sc_output c) (sc_output_stream c) (sc_dest_mail c)
      (sc_dest_mail_allocated c) (sc_transaction c) (sc_copying c) (sc_moving c) (sc_mail_count c) x
      (sc_mail_oid c) (sc_sync_ctx c) (sc_seq c) (sc_input c) (sc_heap c) (sc_next c) (sc_rados_mails c)
      (sc_rados_mail c) (sc_highest_pop3_uidl_seq c) (sc_have_pop3_uidls c) (sc_have_pop3_orders c)
      (sc_failed c) (sc_finished c).
Definition set_mail_oid (x : string) (c : rbox_save_context) : rbox_save_context :=
    mk_save_context (sc_data c) (sc_output c) (sc_output_stream c) (sc_dest_mail c)
      (sc_dest_mail_allocated c) (sc_transaction c) (sc_copying c) (sc_moving c) (sc_mail_count c)
      (sc_mail_guid c) x (sc_sync_ctx c) (sc_seq c) (sc_input c) (sc_heap c) (sc_next c)
      (sc_rados_mails c) (sc_rados_mail c) (sc_highest_pop3_uidl_seq c) (sc_have_pop3_uidls c)
      (sc_have_pop3_orders c) (sc_failed c) (sc_finished c).
Definition set_sync_ctx (x : option rbox_sync_context) (c : rbox_save_context) : rbox_save_context :=
    mk_save_context (sc_data c) (sc_output c) (sc_output_stream c) (sc_dest_mail c)
      (sc_dest_mail_allocated c) (sc_transaction c) (sc_copying c) (sc_moving c) (sc_mail_count c)
      (sc_mail_guid c) (sc_mail_oid c) x (sc_seq c) (sc_input c) (sc_heap c) (sc_next c)
      (sc_rados_mails c) (sc_rados_mail c) (sc_highest_pop3_uidl_seq c) (sc_have_pop3_uidls c)
      (sc_have_pop3_orders c) (sc_failed c) (sc_finished c).
Definition set_seq (x : Z) (c : rbox_save_context) : rbox_save_context :=
    mk_save_context (sc_data c) (sc_output c) (sc_output_stream c) (sc_dest_mail c)
      (sc_dest_mail_allocated c) (sc_transaction c) (sc_copying c) (sc_moving c) (sc_mail_count c)
      (sc_mail_guid c) (sc_mail_oid c) (sc_sync_ctx c) x (sc_input c) (sc_heap c) (sc_next c)
      (sc_rados_mails c) (sc_rados_mail c) (sc_highest_pop3_uidl_seq c) (sc_have_pop3_uidls c)
      (sc_have_pop3_orders c) (sc_failed c) (sc_finished c).
Definition set_input (x : bool) (c : rbox_save_context) : rbox_save_context :=
    mk_save_context (sc_data c) (sc_output c) (sc_output_stream c) (sc_dest_mail c)
      (sc_dest_mail_allocated c) (sc_transaction c) (sc_copying c) (sc_moving c) (sc_mail_count c)
      (sc_mail_guid c) (sc_mail_oid c) (sc_sync_ctx c) (sc_seq c) x (sc_heap c) (sc_next c)
      (sc_rados_mails c) (sc_rados_mail c) (sc_highest_pop3_uidl_seq c) (sc_have_pop3_uidls c)
      (sc_have_pop3_orders c) (sc_failed c) (sc_finished c).
Definition set_heap (x : gmap nat RadosMail) (c : rbox_save_context) : rbox_save_context :=
    mk_save_context (sc_data c) (sc_output c) (sc_output_stream c) (sc_dest_mail c)
      (sc_dest_mail_allocated c) (sc_transaction c) (sc_copying c) (sc_moving c) (sc_mail_count c)
      (sc_mail_guid c) (sc_mail_oid c) (sc_sync_ctx c) (sc_seq c) (sc_input c) x (sc_next c)
      (sc_rados_mails c) (sc_rados_mail c) (sc_highest_pop3_uidl_seq c) (sc_have_pop3_uidls c)
      (sc_have_pop3_orders c) (sc_failed c) (sc_finished c).
Definition set_next (x : nat) (c : rbox_save_context) : rbox_save_context :=
    mk_save_context (sc_data c) (sc_output c) (sc_output_stream c) (sc_dest_mail c)
      (sc_dest_mail_allocated c) (sc_transaction c) (sc_copying c) (sc_moving c) (sc_mail_count c)
      (sc_mail_guid c) (sc_mail_oid c) (sc_sync_ctx c) (sc_seq c) (sc_input c) (sc_heap c) x
      (sc_rados_mails c) (sc_rados_mail c) (sc_highest_pop3_uidl_seq c) (sc_have_pop3_uidls c)
      (sc_have_pop3_orders c) (sc_failed c) (sc_finished c).
Definition set_rados_mails (x : list (option nat)) (c : rbox_save_context) : rbox_save_context :=
    mk_save_context (sc_data c) (sc_output c) (sc_output_stream c) (sc_dest_mail c)
      (sc_dest_mail_allocated c) (sc_transaction c) (sc_copying c) (sc_moving c) (sc_mail_count c)
      (sc_mail_guid c) (sc_mail_oid c) (sc_sync_ctx c) (sc_seq c) (sc_input c) (sc_heap c) (sc_next c) x
      (sc_rados_mail c) (sc_highest_pop3_uidl_seq c) (sc_have_pop3_uidls c) (sc_have_pop3_orders c)
      (sc_failed c) (sc_finished c).
Definition set_rados_mail (x : option nat) (c : rbox_save_context) : rbox_save_context :=
    mk_save_context (sc_data c) (sc_output c) (sc_output_stream c) (sc_dest_mail c)
      (sc_dest_mail_allocated c) (sc_transaction c) (sc_copying c) (sc_moving c) (sc_mail_count c)
      (sc_mail_guid c) (sc_mail_oid c) (sc_sync_ctx c) (sc_seq c) (sc_input c) (sc_heap c) (sc_next c)
      (sc_rados_mails c) x (sc_highest_pop3_uidl_seq c) (sc_have_pop3_uidls c) (sc_have_pop3_orders c)
      (sc_failed c) (sc_finished c).
Definition set_highest_pop3_uidl_seq (x : Z) (c : rbox_save_context) : rbox_save_context :=
    mk_save_context (sc_data c) (sc_output c) (sc_output_stream c) (sc_dest_mail c)
      (sc_dest_mail_allocated c) (sc_transaction c) (sc_copying c) (sc_moving c) (sc_mail_count c)
      (sc_mail_guid c) (sc_mail_oid c) (sc_sync_ctx c) (sc_seq c) (sc_input c) (sc_heap c) (sc_next c)
      (sc_rados_mails c) (sc_rados_mail c) x (sc_have_pop3_uidls c) (sc_have_pop3_orders c) (sc_failed c)
      (sc_finished c).
Definition set_have_pop3_uidls (x : bool) (c : rbox_save_context) : rbox_save_context :=
    mk_save_context (sc_data c) (sc_output c) (sc_output_stream c) (sc_dest_mail c)
      (sc_dest_mail_allocated c) (sc_transaction c) (sc_copying c) (sc_moving c) (sc_mail_count c)
      (sc_mail_guid c) (sc_mail_oid c) (sc_sync_ctx c) (sc_seq c) (sc_input c) (sc_heap c) (sc_next c)
      (sc_rados_mails c) (sc_rados_mail c) (sc_highest_pop3_uidl_seq c) x (sc_have_pop3_orders c)
      (sc_failed c) (sc_finished c).
Definition set_have_pop3_orders (x : bool) (c : rbox_save_context) : rbox_save_context :=
    mk_save_context (sc_data c) (sc_output c) (sc_output_stream c) (sc_dest_mail c)
      (sc_dest_mail_allocated c) (sc_transaction c) (sc_copying c) (sc_moving c) (sc_mail_count c)
      (sc_mail_guid c) (sc_mail_oid c) (sc_sync_ctx c) (sc_seq c) (sc_input c) (sc_heap c) (sc_next c)
      (sc_rados_mails c) (sc_rados_mail c) (sc_highest_pop3_uidl_seq c) (sc_have_pop3_uidls c) x
      (sc_failed c) (sc_finished c).
Definition set_failed (x : bool) (c : rbox_save_context) : rbox_save_context :=
    mk_save_context (sc_data c) (sc_output c) (sc_output_stream c) (sc_dest_mail c)
      (sc_dest_mail_allocated c) (sc_transaction c) (sc_copying c) (sc_moving c) (sc_mail_count c)
      (sc_mail_guid c) (sc_mail_oid c) (sc_sync_ctx c) (sc_seq c) (sc_input c) (sc_heap c) (sc_next c)
      (sc_rados_mails c) (sc_rados_mail c) (sc_highest_pop3_uidl_seq c) (sc_have_pop3_uidls c)
      (sc_have_pop3_orders c) x (sc_finished c).
Definition set_finished (x : bool) (c : rbox_save_context) : rbox_save_context :=
    mk_save_context (sc_data c) (sc_output c) (sc_output_stream c) (sc_dest_mail c)
      (sc_dest_mail_allocated c) (sc_transaction c) (sc_copying c) (sc_moving c) (sc_mail_count c)
      (sc_mail_guid c) (sc_mail_oid c) (sc_sync_ctx c) (sc_seq c) (sc_input c) (sc_heap c) (sc_next c)
      (sc_rados_mails c) (sc_rados_mail c) (sc_highest_pop3_uidl_seq c) (sc_have_pop3_uidls c)
      (sc_have_pop3_orders c) (sc_failed c) x.
End SaveContext.

(** The answers of Dovecot while a save is finished. *)
Record save_inputs := mk_save_inputs {
  si_stream_ret : Z;                     (** [o_stream_finish] or [o_stream_flush] *)
  si_virtual_size : option Z;            (** [None]: [mail_get_virtual_size] failed *)
  si_v_offset : Z;                       (** [input->v_offset] *)
  si_keywords : list (Z * string);       (** keyword indexes with their names *)
}.

Module RboxSave.
Import SaveContext.
Definition X_ATTR_VERSION_VALUE : string := "0.1".
Definition MAIL_RECENT : Z := 32.
(** [guid_128_empty], as [guid_128_to_string] shows it. *)
Definition empty_guid : string := "00000000000000000000000000000000".

Definition new_context (data : mail_save_data) : rbox_save_context :=
    mk_save_context data NullOutput None false false true false false 0 "" "" None 0 false ∅ 0 [] None
      0 false false true true.

(** A new context, or the one of the transaction for its next mail. *)
Definition rbox_save_alloc (data : mail_save_data) (save_ctx : option rbox_save_context) : rbox_save_context :=
    set_rados_mail None
      match save_ctx with
      | None => new_context data
      | Some c => set_output_stream None (set_finished false (set_failed false (set_data data c)))
      end.

Section ops.
Context `{Jansson} `{Librados W} `{RadosAdmin W} `{Dovecot W}.
  Abbreviation M := (ST (rbox_save_context * (rbox_storage * W))).
Variable mb : mailbox.

Definition get : M rbox_save_context := on_fst st_get.
Definition modify (f : rbox_save_context → rbox_save_context) : M unit := on_fst (st_modify f).
Definition rbox {A} (m : ST (rbox_storage * W) A) : M A := on_snd m.
Definition world {A} (m : ST W A) : M A := on_snd (on_snd m).
Definition index (a : index_action) : M unit := world (mail_index_do a).
Definition when (b : bool) (m : M unit) : M unit := if b then m else mret tt.

(** ** The mails *)

(** [alloc_rados_mail]: the mail becomes the current one. *)
Definition alloc_mail (oid : string) : M unit :=
    modify (λ c, set_rados_mail (Some (sc_next c)) (set_next (S (sc_next c))
      (set_heap (<[sc_next c := Mail.set_oid oid Mail.new]> (sc_heap c)) c))).
Definition deref (c : rbox_save_context) (p : option nat) : option RadosMail := p ≫= λ p, sc_heap c !! p.
(** The current mail, and a change of it. *)
Definition current (c : rbox_save_context) : option RadosMail := deref c (sc_rados_mail c).
Definition update_mail (f : RadosMail → RadosMail) (c : rbox_save_context) : rbox_save_context :=
    match sc_rados_mail c with
    | Some p => set_heap (alter f p (sc_heap c)) c
    | None => c
    end.

(** The guid of the mail: the one given, without hyphens, or a new one. *)
Definition setup_mail_guid : M unit :=
    c ← get;
    match sd_guid (sc_data c) with
    | Some str =>
        let str := c_str str in
        when (bool_decide (is_Some (str_find "-" str))) (modify (update_mail (Mail.set_deprecated_uid true))) ;;
        let str := default str (find_and_replace str "-" "") in
        modify (set_mail_guid (guid_128_hash (W:=W) str))
    | None => guid ← world guid_128_generate; modify (set_mail_guid guid)
    end.

Definition setup_mail_object : M unit :=
    oid ← world guid_128_generate;
    modify (set_mail_oid oid) ;;
    alloc_mail oid ;;
    setup_mail_guid.

(** ** The index *)

Definition rbox_index_append : M unit :=
    c ← get;
    let data := sc_data c in
    seq ← world (mail_index_append (sd_uid data));
    modify (set_seq seq) ;;
    index (IxUpdateFlags seq true (Z.ldiff (sd_flags data) MAIL_RECENT)) ;;
    match sd_keywords data with Some k => index (IxUpdateKeywords seq k) | None => mret tt end ;;
    when (negb (bool_decide (sd_min_modseq data = 0))) (index (IxUpdateModseq seq (sd_min_modseq data))).

(** The record that leads from the index to the object. *)
Definition update_index_record : M unit :=
    c ← get; index (IxUpdateExt (sc_seq c) (mb_ext_id mb) (sc_mail_guid c) (sc_mail_oid c)).
Definition push_mail : M unit := modify (λ c, set_rados_mails (sc_rados_mails c ++ [sc_rados_mail c]) c).

Definition rbox_add_to_index : M unit :=
    rbox_index_append ;; update_index_record ;; push_mail.

(** [src_oid] is the oid of the mail that is moved. *)
Definition rbox_move_index (src_oid : string) : M unit :=
    rbox_index_append ;;
    modify (set_mail_oid src_oid) ;;
    alloc_mail src_oid ;;
    push_mail ;;
    setup_mail_guid ;;
    update_index_record.

(** ** The output stream *)

(** [o_stream_create_bufferlist] for the current mail. *)
Definition o_stream_create_bufferlist (execute_write_ops : bool) : M unit :=
    modify (λ c, match sc_rados_mail c with
                 | Some p => set_output_stream (Some (mk_ostream 0 p execute_write_ops)) c
                 | None => c
                 end) ;;
    when execute_write_ops (modify (update_mail (λ m, Mail.set_active_op 1 (Mail.set_completion true m)))).

Definition init_output_stream : M unit :=
    r ← rbox Rbox.get;
    modify (update_mail (Mail.set_mail_buffer (Some ""))) ;;
    o_stream_create_bufferlist (PluginConfig.is_write_chunks (rb_config r)) ;;
    modify (set_output OwnOutput).

(** [o_stream_buffer_sendv]: the bytes are collected, and written when the
    stream executes its writes; the number of bytes. *)
Definition o_stream_buffer_sendv (iov : list bufferlist) : M Z :=
    c ← get;
    match sc_output_stream c with
    | None => mret (-1)
    | Some st =>
        match sc_heap c !! os_mail st with
        | None => mret (-1)
        | Some mail =>
            let old := if os_execute_write_ops st then "" else default "" (rm_mail_buffer mail) in
            let bytes := foldl String.append "" iov in
            let buf := old +:+ bytes in
            let ret := Z.of_nat (slen bytes) in
            modify (λ c, set_output_stream
              (Some (mk_ostream (uint64 (os_offset st + ret)) (os_mail st) (os_execute_write_ops st)))
              (set_heap (<[os_mail st := Mail.set_mail_buffer (Some buf) mail]> (sc_heap c)) c)) ;;
            when (os_execute_write_ops st)
              (r ← rbox Rbox.get;
               rbox (Rbox.on_s (Storage.aio_operate (Some (st_io_ctx (rb_s r))) (rm_oid mail)
                                  [OpWrite (Z.to_nat (os_offset st)) buf])) ;; mret tt) ;;
            mret ret
        end
    end.
Definition o_stream_buffer_seek (offset : Z) : M Z :=
    modify (λ c, match sc_output_stream c with
                 | Some st => set_output_stream
                     (Some (mk_ostream (uint64 offset) (os_mail st) (os_execute_write_ops st))) c
                 | None => c
                 end) ;;
    mret 1.

(** ** One mail *)

(** [ioloop_time] is the current time; [None]: the program aborts. *)
Definition rbox_save_begin (ioloop_time : Z) : M (option Z) :=
    modify (set_failed false) ;;
    c ← get;
    when (negb (sc_dest_mail c)) (modify (λ c, set_dest_mail_allocated true (set_dest_mail true c))) ;;
    setup_mail_object ;;
    init_output_stream ;;
    opened ← rbox (Rbox.open_mailbox mb false);
    match opened with
    | None => mret None
    | Some opened =>
        (if decide (opened < 0) then modify (set_failed true)
         else
           rbox_add_to_index ;;
           modify (set_input true) ;;
           c ← get;
           let data := sc_data c in
           when (bool_decide (sd_received_date data = -1))
             (modify (set_data (mk_save_data (sd_uid data) (sd_flags data) (sd_pvt_flags data)
                (sd_keywords data) (sd_min_modseq data) ioloop_time (sd_save_date data) (sd_guid data)
                (sd_pop3_uidl data) (sd_pop3_order data) (sd_from_envelope data))))) ;;
        mret (Some 0)
    end.

(** Dovecot copies its input to the stream, in the pieces [writes], and answers [ret]. *)
Definition rbox_save_continue (writes : list (list bufferlist)) (ret : Z) : M Z :=
    c ← get;
    if sc_failed c then mret (-1) else
    st_iter (λ iov, o_stream_buffer_sendv iov ;; mret tt) writes ;;
    if decide (ret < 0) then modify (set_failed true) ;; mret (-1) else mret 0.

(** An attribute of the mail, if the configuration asks for it and it has a value. *)
Definition add_attribute (cfg : RadosDovecotCephCfgImpl) (k : rbox_metadata_key)
      (value : option RadosMetadata) (mail : RadosMail) : RadosMail :=
    if PluginConfig.is_mail_attribute k cfg then
      match value with Some x => Mail.add_metadata x mail | None => mail end
    else mail.
Definition flags_attribute (k : rbox_metadata_key) (flags : Z) : option RadosMetadata :=
    if decide (flags = 0) then None else
    let '(ok, text) := flags_to_string flags "" in
    if (ok : bool) then Some (Metadata.convert_string k text) else None.

(** The attributes [rbox_save_mail_set_metadata] gives the mail, in its order. *)
Definition save_attributes (si : save_inputs) (c : rbox_save_context) (deprecated : bool) :
      list (rbox_metadata_key * option RadosMetadata) :=
    let data := sc_data c in
    let vsize := default (si_v_offset si) (si_virtual_size si) in
    [(RBOX_METADATA_VERSION, Some (Metadata.convert_cstr RBOX_METADATA_VERSION X_ATTR_VERSION_VALUE));
     (RBOX_METADATA_MAILBOX_GUID,
        Some (Metadata.convert_cstr RBOX_METADATA_MAILBOX_GUID (mb_mailbox_guid mb)));
     (RBOX_METADATA_GUID,
        Some (Metadata.convert_cstr RBOX_METADATA_GUID
                (if deprecated then guid_128_to_uuid_string (W:=W) (sc_mail_guid c) else sc_mail_guid c)));
     (RBOX_METADATA_RECEIVED_TIME,
        Some (Metadata.convert_time RBOX_METADATA_RECEIVED_TIME (sd_received_date data)));
     (RBOX_METADATA_POP3_UIDL, Metadata.convert_cstr RBOX_METADATA_POP3_UIDL <$> sd_pop3_uidl data);
     (RBOX_METADATA_POP3_ORDER,
        if decide (sd_pop3_order data = 0) then None
        else Some (Metadata.convert_uint RBOX_METADATA_POP3_ORDER (sd_pop3_order data)));
     (RBOX_METADATA_FROM_ENVELOPE,
        Metadata.convert_cstr RBOX_METADATA_FROM_ENVELOPE <$> sd_from_envelope data);
     (RBOX_METADATA_VIRTUAL_SIZE, Some (Metadata.convert_size RBOX_METADATA_VIRTUAL_SIZE vsize));
     (RBOX_METADATA_PHYSICAL_SIZE,
        Some (Metadata.convert_size RBOX_METADATA_PHYSICAL_SIZE (si_v_offset si)));
     (RBOX_METADATA_OLDV1_FLAGS, flags_attribute RBOX_METADATA_OLDV1_FLAGS (sd_flags data));
     (RBOX_METADATA_PVT_FLAGS, flags_attribute RBOX_METADATA_PVT_FLAGS (sd_pvt_flags data));
     (RBOX_METADATA_ORIG_MAILBOX,
        Some (Metadata.convert_cstr RBOX_METADATA_ORIG_MAILBOX (mb_name mb)))].

(** The mail with its attributes, its keywords and its date. *)
Definition with_save_attributes (cfg : RadosDovecotCephCfgImpl) (si : save_inputs)
      (c : rbox_save_context) (mail : RadosMail) : RadosMail :=
    let mail := foldl (λ m kv, add_attribute cfg kv.1 kv.2 m) mail
                  (save_attributes si c (rm_deprecated_uid mail)) in
    let mail :=
      if PluginConfig.is_mail_attribute RBOX_METADATA_OLDV1_KEYWORDS cfg
      then foldl (λ m kv, Mail.add_extended_metadata (Metadata.of_pair (to_string kv.1) kv.2) m)
             mail (si_keywords si)
      else mail in
    Mail.set_rados_save_date (sd_save_date (sc_data c)) mail.

(** What [rbox_save_mail_set_metadata] remembers about POP3: one bit holds the
    sequence number. *)
Definition note_pop3 (c : rbox_save_context) : rbox_save_context :=
    set_highest_pop3_uidl_seq (Z.max (sc_highest_pop3_uidl_seq c) (sc_seq c) `mod` 2) c.

Definition rbox_save_mail_set_metadata (si : save_inputs) : M unit :=
    r ← rbox Rbox.get;
    let cfg := rb_config r in
    c ← get;
    let data := sc_data c in
    when (PluginConfig.is_mail_attribute RBOX_METADATA_POP3_UIDL cfg &&
          bool_decide (is_Some (sd_pop3_uidl data)))
      (modify (λ c, note_pop3 (set_have_pop3_uidls true c))) ;;
    when (PluginConfig.is_mail_attribute RBOX_METADATA_POP3_ORDER cfg &&
          negb (bool_decide (sd_pop3_order data = 0)))
      (modify (λ c, note_pop3 (set_have_pop3_orders true c))) ;;
    modify (update_mail (with_save_attributes cfg si c)).

(** [clean_up_write_finish]; the streams are released. *)
Definition clean_up_write_finish : M unit :=
    modify (λ c, set_output NullOutput (set_input false (set_finished true c))).

(** Whether the stream Dovecot writes to is the plugin's own. *)
Definition own_output (c : rbox_save_context) : bool :=
    match sc_output c, sc_output_stream c with
    | NullOutput, None => true
    | OwnOutput, Some _ => true
    | _, _ => false
    end.

(** The chunk size: the configured one, at most what the cluster can take. *)
Definition chunk_size (config_chunk_size max_write : Z) : Z :=
    if decide (uint32 config_chunk_size > uint32 max_write) then uint32 max_write
    else uint32 config_chunk_size.

(** Writing the object of the current mail and recording it. *)
Definition write_object (si : save_inputs) : M (option unit) :=
    r ← rbox Rbox.get;
    c ← get;
    match current c, Rbox.storage_ms (W:=W) false r with
    | Some mail, Some ms =>
        let ops := ms_save_metadata (W:=W) ms mail in
        done ←
          (if decide (st_max_object_size (rb_s r) < rm_object_size mail) then
             modify (set_failed true) ;; mret (Some tt)
           else
             match PluginConfig.get_chunk_size (rb_config r) with
             | None => mret None
             | Some config_chunk_size =>
                 '(ret, mail) ← rbox (Rbox.on_s (SaveWrite.save_mail_write_append mail
                     (ops ++ [OpMtime (rm_save_date_rados mail)])
                     (chunk_size config_chunk_size (Storage.get_max_write_size_bytes (rb_s r)))));
                 modify (update_mail (λ _, mail)) ;;
                 match ret with
                 | None => mret None
                 | Some ret => modify (set_failed (bool_decide (ret < 0))) ;; mret (Some tt)
                 end
             end);
        match done with
        | None => mret None
        | Some _ =>
            c ← get;
            match (if sc_failed c then Some 0 else PluginConfig.get_object_search_method (rb_config r)) with
            | None => mret None
            | Some method =>
                when (bool_decide (method = 2))
                  (rbox (Rbox.on_s (Storage.ceph_index_append (rm_oid mail) ;; mret tt)) ;;
                   rbox (Rbox.on_s (Storage.ceph_index_size 0 ;; mret tt))) ;;
                when (Log.is_open (rb_log r))
                  (rbox (Rbox.modify (λ r, Rbox.set_fs
                     (Log.append (Entry.new (rm_oid mail) (st_nspace (rb_s r)) (st_pool_name (rb_s r))
                                    Entry.op_save) (rb_log r) (rb_fs r)) r))) ;;
                mret (Some tt)
            end
        end
    | _, _ => mret None
    end.

Definition rbox_save_finish (si : save_inputs) : M (option Z) :=
    c ← get;
    let ret := if own_output c then
                 match sc_output c with NullOutput => 0 | _ => si_stream_ret si end
               else si_stream_ret si in
    when (bool_decide (ret < 0)) (modify (set_failed true)) ;;
    c ← get;
    done ←
      (if sc_failed c then mret (Some tt) else
       when (negb (own_output c)) (modify (set_output OwnOutput)) ;;
       match sc_output_stream c with
       | None => mret None
       | Some st =>
           if decide (os_offset st <= 0) then modify (set_failed true) ;; mret (Some tt) else
           modify (update_mail (Mail.set_mail_size (os_offset st))) ;;
           rbox_save_mail_set_metadata si ;;
           write_object si
       end);
    match done with
    | None => mret None
    | Some _ =>
        clean_up_write_finish ;;
        c ← get;
        mret (Some (if sc_failed c then -1 else 0))
    end.

Definition rbox_save_cancel (si : save_inputs) : M (option Z) :=
    modify (set_failed true) ;; rbox_save_finish si.

(** ** The transaction *)

(** [clean_up_mail_object_list]: the mails of the list are freed. *)
Definition clean_up_mail_object_list : M unit :=
    modify (λ c, set_rados_mails [] (set_heap (foldl (λ h p, match p with
                                                      | Some p => delete p h
                                                      | None => h
                                                      end) (sc_heap c) (sc_rados_mails c)) c)).

(** The objects of the mails are removed, and the last record of the index. *)
Definition clean_up_failed : M unit :=
    c ← get;
    st_iter (λ p, rbox (Rbox.on_s (Storage.delete_mail (deref c p))) ;; mret tt) (sc_rados_mails c) ;;
    when (bool_decide (sc_seq c > 0)) (index (IxExpunge (sc_seq c))) ;;
    when (sc_transaction c) (index IxCacheReset) ;;
    clean_up_mail_object_list ;;
    modify (λ c, set_mail_count (uint32 (sc_mail_count c - 1)) c).

(** A synchronisation of the mailbox inside the save. *)
Definition finish_sync (success : bool) : M (option Z) :=
    λ s,
    match sc_sync_ctx s.1 with
    | None => (Some 0, s)
    | Some ctx =>
        let '(ret, (_, s')) := RboxSync.rbox_sync_finish mb success (ctx, s.2) in
        (ret, (set_sync_ctx None s.1, s'))
    end.

Definition rbox_transaction_save_rollback (si : save_inputs) : M (option unit) :=
    c ← get;
    cancelled ← (if sc_finished c then mret (Some 0) else
                   r ← rbox_save_cancel si; clean_up_write_finish ;; mret r);
    match cancelled with
    | None => mret None
    | Some _ =>
        finished ← finish_sync false;
        match finished with
        | None => mret None
        | Some _ =>
            modify (λ c, set_mail_guid empty_guid (set_mail_oid empty_guid c)) ;;
            c ← get;
            when (sc_dest_mail c && sc_dest_mail_allocated c) (modify (set_dest_mail false)) ;;
            when (sc_failed c && (negb (sc_copying c) || negb (sc_moving c))) clean_up_failed ;;
            clean_up_mail_object_list ;;
            modify (set_rados_mail None) ;;
            mret (Some tt)
        end
    end.

(** The loop of [rbox_save_assign_uids] over the mails and their uids; [None]:
    an assertion fails, too few or too many uids. *)
Fixpoint assign_loop (mails : list (option nat)) (uids : list Z) (n : Z) : M (option Z) :=
    match mails, uids with
    | [], [] => mret (Some 0)
    | p :: mails, uid :: uids =>
        modify (set_rados_mail p) ;;
        c ← get;
        r ← rbox Rbox.get;
        ret ←
          (if PluginConfig.is_mail_attribute RBOX_METADATA_MAIL_UID (rb_config r) then
             match deref c p, Rbox.storage_ms (W:=W) false r with
             | Some mail, Some ms =>
                 let metadata := Metadata.convert_uint RBOX_METADATA_MAIL_UID uid in
                 '(ret, mail) ← world (ms_set_metadata_op ms mail metadata
                                        [OpSetxattr (c_str (md_key metadata)) (md_bl metadata)]);
                 modify (update_mail (λ _, mail)) ;;
                 mret (Some ret)
             | _, _ => mret None
             end
           else mret (Some 0));
        match ret with
        | None => mret None
        | Some ret =>
            if decide (ret < 0) then mret (Some (-1)) else
            c ← get;
            when (bool_decide (sc_highest_pop3_uidl_seq c = n + 1 + 1)) (index (IxPop3MaxUid uid)) ;;
            assign_loop mails uids (n + 1)
        end
    | _, _ => mret None
    end.
Definition rbox_save_assign_uids (uids : list Z) : M (option Z) :=
    c ← get;
    match sc_rados_mails c with
    | [] => mret (Some 0)
    | mails => assign_loop mails uids 0
    end.

Definition RBOX_INDEX_HEADER_FLAG_HAVE_POP3_UIDLS : Z := 1.
Definition RBOX_INDEX_HEADER_FLAG_HAVE_POP3_ORDERS : Z := 2.
(** [data] is the header extension of the index, [None] when there is none. *)
Definition rbox_save_update_header_flags (data : option (list Z)) (ext_id flags_offset : Z) : M unit :=
    match data with
    | None => mret tt
    | Some data =>
        let found := bool_decide (flags_offset < Z.of_nat (length data)) in
        let old_flags := if found then uint8 (default 0 (data !! Z.to_nat flags_offset)) else 0 in
        when (negb found) (index (IxResizeHdr ext_id (flags_offset + 1))) ;;
        c ← get;
        let flags := old_flags in
        let flags := if sc_have_pop3_uidls c
                     then Z.lor flags RBOX_INDEX_HEADER_FLAG_HAVE_POP3_UIDLS else flags in
        let flags := if sc_have_pop3_orders c
                     then Z.lor flags RBOX_INDEX_HEADER_FLAG_HAVE_POP3_ORDERS else flags in
        when (negb (bool_decide (flags = old_flags)))
          (index (IxUpdateHeaderExt ext_id flags_offset flags))
    end.

(** After the transaction of the index was committed: a synchronisation that
    cannot be finished makes the rollback remove the objects of the mails. *)
Definition rbox_transaction_save_commit_post (si : save_inputs) : M (option unit) :=
    modify (set_transaction false) ;;
    ret ← finish_sync true;
    match ret with
    | None => mret None
    | Some ret =>
        when (bool_decide (ret < 0)) (modify (set_failed true)) ;;
        rbox_transaction_save_rollback si
    end.
End ops.
End RboxSave.

(** ** The attributes of a saved mail *)

Section attributes.
Context `{Dovecot W}.

Definition value_of (m : RadosMail) (k : rbox_metadata_key) : option string :=
    get_metadata_key k (rm_attrset m).

Lemma value_add k x m :
    value_of (Mail.add_metadata x m) k =
      if decide (md_key x = rbox_metadata_key_to_char k) then Some (c_str (md_bl x)) else value_of m k.
Proof.
    unfold value_of, get_metadata_key, get_metadata. destruct m. cbn.
    case_decide as E; [by rewrite E, lookup_insert_eq|by rewrite lookup_insert_ne].
Qed.

(** The attributes of the default configuration. *)
Definition is_default (k : rbox_metadata_key) : bool :=
    match k with
    | RBOX_METADATA_MAILBOX_GUID | RBOX_METADATA_GUID | RBOX_METADATA_POP3_UIDL
    | RBOX_METADATA_POP3_ORDER | RBOX_METADATA_RECEIVED_TIME | RBOX_METADATA_PHYSICAL_SIZE
    | RBOX_METADATA_VIRTUAL_SIZE | RBOX_METADATA_ORIG_MAILBOX | RBOX_METADATA_MAIL_UID
    | RBOX_METADATA_VERSION => true
    | _ => false
    end.
Lemma default_attribute cfg k :
    mail_attributes (rados_cfg cfg) = JsonConfig.default_mail_attributes →
    PluginConfig.is_mail_attribute k cfg = is_default k.
Proof.
    intros E. unfold PluginConfig.is_mail_attribute, JsonConfig.is_mail_attribute. rewrite E.
    by destruct k.
Qed.

(** What is read back from one attribute after the next one was set. *)
Lemma value_add_default cfg k' (x : option RadosMetadata) m k :
    mail_attributes (rados_cfg cfg) = JsonConfig.default_mail_attributes →
    match x with Some x => md_key x = rbox_metadata_key_to_char k' | None => True end →
    value_of (RboxSave.add_attribute cfg k' x m) k =
      if is_default k' && bool_decide (k' = k)
      then match x with Some x => Some (c_str (md_bl x)) | None => value_of m k end
      else value_of m k.
Proof.
    intros E Hx. unfold RboxSave.add_attribute. rewrite default_attribute by done.
    destruct (is_default k'); [|done]. destruct x as [x|]; cbn; [|by case_bool_decide].
    rewrite value_add, Hx. case_bool_decide as Ek; [by subst; rewrite decide_True|].
    rewrite decide_False; [done|]. intros Ec. by apply (inj _) in Ec.
Qed.

Lemma value_text k v : c_str (md_bl (mk_metadata k (to_string v +:+ nul_string))) = to_string v.
Proof. cbn. apply c_str_app_nul, free_of_NUL_to_string. Qed.

(** The attributes of a saved mail in the default configuration. *)
Lemma saved_values mb cfg si c mail k :
    mail_attributes (rados_cfg cfg) = JsonConfig.default_mail_attributes →
    value_of (RboxSave.with_save_attributes mb cfg si c mail) k =
      match k with
      | RBOX_METADATA_RECEIVED_TIME => Some (to_string (sd_received_date (sc_data c)))
      | RBOX_METADATA_PHYSICAL_SIZE => Some (to_string (int32 (si_v_offset si)))
      | RBOX_METADATA_VIRTUAL_SIZE =>
          Some (to_string (int32 (default (si_v_offset si) (si_virtual_size si))))
      | RBOX_METADATA_MAILBOX_GUID => Some (c_str (mb_mailbox_guid mb))
      | RBOX_METADATA_GUID =>
          Some (c_str (if rm_deprecated_uid mail then guid_128_to_uuid_string (W:=W) (sc_mail_guid c)
                       else sc_mail_guid c))
      | RBOX_METADATA_VERSION => Some RboxSave.X_ATTR_VERSION_VALUE
      | RBOX_METADATA_ORIG_MAILBOX => Some (c_str (mb_name mb))
      | RBOX_METADATA_POP3_UIDL =>
          match sd_pop3_uidl (sc_data c) with Some u => Some (c_str u) | None => value_of mail k end
      | RBOX_METADATA_POP3_ORDER =>
          if decide (sd_pop3_order (sc_data c) = 0) then value_of mail k
          else Some (to_string (uint32 (sd_pop3_order (sc_data c))))
      | _ => value_of mail k
      end.
Proof.
    intros E. unfold RboxSave.with_save_attributes.
    rewrite default_attribute by done. cbn [is_default].
    set (m := foldl _ mail _).
    assert (value_of (Mail.set_rados_save_date (sd_save_date (sc_data c)) m) k = value_of m k) as ->
      by by destruct m.
    subst m. unfold RboxSave.save_attributes. cbn [foldl fst snd].
    rewrite !value_add_default; try done;
      try (unfold RboxSave.flags_attribute; case_decide; done);
      try (by destruct (sd_pop3_uidl _)); try (by destruct (sd_from_envelope _)); try (by case_decide).
    destruct k; cbn; unfold nul_string; rewrite ?c_str_app_nul; try done;
      try apply free_of_NUL_to_string; try apply c_str_free;
      repeat first [rewrite bool_decide_eq_false_2 by done | rewrite bool_decide_eq_true_2 by done].
    - destruct (sd_pop3_uidl (sc_data c)); cbn; [unfold nul_string; by rewrite c_str_app_nul by apply c_str_free|done].
    - case_decide; cbn; [done|]. unfold nul_string. by rewrite c_str_app_nul by apply free_of_NUL_to_string.
Qed.
End attributes.

(** In the default configuration the attributes a saved mail gets, with the
    UID that is assigned when the transaction commits, are the ones
    [validate_metadata] accepts, so that a rebuild of the mailbox keeps the mail:
    exactly when the sizes are stored as numbers, that is, as long as they do not
    turn negative in an [int] (below 2 GiB). *)
Theorem saved_mail_is_valid `{Dovecot W} mb cfg si (c : rbox_save_context) mail uid :
  mail_attributes (rados_cfg cfg) = JsonConfig.default_mail_attributes →
  rm_attrset mail = ∅ → 0 <= sd_received_date (sc_data c) →
  validate_metadata (rm_attrset (Mail.add_metadata (Metadata.convert_uint RBOX_METADATA_MAIL_UID uid)
      (RboxSave.with_save_attributes mb cfg si c mail))) = true ↔
    0 <= int32 (si_v_offset si) ∧ 0 <= int32 (default (si_v_offset si) (si_virtual_size si)).
Proof.
  intros E Hm Hd. rewrite validate_metadata_spec.
  set (saved := Mail.add_metadata _ _).
  assert (∀ k, get_metadata_key k (rm_attrset saved) = value_of saved k) as Hv by done.
  rewrite !Hv. subst saved. rewrite !value_add. cbn [md_key Metadata.convert_uint].
  rewrite !saved_values by done. assert (∀ k, value_of mail k = None) as Hn.
  { intros k. unfold value_of, get_metadata_key, get_metadata. by rewrite Hm. }
  rewrite decide_True by done. rewrite !decide_False by done. cbn [md_bl Metadata.convert_uint].
  rewrite !Hn. unfold nul_string. rewrite c_str_app_nul by apply free_of_NUL_to_string.
  rewrite !is_numeric_to_string, !bool_decide_eq_true. cbn [is_numeric_optional].
  pose proof (wrap_u_range 32 uid ltac:(lia)) as Hu.
  split; [tauto|]. intros [? ?]. do 4 (split; [done || lia|]). do 2 (split; [done|]).
  split; by eexists.
Qed.

Definition sample_data : mail_save_data := mk_save_data 0 8 0 None 0 1500000000 (-1) None None 0 None.

Lemma saved_mail_is_valid_witness :
  let mail n := Mail.add_metadata (Metadata.convert_uint RBOX_METADATA_MAIL_UID 7)
      (RboxSave.with_save_attributes (W:=MemDovecot) inbox PluginConfig.new
         (mk_save_inputs 0 None n []) (RboxSave.new_context sample_data) Mail.new) in
  validate_metadata (rm_attrset (mail 100)) = true ∧ validate_metadata (rm_attrset (mail 3000000000)) ≠ true.
Proof.
  cbv zeta. split.
  - apply (saved_mail_is_valid (W:=MemDovecot) inbox PluginConfig.new _ (RboxSave.new_context sample_data)
             Mail.new 7); [reflexivity | reflexivity | cbn; lia | by split].
  - intros Hv. apply (saved_mail_is_valid (W:=MemDovecot) inbox PluginConfig.new _
      (RboxSave.new_context sample_data) Mail.new 7) in Hv; [|reflexivity|reflexivity|cbn; lia].
    destruct Hv as [Hv _]. vm_compute in Hv. by apply Hv.
Defined.

(** ** Finishing a mail *)

Section run.
Context {W : Type}.
  Implicit Types s : rbox_save_context * (rbox_storage * W).

Lemma save_get_run s : RboxSave.get s = (s.1, s).
Proof. by destruct s. Qed.
Lemma save_modify_run f s : RboxSave.modify f s = (tt, (f s.1, s.2)).
Proof. by destruct s. Qed.
Lemma save_rbox_run {A} (m : ST (rbox_storage * W) A) s : RboxSave.rbox m s = ((m s.2).1, (s.1, (m s.2).2)).
Proof. destruct s. apply on_snd_run. Qed.
Lemma save_world_run {A} (m : ST W A) s :
    RboxSave.world m s = ((m s.2.2).1, (s.1, (s.2.1, (m s.2.2).2))).
Proof. destruct s as [c [r w]]. unfold RboxSave.world. by rewrite !on_snd_run. Qed.
Lemma save_when_run b (m : ST (rbox_save_context * (rbox_storage * W)) unit) s :
    RboxSave.when b m s = if b then m s else (tt, s).
Proof. by destruct b. Qed.
Lemma save_when_modify b f s :
    RboxSave.when b (RboxSave.modify f) s = (tt, ((if b then f s.1 else s.1), s.2)).
Proof. destruct b, s; done. Qed.
Lemma on_s_run {A} (m : ST (Storage.state W) A) (s : rbox_storage * W) :
    Rbox.on_s m s =
      let o := m (rb_s s.1, (rb_cluster s.1, s.2)) in
      (o.1, (Rbox.set_cluster o.2.2.1 (Rbox.set_s o.2.1 s.1), o.2.2.2)).
Proof. destruct s as [r w]. unfold Rbox.on_s. cbn. by destruct (m _) as [a [x [c w']]]. Qed.
End run.

Ltac svrun := repeat (first
  [ rewrite ret_eq | rewrite bind_eq | rewrite save_get_run | rewrite save_modify_run
  | rewrite save_rbox_run | rewrite save_world_run | rewrite save_when_run
  | rewrite rbox_get_run ]; cbn [fst snd]).

(** Setting metadata changes the attributes only. *)
Lemma with_save_attributes_keeps `{Dovecot W} mb cfg si c mail :
  let m := RboxSave.with_save_attributes mb cfg si c mail in
  rm_oid m = rm_oid mail ∧ rm_mail_buffer m = rm_mail_buffer mail ∧ rm_object_size m = rm_object_size mail.
Proof.
  cbv zeta. unfold RboxSave.with_save_attributes.
  set (P (m : RadosMail) := rm_oid m = rm_oid mail ∧ rm_mail_buffer m = rm_mail_buffer mail ∧
                            rm_object_size m = rm_object_size mail).
  assert (∀ l m, P m → P (foldl (λ m kv, RboxSave.add_attribute cfg kv.1 kv.2 m) m l)) as H1.
  { induction l as [|[k x] l IH]; intros m Hm; [done|]. cbn. apply IH. unfold RboxSave.add_attribute.
    destruct (PluginConfig.is_mail_attribute k cfg), x; try done. by destruct m. }
  assert (∀ (l : list (Z * string)) m, P m →
    P (foldl (λ m kv, Mail.add_extended_metadata (Metadata.of_pair (to_string kv.1) kv.2) m) m l)) as H2.
  { induction l as [|[k x] l IH]; intros m Hm; [done|]. cbn. apply IH. by destruct m. }
  assert (∀ d m, P m → P (Mail.set_rados_save_date d m)) as H3 by (intros d m Hm; by destruct m).
  apply H3. destruct (PluginConfig.is_mail_attribute _ _); [apply H2|]; by apply H1.
Qed.

(** Every attribute key is a single character. *)
Lemma with_save_attributes_keys `{Dovecot W} mb cfg si c mail k :
  rm_attrset mail = ∅ →
  is_Some (rm_attrset (RboxSave.with_save_attributes mb cfg si c mail) !! k) → free_of NUL k = true.
Proof.
  intros Hm. unfold RboxSave.with_save_attributes.
  set (P (m : RadosMail) := ∀ k, is_Some (rm_attrset m !! k) → free_of NUL k = true).
  assert (∀ l m, Forall (λ kv : rbox_metadata_key * option RadosMetadata,
      match kv.2 with Some x => free_of NUL (md_key x) = true | None => True end) l → P m →
    P (foldl (λ m kv, RboxSave.add_attribute cfg kv.1 kv.2 m) m l)) as H1.
  { induction l as [|[k' x] l IH]; intros m Hl Hp; [done|]. cbn. apply list.Forall_cons in Hl as [Hx Hl].
    apply IH; [done|]. unfold RboxSave.add_attribute.
    destruct (PluginConfig.is_mail_attribute k' cfg), x as [x|]; try done.
    intros j. destruct m. cbn. destruct (decide (j = md_key x)) as [->|Hne]; [done|].
    rewrite lookup_insert_ne by done. apply Hp. }
  assert (∀ (l : list (Z * string)) m, P m →
    P (foldl (λ m kv, Mail.add_extended_metadata (Metadata.of_pair (to_string kv.1) kv.2) m) m l)) as H2.
  { induction l as [|[k' x] l IH]; intros m Hp; [done|]. cbn. apply IH. by destruct m. }
  set (m1 := foldl _ mail _).
  assert (P m1) as Hp1.
  { apply H1; [|intros j; rewrite Hm; by intros []].
    unfold RboxSave.save_attributes, RboxSave.flags_attribute.
    destruct (sd_pop3_uidl (sc_data c)), (sd_from_envelope (sc_data c));
      repeat (apply list.Forall_cons; split; [cbn; by repeat case_decide|]); by apply list.Forall_nil. }
  assert (P (if PluginConfig.is_mail_attribute RBOX_METADATA_OLDV1_KEYWORDS cfg
             then foldl (λ m kv, Mail.add_extended_metadata (Metadata.of_pair (to_string kv.1) kv.2) m)
                    m1 (si_keywords si) else m1)) as Hp2 by (case_match; [by apply H2|done]).
  destruct (if PluginConfig.is_mail_attribute _ _ then _ else _). exact (Hp2 k).
Qed.

Section finish.
Context `{Jansson} `{LibradosLaws W} `{RadosAdmin W} `{Dovecot W}.

(** The recovery index changes only its own object. *)
Lemma index_update_frame (m : ST (Storage.state W) unit) (s : rbox_save_context * (rbox_storage * W)) :
    (m = (Storage.ceph_index_size 0 ;; mret tt) ∨ ∃ oid, m = (Storage.ceph_index_append oid ;; mret tt)) →
    let s' := (RboxSave.rbox (Rbox.on_s m) s).2 in
    s'.1 = s.1 ∧ rb_s s'.2.1 = rb_s s.2.1 ∧ rb_cluster s'.2.1 = rb_cluster s.2.1 ∧
    ∀ k, k ≠ (st_recovery_io_ctx (rb_s s.2.1), st_nspace (rb_s s.2.1)) → objs s'.2.2 !! k = objs s.2.2 !! k.
Proof.
    intros Hm. cbv zeta. rewrite save_rbox_run, on_s_run. cbn [fst snd].
    destruct Hm as [->|[oid ->]].
    - unfold Storage.ceph_index_size. srun. pose proof (stat_law (st_recovery_io_ctx (rb_s s.2.1))
        (st_nspace (rb_s s.2.1)) s.2.2) as Hs.
      destruct (io_stat _ _ s.2.2) as [[r out] w']. cbn in *. destruct Hs as (-> & _). by repeat split.
    - unfold Storage.ceph_index_append. srun. do 3 (split; [done|]). intros k Hk.
      unfold io_append. by rewrite operate_frame.
Qed.

Lemma write_object_spec si c r (w : W) p mail b d cs :
    sc_rados_mail c = Some p → sc_heap c !! p = Some mail → rm_mail_buffer mail = Some b →
    rm_object_size mail = Z.of_nat (slen b) → 0 < Z.of_nat (slen b) < 2 ^ 31 →
    (∀ k, is_Some (rm_attrset mail !! k) → free_of NUL k = true) →
    Storage.usable (rb_s r, (rb_cluster r, w)) = true → rb_ms r = Some (inl d) →
    PluginConfig.get_chunk_size (rb_config r) = Some cs →
    0 < RboxSave.chunk_size cs (Storage.get_max_write_size_bytes (rb_s r)) < 2 ^ 31 →
    let key := (st_io_ctx (rb_s r), rm_oid mail) in
    let ikey := (st_recovery_io_ctx (rb_s r), st_nspace (rb_s r)) in
    objs w !! key = None → ikey ≠ key →
    let '(done, (c', (r', w'))) := RboxSave.write_object si (c, (r, w)) in
    (∀ k, k ≠ key → k ≠ ikey → objs w' !! k = objs w !! k) ∧
    (is_Some done → sc_failed c' = false →
     ∃ ob, objs w' !! key = Some ob ∧ ob_data ob = b ∧
       ((ob_xattrs ob = rm_attrset mail ∧ ob_omap ob = rm_extended_attrset mail) ∨
        (ob_xattrs ob = ∅ ∧ ob_omap ob = ∅))).
Proof.
    intros Hp Hh Hb Hsz Hlen Hkeys Hu Hms Hcs Hchunk key ikey Hn Hik.
    unfold RboxSave.write_object. svrun.
    unfold RboxSave.current, RboxSave.deref. rewrite Hp. cbn [mbind option_bind]. rewrite Hh.
    unfold Rbox.storage_ms. rewrite Hms. cbn [fmap option_fmap option_map].
    rewrite bind_eq. destruct (decide (st_max_object_size (rb_s r) < rm_object_size mail)).
    { svrun. cbn [sc_failed SaveContext.set_failed]. destruct (Log.is_open (rb_log r)); svrun; cbn; by split. }
    rewrite Hcs. rewrite bind_eq, save_rbox_run, on_s_run. cbn [fst snd].
    pose proof (save_append_stores (rb_s r, (rb_cluster r, w)) mail b
      (RboxSave.chunk_size cs (Storage.get_max_write_size_bytes (rb_s r))) Hu Hb Hsz Hlen Hchunk Hkeys Hn) as Hw.
    cbv zeta in Hw. fold key in Hw.
    change (ms_save_metadata _ mail) with (Storage.metadata_ops mail).
    cbn [fst snd] in Hw.
    destruct (SaveWrite.save_mail_write_append _ _ _ _) as [[ret mail'] s1] eqn:E. cbn [fst snd] in *.
    destruct Hw as ([v ->] & Es & Ec & Hf & Hok). svrun.
    set (c1 := SaveContext.set_failed _ _).
    assert (sc_failed c1 = bool_decide (v < 0)) as Ef by done.
    set (r1 := Rbox.set_cluster _ _).
    assert (∀ k, k ≠ key → objs s1.2.2 !! k = objs w !! k) as Hf1 by exact Hf.
    destruct (if sc_failed c1 then Some 0 else _) as [method|] eqn:Em.
    2: { rewrite ret_eq. split; [by intros; apply Hf1|]. by intros []. }
    assert (∀ st : rbox_save_context * (rbox_storage * W),
      st.1 = c1 → rb_s st.2.1 = rb_s r → objs st.2.2 = objs s1.2.2 →
      let st' := (RboxSave.when (bool_decide (method = 2))
           (RboxSave.rbox (Rbox.on_s (Storage.ceph_index_append (rm_oid mail) ;; mret tt)) ;;
            RboxSave.rbox (Rbox.on_s (Storage.ceph_index_size 0 ;; mret tt))) st).2 in
      st'.1 = c1 ∧ ∀ k, k ≠ ikey → objs st'.2.2 !! k = objs s1.2.2 !! k) as Hidx.
    { intros st E1 E2 E3. cbv zeta. rewrite save_when_run. destruct (bool_decide (method = 2)); [|cbn [snd]; by rewrite E3].
      rewrite bind_eq.
      destruct (index_update_frame (Storage.ceph_index_append (rm_oid mail) ;; mret tt) st
                  ltac:(right; by eexists)) as (A1 & A2 & _ & A4).
      set (st1 := (RboxSave.rbox _ st).2) in *.
      destruct (index_update_frame (Storage.ceph_index_size 0 ;; mret tt) st1 ltac:(by left))
        as (B1 & B2 & _ & B4).
      rewrite B1, A1, E1. split; [done|]. intros k Hk.
      rewrite B4 by (rewrite A2, E2; exact Hk). rewrite A4 by (rewrite E2; exact Hk). by rewrite E3. }
    specialize (Hidx (c1, (r1, s1.2.2)) eq_refl ltac:(by cbn; rewrite Es) eq_refl).
    cbv zeta in Hidx. rewrite bind_eq. destruct (RboxSave.when _ _ _) as [[] st]. cbn [snd] in *.
    destruct st as [c2 [r2 w2]]. cbn [fst snd] in *. destruct Hidx as [-> Hidx].
    assert (∀ out : option unit * (rbox_save_context * (rbox_storage * W)), out.2.1 = c1 → out.2.2.2 = w2 →
      let '(done, (c', (r', w'))) := out in
      (∀ k, k ≠ key → k ≠ ikey → objs w' !! k = objs w !! k) ∧
      (is_Some done → sc_failed c' = false → ∃ ob, objs w' !! key = Some ob ∧ ob_data ob = b ∧
       ((ob_xattrs ob = rm_attrset mail ∧ ob_omap ob = rm_extended_attrset mail) ∨
        (ob_xattrs ob = ∅ ∧ ob_omap ob = ∅)))) as Hfin.
    { intros [done [c' [r' w']]]. cbn. intros -> ->.
      split; [intros k Hk Hk'; by rewrite Hidx, Hf1|]. intros _ Hnf. rewrite Ef in Hnf.
      apply bool_decide_eq_false in Hnf. destruct (Hok v eq_refl ltac:(lia)) as (ob & Hob & Hd & Hx).
      exists ob. rewrite Hidx by done. split; [exact Hob|]. split; [done|].
      destruct Hx as [?|(_ & ? & ?)]; auto. }
    destruct (Log.is_open (rb_log r)); apply Hfin; svrun; done.
Qed.
End finish.

Lemma set_metadata_run `{Dovecot W} mb si c r (w : W) p mail :
  sc_rados_mail c = Some p → sc_heap c !! p = Some mail →
  ∃ c', RboxSave.rbox_save_mail_set_metadata mb si (c, (r, w)) = (tt, (c', (r, w))) ∧
    sc_rados_mail c' = Some p ∧
    sc_heap c' !! p = Some (RboxSave.with_save_attributes mb (rb_config r) si c mail).
Proof.
  intros Hp Hh. unfold RboxSave.rbox_save_mail_set_metadata.
  erewrite bind_run by (rewrite save_rbox_run, rbox_get_run; reflexivity). cbn [fst snd].
  erewrite bind_run by apply save_get_run. cbn [fst snd].
  erewrite bind_run by apply save_when_modify. cbn [fst snd].
  erewrite bind_run by apply save_when_modify. cbn [fst snd].
  rewrite save_modify_run. cbn [fst snd].
  match goal with |- context [RboxSave.update_mail _ ?x] => set (c3 := x) end.
  assert (sc_rados_mail c3 = Some p ∧ sc_heap c3 = sc_heap c) as [E1 E2]
    by (subst c3; repeat (case_match; cbn); done).
  unfold RboxSave.update_mail. rewrite E1. eexists. split; [done|]. split; [exact E1|].
  cbn. rewrite lookup_alter_eq, E2, Hh. done.
Qed.

(** A mail [mail] with the text [b], of which all was written to the plugin's own
    stream, waits to be finished. *)
Definition pending (c : rbox_save_context) (mail : RadosMail) (b : bufferlist) : Prop :=
  sc_failed c = false ∧ sc_output c = OwnOutput ∧
  ∃ p, sc_rados_mail c = Some p ∧ sc_heap c !! p = Some mail ∧ rm_mail_buffer mail = Some b ∧
       rm_attrset mail = ∅ ∧ sc_output_stream c = Some (mk_ostream (Z.of_nat (slen b)) p false).

(** C5. Finishing a mail ([rbox_save_finish]) with the default metadata module:
    success means that the object holds the whole text of the mail in its one
    place, and its attributes are the ones computed for the mail, or none at all
    (the write of the attributes that failed unnoticed); besides this object only
    the recovery index may have changed. *)
Theorem save_finish_stores `{Jansson} `{LibradosLaws W} `{RadosAdmin W} `{Dovecot W}
    (mb : mailbox) si c r (w : W) mail b d cs :
  pending c mail b → 0 <= si_stream_ret si → 0 < Z.of_nat (slen b) < 2 ^ 31 →
  Storage.usable (rb_s r, (rb_cluster r, w)) = true → rb_ms r = Some (inl d) →
  PluginConfig.get_chunk_size (rb_config r) = Some cs →
  0 < RboxSave.chunk_size cs (Storage.get_max_write_size_bytes (rb_s r)) < 2 ^ 31 →
  let key := (st_io_ctx (rb_s r), rm_oid mail) in
  let ikey := (st_recovery_io_ctx (rb_s r), st_nspace (rb_s r)) in
  objs w !! key = None → ikey ≠ key →
  let '(ret, (_, (_, w'))) := RboxSave.rbox_save_finish mb si (c, (r, w)) in
  (∀ k, k ≠ key → k ≠ ikey → objs w' !! k = objs w !! k) ∧
  (ret = Some 0 →
   let saved := RboxSave.with_save_attributes mb (rb_config r) si c
                  (Mail.set_mail_size (Z.of_nat (slen b)) mail) in
   ∃ ob, objs w' !! key = Some ob ∧ ob_data ob = b ∧
     ((ob_xattrs ob = rm_attrset saved ∧ ob_omap ob = rm_extended_attrset saved) ∨
      (ob_xattrs ob = ∅ ∧ ob_omap ob = ∅))).
Proof.
  intros (Hf & Ho & p & Hp & Hh & Hb & Hm & Hst) Hsi Hlen Hu Hms Hcs Hchunk key ikey Hn Hik.
  set (mail1 := Mail.set_mail_size (Z.of_nat (slen b)) mail).
  set (c1 := SaveContext.set_heap (alter (Mail.set_mail_size (Z.of_nat (slen b))) p (sc_heap c)) c).
  destruct (set_metadata_run mb si c1 r w p mail1 Hp) as (c4 & Er & E1 & E2).
  { cbn. rewrite lookup_alter_eq, Hh. done. }
  set (saved := RboxSave.with_save_attributes mb (rb_config r) si c1 mail1) in *.
  unfold RboxSave.rbox_save_finish. erewrite bind_run by apply save_get_run. cbn [fst snd].
  unfold RboxSave.own_output. rewrite Ho, Hst, bool_decide_eq_false_2 by lia.
  erewrite bind_run by done. erewrite bind_run by apply save_get_run. cbn [fst snd].
  rewrite Hf, Ho, Hst. cbn [os_offset negb]. rewrite decide_False by lia.
  rewrite bind_eq.
  match goal with |- context [(?m ≫= ?k) (c, (r, w))] => set (fin := (m ≫= k) (c, (r, w))) end.
  assert (fin = RboxSave.write_object si (c4, (r, w))) as Efin.
  { subst fin. erewrite bind_run by done. erewrite bind_run by apply save_modify_run. cbn [fst snd].
    unfold RboxSave.update_mail. rewrite Hp. fold c1. by erewrite bind_run by exact Er. }
  rewrite Efin. clear fin Efin.
  destruct (with_save_attributes_keeps mb (rb_config r) si c1 mail1) as (K1 & K2 & K3). fold saved in K1, K2, K3.
  assert (rm_oid mail1 = rm_oid mail ∧ rm_mail_buffer mail1 = Some b ∧ rm_attrset mail1 = ∅ ∧
          rm_object_size mail1 = Z.of_nat (slen b)) as (M1 & M2 & M3 & M4).
  { unfold mail1. destruct mail. cbn in *. do 3 (split; [done|]). apply wrap_s_small; cbn; lia. }
  pose proof (write_object_spec si c4 r w p saved b d cs) as Hw.
  premise Hw; [exact E1|]. premise Hw.
  { exact E2. }
  rewrite K2, K3, K1, M1, M2, M4 in Hw. specialize (Hw eq_refl eq_refl Hlen).
  premise Hw; [intros k; by apply with_save_attributes_keys|].
  specialize (Hw Hu Hms Hcs Hchunk Hn Hik). fold key ikey in Hw.
  destruct (RboxSave.write_object si (c4, (r, w))) as [done [c' [r' w']]]. destruct Hw as [Hfr Hw].
  cbn [fst snd]. destruct done as [[]|]; [|rewrite ret_eq; cbn [fst snd]; split; [exact Hfr|done]].
  unfold RboxSave.clean_up_write_finish. svrun. split; [exact Hfr|].
  intros Hret. assert (sc_failed c' = false) as Hnf.
  { destruct (sc_failed c') eqn:Ef; [|done]. cbn in Hret. by rewrite Ef in Hret. }
  destruct (Hw ltac:(by eexists) Hnf) as (ob & Hob & Hd & Hx). by exists ob.
Qed.

(** A mail that was written to its stream, in a connected plugin. *)
Definition written : rbox_save_context * (rbox_storage * MemDovecot) :=
  (RboxSave.rbox_save_continue [["From"; ": "]; ["a"]] 0
    (RboxSave.rbox_save_begin inbox 1600000000
      (RboxSave.rbox_save_alloc sample_data None, (ready_rbox, MemDv.empty))).2).2.
Definition written_mail : RadosMail := default Mail.new (RboxSave.current written.1).
Definition written_key : okey := (mk_ioctx "mail_storage" "u1", "guid0").

Lemma save_finish_stores_witness :
  let '(ret, (_, (_, w'))) := RboxSave.rbox_save_finish inbox (mk_save_inputs 0 None 7 []) written in
  ret = Some 0 ∧ ∃ ob, objs w' !! written_key = Some ob ∧ ob_data ob = "From: a".
Proof.
  assert (pending written.1 written_mail "From: a") as Hp.
  { split; [by vm_compute|]. split; [by vm_compute|]. exists 0%nat.
    repeat (split; [vm_compute; reflexivity|]). vm_compute; reflexivity. }
  pose proof (save_finish_stores inbox (mk_save_inputs 0 None 7 []) written.1 written.2.1 written.2.2
    written_mail "From: a" (mk_default (mk_ioctx "mail_storage" "u1")) 10240 Hp ltac:(cbn; lia)
    ltac:(cbn; lia) ltac:(vm_compute; reflexivity) ltac:(vm_compute; reflexivity)
    ltac:(vm_compute; reflexivity) ltac:(by vm_compute) ltac:(vm_compute; reflexivity)
    ltac:(vm_compute; discriminate)) as Hs.
  assert (written = (written.1, (written.2.1, written.2.2))) as Ew by (by destruct written as [? [? ?]]).
  rewrite <- Ew in Hs.
  assert ((st_io_ctx (rb_s written.2.1), rm_oid written_mail) = written_key) as Ek by (vm_compute; reflexivity).
  cbv zeta in Hs. rewrite Ek in Hs.
  destruct (RboxSave.rbox_save_finish _ _ written) as [ret [c' [r' w']]] eqn:E.
  assert (ret = Some 0) as ->.
  { assert ((RboxSave.rbox_save_finish inbox (mk_save_inputs 0 None 7 []) written).1 = Some 0) as E2
      by (vm_compute; reflexivity).
    by rewrite E in E2. }
  destruct Hs as [_ Hs]. destruct (Hs eq_refl) as (ob & Hob & Hd & _).
  split; [reflexivity|]. exists ob. by split.
Defined.

(** With [rbox_ceph_write_chunks] the stream writes every piece to the object
    itself; finishing then writes what the buffer still holds, the last piece, at
    the start of the object. *)
Definition chunked_rbox : rbox_storage :=
  Rbox.set_config (PluginConfig.update_metadata DovecotConfig.rbox_ceph_write_chunks (Some "true")
                     (rb_config ready_rbox)) ready_rbox.

(** With [rbox_ceph_write_chunks] enabled a mail that Dovecot writes in more
    than one piece is stored wrongly although the save reports success: the
    object of a mail with the text ["From: a"], written as ["From: "] and ["a"],
    starts with the last piece. *)
Theorem write_chunks_corrupts :
  let s := (RboxSave.rbox_save_continue [["From: "]; ["a"]] 0
    (RboxSave.rbox_save_begin inbox 1600000000
      (RboxSave.rbox_save_alloc sample_data None, (chunked_rbox, MemDv.empty))).2).2 in
  let '(ret, (_, (_, w'))) := RboxSave.rbox_save_finish inbox (mk_save_inputs 0 None 7 []) s in
  ret = Some 0 ∧ ob_data <$> objs w' !! written_key = Some "arom: a".
Proof. vm_compute. done. Qed.

(** ** Giving up a transaction *)

Section rollback.
Context `{Jansson} `{LibradosLaws W} `{RadosAdmin W} `{!Dovecot W} `{!DovecotLaws W}.
  Implicit Types s : rbox_save_context * (rbox_storage * W).

(** The object of a mail. *)
Definition mail_key (r : rbox_storage) (mail : RadosMail) : okey := (st_io_ctx (rb_s r), rm_oid mail).

(** The world in which the turn of the [n]th of the mails [ms] comes: the objects of the mails
    before it were removed. *)
Definition after_delete (c : ioctx) (w : W) (m : option RadosMail) : W :=
    match m with
    | Some mail => if decide (rm_oid mail = "") then w else (io_remove c (rm_oid mail) w).2
    | None => w
    end.
Definition delete_world (c : ioctx) (ms : list (option RadosMail)) (w : W) (n : nat) : W :=
    foldl (after_delete c) w (take n ms).

(** One mail after [delete_mail]. *)
Lemma delete_mail_spec (m : option RadosMail) s :
    Storage.usable (rb_s s.2.1, (rb_cluster s.2.1, s.2.2)) = true →
    let s' := (RboxSave.rbox (Rbox.on_s (Storage.delete_mail m)) s).2 in
    s'.1 = s.1 ∧ rb_s s'.2.1 = rb_s s.2.1 ∧ rb_cluster s'.2.1 = rb_cluster s.2.1 ∧
    ix_log s'.2.2 = ix_log s.2.2 ∧
    (∀ k, objs s'.2.2 !! k = objs s.2.2 !! k ∨
          (objs s'.2.2 !! k = None ∧ ∃ mail, m = Some mail ∧ k = mail_key s.2.1 mail)) ∧
    s'.2.2 = after_delete (st_io_ctx (rb_s s.2.1)) s.2.2 m ∧
    (∀ mail, m = Some mail → rm_oid mail ≠ "" →
       objs s'.2.2 !! mail_key s.2.1 mail = None ∨
       (io_remove (st_io_ctx (rb_s s.2.1)) (rm_oid mail) s.2.2).1 < 0).
Proof.
    intros Hu. cbv zeta. rewrite save_rbox_run, on_s_run. cbn [fst snd].
    destruct m as [mail|]; [|cbn; do 4 (split; [done|]); split; [by left|done]]. cbn [after_delete].
    unfold Storage.delete_mail. rewrite StorageRun.guarded_usable by done.
    unfold Storage.delete_mail_oid. cbn [fst snd].
    unfold Storage.usable in Hu. cbn [fst snd] in Hu. apply andb_true_iff in Hu as [Hu1 Hu2].
    rewrite Hu1, Hu2. cbn [negb orb]. rewrite orb_false_r.
    destruct (decide (rm_oid mail = "")) as [He|He].
    { rewrite bool_decide_eq_true_2 by done. cbn. do 4 (split; [done|]). split; [by left|]. split; [done|].
      by intros ? [= <-] ?. }
    rewrite bool_decide_eq_false_2 by done. cbn [orb negb]. srun.
    pose proof (io_remove_spec (st_io_ctx (rb_s s.2.1)) (rm_oid mail) s.2.2) as Hr.
    pose proof (operate_log (st_io_ctx (rb_s s.2.1)) (rm_oid mail) [OpRemove] s.2.2) as Hl.
    change (io_operate (st_io_ctx (rb_s s.2.1)) (rm_oid mail) [OpRemove])
      with (io_remove (st_io_ctx (rb_s s.2.1)) (rm_oid mail)) in Hl.
    destruct (io_remove _ _ s.2.2) as [v w'] eqn:E. cbn [fst snd rb_s rb_cluster Rbox.set_cluster Rbox.set_s] in *.
    destruct Hr as (Hf & Hk & Hok). do 4 (split; [done|]). split.
    - intros k. destruct (decide (k = mail_key s.2.1 mail)) as [->|Hne]; [|left; by apply Hf].
      destruct Hk; [by left|]. right. split; [done|]. by exists mail.
    - split; [done|]. intros ? [= <-] _. destruct (decide (0 <= v)); [left; by apply Hok|right]. rewrite E. cbn. lia.
Qed.

Lemma delete_loop_spec c0 l s :
    Storage.usable (rb_s s.2.1, (rb_cluster s.2.1, s.2.2)) = true →
    let s' := (st_iter (λ p, RboxSave.rbox (Rbox.on_s (Storage.delete_mail (RboxSave.deref c0 p))) ;;
                             mret tt) l s).2 in
    s'.1 = s.1 ∧ rb_s s'.2.1 = rb_s s.2.1 ∧ rb_cluster s'.2.1 = rb_cluster s.2.1 ∧
    ix_log s'.2.2 = ix_log s.2.2 ∧
    (∀ k, objs s'.2.2 !! k = objs s.2.2 !! k ∨
       (objs s'.2.2 !! k = None ∧ ∃ p mail, p ∈ l ∧ RboxSave.deref c0 p = Some mail ∧ k = mail_key s.2.1 mail)) ∧
    (∀ n mail, (RboxSave.deref c0 <$> l) !! n = Some (Some mail) → rm_oid mail ≠ "" →
       objs s'.2.2 !! mail_key s.2.1 mail = None ∨
       (io_remove (st_io_ctx (rb_s s.2.1)) (rm_oid mail)
          (delete_world (st_io_ctx (rb_s s.2.1)) (RboxSave.deref c0 <$> l) s.2.2 n)).1 < 0).
Proof.
    revert s. induction l as [|p l IH]; intros s Hu; cbn [st_iter]; cbv zeta.
    { cbn. do 4 (split; [done|]). split; [by left|done]. }
    rewrite bind_eq. match goal with |- context [((?m ≫= ?k) s).2] => set (s1 := ((m ≫= k) s).2) end.
    assert (s1 = (RboxSave.rbox (Rbox.on_s (Storage.delete_mail (RboxSave.deref c0 p))) s).2) as E1
      by (subst s1; by rewrite bind_eq, ret_eq).
    pose proof (delete_mail_spec (RboxSave.deref c0 p) s Hu) as Hd. cbv zeta in Hd. rewrite <- E1 in Hd.
    clearbody s1. destruct Hd as (A1 & A2 & A3 & A4 & A5 & A6 & A7).
    specialize (IH s1). premise IH; [by rewrite A2, A3|]. cbv zeta in IH.
    destruct (st_iter _ l s1) as [[] s2]. cbn [snd] in *.
    destruct IH as (B1 & B2 & B3 & B4 & B5 & B6).
    assert (∀ m, mail_key s1.2.1 m = mail_key s.2.1 m) as Ek by (intros m; unfold mail_key; by rewrite A2).
    split; [congruence|]. split; [congruence|]. split; [congruence|]. split; [congruence|]. split.
    - intros k. destruct (B5 k) as [->|[-> (q & m & Hq & Hm & ->)]].
      + destruct (A5 k) as [->|[-> (m & Hm & ->)]]; [by left|]. right. split; [done|].
        exists p, m. split; [by left|done].
      + right. split; [done|]. exists q, m. split; [by right|]. by rewrite <- Ek.
    - intros [|n] m; cbn [fmap list_fmap lookup list_lookup].
      + intros [= Hm] Ho. destruct (A7 m Hm Ho) as [Hn|Hx]; [|by right]. left.
        destruct (B5 (mail_key s.2.1 m)) as [->|[-> _]]; done.
      + intros Hm Ho. rewrite <- Ek. unfold delete_world. cbn [fmap list_fmap take foldl]. rewrite <- A6, <- A2. by apply (B6 n m).
Qed.
End rollback.

(** C29. Giving up a save ([rbox_transaction_save_rollback] after the last mail was
    finished): if the save failed and nothing was moved, the object of every mail
    of the transaction is gone, unless the cluster answered its removal with an
    error when its turn came, after the mails before it; no other object changed,
    and the last record is taken from the index; otherwise no object changes and the index is left alone. The mails
    are freed in both cases. *)
Theorem rollback_removes_failed `{Jansson} `{LibradosLaws W} `{RadosAdmin W} `{!Dovecot W} `{!DovecotLaws W}
    (mb : mailbox) si c r (w : W) :
  Storage.usable (rb_s r, (rb_cluster r, w)) = true → sc_finished c = true → sc_sync_ctx c = None →
  let failed := sc_failed c && (negb (sc_copying c) || negb (sc_moving c)) in
  let '(ret, (c', (r', w'))) := RboxSave.rbox_transaction_save_rollback mb si (c, (r, w)) in
  ret = Some tt ∧ sc_rados_mails c' = [] ∧
  (∀ k, objs w' !! k = objs w !! k ∨
     (failed = true ∧ objs w' !! k = None ∧ ∃ p mail, p ∈ sc_rados_mails c ∧
        RboxSave.deref c p = Some mail ∧ k = mail_key r mail)) ∧
  (failed = true → ∀ n mail, (RboxSave.deref c <$> sc_rados_mails c) !! n = Some (Some mail) → rm_oid mail ≠ "" →
     objs w' !! mail_key r mail = None ∨
     (io_remove (st_io_ctx (rb_s r)) (rm_oid mail)
        (delete_world (st_io_ctx (rb_s r)) (RboxSave.deref c <$> sc_rados_mails c) w n)).1 < 0) ∧
  ix_log w' = ix_log w ++
    (if failed then (if decide (sc_seq c > 0) then [IxExpunge (sc_seq c)] else []) ++
                    (if sc_transaction c then [IxCacheReset] else [])
     else []).
Proof.
  intros Hu Hfin Hsync failed. unfold RboxSave.rbox_transaction_save_rollback.
  erewrite bind_run by apply save_get_run. cbn [fst snd]. rewrite Hfin.
  erewrite bind_run by done. cbn beta iota. erewrite bind_run.
  2: { unfold RboxSave.finish_sync. cbn [fst]. by rewrite Hsync. }
  cbn beta iota. erewrite bind_run by apply save_modify_run. cbn [fst snd].
  erewrite bind_run by apply save_get_run. cbn [fst snd].
  erewrite bind_run by apply save_when_modify. cbn [fst snd].
  match goal with |- context [RboxSave.when ?b RboxSave.clean_up_failed] => change b with failed end.
  match goal with |- context [if ?b then SaveContext.set_dest_mail false ?x else ?y] =>
    set (c1 := if b then SaveContext.set_dest_mail false x else y) end.
  assert (sc_rados_mails c1 = sc_rados_mails c ∧ sc_heap c1 = sc_heap c ∧ sc_seq c1 = sc_seq c ∧
          sc_transaction c1 = sc_transaction c) as (E1 & E2 & E3 & E4)
    by (subst c1; by case_match). clearbody c1.
  assert (let s1 := (RboxSave.when failed RboxSave.clean_up_failed (c1, (r, w))).2 in
    (∀ k, objs s1.2.2 !! k = objs w !! k ∨
       (failed = true ∧ objs s1.2.2 !! k = None ∧ ∃ p mail, p ∈ sc_rados_mails c ∧
          RboxSave.deref c p = Some mail ∧ k = mail_key r mail)) ∧
    (failed = true → ∀ n mail, (RboxSave.deref c <$> sc_rados_mails c) !! n = Some (Some mail) → rm_oid mail ≠ "" →
       objs s1.2.2 !! mail_key r mail = None ∨
       (io_remove (st_io_ctx (rb_s r)) (rm_oid mail)
          (delete_world (st_io_ctx (rb_s r)) (RboxSave.deref c <$> sc_rados_mails c) w n)).1 < 0) ∧
    ix_log s1.2.2 = ix_log w ++
      (if failed then (if decide (sc_seq c > 0) then [IxExpunge (sc_seq c)] else []) ++
                      (if sc_transaction c then [IxCacheReset] else [])
       else [])) as Hs1.
  { rewrite save_when_run. destruct failed; [|cbn; rewrite app_nil_r; split; [by left|done]].
    cbv zeta. unfold RboxSave.clean_up_failed. erewrite bind_run by apply save_get_run. cbn [fst snd].
    pose proof (delete_loop_spec c1 (sc_rados_mails c1) (c1, (r, w)) Hu) as Hd. cbv zeta in Hd. rewrite bind_eq.
    destruct (st_iter _ (sc_rados_mails c1) (c1, (r, w))) as [[] [c2 [r2 w2]]]. cbn [fst snd] in *.
    destruct Hd as (-> & _ & _ & Hlog & Hall & Hgone).
    unfold RboxSave.clean_up_mail_object_list, RboxSave.index.
    rewrite !bind_eq, !save_modify_run. cbn [snd].
    rewrite E3, E4 in *. rewrite E1 in *.
    assert (∀ p, RboxSave.deref c1 p = RboxSave.deref c p) as Ed
      by (intros p; unfold RboxSave.deref; by rewrite E2).
    assert (∀ s, let s' := (RboxSave.when (bool_decide (sc_seq c > 0))
              (RboxSave.world (mail_index_do (IxExpunge (sc_seq c)))) s).2 in
       objs s'.2.2 = objs s.2.2 ∧
       ix_log s'.2.2 = ix_log s.2.2 ++ (if decide (sc_seq c > 0) then [IxExpunge (sc_seq c)] else [])) as HA.
    { intros s. cbv zeta. rewrite save_when_run. case_bool_decide as Hq.
      - rewrite save_world_run. cbn [fst snd]. rewrite decide_True by done. apply index_do_law.
      - rewrite decide_False by done. cbn. by rewrite app_nil_r. }
    assert (∀ s, let s' := (RboxSave.when (sc_transaction c)
              (RboxSave.world (mail_index_do IxCacheReset)) s).2 in
       objs s'.2.2 = objs s.2.2 ∧
       ix_log s'.2.2 = ix_log s.2.2 ++ (if sc_transaction c then [IxCacheReset] else [])) as HB.
    { intros s. cbv zeta. rewrite save_when_run. destruct (sc_transaction c).
      - rewrite save_world_run. cbn [fst snd]. apply index_do_law.
      - cbn. by rewrite app_nil_r. }
    cbv zeta in HA, HB.
    set (wa := RboxSave.when (bool_decide (sc_seq c > 0))
                 (RboxSave.world (W:=W) (mail_index_do (IxExpunge (sc_seq c))))) in *.
    set (wb := RboxSave.when (sc_transaction c) (RboxSave.world (W:=W) (mail_index_do IxCacheReset))) in *.
    destruct (HB (wa (c1, (r2, w2))).2) as [Ob Lb]. destruct (HA (c1, (r2, w2))) as [Oa La].
    cbn [snd] in Oa, La. rewrite Ob, Oa, Lb, La, Hlog, <- app_assoc. split; [|split; [|done]].
    - intros k. destruct (Hall k) as [?|[? (p & m & ? & ? & ?)]]; [by left|]. right. split; [done|].
      split; [done|]. exists p, m. by rewrite <- Ed.
    - intros _ n m Hm Ho. rewrite <- (list_fmap_ext _ _ _ (λ _ p _, Ed p)) in *. by apply (Hgone n m). }
  cbv zeta in Hs1. rewrite bind_eq. destruct (RboxSave.when failed _ _) as [[] [c2 [r2 w2]]].
  unfold RboxSave.clean_up_mail_object_list. svrun. by do 2 (split; [done|]).
Qed.

(** The mail above after its object was stored and the save failed nevertheless. *)
Definition failed_save : rbox_save_context * (rbox_storage * MemDovecot) :=
  let s := (RboxSave.rbox_save_finish inbox (mk_save_inputs 0 None 7 []) written).2 in
  (SaveContext.set_failed true s.1, s.2).

Lemma rollback_removes_failed_witness :
  is_Some (objs failed_save.2.2 !! written_key) ∧
  let '(ret, (_, (_, w'))) :=
    RboxSave.rbox_transaction_save_rollback inbox (mk_save_inputs 0 None 7 []) failed_save in
  ret = Some tt ∧ objs w' !! written_key = None ∧
  ix_log w' = ix_log failed_save.2.2 ++ [IxExpunge 1; IxCacheReset].
Proof.
  split; [vm_compute; by eexists|].
  pose proof (rollback_removes_failed inbox (mk_save_inputs 0 None 7 []) failed_save.1 failed_save.2.1
    failed_save.2.2 ltac:(vm_compute; reflexivity) ltac:(vm_compute; reflexivity)
    ltac:(vm_compute; reflexivity)) as Hr.
  assert (failed_save = (failed_save.1, (failed_save.2.1, failed_save.2.2))) as Ef
    by (by destruct failed_save as [? [? ?]]).
  rewrite <- Ef in Hr. cbv zeta in Hr.
  assert ((sc_failed failed_save.1 && (negb (sc_copying failed_save.1) || negb (sc_moving failed_save.1)))
    = true) as Eb by (vm_compute; reflexivity).
  rewrite Eb in Hr.
  assert (sc_seq failed_save.1 = 1 ∧ sc_transaction failed_save.1 = true) as [Es Et]
    by (vm_compute; split; reflexivity).
  rewrite Es, Et in Hr.
  assert (objs (RboxSave.rbox_transaction_save_rollback inbox (mk_save_inputs 0 None 7 []) failed_save).2.2.2
    !! written_key = None) as Hn by (vm_compute; reflexivity).
  destruct (RboxSave.rbox_transaction_save_rollback _ _ failed_save) as [ret [c' [r' w']]].
  destruct Hr as (-> & _ & _ & _ & Hl). split; [reflexivity|]. split; [exact Hn|]. exact Hl.
Defined.
