(* ===== verification/SaveCommit.v ===== *)
(** Committing a save: [rbox_transaction_save_commit_pre] (storage-rbox/rbox-save.cpp).
    Inside a synchronisation of the mailbox the new records of the index get their
    uids, which are then written to the objects of the mails. *)
From S2P Require Export RboxSave RebuildSpec SyncBegin.
Import SaveContext.
Local Open Scope rmb_scope.

Module SaveCommit.
(** [offsetof(struct rbox_index_header, flags)]. *)
Definition flags_offset : Z := 20.

Section ops.
Context `{Jansson} `{Librados W} `{RadosAdmin W} `{Dovecot W} `{DovecotBoxes W}.
  Abbreviation K := (ST (rbox_health * (rbox_save_context * (rbox_storage * W)))).
Variables (junk : Z) (namespaces : list string) (have_fsckd : bool) (mb : mailbox).

Definition on_save {A} (m : ST (rbox_save_context * (rbox_storage * W)) A) : K A := on_snd m.
(** The synchronisation begins; its context becomes the one of the save. *)
Definition begin_sync (flags : Z) : K (option Z) :=
    λ '(h, (c, s)),
    let '(res, (h, s)) := SyncBegin.rbox_sync_begin junk namespaces have_fsckd mb flags (h, s) in
    (fst <$> res, (h, (match res with Some (_, ctx) => set_sync_ctx ctx c | None => c end, s))).

Definition roll_back (si : save_inputs) : K (option unit) := on_save (RboxSave.rbox_transaction_save_rollback mb si).

(** The mail the save was made for is given up. *)
Definition release_dest_mail (c : rbox_save_context) : rbox_save_context :=
    if sc_dest_mail c
    then set_dest_mail false (if sc_dest_mail_allocated c then set_dest_mail_allocated false c else c)
    else c.

(** The result and, on success, the uid validity of the changes. [None]: a null
    context is used, or an assertion fails. *)
Definition rbox_transaction_save_commit_pre (si : save_inputs) : K (option (Z * option Z)) :=
    c ← on_save RboxSave.get;
    if negb (sc_finished c) then abort else
    ret ←! begin_sync (Z.lor RBOX_SYNC_FLAG_FORCE RBOX_SYNC_FLAG_FSYNC);
    if decide (ret < 0) then
      on_save (RboxSave.modify (set_failed true)) ;;
      _ ←! roll_back si; aret (-1, None)
    else
      c ← on_save RboxSave.get;
      match sc_sync_ctx c with
      | None => abort
      | Some _ =>
          data ← on_save (RboxSave.world (RboxMailbox.ask (mail_index_header_ext_bytes (mb_hdr_ext_id mb))));
          on_save (RboxSave.rbox_save_update_header_flags data (mb_hdr_ext_id mb) flags_offset) ;;
          hdr ← on_save (RboxSave.world (RboxMailbox.ask mail_index_get_header));
          uids ← on_save (RboxSave.world (mail_index_append_finish_uids (mh_next_uid hdr)));
          ret ←! on_save (RboxSave.rbox_save_assign_uids uids);
          if decide (ret < 0) then _ ←! roll_back si; aret (-1, None)
          else
            on_save (RboxSave.modify release_dest_mail) ;;
            aret (0, Some (mh_uid_validity hdr))
      end.
End ops.
End SaveCommit.

(** ** The uids of the objects *)

Section assign.
Context `{Jansson} `{CalmWorld W} `{!Dovecot W}.

(** The object of a mail that got its uid. *)
Definition has_uid (uid : Z) (ob ob' : robject) : Prop :=
  ob_data ob' = ob_data ob ∧ ob_omap ob' = ob_omap ob ∧
  ob_xattrs ob' = <[rbox_metadata_key_to_char RBOX_METADATA_MAIL_UID := to_string (uint32 uid) +:+ nul_string]> (ob_xattrs ob).

(** The attribute is set by the default module, on a cluster without failures. *)
Lemma set_uid_spec io mail uid (w : W) :
  calm w →
  let metadata := Metadata.convert_uint RBOX_METADATA_MAIL_UID uid in
  let '((ret, mail'), w') := ms_set_metadata_op (mk_default io) mail metadata
                               [OpSetxattr (c_str (md_key metadata)) (md_bl metadata)] w in
  0 <= ret ∧ calm w' ∧ rm_oid mail' = rm_oid mail ∧
  (∀ k, k ≠ (io, rm_oid mail) → objs w' !! k = objs w !! k) ∧
  ∀ ob, objs w !! (io, rm_oid mail) = Some ob → ∃ ob', objs w' !! (io, rm_oid mail) = Some ob' ∧ has_uid uid ob ob'.
Proof.
  intros Hw metadata. cbn [ms_set_metadata_op default_module]. unfold MetadataDefaultOps.set_metadata_op. cbn [df_io_ctx].
  rewrite bind_eq.
  match goal with |- context [io_aio_operate io (rm_oid ?m) ?ops w] =>
    set (mail1 := m); set (ops1 := ops) end.
  assert (Eo : rm_oid mail1 = rm_oid mail) by (subst mail1; destruct mail; cbn; by case_match).
  rewrite Eo. pose proof (calm_aio_operate io (rm_oid mail) ops1 w Hw) as Hc.
  pose proof (λ k, aio_operate_frame io (rm_oid mail) ops1 w k) as Hf.
  destruct (calm_aio_effect io (rm_oid mail) ops1 w Hw) as [now Hobj].
  destruct (io_aio_operate io (rm_oid mail) ops1 w) as [[sub val] w']. cbn [fst snd] in *.
  destruct Hc as (Hw' & Hsub & _). rewrite ret_eq. do 2 (split; [done|]). split; [done|]. split; [exact Hf|].
  intros ob Hob. rewrite Hobj. unfold apply_ops. rewrite Hob.
  cbn [fmap option_fmap option_map apply_obj apply_op mbind option_bind default from_option id ops1].
  rewrite lookup_insert_eq. eexists. split; [done|]. by split.
Qed.

(** The addresses of mails and the names of their objects. *)
Definition named (c : rbox_save_context) (p : option nat) (oid : string) : Prop :=
  ∃ mail, RboxSave.deref c p = Some mail ∧ rm_oid mail = oid.
Lemma named_update c p mail mail' q oid :
  RboxSave.deref c p = Some mail → rm_oid mail' = rm_oid mail → named c q oid →
  named (RboxSave.update_mail (λ _, mail') (set_rados_mail p c)) q oid.
Proof.
  intros Hp Ho (m & Hq & Hm). destruct p as [a|]; [|done].
  unfold RboxSave.update_mail. cbn. unfold named, RboxSave.deref in *. cbn in *.
  destruct q as [b|]; [|done]. cbn in *. destruct (decide (a = b)) as [->|Hne].
  - exists mail'. rewrite lookup_alter, decide_True by done. rewrite Hq. split; [done|]. congruence.
  - exists m. by rewrite lookup_alter_ne.
Qed.

(** The uid of one mail, as the loop sets it. *)
Lemma assign_one io p oid c r (w : W) :
  rb_ms r = Some (inl (mk_default io)) → io = st_io_ctx (rb_s r) → named c p oid →
  ∃ mail, RboxSave.deref (set_rados_mail p c) p = Some mail ∧ rm_oid mail = oid ∧
    Rbox.storage_ms (W:=W) false r = Some (inl (mk_default io)).
Proof.
  intros Hms -> (mail & Hd & Ho). exists mail. split; [by destruct p|]. split; [done|].
  unfold Rbox.storage_ms. by rewrite Hms.
Qed.

Lemma assign_loop_spec io mails oids uids n c r (w : W) :
  calm w → rb_ms r = Some (inl (mk_default io)) → io = st_io_ctx (rb_s r) →
  PluginConfig.is_mail_attribute RBOX_METADATA_MAIL_UID (rb_config r) = true →
  0 <= n → sc_highest_pop3_uidl_seq c < 2 →
  Forall2 (named c) mails oids → length uids = length mails → NoDup oids →
  let '(res, (_, (r', w'))) := RboxSave.assign_loop mails uids n (c, (r, w)) in
  res = Some 0 ∧ r' = r ∧
  (∀ k, k ∉ (λ oid, (io, oid)) <$> oids → objs w' !! k = objs w !! k) ∧
  ∀ i oid uid ob, oids !! i = Some oid → uids !! i = Some uid → objs w !! (io, oid) = Some ob →
    ∃ ob', objs w' !! (io, oid) = Some ob' ∧ has_uid uid ob ob'.
Proof.
  intros Hw Hms Hio Hatt Hn Hpop Hall. revert uids n c w Hw Hn Hpop Hall.
  induction mails as [|p mails IH] in oids |- *; intros uids n c w Hw Hn Hpop Hall Hlen Hnd.
  { destruct uids; [|done]. cbn. split; [done|]. split; [done|]. split; [done|].
    intros i oid uid ob _ Hi. by rewrite lookup_nil in Hi. }
  destruct uids as [|uid uids]; [done|]. apply Forall2_cons_inv_l in Hall as (oid & oids' & Hp & Hall & ->).
  apply list.NoDup_cons in Hnd as [Hnew Hnd]. cbn [RboxSave.assign_loop].
  destruct (assign_one io p oid c r w Hms Hio Hp) as (mail & Hd & Ho & Hst).
  svrun. rewrite Hatt. svrun. rewrite Hd, Hst. svrun.
  pose proof (set_uid_spec io mail uid w Hw) as Hset. cbn zeta in Hset. rewrite Ho in Hset.
  change (ms_set_metadata_op (inl (mk_default io)) mail) with (ms_set_metadata_op (W:=W) (mk_default io) mail).
  destruct (ms_set_metadata_op (mk_default io) mail _ _ w) as [[ret mail'] w1].
  destruct Hset as (Hret & Hw1 & Ho1 & Hf1 & Hob1). cbn [fst snd]. svrun. rewrite decide_False by lia. svrun.
  set (c1 := RboxSave.update_mail (λ _, mail') (set_rados_mail p c)).
  assert (Hpop1 : sc_highest_pop3_uidl_seq c1 = sc_highest_pop3_uidl_seq c) by (subst c1; by destruct p).
  rewrite bool_decide_eq_false_2 by (rewrite Hpop1; lia). cbn [fst snd].
  specialize (IH oids' uids (n + 1) c1 w1 Hw1 ltac:(lia) ltac:(lia)).
  premise IH. { eapply list.Forall2_impl; [exact Hall|]. intros q o Hq. eapply named_update; [exact Hd|congruence|exact Hq]. }
  specialize (IH ltac:(cbn in Hlen; lia) Hnd).
  destruct (RboxSave.assign_loop mails uids (n + 1) (c1, (r, w1))) as [res [c2 [r2 w2]]].
  destruct IH as (-> & -> & Hf2 & Hob2). split; [done|]. split; [done|]. split.
  - intros k Hk. cbn in Hk. apply not_elem_of_cons in Hk as [Hk Hks]. by rewrite Hf2, Hf1.
  - intros i oid2 uid2 ob Hi Hu Hob. destruct i as [|i]; cbn in Hi, Hu.
    + injection Hi as <-. injection Hu as <-. destruct (Hob1 ob Hob) as (ob' & ? & ?). exists ob'.
      rewrite Hf2; [done|]. intros (o & [= ->] & Hin)%list_elem_of_fmap. done.
    + apply (Hob2 i oid2 uid2 ob Hi Hu). rewrite Hf1; [done|]. intros [= ->].
      apply Hnew. by eapply list_elem_of_lookup_2.
Qed.
End assign.

(** C27. Index and objects agree on the uids of saved mails: before a transaction
    is committed, the object of the i-th mail gets the i-th of the uids that the
    index assigned, as the attribute a rebuild reads, and keeps everything else;
    no other object changes. This is for the default metadata module in a
    configuration that stores the attribute, distinct objects and a cluster
    without failures. *)
Theorem commit_assigns_uids `{Jansson} `{CalmWorld W} `{!Dovecot W}
    (mails : list (option nat)) (oids : list string) (uids : list Z) c r (w : W) :
  let io := st_io_ctx (rb_s r) in
  calm w → rb_ms r = Some (inl (mk_default io)) →
  PluginConfig.is_mail_attribute RBOX_METADATA_MAIL_UID (rb_config r) = true →
  sc_rados_mails c = mails → Forall2 (named c) mails oids → NoDup oids → length uids = length mails →
  sc_highest_pop3_uidl_seq c < 2 →
  let '(res, (_, (r', w'))) := RboxSave.rbox_save_assign_uids uids (c, (r, w)) in
  res = Some 0 ∧ r' = r ∧
  (∀ k, k ∉ (λ oid, (io, oid)) <$> oids → objs w' !! k = objs w !! k) ∧
  ∀ i oid uid ob, oids !! i = Some oid → uids !! i = Some uid → objs w !! (io, oid) = Some ob →
    ∃ ob', objs w' !! (io, oid) = Some ob' ∧ ob_data ob' = ob_data ob ∧ ob_omap ob' = ob_omap ob ∧
      get_metadata_key RBOX_METADATA_MAIL_UID (ob_xattrs ob') = Some (to_string (uint32 uid)) ∧
      ∀ key, key ≠ RBOX_METADATA_MAIL_UID →
        get_metadata_key key (ob_xattrs ob') = get_metadata_key key (ob_xattrs ob).
Proof.
  intros io Hw Hms Hatt Hm Hall Hnd Hlen Hpop. unfold RboxSave.rbox_save_assign_uids.
  rewrite bind_eq, save_get_run. cbn [fst snd]. rewrite Hm.
  pose proof (assign_loop_spec io mails oids uids 0 c r w Hw Hms eq_refl Hatt ltac:(lia) Hpop Hall Hlen Hnd) as Hs.
  assert (E : (match mails with [] => mret (Some 0) | p :: l => RboxSave.assign_loop (p :: l) uids 0 end) (c, (r, w)) =
    RboxSave.assign_loop mails uids 0 (c, (r, w))) by (destruct mails; [by destruct uids|done]).
  rewrite E. clear E. destruct (RboxSave.assign_loop mails uids 0 (c, (r, w))) as [res [c' [r' w']]].
  destruct Hs as (-> & -> & Hf & Hob). do 2 (split; [done|]). split; [exact Hf|].
  intros i oid uid ob Hi Hu Ho. destruct (Hob i oid uid ob Hi Hu Ho) as (ob' & Ho' & Ed & Eo & Ex).
  exists ob'. do 3 (split; [done|]). rewrite Ex. unfold get_metadata_key, get_metadata. split.
  - rewrite lookup_insert_eq. cbn [fmap option_fmap option_map].
    by rewrite RebuildSpec.c_str_nul, c_str_id by apply free_of_NUL_to_string.
  - intros key Hk. by rewrite lookup_insert_ne by by intros Ek%(inj rbox_metadata_key_to_char).
Qed.

(** Two saved mails in the namespace of the sample. *)
Definition two_saved : rbox_save_context :=
  set_rados_mails [Some 0%nat; Some 1%nat]
    (set_heap {[ 0%nat := Mail.set_oid "o1" Mail.new; 1%nat := Mail.set_oid "o2" Mail.new ]}
       (RboxSave.new_context sample_data)).

Lemma commit_assigns_uids_witness :
  ∃ w' ob', (RboxSave.rbox_save_assign_uids [7; 8] (two_saved, (ready_rbox, two_mails))).2.2.2 = w' ∧
    objs w' !! (mk_ioctx "mail_storage" "u1", "o2") = Some ob' ∧
    get_metadata_key RBOX_METADATA_MAIL_UID (ob_xattrs ob') = Some "8".
Proof.
  pose proof (commit_assigns_uids [Some 0%nat; Some 1%nat] ["o1"; "o2"] [7; 8] two_saved ready_rbox two_mails) as Hc.
  cbv zeta in Hc. premise Hc; [done|]. premise Hc; [done|]. premise Hc; [done|]. premise Hc; [done|].
  premise Hc. { repeat constructor; eexists; split; [vm_compute; reflexivity|done|vm_compute; reflexivity|done]. }
  premise Hc; [by apply (bool_decide_unpack _); vm_compute|]. premise Hc; [done|]. premise Hc; [done|].
  destruct (RboxSave.rbox_save_assign_uids [7; 8] (two_saved, (ready_rbox, two_mails))) as [res [c' [r' w']]].
  destruct Hc as (_ & _ & _ & Hob).
  destruct (Hob 1%nat "o2" 8 (mk_robject "From: b" (mail_attrs "gone" "g2" "3") ∅ 5) eq_refl eq_refl) as (ob' & Ho & _ & _ & Hu & _).
  { vm_compute. reflexivity. }
  exists w', ob'. split; [done|]. split; [exact Ho|exact Hu].
Defined.
