(* ===== verification/MailboxList.v ===== *)
(** The listing of mailboxes in the file system: storage-rbox/rbox-mailbox-list-fs.cpp,
    which replaces Dovecot's own function when [rbox_ceph_posix_bugfix] is set (a
    directory of cephfs does not count its subdirectories as links). *)
From S2P Require Export RadosTypes.

(** [enum mailbox_info_flags] of Dovecot is a bit mask; the flags this code uses. *)
Inductive mailbox_info_flag :=
| MAILBOX_NOSELECT | MAILBOX_NONEXISTENT | MAILBOX_CHILDREN | MAILBOX_NOCHILDREN | MAILBOX_NOINFERIORS
| MAILBOX_SELECT | MAILBOX_MARKED.
#[export] Instance mailbox_info_flag_eq_dec : EqDecision mailbox_info_flag.
Proof. solve_decision. Defined.
Definition flag_code (f : mailbox_info_flag) : nat :=
  match f with MAILBOX_NOSELECT => 0 | MAILBOX_NONEXISTENT => 1 | MAILBOX_CHILDREN => 2 | MAILBOX_NOCHILDREN => 3
  | MAILBOX_NOINFERIORS => 4 | MAILBOX_SELECT => 5 | MAILBOX_MARKED => 6 end.
Definition flag_of (n : nat) : mailbox_info_flag :=
  match n with 0 => MAILBOX_NOSELECT | 1 => MAILBOX_NONEXISTENT | 2 => MAILBOX_CHILDREN | 3 => MAILBOX_NOCHILDREN
  | 4 => MAILBOX_NOINFERIORS | 5 => MAILBOX_SELECT | _ => MAILBOX_MARKED end%nat.
#[export] Instance mailbox_info_flag_countable : Countable mailbox_info_flag.
Proof. apply (inj_countable' flag_code flag_of). by intros []. Defined.

Inductive mailbox_list_file_type :=
| FILE_TYPE_UNKNOWN | FILE_TYPE_FILE | FILE_TYPE_DIR | FILE_TYPE_SYMLINK | FILE_TYPE_OTHER
| FILE_TYPE_UNLISTED.          (** a value outside of the enumeration *)

(** What [stat] says: an error ([ENOENT], another one of [ENOTFOUND], one of
    [ENOACCESS], any other), or a file with its number of links; [st_marked] is
    [STAT_GET_MARKED_FILE]. *)
Inductive stat_error := StatNotFound | StatNoDirectory | StatNoAccess | StatOther.
#[export] Instance stat_error_eq_dec : EqDecision stat_error.
Proof. solve_decision. Defined.
Record stat_data := mk_stat { st_is_dir : bool; st_nlink : Z; st_marked : bool }.
Abbreviation stat_result := (stat_error + stat_data)%type.

(** The part of [struct mailbox_list] that is used; [None]: a null pointer. *)
Record mailbox_list := mk_list {
  ml_maildir_name : string;
  ml_mailbox_files : bool;                          (** [MAILBOX_LIST_FLAG_MAILBOX_FILES] *)
  ml_iter_from_index_dir : bool;
  ml_is_internal_name : option (string → bool);
  ml_inbox_path : string;
}.

Module MailboxList.
Section ops.
Variable stat : string → stat_result.

(** The code and the flags added to [*flags_r]. *)
Definition rbox_list_is_maildir_mailbox (list : mailbox_list) (dir fname : string) (type : mailbox_list_file_type)
      : Z * gset mailbox_info_flag :=
    match type with
    | FILE_TYPE_FILE | FILE_TYPE_OTHER => (0, {[MAILBOX_NOSELECT; MAILBOX_NOINFERIORS]})
    | FILE_TYPE_UNLISTED => (-1, ∅)
    | FILE_TYPE_DIR | FILE_TYPE_UNKNOWN | FILE_TYPE_SYMLINK =>
        let path := dir +:+ "/" +:+ fname in
        match stat path with
        | inl StatNotFound => (0, {[MAILBOX_NONEXISTENT]})
        | inl _ => (1, {[MAILBOX_NOSELECT]})
        | inr st =>
            if negb (st_is_dir st) then
              (0, if String.prefix ".nfs" fname then {[MAILBOX_NONEXISTENT]}
                  else {[MAILBOX_NOSELECT; MAILBOX_NOINFERIORS]})
            else
              let mailbox_files := ml_mailbox_files list in
              if bool_decide (st_nlink st = 2) && negb mailbox_files then (1, {[MAILBOX_NOSELECT]}) else
              let flags :=
                match stat (path +:+ "/" +:+ ml_maildir_name list) with
                | inl _ => {[MAILBOX_NOSELECT; MAILBOX_CHILDREN]}
                | inr st2 =>
                    if negb (st_is_dir st2) then
                      if mailbox_files
                      then {[if decide (st_nlink st = 2) then MAILBOX_NOCHILDREN else MAILBOX_CHILDREN]}
                      else {[MAILBOX_NOSELECT; MAILBOX_CHILDREN]}
                    else {[if decide (st_nlink st = 3) then MAILBOX_NOCHILDREN
                           else if decide (st_nlink st < 2) then MAILBOX_NOCHILDREN else MAILBOX_CHILDREN]}
                end in
              (1, flags ∪ {[MAILBOX_SELECT]})
        end
    end.

(** [lower] is [tolower] on every character, as [strcasecmp] compares. *)
Definition to_lower (c : Ascii.ascii) : Ascii.ascii :=
    let n := Ascii.nat_of_ascii c in if decide (65 <= n <= 90)%nat then Ascii.ascii_of_nat (n + 32) else c.
Fixpoint lower (s : string) : string :=
    match s with "" => "" | String c s => String (to_lower c) (lower s) end.
Definition rbox_is_inbox_file (list : mailbox_list) (path fname : string) : bool :=
    bool_decide (lower fname = "inbox") && bool_decide (ml_inbox_path list = path).

Definition rbox_fs_list_get_mailbox_flags (list : mailbox_list) (dir fname : string) (type : mailbox_list_file_type)
      : Z * gset mailbox_info_flag :=
    if negb (bool_decide (ml_maildir_name list = "")) && negb (ml_iter_from_index_dir list)
    then rbox_list_is_maildir_mailbox list dir fname type
    else if negb (ml_iter_from_index_dir list) &&
            match ml_is_internal_name list with Some internal => internal fname | None => false end
    then (0, {[MAILBOX_NOSELECT]})
    else if match type with FILE_TYPE_DIR => ml_mailbox_files list | _ => false end
    then (1, {[MAILBOX_NOSELECT]})
    else if match type with FILE_TYPE_FILE => negb (ml_mailbox_files list) | _ => false end
    then (0, {[MAILBOX_NOSELECT; MAILBOX_NOINFERIORS]})
    else
      let path := dir +:+ "/" +:+ fname in
      match stat path with
      | inl (StatNotFound | StatNoDirectory) => (0, {[MAILBOX_NONEXISTENT]})
      | inl StatNoAccess => (1, {[MAILBOX_NOSELECT]})
      | inl StatOther => (-1, ∅)
      | inr st =>
          if negb (st_is_dir st) then
            if String.prefix ".nfs" fname then (0, {[MAILBOX_NONEXISTENT]})
            else if negb (ml_mailbox_files list) then (0, {[MAILBOX_NOSELECT; MAILBOX_NOINFERIORS]})
            else
              let inferiors := if rbox_is_inbox_file list path fname && negb (bool_decide (fname = "INBOX"))
                               then ∅ else {[MAILBOX_NOINFERIORS]} in
              (1, inferiors ∪ {[MAILBOX_SELECT]} ∪ if st_marked st then {[MAILBOX_MARKED]} else ∅)
          else if ml_mailbox_files list then (1, {[MAILBOX_NOSELECT]})
          else
            (1, if bool_decide (ml_is_internal_name list = None) || ml_iter_from_index_dir list
                then if decide (st_nlink st = 2) then {[MAILBOX_NOCHILDREN]}
                     else if decide (st_nlink st > 2) then {[MAILBOX_CHILDREN]} else ∅
                else ∅)
      end.
End ops.
End MailboxList.

(** ** What the flags say *)

(** A result that is consistent: a missing file has no other flag and is not
    listed, a mailbox that can be selected is listed, and it is not said both to
    have and not to have children. *)
Definition consistent (res : Z * gset mailbox_info_flag) : Prop :=
  res.1 ∈ [-1; 0; 1] ∧ (res.1 = -1 → res.2 = ∅) ∧
  (MAILBOX_NONEXISTENT ∈ res.2 → res = (0, {[MAILBOX_NONEXISTENT]})) ∧
  (MAILBOX_SELECT ∈ res.2 → res.1 = 1) ∧
  ¬ (MAILBOX_CHILDREN ∈ res.2 ∧ MAILBOX_NOCHILDREN ∈ res.2).

Ltac consistency := unfold consistent; cbn [fst snd]; repeat split; try set_solver; try done.

Lemma maildir_consistent stat list dir fname type :
  consistent (MailboxList.rbox_list_is_maildir_mailbox stat list dir fname type).
Proof.
  unfold MailboxList.rbox_list_is_maildir_mailbox. destruct type; try solve [consistency];
    destruct (stat _) as [[]|st]; try solve [consistency];
    (destruct (st_is_dir st); cbn [negb]; [|case_match; consistency]);
    (destruct (_ && _); [consistency|]); destruct (stat _) as [e|st2]; try solve [consistency];
    destruct (st_is_dir st2), (ml_mailbox_files list); cbn [negb]; repeat case_decide; consistency.
Qed.

(** The listing of a file or directory is consistent, whatever the file system
    answers; and where the plugin's mails have a directory of their own
    ([maildir_name]), a directory that has it and has links is listed as a mailbox
    that can be selected, while a file never is. *)
Theorem list_flags_consistent stat list dir fname type :
  let res := MailboxList.rbox_fs_list_get_mailbox_flags stat list dir fname type in
  let path := dir +:+ "/" +:+ fname in
  consistent res ∧
  (ml_maildir_name list ≠ "" → ml_iter_from_index_dir list = false →
   (∀ st st2, type ∈ [FILE_TYPE_DIR; FILE_TYPE_UNKNOWN; FILE_TYPE_SYMLINK] →
      stat path = inr st → st_is_dir st = true → st_nlink st ≠ 2 →
      stat (path +:+ "/" +:+ ml_maildir_name list) = inr st2 → st_is_dir st2 = true →
      res.1 = 1 ∧ MAILBOX_SELECT ∈ res.2 ∧ MAILBOX_NOSELECT ∉ res.2) ∧
   (∀ st, stat path = inr st → st_is_dir st = false → MAILBOX_SELECT ∉ res.2)).
Proof.
  intros res path. subst res. unfold MailboxList.rbox_fs_list_get_mailbox_flags. split.
  - destruct (_ && _); [apply maildir_consistent|]. destruct (_ && _); [consistency|].
    destruct (match type with FILE_TYPE_DIR => _ | _ => _ end); [consistency|].
    destruct (match type with FILE_TYPE_FILE => _ | _ => _ end); [consistency|].
    destruct (stat _) as [[]|st]; try solve [consistency].
    destruct (st_is_dir st); cbn [negb]; destruct (ml_mailbox_files list); cbn [negb]; try solve [consistency | case_match; consistency].
    + destruct (_ || _); repeat case_decide; consistency.
    + destruct (String.prefix _ _); [consistency|]. destruct (_ && _), (st_marked st); consistency.
  - intros Hname ->. rewrite bool_decide_eq_false_2 by done. cbn [negb andb].
    unfold MailboxList.rbox_list_is_maildir_mailbox. split.
    + intros st st2 Ht Hst Hd Hl Hst2 Hd2. fold path. rewrite Hst, Hd. cbn [negb].
      rewrite bool_decide_eq_false_2 by done. cbn [andb]. rewrite Hst2, Hd2. cbn [negb fst snd].
      rewrite !elem_of_cons in Ht. destruct Ht as [->|[->|[->|[]%not_elem_of_nil]]]; repeat case_decide; cbn; set_solver.
    + intros st Hst Hd. fold path. rewrite Hst, Hd. destruct type; cbn [negb snd]; try case_match; set_solver.
Qed.

(** A mailbox on a file system that does not count links. *)
Definition cephfs (path : string) : stat_result :=
  if decide (path = "mail/work" ∨ path = "mail/work/rbox-Mails") then inr (mk_stat true 1 false) else inl StatNotFound.
Definition rbox_list : mailbox_list := mk_list "rbox-Mails" false false None "mail/INBOX".
Lemma list_flags_consistent_witness :
  (MailboxList.rbox_fs_list_get_mailbox_flags cephfs rbox_list "mail" "work" FILE_TYPE_DIR).1 = 1 ∧
  MAILBOX_SELECT ∈ (MailboxList.rbox_fs_list_get_mailbox_flags cephfs rbox_list "mail" "work" FILE_TYPE_DIR).2.
Proof.
  pose proof (list_flags_consistent cephfs rbox_list "mail" "work" FILE_TYPE_DIR) as [_ Hs].
  destruct (Hs ltac:(done) eq_refl) as [Hdir _].
  destruct (Hdir (mk_stat true 1 false) (mk_stat true 1 false)) as (H1 & H2 & _); [set_solver|done..|by split].
Defined.
