(* ===== verification/BoxOpen.v ===== *)
(** Allocating, opening, creating, changing and closing mailboxes, and the places
    where they are kept: the rest of storage-rbox/rbox-storage.cpp. *)
From S2P Require Export MailboxList SyncBegin RboxSave.
Local Open Scope rmb_scope.

(** A mailbox with the state Dovecot keeps of it; [None]: the path cannot be
    determined. *)
Record open_box := mk_open_box {
  bx_mailbox : mailbox;
  bx_opened : bool;
  bx_creating : bool;
  bx_inbox_user : bool;
  bx_path : string;
  bx_iter_from_index_dir : bool;
  bx_index_path : option string;
  bx_index_prefix : string;
  bx_alt_path : option string;
}.

(** Dovecot and the file system. *)
Class DovecotOpen (W : Type) := {
  file_stat : string → W → stat_result;
  dir_entries : string → W → stat_error + (list string * Z);      (** and what [closedir] answers *)
  path_access : string → W → bool;                                (** for reading, writing and searching *)
  user_home : W → option string;
  index_storage_mailbox_alloc_index : ST W Z;
  mail_index_ext_register : string → Z → Z → Z → ST W Z;          (** name, sizes of header and record, alignment *)
  index_storage_mailbox_open : ST W Z;
  index_storage_mailbox_close : ST W unit;
  index_storage_mailbox_create : bool → ST W Z;
  index_storage_mailbox_update : mailbox_update → ST W Z;
  index_mailbox_get_metadata : Z → ST W Z;
  mail_index_sync_begin : ST W Z;
  MAILBOX_FLAG_NO_INDEX_FILES : Z;                                (** of [enum mailbox_flags] *)
  MAIL_INDEX_OPEN_FLAG_KEEP_BACKUPS : Z;                          (** of [enum mail_index_open_flags] *)
  MAIL_INDEX_OPEN_FLAG_NEVER_IN_MEMORY : Z;
  MAILBOX_METADATA_GUID : Z;                                      (** of [enum mailbox_metadata_items] *)
}.

(** The data a header extension is initialised with is not the header. *)
Class DovecotOpenLaws (W : Type) `{Dovecot W} `{DovecotBoxes W} := {
  init_data_keeps_header : ∀ i id n guid flags (w : W),
    mail_index_get_header_ext i (mail_index_do (IxExtInitData id n guid flags) w).2 = mail_index_get_header_ext i w;
}.

(** The settings of a list of mailboxes; [None]: a null pointer. *)
Record list_settings := mk_list_settings {
  ls_layout : option string;
  ls_root_dir : option string;
  ls_maildir_name : string;
  ls_mailbox_dir_name : string;
  ls_subscription_fname : option string;
}.

Module BoxOpen.
Definition RBOX_MAILDIR_NAME : string := "rbox-Mails".
Definition RBOX_MAILBOX_DIR_NAME : string := "mailboxes".
Definition RBOX_SUBSCRIPTION_FILE_NAME : string := "subscriptions".
Definition RBOX_UIDVALIDITY_FILE_NAME : string := "dovecot-uidvalidity".
(** [sizeof(struct obox_mail_index_record)]. *)
Definition record_size : Z := 32.

Definition set_mailbox (x : mailbox) (b : open_box) : open_box :=
    mk_open_box x (bx_opened b) (bx_creating b) (bx_inbox_user b) (bx_path b) (bx_iter_from_index_dir b)
      (bx_index_path b) (bx_index_prefix b) (bx_alt_path b).
Definition set_opened (x : bool) (b : open_box) : open_box :=
    mk_open_box (bx_mailbox b) x (bx_creating b) (bx_inbox_user b) (bx_path b) (bx_iter_from_index_dir b)
      (bx_index_path b) (bx_index_prefix b) (bx_alt_path b).
Definition set_mailbox_guid (g : string) (b : open_box) : open_box :=
    let mb := bx_mailbox b in
    set_mailbox (mk_mailbox (mb_name mb) g (mb_ext_id mb) (mb_hdr_ext_id mb) (mb_owner mb) (mb_alt_dir mb) (mb_getenv mb)
                   (mb_plugin_envs mb) (mb_new_guid mb)) b.
Definition set_ext_ids (hdr_ext_id ext_id : Z) (b : open_box) : open_box :=
    let mb := bx_mailbox b in
    set_mailbox (mk_mailbox (mb_name mb) (mb_mailbox_guid mb) ext_id hdr_ext_id (mb_owner mb) (mb_alt_dir mb) (mb_getenv mb)
                   (mb_plugin_envs mb) (mb_new_guid mb)) b.

(** ** The places *)

Definition rbox_storage_get_list_settings (set : list_settings) : list_settings :=
    mk_list_settings (Some (default "fs" (ls_layout set))) (ls_root_dir set)
      (if decide (ls_maildir_name set = "") then RBOX_MAILDIR_NAME else ls_maildir_name set)
      (if decide (ls_mailbox_dir_name set = "") then RBOX_MAILBOX_DIR_NAME else ls_mailbox_dir_name set)
      (Some (default RBOX_SUBSCRIPTION_FILE_NAME (ls_subscription_fname set))).
(** The answer; [rbox_storage_create] refuses an empty name of the directory. *)
Definition rbox_storage_create (set : list_settings) : Z := if decide (ls_mailbox_dir_name set = "") then -1 else 0.
(** The file that keeps the next uid validity, below the control directory. *)
Definition rbox_uidvalidity_path (control_dir : string) : string := control_dir +:+ "/" +:+ RBOX_UIDVALIDITY_FILE_NAME.

Section places.
Context `{DovecotOpen W}.
(** [owner] says that the namespace has one. *)
Definition rbox_storage_find_root_dir (owner : bool) (w : W) : option string :=
    if owner then
      match user_home w with
      | Some home => let path := home +:+ "/rbox" in if path_access path w then Some path else None
      | None => None
      end
    else None.
(** The answer and the settings. *)
Definition rbox_storage_autodetect (owner : bool) (set : list_settings) (w : W) : bool * list_settings :=
    match (match ls_root_dir set with Some dir => Some dir | None => rbox_storage_find_root_dir owner w end) with
    | None => (false, set)
    | Some root_dir =>
        match file_stat (root_dir +:+ "/" +:+ RBOX_MAILBOX_DIR_NAME) w with
        | inl _ => (false, set)
        | inr st =>
            if st_is_dir st then
              (true, rbox_storage_get_list_settings
                       (mk_list_settings (ls_layout set) (Some root_dir) (ls_maildir_name set) (ls_mailbox_dir_name set)
                          (ls_subscription_fname set)))
            else (false, set)
        end
    end.
End places.

Section ops.
Context `{Jansson} `{Librados W} `{RadosAdmin W} `{Dovecot W} `{DovecotBoxes W} `{DovecotOpen W}.
  Abbreviation M := (ST (open_box * (rbox_health * (rbox_storage * W)))).
(** As for [SyncBegin.rbox_sync]; [dovecot_open] is Dovecot's [mailbox_open] around
    the function of the plugin. *)
Variables (junk : Z) (namespaces : list string) (have_fsckd : bool) (dovecot_open : M (option Z) → M (option Z)).

Definition get : M open_box := on_fst st_get.
Definition modify (f : open_box → open_box) : M unit := on_fst (st_modify f).
Definition box {A} (m : ST (rbox_health * (rbox_storage * W)) A) : M A := on_snd m.
Definition world {A} (m : ST W A) : M A := on_snd (on_snd (on_snd m)).
Definition ask {A} (f : W → A) : M A := world (λ w, (f w, w)).
Definition index (a : index_action) : M unit := world (mail_index_do a).

(** The code, and the header if it was filled. *)
Definition read_header : M (Z * option rbox_index_header) :=
    b ← get;
    '(res, _) ← world (RboxMailbox.rbox_read_header (bx_mailbox b) (bx_creating b));
    mret res.
Definition create_indexes (update : option mailbox_update) : M Z :=
    b ← get;
    '(ret, guid) ← world (RboxMailbox.rbox_mailbox_create_indexes (bx_mailbox b) (bx_creating b)
                            (bx_inbox_user b && bx_creating b) update false);
    modify (set_mailbox_guid guid) ;;
    mret ret.

(** The flags of the mailbox and of its index, and whether the plugin's function
    lists the mailboxes of the namespace. *)
Definition rbox_mailbox_alloc (flags index_flags : Z) : M ((Z * Z) * bool) :=
    b ← get;
    box (on_snd (Rbox.read_plugin_configuration (mb_getenv (bx_mailbox b)))) ;;
    r ← box (on_snd Rbox.get);
    mret ((Z.ldiff flags (MAILBOX_FLAG_NO_INDEX_FILES (W:=W)),
           Z.lor (Z.lor index_flags (MAIL_INDEX_OPEN_FLAG_KEEP_BACKUPS (W:=W))) (MAIL_INDEX_OPEN_FLAG_NEVER_IN_MEMORY (W:=W))),
          PluginConfig.is_ceph_posix_bugfix_enabled (rb_config r)).

Definition rbox_mailbox_alloc_index : M Z :=
    ret ← world index_storage_mailbox_alloc_index;
    if decide (ret < 0) then mret (-1) else
    hdr_ext_id ← world (mail_index_ext_register "dbox-hdr" RboxMailbox.header_size 0 0);
    modify (λ b, set_ext_ids hdr_ext_id (mb_ext_id (bx_mailbox b)) b) ;;
    guid ← world guid_128_generate;
    b ← get;
    world (RboxMailbox.set_ext_init_data (bx_mailbox b) (mk_index_header 0 (Some guid) 0)) ;;
    ext_id ← world (mail_index_ext_register "obox" 0 record_size 1);
    modify (set_ext_ids hdr_ext_id ext_id) ;;
    mret 0.

(** The place that shows that the mailbox exists; [None]: it cannot be determined. *)
Definition existence_path (b : open_box) : option string :=
    if bx_iter_from_index_dir b
    then path ← bx_index_path b; Some (path +:+ "/" +:+ bx_index_prefix b +:+ ".log")
    else Some (bx_path b).
Definition rbox_open_mailbox : M Z :=
    b ← get;
    match existence_path b with
    | None => mret (-1)
    | Some box_path =>
        st ← ask (file_stat box_path);
        match st with
        | inl StatNotFound => index IxErrorNotFound ;; mret (-1)
        | inl _ => index IxSetCritical ;; mret (-1)
        | inr _ =>
            ret ← world index_storage_mailbox_open;
            if decide (ret < 0) then mret (-1) else
            modify (set_opened true) ;;
            index IxFsyncMode ;;
            mret 0
        end
    end.

Definition sync (flags : Z) : M (option Z) :=
    b ← get; box (SyncBegin.rbox_sync junk namespaces have_fsckd (bx_mailbox b) flags).

(** The header, after a synchronisation when it cannot be read. *)
Definition header_or_sync : M (option rbox_index_header) :=
    '(ret, hdr) ← read_header;
    if decide (ret < 0) then
      _ ←! sync RBOX_SYNC_FLAG_FORCE;
      '(ret, hdr) ← read_header;
      aret (if decide (ret < 0) then RboxMailbox.zero_header else default RboxMailbox.zero_header hdr)
    else aret (default RboxMailbox.zero_header hdr).
Definition rbox_mailbox_open : M (option Z) :=
    ret ← rbox_mailbox_alloc_index;
    if decide (ret < 0) then aret (-1) else
    ret ← rbox_open_mailbox;
    if decide (ret < 0) then aret (-1) else
    b ← get;
    if bx_creating b then aret 0 else
    hdr ←! header_or_sync;
    match ih_mailbox_guid hdr with
    | Some guid => modify (set_mailbox_guid guid) ;; aret 0
    | None =>
        ret ← create_indexes None;
        if decide (ret < 0) then aret (-1) else
        '(ret, hdr) ← read_header;
        if decide (ret < 0) then aret (-1) else
        modify (set_mailbox_guid (default RboxSave.empty_guid (hdr ≫= ih_mailbox_guid))) ;; aret 0
    end.

Definition rbox_mailbox_close : M (option unit) :=
    h ← box RboxMailbox.health;
    _ ←! (if decide (corrupted_rebuild_count h = 0) then aret 0 else sync 0);
    lift (world index_storage_mailbox_close).

Definition dir_is_empty (path : string) : M Z :=
    dir ← ask (dir_entries path);
    match dir with
    | inl StatNotFound => mret 1
    | inl _ => index IxSetCritical ;; mret (-1)
    | inr (names, closed) =>
        let ret := if existsb (λ d, negb (String.prefix "." d)) names then 0 else 1 in
        if decide (closed < 0) then index IxSetCritical ;; mret (-1) else mret ret
    end.

(** The alternative path has files; [None]: go on. *)
Definition check_alt_path : M (option Z) :=
    b ← get;
    match bx_alt_path b with
    | None => mret None
    | Some alt_path =>
        st ← ask (file_stat alt_path);
        match st with
        | inl _ => mret None
        | inr _ =>
            ret ← dir_is_empty alt_path;
            if decide (ret < 0) then mret (Some (-1))
            else if decide (ret = 0) then
              index IxSetCritical ;;
              box (RboxMailbox.rbox_set_mailbox_corrupted (bx_mailbox b) (bx_creating b)) ;;
              mret (Some (-1))
            else mret None
        end
    end.

(** The guid of a mailbox that was created by another process. *)
Definition adopt_guid (directory : bool) : M (option Z) :=
    b ← get;
    if directory || negb (bool_decide (mb_mailbox_guid (bx_mailbox b) = RboxSave.empty_guid)) then aret 0 else
    '(ret, hdr) ← read_header;
    if decide (ret < 0) then index IxSetCritical ;; aret (-1)
    else modify (set_mailbox_guid (default RboxSave.empty_guid (hdr ≫= ih_mailbox_guid))) ;; aret 0.
Definition rbox_mailbox_create (update : option mailbox_update) (directory : bool) : M (option Z) :=
    ret ← world (index_storage_mailbox_create directory);
    if decide (ret <= 0) then aret ret else
    ret ←! dovecot_open rbox_mailbox_open;
    if decide (ret < 0) then aret (-1) else
    hdr ← ask mail_index_get_header;
    if decide (mh_uid_validity hdr ≠ 0) then index IxErrorExists ;; aret (-1) else
    stop ← check_alt_path;
    match stop with
    | Some ret => aret ret
    | None =>
        ret ← world mail_index_sync_begin;
        if decide (ret = 0) then abort else
        if decide (ret < 0) then index IxSetError ;; aret (-1) else
        hdr ← ask mail_index_get_header;
        ret ← (if decide (mh_uid_validity hdr = 0) then create_indexes update else mret 0);
        if decide (ret < 0) then index IxSyncRollback ;; aret (-1) else
        ret ← world mail_index_sync_commit;
        if decide (ret < 0) then aret (-1) else adopt_guid directory
    end.

Definition rbox_mailbox_update (update : mailbox_update) : M (option Z) :=
    b ← get;
    ret ←! (if bx_opened b then aret 0 else dovecot_open rbox_mailbox_open);
    if decide (ret < 0) then aret (-1) else
    ret ← create_indexes (Some update);
    if decide (ret < 0) then aret (-1) else
    lift (world (index_storage_mailbox_update update)).

(** The code and the guid, if it was asked for. *)
Definition rbox_mailbox_get_metadata (items : Z) : M (Z * option string) :=
    ret ← world (index_mailbox_get_metadata items);
    if decide (ret < 0) then mret (-1, None) else
    b ← get;
    mret (0, if decide (Z.land items (MAILBOX_METADATA_GUID (W:=W)) = 0) then None else Some (mb_mailbox_guid (bx_mailbox b))).

Definition rbox_notify_changes (notify_callback : bool) : M unit :=
    index (if notify_callback then IxWatchAdd else IxWatchRemoveAll).
End ops.
End BoxOpen.

(** ** In the concrete world every path is an empty directory *)

#[export] Instance dv_open : DovecotOpen MemDovecot := {
  file_stat _ _ := inr (mk_stat true 2 false);
  dir_entries _ _ := inr (["."; ".."], 0);
  path_access _ _ := true;
  user_home _ := Some "/home/t1";
  index_storage_mailbox_alloc_index := mret 0;
  mail_index_ext_register name _ _ _ := mret (if decide (name = "obox") then 1 else 2);
  index_storage_mailbox_open := mret 0;
  index_storage_mailbox_close := mret tt;
  index_storage_mailbox_create _ := mret 1;
  index_storage_mailbox_update _ := mret 0;
  index_mailbox_get_metadata _ := mret 0;
  mail_index_sync_begin := MemDv.index (λ i, (1, MemDv.log IxSyncBegin i));
  MAILBOX_FLAG_NO_INDEX_FILES := 4;
  MAIL_INDEX_OPEN_FLAG_KEEP_BACKUPS := 32;
  MAIL_INDEX_OPEN_FLAG_NEVER_IN_MEMORY := 64;
  MAILBOX_METADATA_GUID := 1;
}.
#[export] Program Instance dv_open_laws : DovecotOpenLaws MemDovecot.
Next Obligation. done. Qed.

(** ** The guid of a mailbox *)

Section guid.
Context `{Jansson} `{Librados W} `{RadosAdmin W} `{!Dovecot W} `{!DovecotBoxes W} `{!DovecotOpen W} `{!DovecotOpenLaws W}.
Variables (junk : Z) (namespaces : list string) (have_fsckd : bool)
  (dovecot_open : ST (open_box * (rbox_health * (rbox_storage * W))) (option Z) → ST (open_box * (rbox_health * (rbox_storage * W))) (option Z)).
Abbreviation S := (open_box * (rbox_health * (rbox_storage * W)))%type.

(** The header of the mailbox's index, as it is now. *)
Definition index_guid (s : S) : option string :=
  ih_mailbox_guid (mail_index_get_header_ext (mb_hdr_ext_id (bx_mailbox s.1)) s.2.2.2).2.

Lemma box_get_run (s : S) : BoxOpen.get s = (s.1, s).
Proof. by destruct s. Qed.
Lemma box_modify_run f (s : S) : BoxOpen.modify f s = (tt, (f s.1, s.2)).
Proof. by destruct s. Qed.
Lemma box_world_run {A} (f : ST W A) b h r (w : W) :
  BoxOpen.world f (b, (h, (r, w))) = ((f w).1, (b, (h, (r, (f w).2)))).
Proof. unfold BoxOpen.world. by rewrite !on_snd_run. Qed.

(** A header that was read has a guid, and is the one the index has then. *)
Lemma read_header_spec (s : S) :
  let '((ret, hdr), s') := BoxOpen.read_header s in
  s'.1 = s.1 ∧ (0 <= ret → ∃ h guid, hdr = Some h ∧ ih_mailbox_guid h = Some guid ∧ index_guid s' = Some guid).
Proof.
  unfold BoxOpen.read_header. destruct s as [b [h [r w]]]. rewrite bind_eq, box_get_run. cbn [fst snd].
  rewrite bind_eq, box_world_run. cbn [fst snd]. unfold RboxMailbox.rbox_read_header. rewrite bind_eq.
  cbn [RboxMailbox.ask fst snd]. destruct (mail_index_get_header_ext _ w) as [n hdr] eqn:E.
  destruct (bool_decide _ && _); cbn [fst snd]; [split; [done|lia]|].
  destruct (decide (ih_mailbox_guid hdr = None)) as [|Hg]; cbn [fst snd]; [split; [done|lia]|].
  rewrite bind_eq. cbn [fst snd]. split; [done|]. intros _. destruct (ih_mailbox_guid hdr) as [guid|] eqn:Eg; [|done].
  exists hdr, guid. do 2 (split; [done|]). unfold index_guid, RboxMailbox.set_ext_init_data. cbn [fst snd].
  rewrite ret_eq. cbn [snd]. by rewrite init_data_keeps_header, E.
Qed.

Lemma index_guid_set g (s : S) : index_guid (BoxOpen.set_mailbox_guid g s.1, s.2) = index_guid s.
Proof. done. Qed.

Lemma header_or_sync_spec (s : S) hdr s' guid :
  BoxOpen.header_or_sync junk namespaces have_fsckd s = (Some hdr, s') → ih_mailbox_guid hdr = Some guid →
  index_guid s' = Some guid.
Proof.
  unfold BoxOpen.header_or_sync. rewrite bind_eq. pose proof (read_header_spec s) as Hs.
  destruct (BoxOpen.read_header s) as [[ret h1] s1]. cbn [fst snd]. destruct Hs as [_ Hs].
  destruct (decide (ret < 0)).
  - rewrite abind_eq. destruct (BoxOpen.sync _ _ _ _ s1) as [[x|] s2]; cbn [fst snd]; [|done].
    rewrite bind_eq. pose proof (read_header_spec s2) as Hs2.
    destruct (BoxOpen.read_header s2) as [[ret2 h2] s3]. cbn [fst snd]. destruct Hs2 as [_ Hs2].
    rewrite aret_run. destruct (decide (ret2 < 0)); intros [= <- <-]; [done|].
    destruct (Hs2 ltac:(lia)) as (h & g & -> & Hg & Hi). cbn. congruence.
  - rewrite aret_run. intros [= <- <-]. destruct (Hs ltac:(lia)) as (h & g & -> & Hg & Hi). cbn. congruence.
Qed.

(** C31. A mailbox that is open has the guid of its index: when
    [rbox_mailbox_open] succeeds (for a mailbox that is not being created), the
    header of the index has a guid, the one the mailbox was given, by which the
    attributes of its mails name it; this holds after a corrupted header was
    repaired, or written anew, too. *)
Theorem opened_mailbox_has_guid (s : S) s' :
  bx_creating s.1 = false →
  BoxOpen.rbox_mailbox_open junk namespaces have_fsckd s = (Some 0, s') →
  index_guid s' = Some (mb_mailbox_guid (bx_mailbox s'.1)).
Proof.
  intros Hc. unfold BoxOpen.rbox_mailbox_open. rewrite bind_eq.
  assert (Hc1 : ∀ t : S, bx_creating (BoxOpen.rbox_mailbox_alloc_index t).2.1 = bx_creating t.1).
  { intros [b [h [r w]]]. unfold BoxOpen.rbox_mailbox_alloc_index.
    repeat (first [rewrite bind_eq | rewrite box_world_run | rewrite box_modify_run | rewrite box_get_run | case_decide]; cbn [fst snd]); done. }
  specialize (Hc1 s). destruct (BoxOpen.rbox_mailbox_alloc_index s) as [ret s1]. cbn [fst snd] in *.
  destruct (decide (ret < 0)); [done|]. rewrite bind_eq.
  assert (Hc2 : ∀ t : S, bx_creating (BoxOpen.rbox_open_mailbox t).2.1 = bx_creating t.1).
  { intros [b [h [r w]]]. unfold BoxOpen.rbox_open_mailbox, BoxOpen.ask, BoxOpen.index.
    repeat (first [rewrite bind_eq | rewrite box_world_run | rewrite box_modify_run | rewrite box_get_run
                  | destruct (BoxOpen.existence_path _) | destruct (file_stat _ _) as [[]|] | destruct (decide _)]; cbn [fst snd]); done. }
  specialize (Hc2 s1). destruct (BoxOpen.rbox_open_mailbox s1) as [ret2 s2]. cbn [fst snd] in *.
  destruct (decide (ret2 < 0)); [done|]. rewrite bind_eq, box_get_run. cbn [fst snd]. rewrite Hc2, Hc1, Hc.
  rewrite abind_eq. destruct (BoxOpen.header_or_sync _ _ _ s2) as [[hdr|] s3] eqn:Eh; cbn [fst snd]; [|done].
  destruct (ih_mailbox_guid hdr) as [guid|] eqn:Eg.
  - rewrite bind_eq, box_modify_run. cbn [fst snd]. rewrite aret_run. intros [= <-]. rewrite index_guid_set.
    by rewrite (header_or_sync_spec s2 hdr s3 guid Eh Eg).
  - rewrite bind_eq. destruct (BoxOpen.create_indexes None s3) as [ret4 s4]. cbn [fst snd].
    destruct (decide (ret4 < 0)); [done|]. rewrite bind_eq. pose proof (read_header_spec s4) as Hs.
    destruct (BoxOpen.read_header s4) as [[ret5 h5] s5]. cbn [fst snd]. destruct Hs as [_ Hs].
    destruct (decide (ret5 < 0)); [done|]. rewrite bind_eq, box_modify_run. cbn [fst snd]. rewrite aret_run.
    intros [= <-]. rewrite index_guid_set. destruct (Hs ltac:(lia)) as (h & g & -> & Hg & ->). cbn. by rewrite Hg.
Qed.
End guid.

(** A mailbox whose index is not known yet is opened. *)
Definition closed_inbox : open_box := mk_open_box inbox false false true "mail/INBOX" false None "dovecot.index" None.
Definition open_run := BoxOpen.rbox_mailbox_open 0 [] false (closed_inbox, (mk_health 0 false, (ready_rbox, one_mail))).
Lemma opened_mailbox_has_guid_witness :
  mb_mailbox_guid (bx_mailbox open_run.2.1) = "box-guid" ∧
  index_guid open_run.2 = Some (mb_mailbox_guid (bx_mailbox open_run.2.1)).
Proof.
  split; [vm_compute; reflexivity|].
  apply (opened_mailbox_has_guid 0 [] false (closed_inbox, (mk_health 0 false, (ready_rbox, one_mail)))); [reflexivity|].
  assert (open_run.1 = Some 0) as E by (vm_compute; reflexivity). rewrite <- E. fold open_run. by destruct open_run.
Defined.

(** When mailboxes are listed from the index directory, a mailbox without a log of
    the index is not found, although its own directory exists: the second look is
    at the same path. *)
Lemma index_log_hides_mailbox `{Librados W} `{!Dovecot W} `{!DovecotBoxes W} `{!DovecotOpen W} b index_path s :
  bx_iter_from_index_dir b = true → bx_index_path b = Some index_path →
  file_stat (index_path +:+ "/" +:+ bx_index_prefix b +:+ ".log") s.2.2 = inl StatNotFound →
  (BoxOpen.rbox_open_mailbox (b, s)).1 = -1.
Proof.
  intros Hi Hp Hst. destruct s as [h [r w]]. unfold BoxOpen.rbox_open_mailbox, BoxOpen.ask, BoxOpen.index.
  rewrite bind_eq, box_get_run. cbn [fst snd]. unfold BoxOpen.existence_path. rewrite Hi, Hp. cbn [mbind option_bind].
  rewrite bind_eq, box_world_run. cbn [fst snd] in *. rewrite Hst. rewrite bind_eq, box_world_run. done.
Qed.
