(* ===== verification/MailStream.v ===== *)
(** The text of a mail as Dovecot's input stream: storage-rbox/istream-bufferlist.cpp,
    and the functions of rbox-mail.cpp that look at the header and the trailer of
    a compressed mail. *)
From S2P Require Export RadosTypes Encoding.

(** [struct bufferlist_istream] with the fields of Dovecot's stream that the
    plugin sets. *)
Record istream := mk_istream {
  is_buffer : bufferlist;
  is_pos : Z;
  is_skip : Z;
  is_v_offset : Z;
  is_eof : bool;
  is_st_size : Z;
}.

Module MailStream.
Definition i_stream_create_from_bufferlist (data : bufferlist) (size : Z) : istream :=
    mk_istream data (uint64 size) 0 0 false (int64 (uint64 size - 1)).
Definition i_stream_data_read : ST istream Z := λ s,
    (-1, mk_istream (is_buffer s) (is_pos s) (is_skip s) (is_v_offset s) true (is_st_size s)).
Definition i_stream_data_seek (v_offset : Z) : ST istream unit := λ s,
    (tt, mk_istream (is_buffer s) (is_pos s) v_offset v_offset (is_eof s) (is_st_size s)).

(** The bytes between [skip] and [pos], which a reader of the stream gets;
    [None]: the buffer is shorter. *)
Definition available (s : istream) : option string :=
    if decide (is_skip s <= is_pos s <= Z.of_nat (slen (is_buffer s)))
    then Some (substr (Z.to_nat (is_skip s)) (Z.to_nat (is_pos s - is_skip s)) (is_buffer s))
    else None.
End MailStream.

(** ** Compressed mails

    A read outside of the buffer has no result. *)
Module Gzip.
Definition byte_at (i : Z) (data : string) : option Z :=
    if decide (0 <= i) then char_code <$> String.get (Z.to_nat i) data else None.

Definition check_is_zlib (mail_buffer : bufferlist) : option bool :=
    magic1 ← byte_at 0 mail_buffer;
    magic2 ← byte_at 1 mail_buffer;
    Some (bool_decide (magic1 = 31) && bool_decide (magic2 = 139)).

Definition zlib_trailer_msg_length (mail_buffer : bufferlist) (physical_size : Z) : option Z :=
    b0 ← byte_at (physical_size - 1) mail_buffer;
    b1 ← byte_at (physical_size - 2) mail_buffer;
    b2 ← byte_at (physical_size - 3) mail_buffer;
    b3 ← byte_at (physical_size - 4) mail_buffer;
    Some (uint32 (Z.lor (Z.lor (Z.lor (Z.shiftl b0 24) (Z.shiftl b1 16)) (Z.shiftl b2 8)) b3)).

(** The position of the first NUL byte from [i] on. *)
Fixpoint first_nul (s : string) (i : Z) : option Z :=
    match s with
    | "" => None
    | String c s => if decide (char_code c = 0) then Some i else first_nul s (i + 1)
    end.
Definition header_dynamic_size (data : string) : option Z := first_nul (str_drop 10 data) 10.
Definition header_extra_size (data : string) : option Z :=
    b0 ← byte_at 10 data;
    b1 ← byte_at 11 data;
    Some (10 + 2 + (b0 + b1)).
Definition zlib_header_length (mail_buffer : bufferlist) : option Z :=
    flg ← byte_at 3 mail_buffer;
    if decide (flg = 1) then Some 10
    else if decide (flg = 2) then Some (10 + 2)
    else if decide (flg = 4) then header_extra_size mail_buffer
    else if decide (flg = 8) then header_dynamic_size mail_buffer
    else if decide (flg = 16) then header_dynamic_size mail_buffer
    else Some 11.

(** The buffer and the size that [rbox_mail_get_stream] gives the stream. The
    difference is one of unsigned 64 bit numbers. *)
Definition repair_trailer (mail_buffer : bufferlist) (physical_size real_physical_size : Z) :
      option (bufferlist * Z) :=
    result ← zlib_trailer_msg_length mail_buffer physical_size;
    header ← zlib_header_length mail_buffer;
    if decide (uint64 (result - real_physical_size) > uint64 header)
    then Some (mail_buffer +:+ nul_string, int32 (physical_size + 1))
    else Some (mail_buffer, physical_size).
End Gzip.

(** ** Lemmas *)

Lemma str_drop_app_le n s t : (n <= slen s)%nat → str_drop n (s +:+ t) = str_drop n s +:+ t.
Proof.
  intros Hn. rewrite <- (str_take_drop n s) at 1. rewrite <- sapp_assoc.
  assert (slen (str_take n s) = n) as E by (rewrite slen_take; lia).
  rewrite <- E at 1. apply str_drop_app.
Qed.
Lemma shiftl_lor a k b : 0 <= k → 0 <= b < 2 ^ k → Z.lor (Z.shiftl a k) b = a * 2 ^ k + b.
Proof.
  intros Hk Hb. rewrite <- Z.shiftl_mul_pow2 by done.
  assert (Z.land (Z.shiftl a k) b = 0) as Hl.
  { apply Z.bits_inj'. intros i Hi. rewrite Z.land_spec, Z.bits_0. destruct (decide (i < k)).
    - by rewrite Z.shiftl_spec_low.
    - rewrite <- (Z.mod_small b (2 ^ k)) by done. rewrite Z.mod_pow2_bits_high by lia. by rewrite andb_false_r. }
  rewrite <- Z.lxor_lor by done. by rewrite Z.add_nocarry_lxor.
Qed.

Lemma get_app_l i s t : (i < slen s)%nat → String.get i (s +:+ t) = String.get i s.
Proof. revert i. induction s as [|c s IH]; intros [|i] Hi; cbn in *; try lia; [done|]. apply IH. lia. Qed.
Lemma get_app_r i s t : String.get (slen s + i) (s +:+ t) = String.get i t.
Proof. induction s as [|c s IH]; cbn; [done|apply IH]. Qed.
Lemma byte_at_some i s b : Gzip.byte_at i s = Some b → 0 <= i < Z.of_nat (slen s) ∧ 0 <= b < 256.
Proof.
  unfold Gzip.byte_at. case_decide; [|done]. destruct (String.get (Z.to_nat i) s) as [c|] eqn:E; [|done].
  intros [= <-]. split.
  - split; [done|]. assert (Z.to_nat i < slen s)%nat; [|lia]. clear - E. revert E. generalize (Z.to_nat i).
    induction s as [|d s IH]; intros [|n] E; cbn in *; try done; [lia|]. specialize (IH n E). lia.
  - unfold char_code. pose proof (Ascii.N_ascii_bounded c). lia.
Qed.
Lemma byte_at_app i s t b : Gzip.byte_at i s = Some b → Gzip.byte_at i (s +:+ t) = Some b.
Proof.
  intros Hb. pose proof (byte_at_some i s b Hb) as [Hi _]. unfold Gzip.byte_at in *. rewrite decide_True in * by lia.
  by rewrite get_app_l by lia.
Qed.
Lemma byte_at_end s t i : 0 <= i → Gzip.byte_at (Z.of_nat (slen s) + i) (s +:+ t) = Gzip.byte_at i t.
Proof.
  intros Hi. unfold Gzip.byte_at. rewrite !decide_True by lia.
  replace (Z.to_nat (Z.of_nat (slen s) + i)) with (slen s + Z.to_nat i)%nat by lia. by rewrite get_app_r.
Qed.

Lemma first_nul_app s t i n : Gzip.first_nul s i = Some n → Gzip.first_nul (s +:+ t) i = Some n.
Proof.
  revert i. induction s as [|c s IH]; intros i; cbn; [done|]. case_decide; [done|]. apply IH.
Qed.
Lemma header_length_app s t n : Gzip.zlib_header_length s = Some n → Gzip.zlib_header_length (s +:+ t) = Some n.
Proof.
  unfold Gzip.zlib_header_length. destruct (Gzip.byte_at 3 s) as [flg|] eqn:E; [|done].
  rewrite (byte_at_app _ _ t _ E). cbn.
  assert (Hd : Gzip.header_dynamic_size s = Some n → Gzip.header_dynamic_size (s +:+ t) = Some n).
  { unfold Gzip.header_dynamic_size. intros H. assert (10 <= slen s)%nat as Hs.
    { destruct (decide (10 <= slen s)%nat) as [|Hn]; [done|]. by rewrite str_drop_ge in H by lia. }
    rewrite str_drop_app_le by done. by apply first_nul_app. }
  repeat case_decide; try done; try (by apply Hd).
  unfold Gzip.header_extra_size. destruct (Gzip.byte_at 10 s) as [b|] eqn:E1; [|done].
  destruct (Gzip.byte_at 11 s) as [b'|] eqn:E2; [|done]. cbn.
  by rewrite (byte_at_app _ _ t _ E1), (byte_at_app _ _ t _ E2).
Qed.

(** The trailer is the four bytes before [physical_size], in little-endian order. *)
Lemma trailer_bytes a n :
  0 <= n < 2 ^ 32 → Gzip.zlib_trailer_msg_length (a +:+ le_bytes 4 n) (Z.of_nat (slen a) + 4) = Some n.
Proof.
  intros Hn. unfold Gzip.zlib_trailer_msg_length.
  set (q1 := n / 256). set (q2 := q1 / 256). set (q3 := q2 / 256).
  assert (Hb : ∀ i, 0 <= i → Gzip.byte_at (Z.of_nat (slen a) + 4 - (4 - i)) (a +:+ le_bytes 4 n) = Gzip.byte_at i (le_bytes 4 n)).
  { intros i Hi. rewrite <- (byte_at_end a _ i Hi). f_equal. lia. }
  pose proof (Z.mod_pos_bound n 256 ltac:(lia)) as M0. pose proof (Z.mod_pos_bound q1 256 ltac:(lia)) as M1.
  pose proof (Z.mod_pos_bound q2 256 ltac:(lia)) as M2. pose proof (Z.mod_pos_bound q3 256 ltac:(lia)) as M3.
  pose proof (Z.div_mod n 256 ltac:(lia)) as D0. pose proof (Z.div_mod q1 256 ltac:(lia)) as D1.
  pose proof (Z.div_mod q2 256 ltac:(lia)) as D2. pose proof (Z.div_mod q3 256 ltac:(lia)) as D3.
  fold q1 in D0. fold q2 in D1. fold q3 in D2.
  assert (q3 / 256 = 0) as Hq by (apply Z.div_small; lia).
  pose proof (Hb 3 ltac:(lia)) as E3. pose proof (Hb 2 ltac:(lia)) as E2.
  pose proof (Hb 1 ltac:(lia)) as E1. pose proof (Hb 0 ltac:(lia)) as E0.
  cbn [Z.sub Z.opp Z.add Z.pos_sub Pos.pred_double] in E0, E1, E2, E3.
  change (4 - 3) with 1 in E3. change (4 - 2) with 2 in E2. change (4 - 1) with 3 in E1. change (4 - 0) with 4 in E0.
  rewrite E3, E2, E1, E0. unfold Gzip.byte_at. cbn [le_bytes]. fold q1 q2 q3.
  change (Z.to_nat 3) with 3%nat. change (Z.to_nat 2) with 2%nat. change (Z.to_nat 1) with 1%nat. change (Z.to_nat 0) with 0%nat.
  cbn [String.get fmap option_fmap option_map]. rewrite !char_code_of by lia.
  rewrite !decide_True by lia. cbn [mbind option_bind].
  rewrite <- !Z.lor_assoc.
  rewrite (shiftl_lor (q1 mod 256) 8) by lia.
  rewrite (shiftl_lor (q2 mod 256) 16) by lia. rewrite (shiftl_lor (q3 mod 256) 24) by lia.
  f_equal. rewrite wrap_u_small by lia. lia.
Qed.

Lemma le_bytes_last k n : 0 <= n < 2 ^ (8 * Z.of_nat k) → le_bytes (S k) n = le_bytes k n +:+ nul_string.
Proof.
  revert n. induction k as [|k IH]; intros n Hn.
  - cbn in *. replace n with 0 by lia. done.
  - change (le_bytes (S (S k)) n) with (String (char_of (n `mod` 256)) (le_bytes (S k) (n `div` 256))).
    rewrite IH; [done|]. split; [apply Z.div_pos; lia|]. apply Z.div_lt_upper_bound; [lia|].
    replace (256 * 2 ^ (8 * Z.of_nat k)) with (2 ^ (8 * Z.of_nat (S k))); [lia|].
    replace (8 * Z.of_nat (S k)) with (8 + 8 * Z.of_nat k) by lia. by rewrite Z.pow_add_r by lia.
Qed.

Lemma split_last s : s ≠ "" → ∃ a c, s = a +:+ String c "".
Proof.
  induction s as [|c s IH]; [done|]. intros _. destruct (decide (s = "")) as [->|Hs]; [by exists "", c|].
  destruct (IH Hs) as (a & d & ->). by exists (String c a), d.
Qed.

(** A mail that was compressed by another plugin ends with its uncompressed
    length [n] in four little-endian bytes. When the length agrees with the
    recorded size, the stream gets the object as it is; when the last byte of
    such an object, a NUL, is missing, the stream gets the object as it was
    written. This holds for lengths below 2^24 and headers that are not
    exceedingly long. *)
Theorem trailer_repair a n h :
  let full := a +:+ le_bytes 4 n in
  let size := Z.of_nat (slen full) in
  0 < n < 2 ^ 24 → Gzip.zlib_header_length a = Some h → 0 <= h < 255 * n → size <= INT_MAX →
  Gzip.repair_trailer full size n = Some (full, size) ∧
  Gzip.repair_trailer (a +:+ le_bytes 3 n) (size - 1) n = Some (full, size).
Proof.
  intros full size Hn Hh Hlen Hsize. unfold INT_MAX in Hsize.
  assert (Es : size = Z.of_nat (slen a) + 4) by (unfold size, full; rewrite slen_app, slen_le_bytes; lia).
  unfold Gzip.repair_trailer. split.
  - rewrite Es. unfold full. rewrite trailer_bytes by lia. cbn [mbind option_bind].
    rewrite (header_length_app _ _ _ Hh). cbn [mbind option_bind].
    rewrite Z.sub_diag, !wrap_u_small by lia. by rewrite decide_False by lia.
  - rewrite (header_length_app _ _ _ Hh).
    assert (a ≠ "") as Ha by (intros ->; done). destruct (split_last a Ha) as (a0 & c & ->).
    assert (Hc : 0 <= char_code c < 256) by (unfold char_code; pose proof (Ascii.N_ascii_bounded c); lia).
    assert (Et : (a0 +:+ String c "") +:+ le_bytes 3 n = a0 +:+ le_bytes 4 (char_code c + 256 * n)).
    { rewrite <- sapp_assoc. f_equal.
      change (le_bytes 4 ?v) with (String (char_of (v `mod` 256)) (le_bytes 3 (v `div` 256))).
      rewrite (Z.mul_comm 256), Z_mod_plus_full, Z_div_plus_full, (Z.div_small (char_code c)), Z.mod_small by lia.
      by rewrite char_of_code. }
    rewrite slen_app in Es. cbn in Es. rewrite Et. replace (size - 1) with (Z.of_nat (slen a0) + 4) by lia.
    rewrite trailer_bytes by lia. cbn [mbind option_bind].
    rewrite !wrap_u_small by lia. rewrite decide_True by lia. do 2 f_equal.
    + rewrite <- Et. unfold full. rewrite (le_bytes_last 3 n) by lia. by rewrite sapp_assoc.
    + rewrite wrap_s_small by lia. lia.
Qed.

(** The smallest header and the length 5. *)
Definition gzip_sample : string :=
  String (char_of 31) (String (char_of 139) (String (char_of 8) (String (char_of 0) "......payload"))).
Lemma trailer_repair_witness :
  Gzip.repair_trailer (gzip_sample +:+ le_bytes 3 5) 20 5 = Some (gzip_sample +:+ le_bytes 4 5, 21).
Proof.
  destruct (trailer_repair gzip_sample 5 11) as [_ H]; [lia|reflexivity|lia|vm_compute; discriminate|exact H].
Defined.

(** The stream of a buffer gives all of it, while the size its [stat] reports is
    one less. *)
Lemma buffer_stream_bytes data :
  0 < Z.of_nat (slen data) <= INT_MAX →
  let s := MailStream.i_stream_create_from_bufferlist data (Z.of_nat (slen data)) in
  MailStream.available s = Some data ∧ is_st_size s = Z.of_nat (slen data) - 1.
Proof.
  intros Hd. cbn zeta. unfold MailStream.i_stream_create_from_bufferlist, MailStream.available, INT_MAX in *.
  cbn [is_skip is_pos is_buffer is_st_size]. rewrite !wrap_u_small by lia. rewrite decide_True by lia. split.
  - f_equal. unfold substr. cbn. rewrite str_drop_0, Z.sub_0_r, Nat2Z.id. by rewrite str_take_ge by lia.
  - apply wrap_s_small; lia.
Qed.
