(* ===== verification/DovecotMail.v ===== *)
(** The third part of the interface to Dovecot: what the plugin asks about one
    mail while it is read (the index's cached fields, the cache file, the hook of
    other plugins on a new stream), and the compound read of a mail object. First the
    printed form of a guid, and what its bytes read as a C string are. *)
From S2P Require Export DovecotBox MailStream.
From S2P Require Import Encoding.
From Stdlib Require Import Ascii.

(** ** The object id of a mail in memory *)

(** The value of a hexadecimal digit as [guid_128_to_string] prints it. *)
Definition hex_value (c : ascii) : option nat :=
  let n := nat_of_ascii c in
  if decide (48 <= n <= 57)%nat then Some (n - 48)%nat
  else if decide (97 <= n <= 102)%nat then Some (n - 87)%nat else None.
Definition is_hex (c : ascii) : bool := bool_decide (is_Some (hex_value c)).
(** A guid as it is printed: 32 digits for 16 bytes. *)
Definition is_guid (s : string) : Prop := slen s = 32%nat ∧ all_chars is_hex s = true.
Fixpoint hex_bytes (s : string) : string :=
  match s with
  | String a (String b s) =>
      String (ascii_of_nat (16 * default 0%nat (hex_value a) + default 0%nat (hex_value b))) (hex_bytes s)
  | _ => ""
  end.
(** The 16 bytes, read as a C string: when none of them is 0 the text goes on in the pointer to
    the mail's object that comes next in [struct rbox_mail]. *)
Definition raw_guid (address : Z) (oid : string) : string := c_str (hex_bytes oid +:+ le_bytes 8 address).

Lemma slen_hex_bytes s : (2 * slen (hex_bytes s) <= slen s)%nat.
Proof.
  enough (∀ n s, (slen s <= n)%nat → (2 * slen (hex_bytes s) <= slen s)%nat) by eauto.
  induction n as [|n IH]; intros [|a [|b t]]; cbn [hex_bytes String.length]; intros Hn; [..|specialize (IH t)]; lia.
Qed.
Lemma slen_c_str_app s t : (slen (c_str (s +:+ t)) <= slen s + slen (c_str t))%nat.
Proof. induction s as [|a s IH]; cbn; [done|]. destruct (char_is a NUL); cbn; lia. Qed.
Lemma slen_c_str_before s t : (slen (c_str (s +:+ String NUL t)) <= slen s)%nat.
Proof. pose proof (slen_c_str_app s (String NUL t)) as Hs. change (c_str (String NUL t)) with "" in Hs. cbn [String.length] in Hs. lia. Qed.
Lemma le_bytes_app n m v : le_bytes (n + m) v = le_bytes n v +:+ le_bytes m (v / 2 ^ (8 * Z.of_nat n)).
Proof.
  revert v. induction n as [|n IH]; intros v; cbn [Nat.add le_bytes String.append]; [by rewrite Z.div_1_r|].
  rewrite IH, Z.div_div by lia. do 4 f_equal. replace (8 * Z.of_nat (S n)) with (8 + 8 * Z.of_nat n) by lia.
  by rewrite Z.pow_add_r by lia.
Qed.
(** The address of an object on a 64-bit machine has a byte that is 0. *)
Lemma slen_address a : 0 <= a < 2 ^ 48 → (slen (c_str (le_bytes 8 a)) < 8)%nat.
Proof.
  intros Ha. assert (∃ s, slen s = 6%nat ∧ le_bytes 8 a = s +:+ String NUL (String NUL "")) as (s & Hs & ->).
  { exists (le_bytes 6 a). split; [apply slen_le_bytes|].
    assert (le_bytes 2 (a / 2 ^ 48) = String NUL (String NUL "")) as <- by by rewrite Z.div_small.
    change 8%nat with (6 + 2)%nat. apply le_bytes_app. }
  pose proof (slen_c_str_before s (String NUL "")). lia.
Qed.
(** The raw name is shorter than a printed guid. *)
Lemma raw_guid_short a oid : 0 <= a < 2 ^ 48 → is_guid oid → ¬ is_guid (raw_guid a oid).
Proof.
  intros Ha [Ho _] [Hr _]. unfold raw_guid in Hr. pose proof (slen_c_str_app (hex_bytes oid) (le_bytes 8 a)) as Hs.
  pose proof (slen_address a Ha). pose proof (slen_hex_bytes oid). lia.
Qed.

(** The part of [struct index_mail_data] the plugin uses. *)
Record index_mail_data := mk_mail_data {
  im_received_date : Z;
  im_save_date : Z;
  im_virtual_size : Z;
  im_physical_size : Z;
  im_stream : option istream;
}.

Inductive index_cache_field := MAIL_CACHE_GUID | MAIL_CACHE_POP3_UIDL | MAIL_CACHE_POP3_ORDER.
#[export] Instance index_cache_field_eq_dec : EqDecision index_cache_field.
Proof. solve_decision. Defined.

(** An [index_mail_get_*] function: its code, the value it gives out, and the
    data it may have changed. *)
Abbreviation field_getter W := (Z → index_mail_data → ST W ((Z * Z) * index_mail_data)) (only parsing).

Class DovecotMail (W : Type) := {
  index_mail_get_flags : Z → W → Z;
  index_mail_get_received_date : field_getter W;
  index_mail_get_save_date : field_getter W;
  index_mail_get_virtual_size : field_getter W;
  index_mail_get_physical_size : field_getter W;
  index_mail_get_cached_virtual_size : Z → W → bool * Z;
  istream_opened : option (istream → ST W (option istream));   (** [None]: a null pointer *)
  index_mail_init_stream : istream → ST W Z;
  index_mail_close : index_mail_data → ST W index_mail_data;
  index_mail_set_seq_closes : Z → Z → W → bool;                (** whether it closes the mail of the first number *)
  mail_cache_lookup_field : Z → index_cache_field → W → option string;
  cache_field_idx : index_cache_field → W → Z;
  index_pop3_uidl_can_exist : Z → W → bool;
  index_mail_get_special : Z → Z → ST W (Z * option string);
  str_to_uint : string → option Z;
  guid_128_to_compact : string → string;
  mail_address : Z;                                            (** where the [RadosMail] of a mail is *)
}.
Definition guid_128_bytes `{DovecotMail W} (oid : string) : string := raw_guid (mail_address (W:=W)) oid.

(** The operation of [read_mail_from_storage]: a read of the object and a stat of
    it; the code, what the buffer holds afterwards, and the size and the time if
    they were stored. *)
Class LibradosMail (W : Type) := {
  io_operate_read_stat : ioctx → string → Z → Z → ST W ((Z * bufferlist) * option (Z * Z));
}.

(** Success means that every part of the operation succeeded; reading an object
    changes nothing. *)
Class LibradosMailLaws (W : Type) `{LibradosLaws W} `{LibradosMail W} := {
  read_stat_law : ∀ c oid off len (w : W),
    let '(((r, bl), out), w') := io_operate_read_stat c oid off len w in
    objs w' = objs w ∧
    (0 <= r → ∃ ob, objs w !! (c, oid) = Some ob ∧ bl = read_range len off (ob_data ob) ∧
       out = Some (Z.of_nat (slen (ob_data ob)), ob_mtime ob));
}.

(** The calls about a mail change no object and request nothing of the index. *)
Definition quiet_call {W A} `{DovecotLaws W} (m : ST W A) : Prop :=
  ∀ w, objs (m w).2 = objs w ∧ ix_log (m w).2 = ix_log w.
Class DovecotMailLaws (W : Type) `{DovecotLaws W} `{DovecotMail W} `{LibradosMail W} := {
  get_received_date_law : ∀ seq d, quiet_call (index_mail_get_received_date seq d);
  get_save_date_law : ∀ seq d, quiet_call (index_mail_get_save_date seq d);
  get_virtual_size_law : ∀ seq d, quiet_call (index_mail_get_virtual_size seq d);
  get_physical_size_law : ∀ seq d, quiet_call (index_mail_get_physical_size seq d);
  mail_close_law : ∀ d, quiet_call (index_mail_close d);
  istream_opened_law : ∀ f s, istream_opened = Some f → quiet_call (f s);
  get_special_law : ∀ seq n, quiet_call (index_mail_get_special seq n);
  init_stream_law : ∀ s, quiet_call (index_mail_init_stream s);
  mail_address_law : 0 <= mail_address (W:=W) < 2 ^ 48;
  read_stat_log : ∀ c oid off len (w : W), ix_log (io_operate_read_stat c oid off len w).2 = ix_log w;
}.

(** Without failures an object that exists can be read. *)
Class CalmReads (W : Type) `{CalmWorld W} `{LibradosMail W} := {
  calm_read_stat : ∀ c oid off len (w : W), calm w → is_Some (objs w !! (c, oid)) →
    0 <= (io_operate_read_stat c oid off len w).1.1.1;
}.

(** ** In the concrete world

    The index knows no date and no size, the cache file is empty, and no plugin
    has a hook. *)
Definition unknown (v : index_mail_data → Z) : field_getter MemDovecot :=
  λ seq d w, ((if decide (v d = -1 ∨ v d = uint64 (-1)) then -1 else 0, v d), d, w).

#[export] Instance dv_mail : DovecotMail MemDovecot := {
  index_mail_get_flags seq w := from_option ir_flags 0 (mi_records (md_index w) !! seq);
  index_mail_get_received_date := unknown im_received_date;
  index_mail_get_save_date := unknown im_save_date;
  index_mail_get_virtual_size := unknown im_virtual_size;
  index_mail_get_physical_size := unknown im_physical_size;
  index_mail_get_cached_virtual_size _ _ := (false, 0);
  istream_opened := None;
  index_mail_init_stream _ := mret 0;
  index_mail_close _ := mret (mk_mail_data (-1) (-1) (uint64 (-1)) (uint64 (-1)) None);
  index_mail_set_seq_closes old seq _ := negb (bool_decide (old = seq));
  mail_cache_lookup_field _ _ _ := None;
  cache_field_idx f _ := match f with MAIL_CACHE_GUID => 1 | MAIL_CACHE_POP3_UIDL => 2 | MAIL_CACHE_POP3_ORDER => 3 end;
  index_pop3_uidl_can_exist _ _ := true;
  index_mail_get_special _ _ := mret (0, Some "");
  str_to_uint s := match stol s with ParseOk n => if decide (0 <= n) then Some n else None | _ => None end;
  guid_128_to_compact s := s;
  mail_address := 140119352311808;
}.
#[export] Instance dv_librados_mail : LibradosMail MemDovecot := {
  io_operate_read_stat c oid off len := MemDv.cluster (λ w,
    let '((r, p), w) := Mem.read_obj c oid ("", None) (λ ob,
      (0, (read_range len off (ob_data ob), Some (Z.of_nat (slen (ob_data ob)), ob_mtime ob)))) w in
    (((r, p.1), p.2), w));
}.
#[export] Program Instance dv_librados_mail_laws : LibradosMailLaws MemDovecot.
Next Obligation.
  intros c oid off len [w i]. cbn.
  match goal with |- context [Mem.read_obj c oid ?f ?v w] => pose proof (Mem.read_obj_law c oid f v w) as E end.
  destruct (Mem.read_obj c oid _ _ w) as [[r p] w']. cbn. destruct E as [? [[? ->]|(ob & Hob & [= -> ->])]].
  - split; [done|]. lia.
  - split; [done|]. intros _. by exists ob.
Qed.
#[export] Program Instance dv_mail_laws : DovecotMailLaws MemDovecot.
Next Obligation. done. Qed.
Next Obligation. done. Qed.
Next Obligation. done. Qed.
Next Obligation. done. Qed.
Next Obligation. done. Qed.
Next Obligation. done. Qed.
Next Obligation. done. Qed.
Next Obligation. done. Qed.
Next Obligation. split; vm_compute; congruence. Qed.
Next Obligation.
  intros c oid off len [w i]. cbn. by destruct (Mem.read_obj _ _ _ _ w) as [[? ?] ?].
Qed.
#[export] Program Instance dv_calm_reads : CalmReads MemDovecot.
Next Obligation.
  intros c oid off len [w i] Hw [ob Hob]. cbn in *. unfold Mem.read_obj, Mem.next. by rewrite Hw, Hob.
Qed.
