(* ===== verification/RboxMail.v ===== *)
(** Reading a mail: storage-rbox/rbox-mail.h and rbox-mail.cpp. The index gives the
    name of the mail's object; its text, its dates and its sizes come from the
    index, from the attributes of the object, or from the object itself. *)
From S2P Require Export DovecotMail RboxMailbox RboxSave SaveCommit.
Local Open Scope rmb_scope.

(** [struct rbox_mail]; guids as [guid_128_to_string] shows them. *)
Record rbox_mail := mk_rbox_mail {
  ml_seq : Z;                              (** [mail->seq] *)
  ml_data : index_mail_data;               (** [imail.data] *)
  ml_index_guid : string;
  ml_index_oid : string;
  ml_rados_mail : option RadosMail;        (** [None]: a null pointer *)
  ml_last_seq : Z;
}.

Inductive mail_fetch_field := MAIL_FETCH_GUID | MAIL_FETCH_UIDL_BACKEND | MAIL_FETCH_POP3_ORDER | MAIL_FETCH_OTHER (n : Z).

Module RboxMail.
Definition set_data (x : index_mail_data) (m : rbox_mail) : rbox_mail :=
    mk_rbox_mail (ml_seq m) x (ml_index_guid m) (ml_index_oid m) (ml_rados_mail m) (ml_last_seq m).
Definition set_rados_mail (x : option RadosMail) (m : rbox_mail) : rbox_mail :=
    mk_rbox_mail (ml_seq m) (ml_data m) (ml_index_guid m) (ml_index_oid m) x (ml_last_seq m).
Definition set_last_seq (x : Z) (m : rbox_mail) : rbox_mail :=
    mk_rbox_mail (ml_seq m) (ml_data m) (ml_index_guid m) (ml_index_oid m) (ml_rados_mail m) x.
Definition set_seq (x : Z) (m : rbox_mail) : rbox_mail :=
    mk_rbox_mail x (ml_data m) (ml_index_guid m) (ml_index_oid m) (ml_rados_mail m) (ml_last_seq m).
Definition set_index_guid (x : string) (m : rbox_mail) : rbox_mail :=
    mk_rbox_mail (ml_seq m) (ml_data m) x (ml_index_oid m) (ml_rados_mail m) (ml_last_seq m).
Definition set_index_oid (x : string) (m : rbox_mail) : rbox_mail :=
    mk_rbox_mail (ml_seq m) (ml_data m) (ml_index_guid m) x (ml_rados_mail m) (ml_last_seq m).

Definition set_received_date (x : Z) (d : index_mail_data) : index_mail_data :=
    mk_mail_data x (im_save_date d) (im_virtual_size d) (im_physical_size d) (im_stream d).
Definition set_save_date (x : Z) (d : index_mail_data) : index_mail_data :=
    mk_mail_data (im_received_date d) x (im_virtual_size d) (im_physical_size d) (im_stream d).
Definition set_virtual_size (x : Z) (d : index_mail_data) : index_mail_data :=
    mk_mail_data (im_received_date d) (im_save_date d) x (im_physical_size d) (im_stream d).
Definition set_physical_size (x : Z) (d : index_mail_data) : index_mail_data :=
    mk_mail_data (im_received_date d) (im_save_date d) (im_virtual_size d) x (im_stream d).
Definition set_stream (x : option istream) (d : index_mail_data) : index_mail_data :=
    mk_mail_data (im_received_date d) (im_save_date d) (im_virtual_size d) (im_physical_size d) x.

(** [rbox_mail_alloc]: a zeroed mail. *)
Definition rbox_mail_alloc (data : index_mail_data) : rbox_mail :=
    mk_rbox_mail 0 data RboxSave.empty_guid RboxSave.empty_guid None 0.

Definition max_retry : nat := 10.

Section ops.
Context `{Jansson} `{Librados W} `{RadosAdmin W} `{Dovecot W} `{DovecotBoxes W} `{DovecotMail W} `{LibradosMail W}.
  Abbreviation M := (ST (rbox_mail * (rbox_health * (rbox_storage * W)))).
(** What the uninitialised size and time hold when a read succeeds without a stat. *)
Variables (junk_size junk_date : Z) (mb : mailbox).

Definition get : M rbox_mail := on_fst st_get.
Definition modify (f : rbox_mail → rbox_mail) : M unit := on_fst (st_modify f).
Definition box {A} (m : ST (rbox_health * (rbox_storage * W)) A) : M A := on_snd m.
Definition rbox {A} (m : ST (rbox_storage * W) A) : M A := on_snd (on_snd m).
Definition world {A} (m : ST W A) : M A := on_snd (on_snd (on_snd m)).
Definition ask {A} (f : W → A) : M A := world (λ w, (f w, w)).
Definition index (a : index_action) : M unit := world (mail_index_do a).
Definition modify_data (f : index_mail_data → index_mail_data) : M unit := modify (λ m, set_data (f (ml_data m)) m).
(** The mail's object; a null pointer aborts. *)
Definition the_mail : M (option RadosMail) := m ← get; mret (ml_rados_mail m).
Definition update_mail (f : RadosMail → RadosMail) : M unit :=
    modify (λ m, set_rados_mail (f <$> ml_rados_mail m) m).

Definition rbox_mail_set_expunged : M unit :=
    m ← get;
    index IxRefresh ;;
    expunged ← ask (mail_index_is_expunged (ml_seq m));
    if (expunged : bool) then index (IxMailExpunged (ml_seq m))
    else
      index IxSetCritical ;;
      index IxErrorExpunged ;;
      box (RboxMailbox.rbox_set_mailbox_corrupted mb false).

(** The name of the object, from the record of the index. *)
Definition rbox_get_index_record : M (option Z) :=
    m ← get;
    if decide (ml_last_seq m = ml_seq m) then aret 0 else
    rec ← ask (mail_index_lookup (ml_seq m));
    match rec ≫= ir_ext with
    | None => aret (-1)
    | Some (guid, oid) =>
        modify (set_index_guid guid) ;;
        modify (set_index_oid oid) ;;
        _ ←! the_mail;
        update_mail (Mail.set_oid oid) ;;
        modify (set_last_seq (ml_seq m)) ;;
        aret 0
    end.

(** [alloc_rados_mail] when there is none. *)
Definition alloc_if_null : M unit :=
    m ← get;
    match ml_rados_mail m with
    | Some _ => mret tt
    | None => modify (set_rados_mail (Some Mail.new)) ;; modify (set_last_seq (uint32 (-1)))
    end.
(** ... and its object. *)
Definition ensure_rados_mail : M (option Z) :=
    m ← get;
    match ml_rados_mail m with
    | Some _ => aret 0
    | None => alloc_if_null ;; rbox_get_index_record
    end.
(** The record is read when the mail has no object name. *)
Definition ensure_oid : M (option Z) :=
    alloc_if_null ;;
    mail ←! the_mail;
    if decide (rm_oid mail = "") then rbox_get_index_record else aret 0.

(** Whether the mail is kept on the alternative storage. *)
Definition alt_storage_of (m : rbox_mail) (w : W) : bool :=
    Rbox.is_alternate_storage_set (index_mail_get_flags (ml_seq m) w) && Rbox.is_alternate_pool_valid mb.

(** The code and [*value_r]. *)
Definition rbox_mail_metadata_get (key : rbox_metadata_key) : M (option (Z * option string)) :=
    m ← get;
    alt_storage ← ask (alt_storage_of m);
    opened ←! rbox (Rbox.open_mailbox mb alt_storage);
    if decide (opened < 0) then aret (-1, None) else
    r ← rbox Rbox.get;
    ret ←! ensure_oid;
    if decide (ret < 0) then aret (-1, None) else
    m ← get;
    mail ←! the_mail;
    (if decide (rm_oid mail = "") then update_mail (Mail.set_oid (guid_128_bytes (ml_index_oid m))) else mret tt) ;;
    mail ←! the_mail;
    match Rbox.storage_ms (W:=W) alt_storage r with
    | None => abort
    | Some ms =>
        '(loaded, mail) ← world (ms_load_metadata ms mail);
        update_mail (λ _, mail) ;;
        match loaded with
        | None => abort
        | Some loaded =>
            if decide (loaded < 0) then
              (if decide (loaded = - ENOENT) then rbox_mail_set_expunged else mret tt) ;; aret (-1, None)
            else
              match get_metadata_key key (rm_attrset mail) with
              | Some val => aret (0, Some val)
              | None => aret (-1, None)
              end
        end
    end.

(** The value of an attribute, loaded from the object when the mail does not
    have it yet; [None]: there is none. *)
Definition cached_or_loaded (key : rbox_metadata_key) : M (option (option string)) :=
    mail ←! the_mail;
    match get_metadata_key key (rm_attrset mail) with
    | Some value => aret (Some value)
    | None =>
        '(ret, value) ←! rbox_mail_metadata_get key;
        aret (if decide (ret < 0) then None else value)
    end.

(** A field of the index: the code and the value. *)
Definition index_field (f : field_getter W) : M (Z * Z) :=
    m ← get;
    '((ret, v), d) ← world (f (ml_seq m) (ml_data m));
    modify (set_data d) ;;
    mret (ret, v).

(** ** Dates and sizes: the code and what [*date_r] or [*size_r] holds *)

Definition rbox_mail_get_received_date : M (option (Z * Z)) :=
    '(ret, date) ← index_field index_mail_get_received_date;
    if decide (ret = 0) then aret (0, date) else
    ret ←! ensure_rados_mail;
    if decide (ret < 0) then aret (-1, date) else
    value ←! cached_or_loaded RBOX_METADATA_RECEIVED_TIME;
    match value with
    | None => aret (-1, date)
    | Some value =>
        match stol value with
        | ParseOk n => modify_data (set_received_date n) ;; aret (0, n)
        | _ => aret (-1, date)
        end
    end.

Definition rbox_mail_get_save_date : M (option (Z * Z)) :=
    m ← get;
    alt_storage ← ask (alt_storage_of m);
    '(ret, date) ← index_field index_mail_get_save_date;
    if decide (ret = 0) then aret (0, date) else
    ret ←! ensure_rados_mail;
    if decide (ret < 0) then aret (-1, date) else
    mail ←! the_mail;
    if decide (rm_save_date_rados mail ≠ -1) then
      modify_data (set_save_date (rm_save_date_rados mail)) ;; aret (0, rm_save_date_rados mail)
    else
      opened ←! rbox (Rbox.open_mailbox mb alt_storage);
      if decide (opened < 0) then aret (-1, date) else
      '(ret, out) ← rbox ((if alt_storage then Rbox.on_alt else Rbox.on_s) (Storage.stat_mail (rm_oid mail)));
      if decide (ret < 0) then
        (if decide (ret ≠ - ENOENT) then index (IxMailExpunged (ml_seq m)) else mret tt) ;;
        aret (-1, date)
      else
        let save_date := from_option snd 0 out in
        modify_data (set_save_date save_date) ;; aret (0, save_date).

Definition rbox_mail_get_virtual_size : M (option (Z * Z)) :=
    '(ret, size) ← index_field index_mail_get_virtual_size;
    if decide (ret = 0) then aret (0, size) else
    m ← get;
    '(cached, size') ← ask (index_mail_get_cached_virtual_size (ml_seq m));
    if (cached : bool) && bool_decide (size' > 0) then aret (0, size') else
    m ← get;
    match ml_rados_mail m with
    | None => aret (-1, size')
    | Some _ =>
        value ←! cached_or_loaded RBOX_METADATA_VIRTUAL_SIZE;
        match value with
        | None => aret (-1, size')
        | Some value =>
            '(ret, size) ← (match stol value with
              | ParseOk n => modify_data (set_virtual_size (uint64 n)) ;; mret (0, uint64 n)
              | _ => mret (-1, size')
              end);
            m ← get;
            update_mail (Mail.add_metadata (Metadata.convert_size RBOX_METADATA_VIRTUAL_SIZE (im_virtual_size (ml_data m)))) ;;
            aret (ret, size)
        end
    end.

Definition rbox_mail_get_physical_size : M (option (Z * Z)) :=
    '(ret, size) ← index_field index_mail_get_physical_size;
    if decide (ret = 0) then aret (0, size) else
    m ← get;
    match ml_rados_mail m with
    | None => aret (-1, size)
    | Some _ =>
        value ←! cached_or_loaded RBOX_METADATA_PHYSICAL_SIZE;
        match value with
        | None => aret (-1, size)
        | Some value =>
            match stol value with
            | ParseOk n => modify_data (set_physical_size (uint64 n)) ;; aret (0, uint64 n)
            | _ => aret (-1, size)
            end
        end
    end.

(** ** The text *)

Definition on_storage {A} (alt_storage : bool) (m : ST (Storage.state W) A) : M A :=
    rbox ((if alt_storage then Rbox.on_alt else Rbox.on_s) m).

(** [RadosStorageImpl::read_operate]; [buffer] is what the buffer held before. *)
Definition read_operate (oid : string) (buffer : bufferlist) :
      ST (Storage.state W) ((Z * bufferlist) * option (Z * Z)) :=
    Storage.guarded ((-1, buffer), None)
      (io ← Storage.io_ctx; Storage.world (io_operate_read_stat io oid 0 INT_MAX)).

(** The code and [psize] and [save_date], when they were stored. *)
Definition read_mail_from_storage (alt_storage : bool) : M (option (Z * option (Z * Z))) :=
    mail ←! the_mail;
    '((ret, bl), out) ← on_storage alt_storage (read_operate (rm_oid mail) (default "" (rm_mail_buffer mail)));
    update_mail (Mail.set_mail_buffer (Some bl)) ;;
    aret (ret, out).

(** The retries after a timeout; the buffer is cleared after each that failed. *)
Fixpoint read_retry (alt_storage : bool) (n : nat) (ret : Z) (out : option (Z * Z)) :
      M (option (Z * option (Z * Z))) :=
    match n with
    | O => aret (ret, out)
    | S n =>
        '(ret, out) ←! read_mail_from_storage alt_storage;
        if decide (ret >= 0) then aret (ret, out)
        else update_mail (Mail.set_mail_buffer (Some "")) ;; read_retry alt_storage n ret out
    end.

(** The buffer is deleted. *)
Definition delete_buffer : M unit := update_mail (Mail.set_mail_buffer None).

(** The read with its retries; [None] inside: [rbox_mail_get_stream] answers [-1]. *)
Definition read_mail (alt_storage : bool) : M (option (option (option (Z * Z)))) :=
    '(ret, out) ←! read_mail_from_storage alt_storage;
    if decide (ret >= 0) then aret (Some out)
    else if decide (ret = - ENOENT) then rbox_mail_set_expunged ;; delete_buffer ;; aret None
    else if decide (ret = - ETIMEDOUT) then
      '(ret, out) ←! read_retry alt_storage max_retry ret out;
      if decide (ret < 0) then delete_buffer ;; aret None else aret (Some out)
    else delete_buffer ;; aret None.

(** [get_mail_stream]. When the hook fails the stream is released, and with it the
    buffer, which [rbox_mail_get_stream] then deletes again: no result. *)
Definition get_mail_stream (buffer : bufferlist) (physical_size : Z) : M (option istream) :=
    let input := MailStream.i_stream_create_from_bufferlist buffer physical_size in
    let input := (MailStream.i_stream_data_seek 0 input).2 in
    match istream_opened with
    | None => aret input
    | Some opened => world (opened input)
    end.

(** The buffer and the size for the stream of a mail of [physical_size] bytes. *)
Definition stream_contents (physical_size : Z) : M (option (bufferlist * Z)) :=
    mail ←! the_mail;
    buffer ←! mret (rm_mail_buffer mail);
    isGzip ←! mret (Gzip.check_is_zlib buffer);
    if (isGzip : bool) then
      '(_, real_physical_size) ←! rbox_mail_get_physical_size;
      mret (Gzip.repair_trailer buffer physical_size real_physical_size)
    else aret (buffer, physical_size).

(** What follows the read: the sizes, and the stream. *)
Definition stream_of_mail (out : option (option (Z * Z))) : M (option Z) :=
    match out with
    | None => aret (-1)
    | Some out =>
        let '(psize, save_date) := default (junk_size, junk_date) out in
        let physical_size := int32 psize in
        update_mail (λ m, Mail.set_rados_save_date save_date (Mail.set_mail_size psize m)) ;;
        if decide (physical_size = 0) then rbox_mail_set_expunged ;; delete_buffer ;; aret (-1)
        else if decide (physical_size = INT_MAX) then delete_buffer ;; aret (-1)
        else
          '(buffer, physical_size) ←! stream_contents physical_size;
          update_mail (Mail.set_mail_buffer (Some buffer)) ;;
          input ←! get_mail_stream buffer physical_size;
          modify_data (set_stream (Some input)) ;;
          aret 0
    end.

(** The stream is opened; the code of a failure, [0] otherwise. *)
Definition open_stream : M (option Z) :=
    m ← get;
    alt_storage ← ask (alt_storage_of m);
    opened ←! rbox (Rbox.open_mailbox mb alt_storage);
    if decide (opened < 0) then aret (-1) else
    (if alt_storage
     then on_storage true (s ← Storage.get; Storage.set_namespace (st_nspace s))
     else mret tt) ;;
    ret ←! ensure_oid;
    if decide (ret < 0) then aret (-1) else
    update_mail (Mail.set_mail_buffer (Some "")) ;;
    out ←! read_mail alt_storage;
    stream_of_mail out.

(** The code and the stream. *)
Definition rbox_mail_get_stream : M (option (Z * option istream)) :=
    m ← get;
    ret ←! (match im_stream (ml_data m) with Some _ => aret 0 | None => open_stream end);
    if decide (ret < 0) then aret (-1, None) else
    m ← get;
    match im_stream (ml_data m) with
    | None => abort
    | Some input => ret ← world (index_mail_init_stream input); aret (ret, Some input)
    end.

(** ** Guids and POP3 *)

(** The code and [*value_r]. *)
Definition rbox_get_guid_metadata : M (option (Z * option string)) :=
    m ← get;
    if decide (ml_index_guid m ≠ RboxSave.empty_guid) then aret (0, Some (guid_128_to_compact (ml_index_guid m))) else
    '(ret, value) ←! rbox_mail_metadata_get RBOX_METADATA_GUID;
    if decide (ret < 0) then aret (-1, value) else
    match value with
    | None => abort
    | Some value =>
        match guid_128_from_uuid_string value with
        | None => aret (-1, Some value)
        | Some guid =>
            modify (set_index_guid guid) ;;
            m ← get;
            index (IxUpdateExt (ml_seq m) (mb_ext_id mb) (ml_index_guid m) (ml_index_oid m)) ;;
            aret (0, Some value)
        end
    end.

(** What the cache file holds, as a string. *)
Definition cached_value (field : index_cache_field) (str : string) : option string :=
    if decide (field = MAIL_CACHE_POP3_ORDER) then
      if decide (slen str = 4)%nat then
        let order := le_value str in Some (if decide (order = 0) then "" else to_string order)
      else None
    else Some (c_str str).

Definition rbox_get_cached_metadata (key : rbox_metadata_key) (field : index_cache_field) :
      M (option (Z * option string)) :=
    m ← get;
    found ← ask (mail_cache_lookup_field (ml_seq m) field);
    match found with
    | Some str =>
        match cached_value field str with None => abort | Some value => aret (0, Some value) end
    | None =>
        '(ret, value) ←! rbox_mail_metadata_get key;
        if decide (ret < 0) then aret (-1, None) else
        let value := default "" value in
        idx ← ask (cache_field_idx field);
        index (IxCacheAdd (ml_seq m) idx
          (if decide (field = MAIL_CACHE_POP3_ORDER)
           then le_bytes 4 (uint32 (default 0 (str_to_uint (W:=W) value))) else value +:+ nul_string)) ;;
        aret (0, Some value)
    end.

(** A flag of the mailbox's index header. *)
Definition header_flag (flag : Z) : M bool :=
    data ← ask (mail_index_header_ext_bytes (mb_hdr_ext_id mb));
    mret (RboxMailbox.rbox_header_have_flag (default [] data) (Z.to_nat SaveCommit.flags_offset) flag).

Definition rbox_mail_get_special (field : mail_fetch_field) : M (option (Z * option string)) :=
    m ← get;
    match field with
    | MAIL_FETCH_GUID =>
        '(ret, value) ←! rbox_get_cached_metadata RBOX_METADATA_GUID MAIL_CACHE_GUID;
        if decide (ret < 0) then rbox_get_guid_metadata else aret (ret, value)
    | MAIL_FETCH_UIDL_BACKEND =>
        have ← header_flag RboxSave.RBOX_INDEX_HEADER_FLAG_HAVE_POP3_UIDLS;
        if negb have then aret (0, Some "") else
        can ← ask (index_pop3_uidl_can_exist (ml_seq m));
        if negb (can : bool) then aret (0, Some "") else
        '(ret, value) ←! rbox_get_cached_metadata RBOX_METADATA_POP3_UIDL MAIL_CACHE_POP3_UIDL;
        (if decide (ret = 0) then index (IxPop3UidlExists (ml_seq m) (negb (bool_decide (default "" value = ""))))
         else mret tt) ;;
        aret (ret, value)
    | MAIL_FETCH_POP3_ORDER =>
        have ← header_flag RboxSave.RBOX_INDEX_HEADER_FLAG_HAVE_POP3_ORDERS;
        if negb have then aret (0, Some "") else
        can ← ask (index_pop3_uidl_can_exist (ml_seq m));
        if negb (can : bool) then aret (0, Some "") else
        rbox_get_cached_metadata RBOX_METADATA_POP3_ORDER MAIL_CACHE_POP3_ORDER
    | MAIL_FETCH_OTHER n => lift (world (index_mail_get_special (ml_seq m) n))
    end.

(** ** The life of a mail *)

Definition rbox_mail_close : M unit :=
    modify (set_rados_mail None) ;;
    m ← get;
    d ← world (index_mail_close (ml_data m));
    modify (set_data d).

(** [index_mail_set_seq] closes an open mail first, then sets the number. *)
Definition rbox_index_mail_set_seq (seq : Z) : M (option unit) :=
    m ← get;
    closes ← ask (index_mail_set_seq_closes (ml_seq m) seq);
    (if (closes : bool) then rbox_mail_close else mret tt) ;;
    modify (set_seq seq) ;;
    m ← get;
    match ml_rados_mail m with
    | Some _ => aret tt
    | None =>
        modify (set_rados_mail (Some Mail.new)) ;;
        _ ←! rbox_get_index_record;
        aret tt
    end.
End ops.
End RboxMail.
