(* ===== verification/MailSpec.v ===== *)
(** What reading a mail promises: which object a mail names, that reading changes
    nothing, what the stream holds, and that a saved mail is read back. *)
From S2P Require Export RboxMail Keeps.
Local Open Scope rmb_scope.

(** The object of a mail is the one of the index record it loaded last, or none
    was assigned yet. *)
Definition names_record `{DovecotMail W} (m : rbox_mail) : Prop :=
  ∀ mail, ml_rados_mail m = Some mail →
    rm_oid mail = "" ∨ rm_oid mail = ml_index_oid m ∨ rm_oid mail = guid_128_bytes (W:=W) (ml_index_oid m).

(** ** Running the operations *)

Section run.
Context {W : Type}.
Abbreviation St := (rbox_mail * (rbox_health * (rbox_storage * W)))%type.
Lemma mail_get_run (s : St) : RboxMail.get s = (s.1, s).
Proof. by destruct s. Qed.
Lemma the_mail_run (s : St) : RboxMail.the_mail s = (ml_rados_mail s.1, s).
Proof. by destruct s. Qed.
Lemma mail_modify_run f (s : St) : RboxMail.modify f s = (tt, (f s.1, s.2)).
Proof. by destruct s. Qed.
Lemma update_mail_run f (s : St) :
  RboxMail.update_mail f s = (tt, (RboxMail.set_rados_mail (f <$> ml_rados_mail s.1) s.1, s.2)).
Proof. by destruct s. Qed.
Lemma modify_data_run f (s : St) :
  RboxMail.modify_data f s = (tt, (RboxMail.set_data (f (ml_data s.1)) s.1, s.2)).
Proof. by destruct s. Qed.
Lemma mail_ask_run {A} (f : W → A) m h r (w : W) : RboxMail.ask f (m, (h, (r, w))) = (f w, (m, (h, (r, w)))).
Proof. done. Qed.
Lemma mail_world_run {A} (f : ST W A) m h r (w : W) :
  RboxMail.world f (m, (h, (r, w))) = ((f w).1, (m, (h, (r, (f w).2)))).
Proof. unfold RboxMail.world. by rewrite !on_snd_run. Qed.
Lemma mail_rbox_run {A} (f : ST (rbox_storage * W) A) m h s :
  RboxMail.rbox f (m, (h, s)) = ((f s).1, (m, (h, (f s).2))).
Proof. unfold RboxMail.rbox. by rewrite !on_snd_run. Qed.
Lemma io_ctx_world_run {A} (f : ioctx → ST W A) s c (w : W) :
  (io ← Storage.io_ctx; Storage.world (f io)) (s, (c, w)) =
    ((f (st_io_ctx s) w).1, (s, (c, (f (st_io_ctx s) w).2))).
Proof.
  unfold Storage.io_ctx, Storage.get, Storage.world, on_snd, on_fst, mbind, ST_bind. cbn.
  by destruct (f (st_io_ctx s) w).
Qed.
End run.

(** Run the steps whose effect is known. *)
Ltac mlrun := repeat (first
  [ rewrite ret_eq | rewrite aret_run | rewrite mail_get_run | rewrite the_mail_run | rewrite mail_modify_run
  | rewrite update_mail_run | rewrite modify_data_run | rewrite mail_ask_run | rewrite mail_world_run | rewrite mail_rbox_run
  | rewrite abind_eq | rewrite bind_eq ]; cbn [fst snd]).

Section frame.
Context `{Jansson} `{LibradosLaws W} `{RadosAdmin W} `{!Dovecot W} `{!DovecotBoxes W} `{!DovecotMail W} `{!LibradosMail W}.
Variables (junk_size junk_date : Z) (mb : mailbox).

(** A property of the storage and the world that the calls of this component keep. *)
Record kept_by_reading (P : rbox_storage * W → Prop) : Prop := {
  rd_open : ∀ alt, (alt = true → Rbox.is_alternate_pool_valid mb = true) → stays P (Rbox.open_mailbox mb alt);
  rd_namespace : stays P (Rbox.on_alt (s ← Storage.get; Storage.set_namespace (st_nspace s)));
  rd_read : ∀ (alt : bool) oid buf, stays P ((if alt then Rbox.on_alt else Rbox.on_s) (RboxMail.read_operate oid buf));
  rd_stat : ∀ (alt : bool) oid, stays P ((if alt then Rbox.on_alt else Rbox.on_s) (Storage.stat_mail oid));
  rd_load : ∀ ms mail, stays P (on_snd (ms_load_metadata (T:=MetadataDefault + MetadataIma) ms mail));
  rd_index : ∀ a, stays P (on_snd (mail_index_do a));
  rd_received : ∀ seq d, stays P (on_snd (index_mail_get_received_date seq d));
  rd_saved : ∀ seq d, stays P (on_snd (index_mail_get_save_date seq d));
  rd_virtual : ∀ seq d, stays P (on_snd (index_mail_get_virtual_size seq d));
  rd_physical : ∀ seq d, stays P (on_snd (index_mail_get_physical_size seq d));
  rd_opened : ∀ f s, istream_opened = Some f → stays P (on_snd (f s));
  rd_init : ∀ s, stays P (on_snd (index_mail_init_stream s));
  rd_special : ∀ seq n, stays P (on_snd (index_mail_get_special seq n));
  rd_close : ∀ d, stays P (on_snd (index_mail_close d));
}.

Variable P : rbox_storage * W → Prop.
Hypothesis HP : kept_by_reading P.
Abbreviation S := (rbox_mail * (rbox_health * (rbox_storage * W)))%type.
Definition kept (s : S) : Prop := names_record (W:=W) s.1 ∧ P s.2.2.

Lemma rbox_stays {A} (m : ST (rbox_storage * W) A) : stays P m → stays kept (RboxMail.rbox m).
Proof. intros Hm [m' [h s]] [Hn Hs]. unfold RboxMail.rbox. rewrite !on_snd_run. split; [done|]. by apply Hm. Qed.
Lemma world_stays {A} (m : ST W A) : stays P (on_snd m) → stays kept (RboxMail.world m).
Proof. intros Hm. change (RboxMail.world m) with (RboxMail.rbox (on_snd m)). by apply rbox_stays. Qed.
Lemma mail_ask_stays {A} (f : W → A) : stays kept (RboxMail.ask f).
Proof. by intros [m [h [r w]]] Hs. Qed.
Lemma mail_get_stays : stays kept RboxMail.get.
Proof. by intros [m s] Hs. Qed.
Lemma the_mail_stays : stays kept RboxMail.the_mail.
Proof. by intros [m s] Hs. Qed.
Lemma mail_modify_stays f : (∀ m, names_record (W:=W) m → names_record (W:=W) (f m)) → stays kept (RboxMail.modify f).
Proof. intros Hf [m s] [Hn Hs]. split; [by apply Hf|done]. Qed.
Lemma update_mail_stays f : (∀ mail, rm_oid (f mail) = rm_oid mail) → stays kept (RboxMail.update_mail f).
Proof.
  intros Hf. apply mail_modify_stays. intros m Hn mail. cbn. destruct (ml_rados_mail m) as [mail0|] eqn:E; [|done].
  cbn. intros [= <-]. rewrite Hf. by apply Hn.
Qed.
Lemma modify_data_stays f : stays kept (RboxMail.modify_data f).
Proof. by apply mail_modify_stays. Qed.
Lemma index_request_stays a : stays kept (RboxMail.index a).
Proof. apply world_stays, rd_index, HP. Qed.
Lemma index_field_stays (f : field_getter W) :
  (∀ seq d, stays P (on_snd (f seq d))) → stays kept (RboxMail.index_field f).
Proof.
  intros Hf. unfold RboxMail.index_field. apply stays_bind; [apply mail_get_stays|]. intros m.
  apply stays_bind; [apply world_stays, Hf|]. intros [[ret v] d]. apply stays_bind; [|intros; apply stays_ret].
  by apply mail_modify_stays.
Qed.
#[local] Hint Resolve mail_ask_stays mail_get_stays the_mail_stays modify_data_stays index_request_stays : stays.
#[local] Hint Extern 2 (stays kept (RboxMail.update_mail _)) => (apply update_mail_stays; by intros []) : stays.

(** The calls on the mailbox request things of the index only. *)
Lemma mail_corrupted_stays : stays kept (RboxMail.box (RboxMailbox.rbox_set_mailbox_corrupted mb false)).
Proof.
  assert (Hw : ∀ A (m : ST W A), stays P (on_snd m) → stays (at_snd P) (RboxMailbox.world (W:=W) m)).
  { intros A m Hm [h s] Hs. unfold RboxMailbox.world. rewrite on_snd_run. by apply Hm. }
  assert (Hb : stays (at_snd P) (RboxMailbox.rbox_set_mailbox_corrupted mb false)).
  { unfold RboxMailbox.rbox_set_mailbox_corrupted. apply stays_bind; [|intros [[ret hdr] b]; apply stays_on_fst].
    apply Hw. intros [r w] Hs. rewrite on_snd_run. unfold RboxMailbox.rbox_read_header. cbn [fst snd]. rewrite bind_eq.
    cbn [RboxMailbox.ask fst snd]. destruct (mail_index_get_header_ext _ w) as [n hdr]. case_match; [done|].
    destruct (decide (ih_mailbox_guid hdr = None)); [done|].
    rewrite bind_eq. rewrite ret_eq. cbn [fst snd]. unfold RboxMailbox.set_ext_init_data.
    match goal with |- context [mail_index_do ?a w] => pose proof (rd_index P HP a (r, w) Hs) as Hi end.
    by rewrite on_snd_run in Hi. }
  intros [m s] [Hn Hs]. unfold RboxMail.box. rewrite on_snd_run. split; [done|]. by apply Hb.
Qed.
#[local] Hint Resolve mail_corrupted_stays : stays.
Lemma set_expunged_stays : stays kept (RboxMail.rbox_mail_set_expunged mb).
Proof. unfold RboxMail.rbox_mail_set_expunged. stay. Qed.
Lemma alloc_stays : stays kept RboxMail.alloc_if_null.
Proof.
  unfold RboxMail.alloc_if_null. apply stays_bind; [stay|]. intros m. destruct (ml_rados_mail m); [stay|].
  apply stays_bind; [|intros _]; apply mail_modify_stays; [|done]. intros m' _ mail. cbn. intros [= <-]. by left.
Qed.

(** The record: the mail gets the name of the object. *)
Lemma index_record_stays : stays kept RboxMail.rbox_get_index_record.
Proof.
  intros [m [h [r w]]] [Hn Hs]. unfold RboxMail.rbox_get_index_record. mlrun.
  destruct (decide (ml_last_seq m = ml_seq m)); [done|]. mlrun.
  destruct (mail_index_lookup (ml_seq m) w ≫= ir_ext) as [[guid oid]|]; [|done]. mlrun.
  cbn [ml_rados_mail RboxMail.set_index_oid RboxMail.set_index_guid].
  destruct (ml_rados_mail m) as [mail|] eqn:E; mlrun.
  - split; [|done]. intros mail' [= <-]. right. left. by destruct mail.
  - split; [|done]. intros mail' Hm. cbn in Hm. by rewrite E in Hm.
Qed.
#[local] Hint Resolve set_expunged_stays alloc_stays index_record_stays : stays.
Lemma ensure_mail_stays : stays kept RboxMail.ensure_rados_mail.
Proof. unfold RboxMail.ensure_rados_mail. stay. Qed.
Lemma ensure_oid_stays : stays kept RboxMail.ensure_oid.
Proof. unfold RboxMail.ensure_oid. stay. Qed.
#[local] Hint Resolve ensure_mail_stays ensure_oid_stays : stays.

Lemma alt_storage_valid m (w : W) : RboxMail.alt_storage_of mb m w = true → Rbox.is_alternate_pool_valid mb = true.
Proof. unfold RboxMail.alt_storage_of. by intros [_ ?]%andb_true_iff. Qed.
(** What follows the question where the mail is kept. *)
Lemma ask_alt_stays {A} m (k : bool → ST S A) :
  (∀ alt, (alt = true → Rbox.is_alternate_pool_valid mb = true) → stays kept (k alt)) →
  stays kept (alt ← RboxMail.ask (RboxMail.alt_storage_of mb m); k alt).
Proof.
  intros Hk [m' [h [r w]]] Hs. rewrite bind_eq. cbn [RboxMail.ask RboxMail.world on_snd fst snd].
  apply Hk; [apply alt_storage_valid|exact Hs].
Qed.
Lemma open_stays alt :
  (alt = true → Rbox.is_alternate_pool_valid mb = true) → stays kept (RboxMail.rbox (Rbox.open_mailbox mb alt)).
Proof. intros Ha. by apply rbox_stays, HP. Qed.

Lemma rbox_get_kept : stays kept (RboxMail.rbox Rbox.get).
Proof. apply rbox_stays. by intros [r w] Hs. Qed.
#[local] Hint Resolve rbox_get_kept : stays.

(** Loading the attributes of the mail. *)
Lemma load_stays {A} (o : option (MetadataDefault + MetadataIma)) (k : option Z → RadosMail → ST S (option A)) :
  (∀ loaded mail, stays kept (k loaded mail)) →
  stays kept (mail ←! RboxMail.the_mail;
              match o with
              | None => abort
              | Some ms =>
                  '(loaded, mail) ← RboxMail.world (ms_load_metadata ms mail);
                  RboxMail.update_mail (λ _, mail) ;; k loaded mail
              end).
Proof.
  intros Hk [m [h [r w]]] [Hn Hs]. mlrun. destruct (ml_rados_mail m) as [mail|] eqn:E; [|done].
  destruct o as [ms|]; [|done]. mlrun.
  pose proof (load_metadata_keeps (λ _ : W, True) (rm_oid mail) ms mail eq_refl) as Hl.
  premise Hl; [done|]. specialize (Hl w I). destruct Hl as [_ Ho].
  pose proof (rd_load P HP ms mail (r, w) Hs) as Hp. rewrite on_snd_run in Hp.
  destruct (ms_load_metadata ms mail w) as [[loaded mail'] w']. cbn [fst snd] in *. mlrun.
  apply Hk. split; [|exact Hp]. cbn. intros mail2. rewrite E. cbn. intros [= <-]. rewrite Ho. by apply Hn.
Qed.
(** The name of a mail without one. *)
Lemma fallback_name_stays {A} (k : ST S (option A)) :
  stays kept k →
  stays kept (m ← RboxMail.get;
              mail ←! RboxMail.the_mail;
              (if decide (rm_oid mail = "") then RboxMail.update_mail (Mail.set_oid (guid_128_bytes (W:=W) (ml_index_oid m)))
               else mret tt) ;; k).
Proof.
  intros Hk [m s] [Hn Hs]. mlrun. destruct (ml_rados_mail m) as [mail|] eqn:E; [|done]. mlrun.
  case_decide; mlrun; apply Hk; (split; [|done]); [|done]. intros mail'. cbn. rewrite E. cbn. intros [= <-].
  right. right. by destruct mail.
Qed.
Lemma metadata_get_stays key : stays kept (RboxMail.rbox_mail_metadata_get mb key).
Proof.
  unfold RboxMail.rbox_mail_metadata_get. apply stays_bind; [stay|]. intros m. apply ask_alt_stays. intros alt Ha.
  apply stays_abind; [by apply open_stays|]. intros opened. case_decide; [stay|].
  apply stays_bind; [stay|]. intros r. apply stays_abind; [stay|]. intros ret. case_decide; [stay|].
  apply fallback_name_stays, load_stays. intros loaded mail. stay.
Qed.
#[local] Hint Resolve metadata_get_stays : stays.

(** *** Dates and sizes *)

Lemma cached_or_loaded_stays key : stays kept (RboxMail.cached_or_loaded mb key).
Proof. unfold RboxMail.cached_or_loaded. stay. Qed.
#[local] Hint Resolve cached_or_loaded_stays : stays.
#[local] Hint Extern 2 (stays kept (RboxMail.index_field _)) =>
  (apply index_field_stays; intros; first [apply rd_received | apply rd_saved | apply rd_virtual | apply rd_physical]; exact HP) : stays.
Lemma received_date_stays : stays kept (RboxMail.rbox_mail_get_received_date mb).
Proof. unfold RboxMail.rbox_mail_get_received_date. stay. Qed.
Lemma save_date_stays : stays kept (RboxMail.rbox_mail_get_save_date mb).
Proof.
  unfold RboxMail.rbox_mail_get_save_date. apply stays_bind; [stay|]. intros m. apply ask_alt_stays. intros alt Ha.
  assert (Hst : ∀ oid, stays kept (RboxMail.rbox ((if alt then Rbox.on_alt else Rbox.on_s) (Storage.stat_mail oid))))
    by (intros; apply rbox_stays, HP).
  pose proof (open_stays alt Ha). stay.
Qed.
Lemma virtual_size_stays : stays kept (RboxMail.rbox_mail_get_virtual_size mb).
Proof.
  unfold RboxMail.rbox_mail_get_virtual_size.
  assert (Hm : ∀ x, stays kept (RboxMail.update_mail (Mail.add_metadata x))) by (intros; apply update_mail_stays; by intros []).
  stay.
Qed.
Lemma physical_size_stays : stays kept (RboxMail.rbox_mail_get_physical_size mb).
Proof. unfold RboxMail.rbox_mail_get_physical_size. stay. Qed.
#[local] Hint Resolve received_date_stays save_date_stays virtual_size_stays physical_size_stays : stays.

(** *** The text *)

Lemma read_from_storage_stays alt : stays kept (RboxMail.read_mail_from_storage alt).
Proof.
  assert (Hr : ∀ oid buf, stays kept (RboxMail.on_storage alt (RboxMail.read_operate oid buf)))
    by (intros; apply rbox_stays, HP).
  unfold RboxMail.read_mail_from_storage. stay.
Qed.
#[local] Hint Resolve read_from_storage_stays : stays.
Lemma retry_stays alt n ret out : stays kept (RboxMail.read_retry alt n ret out).
Proof. revert ret out. induction n as [|n IH]; intros ret out; cbn [RboxMail.read_retry]; stay. Qed.
Lemma delete_buffer_stays : stays kept RboxMail.delete_buffer.
Proof. unfold RboxMail.delete_buffer. stay. Qed.
#[local] Hint Resolve retry_stays delete_buffer_stays : stays.
Lemma read_mail_stays' alt : stays kept (RboxMail.read_mail mb alt).
Proof. unfold RboxMail.read_mail. stay. Qed.
Lemma mail_stream_stays buffer size : stays kept (RboxMail.get_mail_stream buffer size).
Proof.
  unfold RboxMail.get_mail_stream. destruct istream_opened as [f|] eqn:E; [|stay]. apply world_stays. by apply (rd_opened P HP).
Qed.
#[local] Hint Resolve read_mail_stays' mail_stream_stays : stays.
Lemma stream_contents_stays size : stays kept (RboxMail.stream_contents mb size).
Proof. unfold RboxMail.stream_contents. stay. Qed.
#[local] Hint Resolve stream_contents_stays : stays.
Lemma stream_of_mail_stays out : stays kept (RboxMail.stream_of_mail junk_size junk_date mb out).
Proof.
  assert (Hb : ∀ psize date, stays kept (RboxMail.update_mail (λ m, Mail.set_rados_save_date date (Mail.set_mail_size psize m))))
    by (intros; apply update_mail_stays; by intros []).
  unfold RboxMail.stream_of_mail. stay.
Qed.
#[local] Hint Resolve stream_of_mail_stays : stays.
Lemma open_stream_stays : stays kept (RboxMail.open_stream junk_size junk_date mb).
Proof.
  unfold RboxMail.open_stream. apply stays_bind; [stay|]. intros m. apply ask_alt_stays. intros alt Ha.
  pose proof (open_stays alt Ha).
  assert (Hns : stays kept (RboxMail.on_storage true (s ← Storage.get; Storage.set_namespace (st_nspace s))))
    by (apply rbox_stays, HP).
  stay.
Qed.
#[local] Hint Resolve open_stream_stays : stays.
Lemma get_stream_stays : stays kept (RboxMail.rbox_mail_get_stream junk_size junk_date mb).
Proof.
  assert (Hi : ∀ i, stays kept (RboxMail.world (index_mail_init_stream i))) by (intros; apply world_stays, HP).
  unfold RboxMail.rbox_mail_get_stream. stay.
Qed.

(** *** The rest *)

Lemma guid_metadata_stays : stays kept (RboxMail.rbox_get_guid_metadata mb).
Proof.
  assert (Hg : ∀ g, stays kept (RboxMail.modify (RboxMail.set_index_guid g))) by (intros; by apply mail_modify_stays).
  unfold RboxMail.rbox_get_guid_metadata. stay.
Qed.
Lemma cached_metadata_stays key field : stays kept (RboxMail.rbox_get_cached_metadata mb key field).
Proof. unfold RboxMail.rbox_get_cached_metadata. stay. Qed.
#[local] Hint Resolve guid_metadata_stays cached_metadata_stays : stays.
Lemma get_special_stays field : stays kept (RboxMail.rbox_mail_get_special mb field).
Proof.
  assert (Hi : ∀ seq n, stays kept (RboxMail.world (index_mail_get_special seq n))) by (intros; apply world_stays, HP).
  unfold RboxMail.rbox_mail_get_special, RboxMail.header_flag. stay.
Qed.
Lemma close_stays : stays kept RboxMail.rbox_mail_close.
Proof.
  assert (Hi : ∀ d, stays kept (RboxMail.world (index_mail_close d))) by (intros; apply world_stays, HP).
  assert (Hd : ∀ d, stays kept (RboxMail.modify (RboxMail.set_data d))) by (intros; by apply mail_modify_stays).
  unfold RboxMail.rbox_mail_close. apply stays_bind; [by apply mail_modify_stays|]. stay.
Qed.
#[local] Hint Resolve close_stays : stays.
Lemma set_seq_stays seq : stays kept (RboxMail.rbox_index_mail_set_seq seq).
Proof.
  assert (Hn : stays kept (RboxMail.modify (RboxMail.set_rados_mail (Some Mail.new)))).
  { apply mail_modify_stays. intros m _ mail. cbn. intros [= <-]. by left. }
  assert (Hs : stays kept (RboxMail.modify (RboxMail.set_seq seq))) by (by apply mail_modify_stays).
  unfold RboxMail.rbox_index_mail_set_seq. stay.
Qed.
End frame.

(** ** Which object a mail names

    The calls Dovecot makes on a mail. Between them anything may happen to the
    storage, the index and the cluster. *)
Inductive mail_call :=
| CallSetSeq (seq : Z) | CallClose | CallReceivedDate | CallSaveDate | CallVirtualSize | CallPhysicalSize
| CallStream | CallSpecial (field : mail_fetch_field) | CallGuid.

Section reach.
Context `{Jansson} `{LibradosLaws W} `{RadosAdmin W} `{!Dovecot W} `{!DovecotBoxes W} `{!DovecotMail W} `{!LibradosMail W}.
Variables (junk_size junk_date : Z) (mb : mailbox) (data : index_mail_data).
Abbreviation S := (rbox_mail * (rbox_health * (rbox_storage * W)))%type.

Definition run_call (c : mail_call) (s : S) : S :=
  match c with
  | CallSetSeq seq => (RboxMail.rbox_index_mail_set_seq seq s).2
  | CallClose => (RboxMail.rbox_mail_close s).2
  | CallReceivedDate => (RboxMail.rbox_mail_get_received_date mb s).2
  | CallSaveDate => (RboxMail.rbox_mail_get_save_date mb s).2
  | CallVirtualSize => (RboxMail.rbox_mail_get_virtual_size mb s).2
  | CallPhysicalSize => (RboxMail.rbox_mail_get_physical_size mb s).2
  | CallStream => (RboxMail.rbox_mail_get_stream junk_size junk_date mb s).2
  | CallSpecial field => (RboxMail.rbox_mail_get_special mb field s).2
  | CallGuid => (RboxMail.rbox_get_guid_metadata mb s).2
  end.

Inductive mail_reachable : S → Prop :=
| reach_alloc s : mail_reachable (RboxMail.rbox_mail_alloc data, s)
| reach_call s c : mail_reachable s → mail_reachable (run_call c s)
| reach_other m s s' : mail_reachable (m, s) → mail_reachable (m, s').

Lemma anything_kept : kept_by_reading mb (λ _ : rbox_storage * W, True).
Proof. split; intros; done. Qed.
Lemma run_call_stays P c s : kept_by_reading mb P → kept P s → kept P (run_call c s).
Proof.
  intros HP Hs. destruct c; cbn [run_call].
  - by apply (set_seq_stays mb P HP).
  - by apply (close_stays mb P HP).
  - by apply (received_date_stays mb P HP).
  - by apply (save_date_stays mb P HP).
  - by apply (virtual_size_stays mb P HP).
  - by apply (physical_size_stays mb P HP).
  - by apply (get_stream_stays junk_size junk_date mb P HP).
  - by apply (get_special_stays mb P HP).
  - by apply (guid_metadata_stays mb P HP).
Qed.

(** C16. Whatever Dovecot calls on a mail, in any order and with any changes of
    the index and the cluster in between: a mail that names the object of a mail, a printed
    guid, names the one of the index record that was loaded last, so it never reads the object
    of another record. What it may have instead is no name, or the bytes of the guid
    themselves, which are too short to be the name of a mail's object. *)
Theorem mail_names_its_record `{!DovecotLaws W} `{!DovecotMailLaws W} s mail :
  mail_reachable s → ml_rados_mail s.1 = Some mail →
  (is_guid (ml_index_oid s.1) → is_guid (rm_oid mail) → rm_oid mail = ml_index_oid s.1) ∧
  (rm_oid mail = "" ∨ rm_oid mail = ml_index_oid s.1 ∨ rm_oid mail = guid_128_bytes (W:=W) (ml_index_oid s.1)).
Proof.
  intros Hr Hm. assert (names_record (W:=W) s.1) as Hn.
  { clear Hm. induction Hr as [s|s c _ IH|m s s' _ IH].
    - by intros mail'.
    - exact (proj1 (run_call_stays (λ _, True) c s anything_kept (conj IH I))).
    - exact IH. }
  specialize (Hn mail Hm). split; [|exact Hn]. intros Hi Ho. destruct Hn as [E|[E|E]]; [|exact E|].
  - rewrite E in Ho. by destruct Ho.
  - rewrite E in Ho. destruct (raw_guid_short (mail_address (W:=W)) _ mail_address_law Hi Ho).
Qed.
End reach.

(** ** Reading changes nothing *)

(** The storages are connected. *)
Definition both_ready (mb : mailbox) (r : rbox_storage) : Prop :=
  ready mb false r ∧ (Rbox.is_alternate_pool_valid mb = true → ready mb true r).
(** Two storages that are connected alike; the namespace of the alternative one
    may differ. *)
Definition same_primary (r r' : rbox_storage) : Prop :=
  rb_cluster r' = rb_cluster r ∧ rb_config r' = rb_config r ∧ st_io_ctx (rb_s r') = st_io_ctx (rb_s r) ∧
  st_io_ctx_created (rb_s r') = st_io_ctx_created (rb_s r) ∧
  st_io_ctx_created (rb_alt r') = st_io_ctx_created (rb_alt r).
Definition reading `{LibradosLaws W} (mb : mailbox) (m : store) (r0 : rbox_storage) (s : rbox_storage * W) : Prop :=
  objs s.2 = m ∧ same_primary r0 s.1 ∧ both_ready mb s.1.

Section reading.
Context `{Jansson} `{LibradosLaws W} `{!RadosAdmin W} `{!Dovecot W} `{!DovecotLaws W} `{!DovecotBoxes W} `{!DovecotMail W}
  `{!LibradosMail W} `{!LibradosMailLaws W} `{!DovecotMailLaws W}.
Variables (mb : mailbox) (m0 : store) (r0 : rbox_storage).

Lemma same_primary_trans r1 r2 r3 : same_primary r1 r2 → same_primary r2 r3 → same_primary r1 r3.
Proof. unfold same_primary. intuition congruence. Qed.
Lemma same_storage_primary r r' : same_storage r r' → same_primary r r'.
Proof. unfold same_storage, same_primary. intuition. Qed.
Lemma same_primary_both r r' : same_primary r r' → both_ready mb r → both_ready mb r'.
Proof. unfold same_primary, both_ready, ready. intros (-> & -> & _ & -> & ->). done. Qed.

Lemma on_world_reading {A} (f : ST W A) : (∀ w, objs (f w).2 = objs w) → stays (reading mb m0 r0) (on_snd f).
Proof. intros Hf [r w] (Hm & Hs). rewrite on_snd_run. split; [|exact Hs]. cbn in *. by rewrite Hf. Qed.
Lemma quiet_reading {A} (f : ST W A) : quiet_call f → stays (reading mb m0 r0) (on_snd f).
Proof. intros Hf. apply on_world_reading. intros w. apply Hf. Qed.
(** A read of one of the storages. *)
Lemma on_storage_reading {A} (alt : bool) (f : ST (Storage.state W) A) :
  (∀ s c w, objs (f (s, (c, w))).2.2.2 = objs w ∧ (f (s, (c, w))).2.1 = s ∧ (f (s, (c, w))).2.2.1 = c) →
  stays (reading mb m0 r0) ((if alt then Rbox.on_alt else Rbox.on_s) f).
Proof.
  intros Hf [r w] (Hm & Hs & Hb). destruct alt; unfold Rbox.on_alt, Rbox.on_s.
  - specialize (Hf (rb_alt r) (rb_cluster r) w). destruct (f _) as [a [s [c w']]]. cbn in Hf. destruct Hf as (Ho & -> & ->).
    split; [cbn in *; congruence|]. split; [exact Hs|exact Hb].
  - specialize (Hf (rb_s r) (rb_cluster r) w). destruct (f _) as [a [s [c w']]]. cbn in Hf. destruct Hf as (Ho & -> & ->).
    split; [cbn in *; congruence|]. split; [exact Hs|exact Hb].
Qed.

Lemma reading_kept : kept_by_reading mb (reading mb m0 r0).
Proof.
  split.
  - intros alt Ha [r w] (Hm & Hs & Hb). destruct (open_mailbox_ready mb alt r w) as (r' & E & Hs').
    { destruct alt; [by apply Hb, Ha|apply Hb]. }
    rewrite E. apply same_storage_primary in Hs'. split; [done|].
    split; [by eapply same_primary_trans|by eapply same_primary_both].
  - intros [r w] (Hm & Hs & Hb). split; [done|]. split; [exact Hs|exact Hb].
  - intros alt oid buf. apply on_storage_reading. intros s c w. unfold RboxMail.read_operate, Storage.guarded.
    destruct (Storage.usable _); [|done]. rewrite io_ctx_world_run. cbn [fst snd].
    pose proof (read_stat_law (st_io_ctx s) oid 0 INT_MAX w) as Hl.
    by destruct (io_operate_read_stat _ _ _ _ w) as [[[ret bl] out] w']; destruct Hl.
  - intros alt oid. apply on_storage_reading. intros s c w. unfold Storage.stat_mail, Storage.guarded.
    destruct (Storage.usable _); [|done]. rewrite io_ctx_world_run. cbn [fst snd]. pose proof (stat_law (st_io_ctx s) oid w) as Hl.
    by destruct (io_stat _ _ w) as [[ret out] w']; destruct Hl.
  - intros ms mail. apply on_world_reading. intros w.
    pose proof (load_metadata_keeps (λ w', objs w' = objs w) (rm_oid mail) ms mail eq_refl) as Hl.
    premise Hl; [|by apply (Hl w)]. intros w' Hw'.
    pose proof (getxattrs_law (ms_io_ctx (W:=W) ms) (rm_oid mail) w') as L1.
    pose proof (omap_get_keys_law (ms_io_ctx (W:=W) ms) (rm_oid mail) w') as L2.
    split; [by destruct (io_getxattrs _ _ w') as [[? ?] ?]; destruct L1; cbn; congruence|].
    split; [by destruct (io_omap_get_keys _ _ w') as [[? ?] ?]; destruct L2; cbn; congruence|]. intros ks.
    pose proof (omap_get_vals_by_keys_law (ms_io_ctx (W:=W) ms) (rm_oid mail) ks w') as L3.
    by destruct (io_omap_get_vals_by_keys _ _ _ w') as [[? ?] ?]; destruct L3; cbn; congruence.
  - intros a. apply on_world_reading. intros w. apply index_do_law.
  - intros seq d. apply quiet_reading, get_received_date_law.
  - intros seq d. apply quiet_reading, get_save_date_law.
  - intros seq d. apply quiet_reading, get_virtual_size_law.
  - intros seq d. apply quiet_reading, get_physical_size_law.
  - intros f s Hf. by apply quiet_reading, istream_opened_law.
  - intros s. apply quiet_reading, init_stream_law.
  - intros seq n. apply quiet_reading, get_special_law.
  - intros d. apply quiet_reading, mail_close_law.
Qed.

(** ** The text of a mail *)

Variables (junk_size junk_date : Z) (oid : string).
Abbreviation S := (rbox_mail * (rbox_health * (rbox_storage * W)))%type.
Abbreviation io := (st_io_ctx (rb_s r0)).

(** The mail names [oid]; nothing was changed so far. *)
Definition ready_mail (s : S) : Prop :=
  reading mb m0 r0 s.2.2 ∧ ∃ mail, ml_rados_mail s.1 = Some mail ∧ rm_oid mail = oid.
(** Its buffer holds the object, of which [out] is the size and the time. *)
Definition loaded (out : option (Z * Z)) (s : S) : Prop :=
  ∃ mail ob, ml_rados_mail s.1 = Some mail ∧ m0 !! (io, oid) = Some ob ∧
    rm_mail_buffer mail = Some (read_range INT_MAX 0 (ob_data ob)) ∧
    out = Some (Z.of_nat (slen (ob_data ob)), ob_mtime ob).

Lemma read_operate_run buf (r : rbox_storage) (w : W) :
  both_ready mb r →
  Rbox.on_s (RboxMail.read_operate oid buf) (r, w) =
    ((io_operate_read_stat (st_io_ctx (rb_s r)) oid 0 INT_MAX w).1,
     (r, (io_operate_read_stat (st_io_ctx (rb_s r)) oid 0 INT_MAX w).2)).
Proof.
  intros [(_ & Hc & Hs & _) _]. unfold Rbox.on_s, RboxMail.read_operate, Storage.guarded, Storage.usable.
  cbn [fst snd]. rewrite Hc, Hs. cbn [andb]. rewrite io_ctx_world_run. by destruct r.
Qed.
Lemma ready_update f s :
  (∀ mail, rm_oid (f mail) = rm_oid mail) → ready_mail s →
  ready_mail (RboxMail.set_rados_mail (f <$> ml_rados_mail s.1) s.1, s.2).
Proof.
  intros Hf (Hr & mail & Hm & Ho). split; [done|]. exists (f mail). cbn. rewrite Hm. split; [done|]. by rewrite Hf.
Qed.

Lemma read_once :
  triple ready_mail (RboxMail.read_mail_from_storage false)
    (λ res s, ready_mail s ∧ ∃ ret out, res = Some (ret, out) ∧ (0 <= ret → loaded out s)).
Proof.
  intros [m [h [r w]]] (Hrd & mail & Hm & Ho). cbn in Hm. unfold RboxMail.read_mail_from_storage, RboxMail.on_storage. mlrun.
  rewrite Hm. mlrun. rewrite Ho. destruct Hrd as (Hobj & Hsame & Hb). cbn [fst snd] in *.
  rewrite read_operate_run by done. pose proof (read_stat_law (st_io_ctx (rb_s r)) oid 0 INT_MAX w) as Hl.
  destruct (io_operate_read_stat _ _ _ _ w) as [[[ret bl] out] w']. destruct Hl as [Ew Hl]. cbn [fst snd]. mlrun.
  split.
  - split; [by split; [cbn; congruence|]|]. cbn. rewrite Hm. eexists. split; [done|]. by destruct mail.
  - exists ret, out. split; [done|]. intros Hret. destruct (Hl Hret) as (ob & Hob & -> & ->). cbn. rewrite Hm.
    eexists _, ob. split; [done|]. destruct Hsame as (_ & _ & Hio & _). rewrite Hio, Hobj in Hob. split; [done|].
    by destruct mail.
Qed.

Lemma mail_retry_spec n ret out :
  ret < 0 →
  triple ready_mail (RboxMail.read_retry false n ret out)
    (λ res s, ready_mail s ∧ ∃ ret out, res = Some (ret, out) ∧ (0 <= ret → loaded out s)).
Proof.
  revert ret out. induction n as [|n IH]; intros ret out Hret s Hs; cbn [RboxMail.read_retry].
  { rewrite aret_run. split; [done|]. exists ret, out. split; [done|lia]. }
  pose proof (read_once s Hs) as Ho. rewrite abind_eq. destruct (RboxMail.read_mail_from_storage false s) as [res s1].
  destruct Ho as (Hs1 & ret1 & out1 & -> & Hl). cbn [fst snd]. case_decide; mlrun.
  - split; [done|]. by exists ret1, out1.
  - apply IH; [lia|]. by apply ready_update; [intros []|].
Qed.

(** The answer of [read_mail] when it did not give up. *)
Lemma read_mail_spec s :
  ready_mail s →
  let '(res, s') := RboxMail.read_mail mb false s in
  ∀ out, res = Some (Some out) → loaded out s' ∧ ready_mail s'.
Proof.
  intros Hs. unfold RboxMail.read_mail. rewrite abind_eq. pose proof (read_once s Hs) as Ho.
  destruct (RboxMail.read_mail_from_storage false s) as [res s1]. destruct Ho as (Hs1 & ret & out & -> & Hl). cbn [fst snd].
  case_decide; [rewrite aret_run; intros out' [= <-]; split; [apply Hl; lia|done]|].
  case_decide; [|case_decide].
  - rewrite !bind_eq, aret_run. by intros.
  - rewrite abind_eq. pose proof (mail_retry_spec RboxMail.max_retry ret out ltac:(lia) s1 Hs1) as Hr.
    destruct (RboxMail.read_retry _ _ _ _ s1) as [res2 s2]. destruct Hr as (Hs2 & ret2 & out2 & -> & Hl2). cbn [fst snd].
    case_decide; [by rewrite bind_eq, aret_run|]. rewrite aret_run. intros out' [= <-]. split; [apply Hl2; lia|done].
  - rewrite bind_eq, aret_run. by intros.
Qed.

(** The stream gives the text [data], or, for a compressed text, the text and a
    NUL byte. *)
Definition gives_text (data : string) (input : istream) : Prop :=
  MailStream.available input = Some data ∨
  (Gzip.check_is_zlib data = Some true ∧ MailStream.available input = Some (data +:+ nul_string)).

Lemma contents_spec size s mail b res :
  ml_rados_mail s.1 = Some mail → rm_mail_buffer mail = Some b →
  (RboxMail.stream_contents mb size s).1 = Some res →
  res = (b, size) ∨ (Gzip.check_is_zlib b = Some true ∧ res = (b +:+ nul_string, int32 (size + 1))).
Proof.
  intros Hm Hb. unfold RboxMail.stream_contents. mlrun. rewrite Hm, Hb. mlrun.
  destruct (Gzip.check_is_zlib b) as [[]|] eqn:E; mlrun; [|by intros [= <-]; left|done].
  destruct (RboxMail.rbox_mail_get_physical_size mb s) as [[[ret real]|] s1]; cbn [fst snd]; [|done].
  unfold Gzip.repair_trailer. destruct (Gzip.zlib_trailer_msg_length b size) as [n|]; cbn; [|done].
  destruct (Gzip.zlib_header_length b) as [k|]; cbn; [|done]. case_decide; intros [= <-]; [right; by split|by left].
Qed.

Lemma create_gives data b size :
  istream_opened = None → Z.of_nat (slen data) < INT_MAX → (0 < slen data)%nat →
  (b, size) = (data, Z.of_nat (slen data)) ∨
    (Gzip.check_is_zlib data = Some true ∧ (b, size) = (data +:+ nul_string, int32 (Z.of_nat (slen data) + 1))) →
  ∀ s, ∃ input, RboxMail.get_mail_stream b size s = (Some input, s) ∧ gives_text data input.
Proof.
  intros Hop Hmax Hpos Hb s. unfold RboxMail.get_mail_stream. rewrite Hop. eexists. split; [reflexivity|].
  assert (Hav : ∀ b, 0 < Z.of_nat (slen b) <= INT_MAX →
    MailStream.available (MailStream.i_stream_data_seek 0 (MailStream.i_stream_create_from_bufferlist b (Z.of_nat (slen b)))).2 = Some b).
  { intros b' Hb'. apply (buffer_stream_bytes b' Hb'). }
  unfold INT_MAX in *. destruct Hb as [[= -> ->]|[Hz [= -> ->]]]; [left; apply Hav; lia|right; split; [done|]].
  assert (slen (data +:+ nul_string) = (1 + slen data)%nat) as El by (rewrite slen_app; cbn; lia).
  replace (int32 (Z.of_nat (slen data) + 1)) with (Z.of_nat (slen (data +:+ nul_string)));
    [apply Hav; rewrite El; lia|]. rewrite El, wrap_s_small by lia. lia.
Qed.

(** What follows the read. *)
Lemma stream_of_mail_spec out s :
  loaded out s → istream_opened = None → (∀ ob, m0 !! (io, oid) = Some ob → Z.of_nat (slen (ob_data ob)) <= INT_MAX) →
  ∃ ob, m0 !! (io, oid) = Some ob ∧
  let '(res, s') := RboxMail.stream_of_mail junk_size junk_date mb (Some out) s in
  (∀ ret, res = Some ret → 0 <= ret →
    ∃ input, im_stream (ml_data s'.1) = Some input ∧ gives_text (ob_data ob) input) ∧
  (0 < Z.of_nat (slen (ob_data ob)) < INT_MAX → Gzip.check_is_zlib (ob_data ob) = Some false → res = Some 0).
Proof.
  intros (mail & ob & Hm & Hob & Hbuf & ->) Hop Hsize. exists ob. split; [done|].
  unfold RboxMail.stream_of_mail. cbn [default from_option id]. mlrun.
  specialize (Hsize ob Hob). unfold INT_MAX in Hsize. rewrite wrap_s_small by lia.
  destruct (decide _) as [|Hne]; mlrun; [split; [intros ? [= <-]; lia|lia]|].
  destruct (decide _) as [|Hmax]; mlrun; [split; [intros ? [= <-]; lia|lia]|].
  set (mail2 := Mail.set_rados_save_date (ob_mtime ob) (Mail.set_mail_size (Z.of_nat (slen (ob_data ob))) mail)).
  assert (Hbuf2 : rm_mail_buffer mail2 = Some (ob_data ob)).
  { destruct mail. cbn in *. rewrite Hbuf. unfold read_range. rewrite str_drop_0, decide_True by (unfold INT_MAX; lia). done. }
  match goal with |- context [RboxMail.stream_contents mb ?n ?s] => set (s2 := s); pose proof (contents_spec n s2 mail2 (ob_data ob)) as Hc end.
  assert (Hm2 : ml_rados_mail s2.1 = Some mail2) by (subst s2; cbn; by rewrite Hm).
  assert (Htotal : Gzip.check_is_zlib (ob_data ob) = Some false → is_Some (RboxMail.stream_contents mb (Z.of_nat (slen (ob_data ob))) s2).1).
  { intros Hz. unfold RboxMail.stream_contents. mlrun. rewrite Hm2. mlrun. rewrite Hbuf2. mlrun. rewrite Hz. mlrun. by eexists. }
  destruct (RboxMail.stream_contents _ _ _) as [[[b size]|] s3]; cbn [fst snd] in *;
    [|split; [done|]; intros _ Hz; by destruct (Htotal Hz)].
  specialize (Hc (b, size) Hm2 Hbuf2 eq_refl). mlrun.
  match goal with |- context [RboxMail.get_mail_stream b size ?s] =>
    destruct (create_gives (ob_data ob) b size Hop ltac:(unfold INT_MAX in *; lia) ltac:(lia) Hc s) as (input & Ei & Hg) end.
  rewrite Ei. cbn [fst snd]. mlrun. split; [intros ret _ _; by exists input|done].
Qed.

(** The mail names the object [oid], or will once its index record is loaded. *)
Definition names (m : rbox_mail) (w : W) : Prop :=
  oid ≠ "" ∧
  ((∃ mail, ml_rados_mail m = Some mail ∧ rm_oid mail = oid ∧ ml_index_oid m = oid) ∨
   (ml_rados_mail m = None ∧ ml_seq m ≠ uint32 (-1) ∧
    ∃ rec guid, mail_index_lookup (ml_seq m) w = Some rec ∧ ir_ext rec = Some (guid, oid))).
Lemma ensure_oid_names m h r (w : W) :
  names m w →
  ∃ m1 mail, RboxMail.ensure_oid (m, (h, (r, w))) = (Some 0, (m1, (h, (r, w)))) ∧
    ml_rados_mail m1 = Some mail ∧ rm_oid mail = oid.
Proof.
  intros [Hoid [(mail & Hm & Ho & _)|(Hm & Hseq & rec & guid & Hl & He)]]; unfold RboxMail.ensure_oid, RboxMail.alloc_if_null; mlrun.
  - rewrite Hm. mlrun. rewrite Hm. mlrun. rewrite decide_False by congruence. mlrun. by exists m, mail.
  - rewrite Hm. mlrun. cbn [ml_rados_mail RboxMail.set_last_seq RboxMail.set_rados_mail]. mlrun.
    rewrite decide_True by done. unfold RboxMail.rbox_get_index_record. mlrun.
    cbn [ml_seq ml_last_seq RboxMail.set_last_seq RboxMail.set_rados_mail]. rewrite decide_False by congruence. mlrun.
    rewrite Hl. cbn [mbind option_bind]. rewrite He. mlrun. cbn. eexists _, _. by repeat split.
Qed.

(** Up to the read nothing happens. *)
Lemma open_stream_reads m h r (w : W) :
  reading mb m0 r0 (r, w) → RboxMail.alt_storage_of mb m w = false → names m w →
  ∃ s1, ready_mail s1 ∧ s1.2.2.2 = w ∧
    RboxMail.open_stream junk_size junk_date mb (m, (h, (r, w))) =
      abind (RboxMail.read_mail mb false) (RboxMail.stream_of_mail junk_size junk_date mb) s1.
Proof.
  intros Hs Halt Hn. unfold RboxMail.open_stream.
  destruct (open_mailbox_ready mb false r w) as (r1 & E & Hs1); [apply Hs|].
  destruct (ensure_oid_names m h r1 w Hn) as (m1 & mail & En & Hm & Ho).
  eexists (RboxMail.set_rados_mail (Some (Mail.set_mail_buffer (Some "") mail)) m1, (h, (r1, w))).
  split; [|split; [done|]].
  - destruct Hs as (Hobj & Hsame & Hb). apply same_storage_primary in Hs1. split.
    + split; [done|]. split; [by eapply same_primary_trans|by eapply same_primary_both].
    + eexists. split; [done|]. by destruct mail.
  - mlrun. rewrite Halt, E. cbn [fst snd]. rewrite decide_False by lia. mlrun. rewrite En. cbn [fst snd].
    rewrite decide_False by lia. rewrite bind_eq, update_mail_run. cbn [fst snd]. rewrite Hm. cbn [fmap option_fmap option_map]. by rewrite abind_eq.
Qed.
End reading.

(** A mail of an open mailbox, on the primary storage, with the object [oid]. *)
Definition ready_to_read `{Dovecot W} `{DovecotMail W} (mb : mailbox) (oid : string)
    (s : rbox_mail * (rbox_health * (rbox_storage * W))) : Prop :=
  both_ready mb s.2.2.1 ∧ im_stream (ml_data s.1) = None ∧ RboxMail.alt_storage_of mb s.1 s.2.2.2 = false ∧
  names oid s.1 s.2.2.2.
(** The object it reads. *)
Definition mail_key {W} (oid : string) (s : rbox_mail * (rbox_health * (rbox_storage * W))) : okey :=
  (st_io_ctx (rb_s s.2.2.1), oid).

Section stream.
Context `{Jansson} `{LibradosLaws W} `{!RadosAdmin W} `{!Dovecot W} `{!DovecotLaws W} `{!DovecotBoxes W} `{!DovecotMail W}
  `{!LibradosMail W} `{!LibradosMailLaws W} `{!DovecotMailLaws W}.
Variables (junk_size junk_date : Z) (mb : mailbox) (oid : string).
Abbreviation S := (rbox_mail * (rbox_health * (rbox_storage * W)))%type.

(** A mail that was opened, as [rbox_mail_get_stream] goes on with it. *)
Lemma get_stream_opens (s : S) :
  im_stream (ml_data s.1) = None →
  let '(res, s') := RboxMail.open_stream junk_size junk_date mb s in
  (∀ input, im_stream (ml_data s'.1) = Some input → res = Some 0 →
    ∃ ret s2, RboxMail.rbox_mail_get_stream junk_size junk_date mb s = (Some (ret, Some input), s2)) ∧
  (∀ ret input s2, RboxMail.rbox_mail_get_stream junk_size junk_date mb s = (Some (ret, Some input), s2) →
    ∃ code, res = Some code ∧ 0 <= code ∧ im_stream (ml_data s'.1) = Some input).
Proof.
  intros Hs. unfold RboxMail.rbox_mail_get_stream. mlrun. rewrite Hs.
  destruct (RboxMail.open_stream junk_size junk_date mb s) as [res [m' [h' [r' w']]]]. cbn [fst snd]. split.
  - intros input Hi ->. rewrite decide_False by lia. mlrun. rewrite Hi. mlrun. by eexists _, _.
  - intros ret input s2. destruct res as [code|]; [|done]. case_decide; mlrun; [done|].
    destruct (im_stream (ml_data m')) as [i|]; mlrun; [|done]. intros [= _ ->]. exists code. split; [done|]. split; [lia|done].
Qed.

Lemma ready_names_record (s : S) : ready_to_read mb oid s → names_record (W:=W) s.1.
Proof.
  intros (_ & _ & _ & _ & [(mail & Hm & Ho & Hi)|(Hm & _)]) mail' Hm'; [|congruence].
  rewrite Hm in Hm'. injection Hm' as <-. right. left. congruence.
Qed.

(** C6. A mail is read from the object its index record names, and from nothing
    else: whenever [rbox_mail_get_stream] gives a stream, that object exists and
    the stream has exactly its bytes (after the repair of a compressed mail's
    trailer, one NUL more); timeouts and failures of any call in between never
    give another text. Whatever the outcome, no object is changed. *)
Theorem get_stream_gives_object (s : S) :
  ready_to_read mb oid s → istream_opened = None →
  (∀ ob, objs s.2.2.2 !! mail_key oid s = Some ob → Z.of_nat (slen (ob_data ob)) <= INT_MAX) →
  let '(res, s') := RboxMail.rbox_mail_get_stream junk_size junk_date mb s in
  objs s'.2.2.2 = objs s.2.2.2 ∧
  ∀ ret input, res = Some (ret, Some input) →
    ∃ ob, objs s.2.2.2 !! mail_key oid s = Some ob ∧ gives_text (ob_data ob) input.
Proof.
  intros Hs Hop Hsize. pose proof (get_stream_opens s (proj1 (proj2 Hs))) as Ho.
  pose proof (get_stream_stays junk_size junk_date mb _ (reading_kept mb (objs s.2.2.2) s.2.2.1) s) as Hk.
  pose proof (ready_names_record s Hs) as Hrec. destruct Hs as (Hb & Hnone & Halt & Hn).
  destruct s as [m [h [r w]]]. unfold mail_key in *. cbn [fst snd] in *.
  assert (Hrd : reading mb (objs w) r (r, w)) by done. specialize (Hk (conj Hrec Hrd)).
  destruct (open_stream_reads mb (objs w) r junk_size junk_date oid m h r w Hrd Halt Hn) as (s1 & Hs1 & _ & E).
  rewrite E, abind_eq in Ho. pose proof (read_mail_spec mb (objs w) r oid s1 Hs1) as Hread.
  destruct (RboxMail.rbox_mail_get_stream _ _ _ _) as [res s']. split; [apply Hk|].
  intros ret input ->. destruct (RboxMail.read_mail mb false s1) as [[[out|]|] s2]; cbn [fst snd] in *.
  - destruct (Hread out eq_refl) as [Hl _].
    destruct (stream_of_mail_spec mb (objs w) r junk_size junk_date oid out s2 Hl Hop Hsize) as (ob & Hob & Hspec).
    destruct (RboxMail.stream_of_mail _ _ _ _ s2) as [res2 s3]. destruct Ho as [_ Ho]. destruct (Ho ret input s' eq_refl) as (code & -> & Hc & Hi).
    destruct Hspec as [Hspec _]. destruct (Hspec code eq_refl Hc) as (input' & Hi' & Hg). exists ob. split; [done|]. congruence.
  - destruct Ho as [_ Ho]. destruct (Ho ret input s' eq_refl) as (code & [= <-] & Hc & _). lia.
  - destruct Ho as [_ Ho]. by destruct (Ho ret input s' eq_refl) as (code & ? & _).
Qed.

Context `{!CalmWorld W} `{!CalmReads W}.

(** Without failures the stream is given, unless the text looks compressed. *)
Lemma get_stream_succeeds (s : S) ob :
  ready_to_read mb oid s → istream_opened = None → calm s.2.2.2 →
  objs s.2.2.2 !! mail_key oid s = Some ob → 0 < Z.of_nat (slen (ob_data ob)) < INT_MAX →
  Gzip.check_is_zlib (ob_data ob) = Some false →
  ∃ ret input, (RboxMail.rbox_mail_get_stream junk_size junk_date mb s).1 = Some (ret, Some input) ∧
    MailStream.available input = Some (ob_data ob).
Proof.
  intros Hs Hop Hcalm Hob Hsize Hz. pose proof (get_stream_opens s (proj1 (proj2 Hs))) as Ho.
  destruct Hs as (Hb & Hnone & Halt & Hn). destruct s as [m [h [r w]]]. unfold mail_key in *. cbn [fst snd] in *.
  assert (Hrd : reading mb (objs w) r (r, w)) by done.
  destruct (open_stream_reads mb (objs w) r junk_size junk_date oid m h r w Hrd Halt Hn) as (s1 & Hs1 & Ew & E).
  rewrite E, abind_eq in Ho. pose proof (read_mail_spec mb (objs w) r oid s1 Hs1) as Hread.
  assert (Hsome : ∃ out, (RboxMail.read_mail mb false s1).1 = Some (Some out)).
  { destruct Hs1 as ((Hobj & Hsame & Hb1) & mail & Hm & Hoid). destruct s1 as [m1 [h1 [r1 w1]]]. cbn [fst snd] in *. subst w1.
    unfold RboxMail.read_mail, RboxMail.read_mail_from_storage, RboxMail.on_storage. mlrun. rewrite Hm. mlrun. rewrite Hoid.
    rewrite (read_operate_run mb oid _ r1 w Hb1). destruct Hsame as (_ & _ & Hio & _). rewrite Hio.
    pose proof (calm_read_stat (st_io_ctx (rb_s r)) oid 0 INT_MAX w Hcalm ltac:(by eexists)) as Hc.
    destruct (io_operate_read_stat _ _ _ _ w) as [[[ret bl] out] w']. cbn [fst snd] in *. mlrun.
    rewrite decide_True by lia. mlrun. by eexists. }
  destruct Hsome as [out Hout]. destruct (RboxMail.read_mail mb false s1) as [res s2]. cbn [fst snd] in Hout. subst res.
  cbn [fst snd] in *. destruct (Hread out eq_refl) as [Hl _].
  destruct (stream_of_mail_spec mb (objs w) r junk_size junk_date oid out s2 Hl Hop) as (ob' & Hob' & Hspec).
  { intros ob' Hob'. rewrite Hob in Hob'. injection Hob' as <-. lia. }
  rewrite Hob in Hob'. injection Hob' as <-.
  destruct (RboxMail.stream_of_mail _ _ _ _ s2) as [res2 s3]. destruct Hspec as [Hspec Htot].
  destruct (Hspec 0 (Htot Hsize Hz) ltac:(lia)) as (input & Hi & Hg). destruct Ho as [Ho _].
  destruct (Ho input Hi (Htot Hsize Hz)) as (ret & s4 & ->). exists ret, input. split; [done|].
  destruct Hg as [Hg|[Hg _]]; [done|congruence].
Qed.
End stream.

(** A mail in a cluster whose first answer is a timeout. *)
Definition stored_mail : MemDovecot :=
  mk_mem_dovecot (mk_mem {[ (mk_ioctx "mail_storage" "u1", "o1") := mk_robject "From: a" ∅ ∅ 5 ]} [-110] 0)
    (mk_mem_index [] {[ 1 := mk_index_record 7 0 (Some ("g1", "o1")) ]} ∅ 0 [] 0).
Definition no_data : index_mail_data := mk_mail_data (-1) (-1) (uint64 (-1)) (uint64 (-1)) None.
Definition first_mail : rbox_mail := RboxMail.set_seq 1 (RboxMail.rbox_mail_alloc no_data).

Definition mail_of (w : MemDovecot) : rbox_mail * (rbox_health * (rbox_storage * MemDovecot)) :=
  (first_mail, (mk_health 0 false, (ready_rbox, w))).

Lemma get_stream_gives_object_witness :
  ∃ input, (RboxMail.rbox_mail_get_stream 0 0 inbox (mail_of stored_mail)).1 = Some (0, Some input) ∧
    ∃ ob, objs stored_mail !! mail_key "o1" (mail_of stored_mail) = Some ob ∧ gives_text (ob_data ob) input.
Proof.
  set (s := mail_of stored_mail). pose proof (get_stream_gives_object 0 0 inbox "o1" s) as Hg.
  premise Hg. { do 3 (split; [vm_compute; try done; try (repeat split; done)|]). split; [done|]. right.
    split; [done|]. split; [vm_compute; done|]. eexists _, "g1". by split. }
  premise Hg; [done|]. premise Hg. { intros ob Hob. vm_compute in Hob. injection Hob as <-. by vm_compute. }
  destruct (RboxMail.rbox_mail_get_stream 0 0 inbox s) as [res s'] eqn:E.
  assert (∃ input, res = Some (0, Some input)) as [input ->].
  { assert (∃ input, (RboxMail.rbox_mail_get_stream 0 0 inbox s).1 = Some (0, Some input)) as Hs by (vm_compute; by eexists).
    by rewrite E in Hs. }
  exists input. split; [done|]. exact (proj2 Hg 0 input eq_refl).
Defined.

(** A mail with a printed guid for a name is opened, and its text is asked for. *)
Definition guid_oid : string := "3c5a8f0107b29e4d2f6000009ab1c8d4".
Definition guid_mail : MemDovecot :=
  mk_mem_dovecot (mk_mem {[ (mk_ioctx "mail_storage" "u1", guid_oid) := mk_robject "From: a" ∅ ∅ 5 ]} [] 0)
    (mk_mem_index [] {[ 1 := mk_index_record 7 0 (Some ("g1", guid_oid)) ]} ∅ 0 [] 0).
Definition opened_first : rbox_mail * (rbox_health * (rbox_storage * MemDovecot)) :=
  run_call 0 0 inbox CallStream (run_call 0 0 inbox (CallSetSeq 1)
    (RboxMail.rbox_mail_alloc no_data, (mk_health 0 false, (ready_rbox, guid_mail)))).
(** It is closed, gets the same number again, and its received date is asked for: the object has
    no name, and the bytes of the guid take its place, up to the first that is 0. *)
Definition opened_again : rbox_mail * (rbox_health * (rbox_storage * MemDovecot)) :=
  run_call 0 0 inbox CallReceivedDate (run_call 0 0 inbox (CallSetSeq 1) (run_call 0 0 inbox CallClose opened_first)).
Lemma mail_names_its_record_witness :
  (∃ mail, ml_rados_mail opened_first.1 = Some mail ∧ is_guid (rm_oid mail) ∧ rm_oid mail = ml_index_oid opened_first.1) ∧
  (∃ mail, ml_rados_mail opened_again.1 = Some mail ∧ slen (rm_oid mail) = 10%nat ∧ ¬ is_guid (rm_oid mail)).
Proof.
  assert (is_guid guid_oid) as Hg by (split; vm_compute; reflexivity). split.
  - destruct (ml_rados_mail opened_first.1) as [mail|] eqn:E; [|vm_compute in E; discriminate].
    assert (rm_oid <$> ml_rados_mail opened_first.1 = Some guid_oid) as Eo by (vm_compute; reflexivity).
    assert (ml_index_oid opened_first.1 = guid_oid) as Ei by (vm_compute; reflexivity).
    rewrite E in Eo. injection Eo as Eo. exists mail. split; [done|]. rewrite Eo. split; [done|]. rewrite <- Eo.
    apply (mail_names_its_record 0 0 inbox no_data opened_first mail); [|exact E|by rewrite Ei|by rewrite Eo].
    apply reach_call, reach_call, reach_alloc.
  - destruct (ml_rados_mail opened_again.1) as [mail|] eqn:E; [|vm_compute in E; discriminate].
    assert ((λ m, slen (rm_oid m)) <$> ml_rados_mail opened_again.1 = Some 10%nat) as Eo by (vm_compute; reflexivity).
    rewrite E in Eo. injection Eo as Eo. exists mail. split; [done|]. split; [done|]. intros [Hl _]. lia.
Defined.
