(* ===== verification/MailRoundTrip.v ===== *)
(** Saving and reading together: a mail whose save succeeded is read back; and two
    cases in which the code reads something else than it stored. *)
From S2P Require Export MailSpec.
Local Open Scope rmb_scope.

(** C7. The round trip of a mail. When [rbox_save_finish] reported success for the
    text [b], every later reader in the user's namespace, in this or another
    process, whose index record leads to the object and which nothing disturbs,
    gets exactly [b] from [rbox_mail_get_stream]: the two components agree on
    where and how a mail is kept. The text must not begin like a compressed one. *)
Theorem saved_mail_is_read `{Jansson} `{LibradosLaws W} `{!RadosAdmin W} `{!Dovecot W} `{!DovecotLaws W} `{!DovecotBoxes W}
    `{!DovecotMail W} `{!LibradosMail W} `{!LibradosMailLaws W} `{!DovecotMailLaws W} `{!CalmWorld W} `{!CalmReads W}
    (mb mb' : mailbox) si c r (w : W) mail b d cs junk_size junk_date (reader : rbox_mail * (rbox_health * (rbox_storage * W))) :
  pending c mail b → 0 <= si_stream_ret si → 0 < Z.of_nat (slen b) < INT_MAX →
  Storage.usable (rb_s r, (rb_cluster r, w)) = true → rb_ms r = Some (inl d) →
  PluginConfig.get_chunk_size (rb_config r) = Some cs →
  0 < RboxSave.chunk_size cs (Storage.get_max_write_size_bytes (rb_s r)) < 2 ^ 31 →
  objs w !! (st_io_ctx (rb_s r), rm_oid mail) = None →
  (st_recovery_io_ctx (rb_s r), st_nspace (rb_s r)) ≠ (st_io_ctx (rb_s r), rm_oid mail) →
  let saved := RboxSave.rbox_save_finish mb si (c, (r, w)) in
  let key := (st_io_ctx (rb_s r), rm_oid mail) in
  saved.1 = Some 0 → objs reader.2.2.2 !! key = objs saved.2.2.2 !! key → calm reader.2.2.2 → st_io_ctx (rb_s reader.2.2.1) = st_io_ctx (rb_s r) →
  ready_to_read mb' (rm_oid mail) reader → istream_opened = None → Gzip.check_is_zlib b = Some false →
  ∃ ret input,
    (RboxMail.rbox_mail_get_stream junk_size junk_date mb' reader).1 = Some (ret, Some input) ∧
    MailStream.available input = Some b.
Proof.
  intros Hp Hsi Hlen Hu Hms Hcs Hchunk Hnew Hkey saved key Hret Hobjs Hcalm Hio Hready Hop Hz. unfold INT_MAX in Hlen.
  pose proof (save_finish_stores mb si c r w mail b d cs Hp Hsi ltac:(lia) Hu Hms Hcs Hchunk Hnew Hkey) as Hs.
  fold saved in Hs. destruct saved as [ret [c' [r' w']]]. cbn [fst snd] in *. subst ret.
  destruct Hs as [_ Hs]. destruct (Hs eq_refl) as (ob & Hob & <- & _).
  destruct (get_stream_succeeds junk_size junk_date mb' (rm_oid mail) reader ob Hready Hop Hcalm) as (ret & input & Hg & Ha);
    [|unfold INT_MAX; lia|done|by exists ret, input].
  unfold mail_key. rewrite Hio. fold key. by rewrite Hobjs.
Qed.

(** The mail of the sample is saved, and read by another process. *)
Definition saved_run :=
  RboxSave.rbox_save_finish inbox (mk_save_inputs 0 None 7 []) (written.1, (written.2.1, written.2.2)).
Definition reader_state : rbox_mail * (rbox_health * (rbox_storage * MemDovecot)) :=
  (first_mail, (mk_health 0 false, (ready_rbox, mk_mem_dovecot (md_cluster saved_run.2.2.2)
     (mk_mem_index [] {[ 1 := mk_index_record 7 0 (Some ("g1", "guid0")) ]} ∅ 0 [] 0)))).

Lemma saved_mail_is_read_witness :
  ∃ ret input, (RboxMail.rbox_mail_get_stream 0 0 inbox reader_state).1 = Some (ret, Some input) ∧
    MailStream.available input = Some "From: a".
Proof.
  assert (Hp : pending written.1 written_mail "From: a").
  { split; [by vm_compute|]. split; [by vm_compute|]. exists 0%nat.
    repeat (split; [vm_compute; reflexivity|]). vm_compute; reflexivity. }
  apply (saved_mail_is_read inbox inbox (mk_save_inputs 0 None 7 []) written.1 written.2.1 written.2.2 written_mail "From: a"
    (mk_default (mk_ioctx "mail_storage" "u1")) 10240 0 0 reader_state Hp).
  - cbn; lia.
  - by vm_compute.
  - vm_compute; reflexivity.
  - vm_compute; reflexivity.
  - vm_compute; reflexivity.
  - by vm_compute.
  - vm_compute; reflexivity.
  - vm_compute; discriminate.
  - vm_compute; reflexivity.
  - vm_compute; reflexivity.
  - vm_compute; reflexivity.
  - vm_compute; reflexivity.
  - split; [vm_compute; repeat split; done|]. split; [reflexivity|]. split; [vm_compute; reflexivity|].
    split; [vm_compute; discriminate|]. right. split; [reflexivity|]. split; [vm_compute; discriminate|].
    exists (mk_index_record 7 0 (Some ("g1", "guid0"))), "g1". split; vm_compute; reflexivity.
  - done.
  - reflexivity.
Defined.

(** ** What goes wrong *)

Section reopen.
Context `{Jansson} `{Librados W} `{!RadosAdmin W} `{!Dovecot W} `{!DovecotBoxes W} `{!DovecotMail W} `{!LibradosMail W}.

Lemma close_run m h r (w : W) :
  RboxMail.rbox_mail_close (m, (h, (r, w))) =
    (tt, (RboxMail.set_data (index_mail_close (ml_data m) w).1 (RboxMail.set_rados_mail None m),
          (h, (r, (index_mail_close (ml_data m) w).2)))).
Proof. unfold RboxMail.rbox_mail_close. mlrun. done. Qed.

(** The number is set to the one of the record that was loaded last. *)
Lemma set_seq_skips m h r (w : W) :
  ml_rados_mail m = None →
  let '(res, (m', (h', (r', _)))) := RboxMail.rbox_index_mail_set_seq (ml_last_seq m) (m, (h, (r, w))) in
  res = Some tt ∧ ml_rados_mail m' = Some Mail.new ∧ ml_seq m' = ml_last_seq m ∧ ml_last_seq m' = ml_last_seq m ∧ h' = h ∧ r' = r.
Proof.
  intros Hm. unfold RboxMail.rbox_index_mail_set_seq. mlrun.
  set (s1 := if index_mail_set_seq_closes (ml_seq m) (ml_last_seq m) w then RboxMail.rbox_mail_close else mret tt).
  assert (∃ m1 w1, s1 (m, (h, (r, w))) = (tt, (m1, (h, (r, w1)))) ∧ ml_rados_mail m1 = None ∧ ml_last_seq m1 = ml_last_seq m)
    as (m1 & w1 & -> & Hm1 & Hl1).
  { subst s1. destruct (index_mail_set_seq_closes _ _ w); [rewrite close_run|rewrite ret_eq]; by eexists _, _. }
  cbn [fst snd]. mlrun. cbn [ml_rados_mail RboxMail.set_seq]. rewrite Hm1. mlrun.
  unfold RboxMail.rbox_get_index_record. mlrun. cbn [ml_seq ml_last_seq RboxMail.set_seq RboxMail.set_rados_mail].
  rewrite decide_True by done. mlrun. by repeat split.
Qed.

(** A mail that is closed and gets the number it had before loses its object:
    the number of the last record survives [rbox_mail_close], so the record is not
    loaded again, neither by [rbox_index_mail_set_seq] nor by the accesses that
    follow, whatever the index says; they work on an object without a name. *)
Theorem reopened_mail_has_no_object (m : rbox_mail) h r (w : W) :
  let '(_, (m', (_, (r', _)))) :=
    (RboxMail.rbox_mail_close ;; RboxMail.rbox_index_mail_set_seq (ml_last_seq m)) (m, (h, (r, w))) in
  r' = r ∧ ml_seq m' = ml_last_seq m ∧ rm_oid <$> ml_rados_mail m' = Some "" ∧
  ∀ s, RboxMail.ensure_oid (m', s) = (Some 0, (m', s)).
Proof.
  rewrite bind_eq, close_run. cbn [fst snd].
  set (m1 := RboxMail.set_data _ _). change (ml_last_seq m) with (ml_last_seq m1).
  pose proof (set_seq_skips m1 h r (index_mail_close (ml_data m) w).2 eq_refl) as Hs.
  destruct (RboxMail.rbox_index_mail_set_seq _ _) as [res [m' [h' [r' w']]]]. destruct Hs as (_ & Hm & Hseq & Hlast & _ & ->).
  split; [done|]. split; [exact Hseq|]. split; [by rewrite Hm|]. intros s.
  unfold RboxMail.ensure_oid, RboxMail.alloc_if_null. mlrun. rewrite Hm. mlrun. rewrite Hm. mlrun. rewrite decide_True by done.
  unfold RboxMail.rbox_get_index_record. mlrun. by rewrite decide_True by congruence.
Qed.
End reopen.

(** The stored mail is opened, closed and opened again; then its text is asked
    for: the mailbox is marked as corrupted, although the object exists. *)
Definition mail_file : MemDovecot := mk_mem_dovecot (mk_mem (mc_objs (md_cluster stored_mail)) [] 0) (md_index stored_mail).
Definition opened_mail := (RboxMail.rbox_index_mail_set_seq 1 (RboxMail.rbox_mail_alloc no_data, (mk_health 0 false, (ready_rbox, mail_file)))).2.
Definition reopened_mail := ((RboxMail.rbox_mail_close ;; RboxMail.rbox_index_mail_set_seq 1) opened_mail).2.
Lemma reopened_mail_is_lost :
  (∃ input, (RboxMail.rbox_mail_get_stream 0 0 inbox opened_mail).1 = Some (0, Some input)) ∧
  (RboxMail.rbox_mail_get_stream 0 0 inbox reopened_mail).1 = Some (-1, None) ∧
  corrupted (RboxMail.rbox_mail_get_stream 0 0 inbox reopened_mail).2.2.1 = true.
Proof. split; [vm_compute; by eexists|]. split; vm_compute; reflexivity. Qed.

(** An unreadable size is refused once; what is remembered of it is accepted the
    next time, as the largest number. *)
Definition bad_size_mail : MemDovecot :=
  mk_mem_dovecot (mk_mem {[ (mk_ioctx "mail_storage" "u1", "o1") := mk_robject "From: a" {[ "V" := "abc" +:+ nul_string ]} ∅ 5 ]} [] 0)
    (md_index stored_mail).
Lemma bad_virtual_size_accepted :
  let opened := (RboxMail.rbox_index_mail_set_seq 1 (mail_of bad_size_mail)).2 in
  let first := RboxMail.rbox_mail_get_virtual_size inbox opened in
  fst <$> first.1 = Some (-1) ∧
  (RboxMail.rbox_mail_get_virtual_size inbox first.2).1 = Some (0, 2 ^ 64 - 1).
Proof. cbv zeta. split; vm_compute; reflexivity. Qed.
