(* ===== verification/RboxCopy.v ===== *)
(** Copying a mail to a mailbox: storage-rbox/rbox-copy.cpp. Between mailboxes of
    the plugin the object is copied in the cluster; other mails are saved by
    Dovecot's generic copy. The source and the destination mailbox share the
    plugin's storage object. *)
From S2P Require Export RboxMail.
Local Open Scope rmb_scope.

(** Dovecot's functions on the data of a save. *)
Class DovecotCopy (W : Type) := {
  mailbox_save_copy_flags : rbox_mail → W → mail_save_data → mail_save_data;
  index_save_context_free : mail_save_data → mail_save_data;
  MAIL_FETCH_FROM_ENVELOPE : Z;
}.

Module RboxCopy.
Definition set_received_date (x : Z) (d : mail_save_data) : mail_save_data :=
    mk_save_data (sd_uid d) (sd_flags d) (sd_pvt_flags d) (sd_keywords d) (sd_min_modseq d) x (sd_save_date d)
      (sd_guid d) (sd_pop3_uidl d) (sd_pop3_order d) (sd_from_envelope d).
Definition set_from_envelope (x : string) (d : mail_save_data) : mail_save_data :=
    mk_save_data (sd_uid d) (sd_flags d) (sd_pvt_flags d) (sd_keywords d) (sd_min_modseq d) (sd_received_date d)
      (sd_save_date d) (sd_guid d) (sd_pop3_uidl d) (sd_pop3_order d) (Some x).
Definition set_guid (x : string) (d : mail_save_data) : mail_save_data :=
    mk_save_data (sd_uid d) (sd_flags d) (sd_pvt_flags d) (sd_keywords d) (sd_min_modseq d) (sd_received_date d)
      (sd_save_date d) (Some x) (sd_pop3_uidl d) (sd_pop3_order d) (sd_from_envelope d).

Section ops.
Context `{Jansson} `{Librados W} `{RadosAdmin W} `{Dovecot W} `{DovecotBoxes W} `{DovecotMail W} `{LibradosMail W} `{DovecotCopy W}.
  Abbreviation S := (rbox_mail * (rbox_save_context * (rbox_health * (rbox_storage * W))))%type.
  Abbreviation M := (ST S).
(** The mailbox of the mail and the one it is copied to; whether Dovecot saves a
    new mail ([_ctx->saving]), the names of the storages, whether both mailboxes
    have the same one, whether the destination refuses references
    ([disable_reflink_copy_to]), the time, and Dovecot's generic copy. *)
Variables (src dest : mailbox) (saving : bool) (src_storage dest_storage : string) (same_storage : bool)
  (disable_reflink_copy_to : bool) (now : Z) (mail_storage_copy : M (option Z)).

Definition on_mail {A} (m : ST (rbox_mail * (rbox_health * (rbox_storage * W))) A) : M A :=
    λ '(ml, (c, s)), let '(a, (ml, s)) := m (ml, s) in (a, (ml, (c, s))).
Definition on_save {A} (m : ST (rbox_save_context * (rbox_storage * W)) A) : M A :=
    λ '(ml, (c, (h, s))), let '(a, (c, s)) := m (c, s) in (a, (ml, (c, (h, s)))).
Definition rbox {A} (m : ST (rbox_storage * W) A) : M A := on_mail (RboxMail.rbox m).
Definition index (a : index_action) : M unit := on_mail (RboxMail.index a).
Definition save_get : M rbox_save_context := on_save RboxSave.get.
Definition save_modify (f : rbox_save_context → rbox_save_context) : M unit := on_save (RboxSave.modify f).
Definition modify_data (f : mail_save_data → mail_save_data) : M unit :=
    save_modify (λ c, SaveContext.set_data (f (sc_data c)) c).

(** [rbox_mail_copy_set_failed] and [mail_copy_set_failed]: the error of the
    source's storage becomes one of the destination's. *)
Definition rbox_mail_copy_set_failed : M unit := if same_storage then mret tt else index IxSetError.

Definition rbox_mail_save_copy_default_metadata : M (option Z) :=
    c ← save_get;
    ret ←! (if decide (sd_received_date (sc_data c) = -1) then
              '(ret, received_date) ←! on_mail (RboxMail.rbox_mail_get_received_date src);
              if decide (ret < 0) then rbox_mail_copy_set_failed ;; aret (-1)
              else modify_data (set_received_date received_date) ;; aret 0
            else aret 0);
    if decide (ret < 0) then aret (-1) else
    c ← save_get;
    ret ←! (match sd_from_envelope (sc_data c) with
            | Some _ => aret 0
            | None =>
                '(ret, from_envelope) ←! on_mail (RboxMail.rbox_mail_get_special src
                                            (MAIL_FETCH_OTHER (MAIL_FETCH_FROM_ENVELOPE (W:=W))));
                if decide (ret < 0) then rbox_mail_copy_set_failed ;; aret (-1)
                else match from_envelope with
                     | None => abort
                     | Some v => (if decide (c_str v = "") then mret tt else modify_data (set_from_envelope v)) ;; aret 0
                     end
            end);
    if decide (ret < 0) then aret (-1) else
    c ← save_get;
    match sd_guid (sc_data c) with
    | Some _ => aret 0
    | None =>
        '(ret, guid) ←! on_mail (RboxMail.rbox_mail_get_special src MAIL_FETCH_GUID);
        if decide (ret < 0) then rbox_mail_copy_set_failed ;; aret (-1)
        else match guid with
             | None => abort
             | Some v => (if decide (c_str v = "") then mret tt else modify_data (set_guid v)) ;; aret 0
             end
    end.

(** The attributes of the copy that differ from those of the source. *)
Definition set_mailbox_metadata (r : rbox_storage) (c : rbox_save_context) : list RadosMetadata :=
    [Metadata.convert_cstr RBOX_METADATA_MAILBOX_GUID (mb_mailbox_guid dest);
     Metadata.convert_time RBOX_METADATA_RECEIVED_TIME (sd_received_date (sc_data c))] ++
    (if JsonConfig.is_update_attributes (rados_cfg (rb_config r)) &&
        JsonConfig.is_updateable_attribute RBOX_METADATA_ORIG_MAILBOX (rados_cfg (rb_config r))
     then [Metadata.convert_cstr RBOX_METADATA_ORIG_MAILBOX (mb_name dest)] else []).

(** The namespaces of the users of both mailboxes; [None]: [-1]. *)
Definition get_src_dest_namespace : M (option (string * string)) :=
    r ← rbox Rbox.get;
    let ns_src_mail1 := Rbox.mailbox_uid (mb_owner src) r in
    let ns_dest_mail1 := Rbox.mailbox_uid (mb_owner dest) r in
    '(found, ns_src) ← rbox (Rbox.on_ns_mgr (NamespaceMgr.lookup_key ns_src_mail1));
    if negb (found : bool) then mret None else
    '(found, ns_dest) ← rbox (Rbox.on_ns_mgr (NamespaceMgr.lookup_key ns_dest_mail1));
    if negb (found : bool) then mret None else
    mret (Some (default "" ns_src, default "" ns_dest)).

(** [free_rados_mail] of the mail of the save. *)
Definition free_saved_mail : M unit :=
    save_modify (λ c, SaveContext.set_rados_mail None
      (match sc_rados_mail c with Some p => SaveContext.set_heap (delete p (sc_heap c)) c | None => c end)).

Definition copy_mail (from_alt_storage : bool) (ns_src ns_dest : string) : M (option Z) :=
    mail ←! on_mail RboxMail.the_mail;
    let src_oid := rm_oid mail in
    on_save RboxSave.setup_mail_object ;;
    c ← save_get;
    match RboxSave.current c with
    | None => abort
    | Some copied =>
        let dest_oid := rm_oid copied in
        r ← rbox Rbox.get;
        let metadata_update := set_mailbox_metadata r c in
        ret_val ← rbox ((if from_alt_storage then Rbox.on_alt else Rbox.on_s)
                          (Storage.copy now src_oid ns_src dest_oid ns_dest metadata_update));
        if decide (ret_val < 0) then
          (if decide (ret_val = - ENOENT) then on_mail (RboxMail.rbox_mail_set_expunged src) else mret tt) ;;
          free_saved_mail ;;
          rbox_mail_copy_set_failed ;;
          aret (-1)
        else
          save_modify (SaveContext.set_failed false) ;;
          on_save (RboxSave.rbox_add_to_index dest) ;;
          r ← rbox Rbox.get;
          (if Log.is_open (rb_log r) then
             rbox (Rbox.modify (λ r, Rbox.set_fs
               (Log.append (Entry.new dest_oid ns_dest (st_pool_name (if from_alt_storage then rb_alt r else rb_s r))
                              Entry.op_cpy) (rb_log r) (rb_fs r)) r))
           else mret tt) ;;
          aret 0
    end.

Definition rbox_mail_storage_try_copy (from_alt_storage : bool) : M (option Z) :=
    ns ← get_src_dest_namespace;
    match ns with
    | None => aret (-1)
    | Some (ns_src, ns_dest) =>
        m ← on_mail RboxMail.get;
        (match ml_rados_mail m with
         | Some _ => mret tt
         | None => on_mail (RboxMail.modify (RboxMail.set_rados_mail (Some Mail.new)))
         end) ;;
        c ← save_get;
        if negb (sc_copying c) then aret 0 else
        ret ←! on_mail RboxMail.rbox_get_index_record;
        if decide (ret < 0) then rbox_mail_copy_set_failed ;; aret (-1) else
        ret ←! rbox_mail_save_copy_default_metadata;
        if decide (ret < 0) then aret (-1) else
        ret ←! copy_mail from_alt_storage ns_src ns_dest;
        if decide (ret < 0) then aret (-1) else
        c ← save_get;
        (if disable_reflink_copy_to then mret tt else index (IxCopyCacheFields (sc_seq c))) ;;
        (if sc_dest_mail c then index (IxSetSeqSaving (sc_seq c)) else mret tt) ;;
        aret 0
    end.

Definition free_context : M unit := modify_data (index_save_context_free (W:=W)).

Definition rbox_mail_storage_copy : M (option Z) :=
    save_modify (SaveContext.set_finished true) ;;
    m ← on_mail RboxMail.get;
    alt_storage ← on_mail (RboxMail.ask (RboxMail.alt_storage_of src m));
    opened ←! rbox (Rbox.open_mailbox dest alt_storage);
    if decide (opened < 0) then aret (-1) else
    c ← save_get;
    if saving || negb (sc_copying c) || negb (bool_decide (src_storage = "rbox")) then
      flags ← on_mail (RboxMail.ask (mailbox_save_copy_flags m));
      modify_data flags ;;
      ret ←! mail_storage_copy;
      aret (if decide (ret < 0) then -1 else 0)
    else
      ret ←! rbox_mail_storage_try_copy alt_storage;
      if decide (ret < 0) then free_context ;; aret (-1) else aret 0.

Definition rbox_mail_copy : M (option Z) :=
    save_modify (SaveContext.set_copying (negb saving && bool_decide (src_storage = "rbox") &&
                                          bool_decide (src_storage = dest_storage))) ;;
    ret ←! rbox_mail_storage_copy;
    save_modify (SaveContext.set_copying false) ;;
    free_context ;;
    aret ret.
End ops.
End RboxCopy.

(** In the concrete world an envelope has the number 4096, and freeing a save's
    strings leaves nothing of them. *)
#[export] Instance dv_copy : DovecotCopy MemDovecot := {
  mailbox_save_copy_flags m w d :=
    mk_save_data (sd_uid d) (index_mail_get_flags (ml_seq m) w) (sd_pvt_flags d) (sd_keywords d) (sd_min_modseq d)
      (sd_received_date d) (sd_save_date d) (sd_guid d) (sd_pop3_uidl d) (sd_pop3_order d) (sd_from_envelope d);
  index_save_context_free d :=
    mk_save_data (sd_uid d) (sd_flags d) (sd_pvt_flags d) (sd_keywords d) (sd_min_modseq d) (sd_received_date d)
      (sd_save_date d) None None (sd_pop3_order d) None;
  MAIL_FETCH_FROM_ENVELOPE := 4096;
}.
