(* ===== verification/CopySpec.v ===== *)
(** What copying a mail promises: a copy is a new object with a record of its own
    in the index, or nothing changed. *)
From S2P Require Export RboxCopy MailSpec.
Local Open Scope rmb_scope.

(** ** Running the operations *)

Section run.
Context {W : Type}.
Abbreviation St := (rbox_mail * (rbox_save_context * (rbox_health * (rbox_storage * W))))%type.
Lemma on_save_run {A} (f : ST (rbox_save_context * (rbox_storage * W)) A) m c h s :
  RboxCopy.on_save f (m, (c, (h, s))) = ((f (c, s)).1, (m, ((f (c, s)).2.1, (h, (f (c, s)).2.2)))).
Proof. unfold RboxCopy.on_save. cbn. by destruct (f (c, s)) as [a [c' s']]. Qed.
Lemma on_mail_run {A} (f : ST (rbox_mail * (rbox_health * (rbox_storage * W))) A) m c s :
  RboxCopy.on_mail f (m, (c, s)) = ((f (m, s)).1, ((f (m, s)).2.1, (c, (f (m, s)).2.2))).
Proof. unfold RboxCopy.on_mail. cbn. by destruct (f (m, s)) as [a [m' s']]. Qed.
Lemma copy_rbox_run {A} (f : ST (rbox_storage * W) A) m c h s :
  RboxCopy.rbox f (m, (c, (h, s))) = ((f s).1, (m, (c, (h, (f s).2)))).
Proof. unfold RboxCopy.rbox. rewrite on_mail_run. by rewrite mail_rbox_run. Qed.
Lemma copy_get_run m c h s : RboxCopy.save_get (m, (c, (h, s))) = (c, ((m, (c, (h, s))) : St)).
Proof. unfold RboxCopy.save_get. by rewrite on_save_run, save_get_run. Qed.
Lemma copy_modify_run f m c h s : RboxCopy.save_modify f (m, (c, (h, s))) = (tt, ((m, (f c, (h, s))) : St)).
Proof. unfold RboxCopy.save_modify. by rewrite on_save_run, save_modify_run. Qed.
End run.

(** Run the steps whose effect is known. *)
Ltac cprun := repeat (first
  [ rewrite ret_eq | rewrite aret_run | rewrite copy_get_run | rewrite copy_modify_run | rewrite copy_rbox_run
  | rewrite on_save_run | rewrite on_mail_run | rewrite abind_eq | rewrite bind_eq ]; cbn [fst snd]).

(** Requests that name no new mail. *)
Definition no_new_mail (a : index_action) : Prop :=
  match a with IxAppend _ | IxUpdateExt _ _ _ _ => False | _ => True end.
Definition adds_requests `{DovecotLaws W} (P : index_action → Prop) (w w' : W) : Prop :=
  ∃ l, ix_log w' = ix_log w ++ l ∧ Forall P l.

Section requests.
Context `{DovecotLaws W}.
Lemma adds_none P (w w' : W) : ix_log w' = ix_log w → adds_requests P w w'.
Proof. intros E. exists []. rewrite E. split; [by rewrite app_nil_r|constructor]. Qed.
Lemma adds_trans P (w w1 w2 : W) : adds_requests P w w1 → adds_requests P w1 w2 → adds_requests P w w2.
Proof.
  intros (l1 & E1 & Hl1) (l2 & E2 & Hl2). exists (l1 ++ l2). rewrite E2, E1, app_assoc. split; [done|]. by apply list.Forall_app.
Qed.
(** A request of the index: no object changes. *)
Definition requests_only {A} (P : index_action → Prop) (m : ST W A) : Prop :=
  ∀ w, objs (m w).2 = objs w ∧ adds_requests P w (m w).2.
Lemma request_only P a : P a → requests_only P (mail_index_do a).
Proof.
  intros Ha w. destruct (index_do_law a w) as [-> E]. split; [done|]. exists [a]. split; [done|]. by constructor.
Qed.
Lemma requests_ret {A} P (a : A) : requests_only P (mret a).
Proof. intros w. split; [done|]. by apply adds_none. Qed.
Lemma requests_bind {A B} P (m : ST W A) (k : A → ST W B) :
  requests_only P m → (∀ a, requests_only P (k a)) → requests_only P (m ≫= k).
Proof.
  intros Hm Hk w. rewrite bind_eq. destruct (Hm w) as [E1 R1]. destruct (Hk (m w).1 (m w).2) as [E2 R2].
  split; [congruence|]. by eapply adds_trans.
Qed.
Lemma requests_ask {A} P (f : W → A) : requests_only P (RboxMailbox.ask f).
Proof. intros w. split; [done|]. by apply adds_none. Qed.
End requests.

Section expunged.
Context `{Jansson} `{LibradosLaws W} `{!RadosAdmin W} `{!Dovecot W} `{!DovecotLaws W} `{!DovecotBoxes W} `{!DovecotMail W}
  `{!LibradosMail W}.

Lemma read_header_requests mb creating : requests_only no_new_mail (RboxMailbox.rbox_read_header (W:=W) mb creating).
Proof.
  unfold RboxMailbox.rbox_read_header. apply requests_bind; [apply requests_ask|]. intros [size hdr].
  destruct (_ && _); [apply requests_ret|]. destruct (decide _); [apply requests_ret|].
  apply requests_bind; [by apply request_only|]. intros _. apply requests_ret.
Qed.

(** A mail that is marked as expunged: requests of the index, and possibly the
    mark of a corrupted mailbox. *)
Lemma set_expunged_spec mb m h r (w : W) :
  ∃ h' w', RboxMail.rbox_mail_set_expunged mb (m, (h, (r, w))) = (tt, (m, (h', (r, w')))) ∧
    objs w' = objs w ∧ adds_requests no_new_mail w w'.
Proof.
  unfold RboxMail.rbox_mail_set_expunged, RboxMail.index. mlrun.
  destruct (request_only no_new_mail IxRefresh I w) as [E1 R1]. set (w1 := (mail_index_do IxRefresh w).2) in *.
  destruct (mail_index_is_expunged (ml_seq m) w1); mlrun.
  - destruct (request_only no_new_mail (IxMailExpunged (ml_seq m)) I w1) as [E2 R2].
    set (w2 := (mail_index_do (IxMailExpunged (ml_seq m)) w1).2) in *.
    exists h, w2. destruct (mail_index_do (IxMailExpunged _) w1) as [[] ?]. cbn [fst snd] in *.
    split; [done|]. split; [congruence|]. by eapply adds_trans.
  - destruct (request_only no_new_mail IxSetCritical I w1) as [E2 R2]. set (w2 := (mail_index_do IxSetCritical w1).2) in *.
    destruct (request_only no_new_mail IxErrorExpunged I w2) as [E3 R3]. set (w3 := (mail_index_do IxErrorExpunged w2).2) in *.
    unfold RboxMail.box, RboxMailbox.rbox_set_mailbox_corrupted. rewrite on_snd_run, bind_eq.
    unfold RboxMailbox.world. rewrite !on_snd_run.
    destruct (read_header_requests mb false w3) as [E4 R4].
    destruct (RboxMailbox.rbox_read_header mb false w3) as [[[ret hdr] b] w4]. cbn [fst snd] in *.
    rewrite on_fst_run. cbn [st_modify fst snd]. eexists _, w4. split; [done|]. split; [congruence|].
    do 3 (eapply adds_trans; [eassumption|]). exact R4.
Qed.
End expunged.

(** ** The save context *)

Section context.
Context `{Jansson} `{LibradosLaws W} `{!RadosAdmin W} `{!Dovecot W} `{!DovecotLaws W}.
Variable dest : mailbox.

Lemma setup_guid_spec c r (w : W) p mail :
  sc_rados_mail c = Some p → sc_heap c !! p = Some mail →
  let '(_, (c', (r', w'))) := RboxSave.setup_mail_guid (c, (r, w)) in
  r' = r ∧ objs w' = objs w ∧ ix_log w' = ix_log w ∧ sc_data c' = sc_data c ∧ sc_mail_oid c' = sc_mail_oid c ∧
  sc_rados_mails c' = sc_rados_mails c ∧ sc_rados_mail c' = Some p ∧
  ∃ mail', sc_heap c' !! p = Some mail' ∧ rm_oid mail' = rm_oid mail.
Proof.
  intros Hp Hm. unfold RboxSave.setup_mail_guid. svrun. destruct (sd_guid (sc_data c)) as [str|]; svrun.
  - destruct (bool_decide _); svrun; do 6 (split; [try done; by unfold RboxSave.update_mail; rewrite Hp|]).
    + split; [by unfold RboxSave.update_mail; rewrite Hp|]. unfold RboxSave.update_mail. rewrite Hp. cbn.
      rewrite lookup_alter, decide_True by done. rewrite Hm. eexists. split; [done|]. by destruct mail.
    + split; [done|]. by exists mail.
  - destruct (guid_generate_law w) as [Ho Hl]. do 7 (split; [done|]). by exists mail.
Qed.

(** The new mail has the guid that was generated. *)
Lemma setup_mail_spec c r (w : W) :
  let '(_, (c', (r', w'))) := RboxSave.setup_mail_object (c, (r, w)) in
  r' = r ∧ objs w' = objs w ∧ ix_log w' = ix_log w ∧ sc_data c' = sc_data c ∧
  sc_mail_oid c' = (guid_128_generate w).1 ∧ sc_rados_mails c' = sc_rados_mails c ∧
  ∃ mail, RboxSave.current c' = Some mail ∧ rm_oid mail = (guid_128_generate w).1.
Proof.
  unfold RboxSave.setup_mail_object, RboxSave.alloc_mail. svrun. destruct (guid_generate_law w) as [Ho Hl].
  set (c1 := SaveContext.set_rados_mail _ _). set (w1 := (guid_128_generate w).2) in *.
  pose proof (setup_guid_spec c1 r w1 (sc_next c) (Mail.set_oid (guid_128_generate w).1 Mail.new) eq_refl
    ltac:(apply lookup_insert_eq)) as Hs.
  destruct (RboxSave.setup_mail_guid _) as [_ [c' [r' w']]].
  destruct Hs as (-> & E1 & E2 & Ed & Eo & Em & Ep & mail & Hm & Hoid).
  split; [done|]. split; [congruence|]. split; [congruence|]. split; [exact Ed|]. split; [exact Eo|]. split; [exact Em|].
  exists mail. split; [|exact Hoid]. unfold RboxSave.current, RboxSave.deref. by rewrite Ep.
Qed.

(** The record of the copy: appended, and led to its object. *)
Definition appended (dest : mailbox) (oid : string) (w w' : W) : Prop :=
  ∃ uid l seq guid, ix_log w' = ix_log w ++ IxAppend uid :: l ++ [IxUpdateExt seq (mb_ext_id dest) guid oid] ∧
    Forall no_new_mail l.

Lemma index_append_spec c r (w : W) :
  ∃ seq w', RboxSave.rbox_index_append (c, (r, w)) = (tt, (SaveContext.set_seq seq c, (r, w'))) ∧
    objs w' = objs w ∧
    ∃ l, ix_log w' = ix_log w ++ IxAppend (sd_uid (sc_data c)) :: l ∧ Forall no_new_mail l.
Proof.
  unfold RboxSave.rbox_index_append, RboxSave.index. svrun.
  destruct (index_append_law (sd_uid (sc_data c)) w) as [E1 L1].
  destruct (mail_index_append _ w) as [seq w1]. cbn [fst snd] in *.
  set (fl := IxUpdateFlags _ _ _). destruct (request_only no_new_mail fl I w1) as [E2 (l2 & L2 & F2)].
  set (w2 := (mail_index_do fl w1).2) in *.
  assert (∃ w3, (match sd_keywords (sc_data c) with
                 | Some k => RboxSave.world (mail_index_do (IxUpdateKeywords seq k))
                 | None => mret tt end) (SaveContext.set_seq seq c, (r, w2)) = (tt, (SaveContext.set_seq seq c, (r, w3))) ∧
    objs w3 = objs w2 ∧ adds_requests no_new_mail w2 w3) as (w3 & -> & E3 & l3 & L3 & F3).
  { destruct (sd_keywords _) as [k|]; svrun; [|eexists; split; [done|]; split; [done|]; by apply adds_none].
    destruct (request_only no_new_mail (IxUpdateKeywords seq k) I w2) as [E3 R3].
    destruct (mail_index_do (IxUpdateKeywords seq k) w2) as [[] w3]. by exists w3. }
  cbn [fst snd].
  destruct (negb (bool_decide (sd_min_modseq (sc_data c) = 0))); svrun.
  - destruct (request_only no_new_mail (IxUpdateModseq seq (sd_min_modseq (sc_data c))) I w3) as [E4 (l4 & L4 & F4)].
    destruct (mail_index_do (IxUpdateModseq _ _) w3) as [[] w4]. cbn [fst snd] in *. exists seq, w4. split; [done|].
    split; [congruence|]. exists (l2 ++ l3 ++ l4). rewrite L4, L3, L2, L1, <- !app_assoc. split; [done|].
    repeat apply Forall_app_2; done.
  - exists seq, w3. split; [done|]. split; [congruence|]. exists (l2 ++ l3). rewrite L3, L2, L1, <- !app_assoc.
    split; [done|]. by apply Forall_app_2.
Qed.
Lemma add_to_index_spec c r (w : W) :
  ∃ seq w', RboxSave.rbox_add_to_index dest (c, (r, w)) =
      (tt, (SaveContext.set_rados_mails (sc_rados_mails c ++ [sc_rados_mail c]) (SaveContext.set_seq seq c), (r, w'))) ∧
    objs w' = objs w ∧ appended dest (sc_mail_oid c) w w'.
Proof.
  unfold RboxSave.rbox_add_to_index. rewrite bind_eq.
  destruct (index_append_spec c r w) as (seq & w1 & -> & E1 & l & L1 & F). cbn [fst snd].
  unfold RboxSave.update_index_record, RboxSave.push_mail, RboxSave.index. svrun.
  cbn [sc_seq sc_mail_guid sc_mail_oid SaveContext.set_seq].
  set (a := IxUpdateExt _ _ _ _). destruct (index_do_law a w1) as [E2 L2]. exists seq, (mail_index_do a w1).2.
  split; [done|]. split; [congruence|]. eexists _, l, seq, _. rewrite L2, L1, <- app_assoc. by split.
Qed.
End context.

(** ** The copy *)

(** The attributes of the copy: the mailbox and the date are its own, the rest
    but the name of the mailbox is that of the source. *)
Definition copy_of (dest : mailbox) (received : Z) (ob ob' : robject) : Prop :=
  ob_data ob' = ob_data ob ∧ ob_omap ob' = ob_omap ob ∧
  ob_xattrs ob' !! rbox_metadata_key_to_char RBOX_METADATA_MAILBOX_GUID =
    Some (c_str (mb_mailbox_guid dest) +:+ nul_string) ∧
  ob_xattrs ob' !! rbox_metadata_key_to_char RBOX_METADATA_RECEIVED_TIME = Some (to_string received +:+ nul_string) ∧
  ∀ k, k ∉ rbox_metadata_key_to_char <$>
         [RBOX_METADATA_MAILBOX_GUID; RBOX_METADATA_RECEIVED_TIME; RBOX_METADATA_ORIG_MAILBOX] →
    ob_xattrs ob' !! k = ob_xattrs ob !! k.

Section copy.
Context `{Jansson} `{LibradosLaws W} `{!RadosAdmin W} `{!Dovecot W} `{!DovecotLaws W} `{!DovecotBoxes W} `{!DovecotMail W}
  `{!LibradosMail W}.
Variables (src dest : mailbox) (same_storage : bool) (now : Z).
Abbreviation S := (rbox_mail * (rbox_save_context * (rbox_health * (rbox_storage * W))))%type.

Lemma copied_is_copy r c t ob :
  copy_of dest (sd_received_date (sc_data c)) ob (copied t (RboxCopy.set_mailbox_metadata dest r c) ob).
Proof.
  unfold copy_of, copied, RboxCopy.set_mailbox_metadata, updates_of. cbn [ob_data ob_omap ob_xattrs].
  do 2 (split; [done|]). rewrite !fmap_app. unfold apply_updates. rewrite foldl_app. cbn -[to_string c_str].
  destruct (_ && _); cbn -[to_string c_str]; (split; [by simplify_map_eq|]; split; [by simplify_map_eq|]);
    intros k Hk; rewrite !not_elem_of_cons in Hk; destruct Hk as (? & ? & ? & _); by rewrite !lookup_insert_ne by done.
Qed.

(** The storage the copy is made on, with its state for [Storage.copy]. *)
Definition copy_storage (alt : bool) (r : rbox_storage) : RadosStorageImpl := if alt then rb_alt r else rb_s r.
Lemma on_storage_run {A} (alt : bool) (f : ST (Storage.state W) A) r (w : W) :
  (if alt then Rbox.on_alt else Rbox.on_s) f (r, w) =
    let o := f (copy_storage alt r, (rb_cluster r, w)) in
    (o.1, (Rbox.set_cluster o.2.2.1 ((if alt then Rbox.set_alt else Rbox.set_s) o.2.1 r), o.2.2.2)).
Proof. destruct alt; unfold Rbox.on_alt, Rbox.on_s; cbn; by destruct (f _) as [a [s [c w']]]. Qed.

(** The error of the source's storage: one request at most. *)
Lemma copy_set_failed_spec m c h r (w : W) :
  ∃ w', RboxCopy.rbox_mail_copy_set_failed same_storage (m, (c, (h, (r, w)))) = (tt, (m, (c, (h, (r, w'))))) ∧
    objs w' = objs w ∧ adds_requests no_new_mail w w'.
Proof.
  unfold RboxCopy.rbox_mail_copy_set_failed, RboxCopy.index, RboxMail.index. destruct same_storage; cprun.
  - exists w. split; [done|]. split; [done|]. by apply adds_none.
  - mlrun. destruct (request_only no_new_mail IxSetError I w) as [E R].
    destruct (mail_index_do IxSetError w) as [[] w']. by exists w'.
Qed.

(** A copy that failed. *)
Lemma failed_copy_spec ret m c h r (w : W) :
  ∃ h' w', ((if decide (ret = - ENOENT) then RboxCopy.on_mail (RboxMail.rbox_mail_set_expunged src) else mret tt) ;;
     RboxCopy.free_saved_mail ;; RboxCopy.rbox_mail_copy_set_failed same_storage ;; aret (-1))
      (m, (c, (h, (r, w)))) =
    (Some (-1), (m, (SaveContext.set_rados_mail None
       (match sc_rados_mail c with Some p => SaveContext.set_heap (delete p (sc_heap c)) c | None => c end), (h', (r, w'))))) ∧
    objs w' = objs w ∧ adds_requests no_new_mail w w'.
Proof.
  rewrite bind_eq.
  assert (∃ h1 w1, (if decide (ret = - ENOENT) then RboxCopy.on_mail (RboxMail.rbox_mail_set_expunged src) else mret tt)
      (m, (c, (h, (r, w)))) = (tt, (m, (c, (h1, (r, w1))))) ∧ objs w1 = objs w ∧ adds_requests no_new_mail w w1)
    as (h1 & w1 & -> & E1 & R1).
  { destruct (decide _); cprun; [|eexists _, _; split; [done|]; split; [done|]; by apply adds_none].
    destruct (set_expunged_spec src m h r w) as (h1 & w1 & E & ?). rewrite E. by exists h1, w1. }
  cbn [fst snd]. unfold RboxCopy.free_saved_mail. cprun.
  match goal with |- context [RboxCopy.rbox_mail_copy_set_failed _ (_, (?c, _))] =>
    destruct (copy_set_failed_spec m c h1 r w1) as (w2 & -> & E2 & R2) end.
  cprun. exists h1, w2. split; [done|]. split; [congruence|]. by eapply adds_trans.
Qed.

(** A copy requests nothing of the index. *)
Lemma copy_log src_oid ns_src oid ns_dest upd (s : Storage.state W) :
  Storage.usable s = true → ix_log (Storage.copy now src_oid ns_src oid ns_dest upd s).2.2.2 = ix_log s.2.2.
Proof.
  intros Hu. unfold Storage.copy. rewrite StorageRun.guarded_usable by done.
  rewrite bind_eq, StorageRun.io_ctx_run. cbn [fst snd].
  set (b := negb (bool_decide (ns_src = ns_dest))). rewrite bind_eq.
  assert (∃ st, (if b then Storage.set_io_ctx_namespace ns_dest else mret tt) s = (tt, (Storage.set_ctx st s.1, s.2))) as [st ->].
  { destruct b; [rewrite StorageRun.set_io_ctx_namespace_run; by eexists|]. exists (st_io_ctx s.1). by destruct s as [[] ?]. }
  cbn [fst snd]. rewrite bind_eq, StorageRun.io_ctx_run. cbn [fst snd]. unfold Storage.run_and_wait, Storage.aio_operate.
  rewrite !bind_eq. rewrite StorageRun.guarded_usable by done. srun. cbn [default].
  match goal with |- context [io_aio_operate ?c ?o ?ops ?w] => pose proof (aio_operate_log c o ops w) as E;
    destruct (io_aio_operate c o ops w) as [[sub val] w'] end. srun. exact E.
Qed.

(** C8. Copying a mail inside the cluster gives a new mail or nothing. On success
    the object under the newly generated guid is the copy of the source, as it is
    kept then, with the mailbox and the date of the copy; the index has one more
    record, the last request leads it to this object, and the object is one of
    the mails of the transaction. On a failure the index got no record, no object
    of the transaction, and, unless the cluster's answer was a timeout, no object
    changed. In any outcome every other object, the source included, is as it was. *)
Theorem copy_adds_mail (alt : bool) ns_src ns_dest ml mail c h r (w : W) :
  ml_rados_mail ml = Some mail →
  Storage.usable (copy_storage alt r, (rb_cluster r, w)) = true →
  let io := st_io_ctx (copy_storage alt r) in
  let oid := (guid_128_generate w).1 in
  let source := (ns_ctx ns_src ns_dest ns_src io, rm_oid mail) in
  let new := (ns_ctx ns_src ns_dest ns_dest io, oid) in
  let '(res, (_, (c', (_, (r', w'))))) :=
    RboxCopy.copy_mail src dest same_storage now alt ns_src ns_dest (ml, (c, (h, (r, w)))) in
  (∀ k, k ≠ new → objs w' !! k = objs w !! k) ∧
  ((res = Some 0 ∧ appended dest oid w w' ∧
    (∃ p, sc_rados_mails c' = sc_rados_mails c ++ [p] ∧ named c' p oid) ∧
    ∃ ob ob', objs w !! source = Some ob ∧ objs w' !! new = Some ob' ∧
      copy_of dest (sd_received_date (sc_data c)) ob ob') ∨
   (res = Some (-1) ∧ adds_requests no_new_mail w w' ∧ sc_rados_mails c' = sc_rados_mails c ∧
    (objs w' = objs w ∨
     (Storage.copy now (rm_oid mail) ns_src oid ns_dest (RboxCopy.set_mailbox_metadata dest r c)
        (copy_storage alt r, (rb_cluster r, (RboxSave.setup_mail_object (c, (r, w))).2.2.2))).1 = - ETIMEDOUT))).
Proof.
  intros Hml Hu io oid source new. unfold RboxCopy.copy_mail. cprun. mlrun. rewrite Hml. cprun.
  pose proof (setup_mail_spec c r w) as Hs.
  destruct (RboxSave.setup_mail_object (c, (r, w))) as [[] [c1 [r1 w1]]] eqn:Esetup. cbn [fst snd] in *.
  destruct Hs as (-> & E1 & L1 & Ed & Eo & Em & new_mail & Hcur & Hnew). fold oid in Eo, Hnew.
  rewrite Hcur, Hnew. cprun. rewrite rbox_get_run. cbn [fst snd]. rewrite (on_storage_run alt).
  assert (RboxCopy.set_mailbox_metadata dest r c1 = RboxCopy.set_mailbox_metadata dest r c) as ->
    by (unfold RboxCopy.set_mailbox_metadata; by rewrite Ed).
  set (upd := RboxCopy.set_mailbox_metadata dest r c).
  pose proof (copy_stores now (rm_oid mail) ns_src oid ns_dest upd (copy_storage alt r, (rb_cluster r, w1)) Hu) as Hcopy.
  pose proof (copy_log (rm_oid mail) ns_src oid ns_dest upd (copy_storage alt r, (rb_cluster r, w1)) Hu) as Hlog.
  destruct (Storage.copy _ _ _ _ _ _ _) as [ret [st [cl w2]]]. unfold objects in Hcopy. cbn [fst snd] in *.
  fold io source new in Hcopy. destruct Hcopy as (Est & Ecl & Hf & Hok & Hfail). rewrite E1 in *.
  destruct (decide (ret < 0)) as [Hneg|Hpos].
  - match goal with |- context [_ (ml, (c1, (h, (?r2, w2))))] =>
      destruct (failed_copy_spec ret ml c1 h r2 w2) as (h' & w' & E & E3 & R3) end.
    rewrite E. cbn [fst snd]. split; [intros k Hk; rewrite E3; by apply Hf|]. right. split; [done|].
    assert (ix_log w2 = ix_log w) as L2 by congruence.
    split; [eapply adds_trans; [by apply adds_none|exact R3]|]. split; [by destruct (sc_rados_mail c1)|].
    destruct (decide (ret = - ETIMEDOUT)); [by right|left]. rewrite E3. by apply Hfail.
  - cprun. destruct (Hok ltac:(lia)) as (ob & Hob & Hnew_ob).
    match goal with |- context [RboxSave.rbox_add_to_index dest (?c, (?r, w2))] =>
      destruct (add_to_index_spec dest c r w2) as (seq & w3 & E & E3 & uid & l & seq' & guid & L3 & F) end.
    rewrite E. cprun. rewrite rbox_get_run. cbn [fst snd].
    destruct (Log.is_open _); cprun; (split; [intros k Hk; rewrite E3; by apply Hf|]); left; (split; [done|]);
      (split; [eexists _, l, _, _; rewrite L3, Hlog, L1; by rewrite <- Eo|]);
      (split; [eexists; split; [cbn; by rewrite Em|]; exists new_mail; by split|]);
      exists ob, (copied now upd ob); (split; [done|]); (split; [by rewrite E3|]); apply copied_is_copy.
Qed.
End copy.

(** The stored mail of the user "u1" is copied to a mailbox of the user "t1". *)
Definition stored_once : MemDovecot := mk_mem_dovecot (mk_mem (mc_objs (md_cluster stored_mail)) [] 100) (md_index stored_mail).
Definition stored_rmail : rbox_mail := RboxMail.set_rados_mail (Some (Mail.set_oid "o1" Mail.new)) first_mail.
Definition trash : mailbox := mk_mailbox "Trash" "trash-guid" 1 2 (Some "t1") None (λ _, None) (Some []) "guid8".
Definition copy_context : rbox_save_context :=
  SaveContext.set_copying true (RboxSave.rbox_save_alloc sample_data None).

Lemma copy_adds_mail_witness :
  let '(res, (_, (_, (_, (_, w'))))) := RboxCopy.copy_mail inbox trash true 100 false "u1" "t1"
               (stored_rmail, (copy_context, (mk_health 0 false, (ready_rbox, stored_once)))) in
  res = Some 0 ∧ appended trash "guid0" stored_once w' ∧
  ∃ ob ob', objs w' !! (mk_ioctx "mail_storage" "t1", "guid0") = Some ob' ∧ copy_of trash 1500000000 ob ob'.
Proof.
  pose proof (copy_adds_mail inbox trash true 100 false "u1" "t1" stored_rmail (Mail.set_oid "o1" Mail.new) copy_context
    (mk_health 0 false) ready_rbox stored_once eq_refl ltac:(vm_compute; reflexivity)) as Hc.
  cbv zeta in Hc.
  destruct (RboxCopy.copy_mail _ _ _ _ _ _ _ _) as [res [ml' [c' [h' [r' w']]]]] eqn:E.
  assert (res = Some 0) as ->.
  { assert ((RboxCopy.copy_mail inbox trash true 100 false "u1" "t1"
      (stored_rmail, (copy_context, (mk_health 0 false, (ready_rbox, stored_once))))).1 = Some 0) as Er
      by (vm_compute; reflexivity). by rewrite E in Er. }
  destruct Hc as (_ & [(_ & Ha & _ & ob & ob' & _ & Hnew & Hcopy)|([=] & _)]).
  split; [done|]. split; [exact Ha|]. exists ob, ob'. split; [exact Hnew|exact Hcopy].
Defined.

(** The whole of it, with the lookups of the namespaces: bob copies a mail to a
    mailbox of t1. *)
Definition bob_context : ioctx := mk_ioctx "mail_storage" "bob_u".
Definition bob_rbox : rbox_storage := Rbox.set_ms (Some (inl (mk_default bob_context))) (Rbox.set_s (mem_storage "bob_u") ready_rbox).
Definition bob_world : MemDovecot :=
  mk_mem_dovecot (mk_mem {[ (bob_context, "o1") := mk_robject "From: a" ∅ ∅ 5 ]} [] 100) (md_index stored_mail).
Definition copy_run :=
  RboxCopy.rbox_mail_copy inbox trash false "rbox" "rbox" true false 100 (aret 0)
    (first_mail, (copy_context, (mk_health 0 false, (bob_rbox, bob_world)))).
Lemma copy_run_result :
  copy_run.1 = Some 0 ∧
  ob_data <$> objs copy_run.2.2.2.2.2 !! (mk_ioctx "mail_storage" "t1_u", "guid0") = Some "From: a" ∧
  ob_data <$> objs copy_run.2.2.2.2.2 !! (bob_context, "o1") = Some "From: a" ∧
  ir_ext <$> mi_records (md_index copy_run.2.2.2.2.2) !! 2 = Some (Some ("hg1", "guid0")).
Proof. vm_compute. repeat split. Qed.
