(* ===== verification/RmbQuery.v ===== *)
(** The queries of the command line tool: librmb/tools/rmb/ls_cmd_parser.h/.cpp,
    rados-mail-box.h, and what rmb-commands.cpp does with them: conditions on the
    attributes of mails, the order of the mails, and the mailboxes they form. *)
From S2P Require Export RadosUtil.
From Stdlib Require Import Ascii.
Local Open Scope rmb_scope.

(** The C library's [strptime] with the format of the tool, and [mktime]. *)
Class LocalTime := { local_time : string → option Z }.

Record Predicate := mk_predicate { p_key : string; p_op : string; p_value : string }.
#[export] Instance Predicate_eq_dec : EqDecision Predicate.
Proof. solve_decision. Defined.

Record CmdLineParser := mk_parser {
  cp_predicates : gmap string Predicate;
  cp_ls_value : string;
  cp_keys : string;
  cp_out_dir : string;
}.

(** [RadosMailBox]; [None]: no parser is set. *)
Record RadosMailBox := mk_mail_box {
  mx_parser : option CmdLineParser;
  mx_mailbox_guid : string;
  mx_mail_count : Z;
  mx_mailbox_size : Z;
  mx_mails : list RadosMail;
  mx_total_mails : Z;
  mx_orig_name : string;
}.

Module Query.
Section time.
Context `{LocalTime}.
(** The answer and [*val]. *)
Definition convert_str_to_time_t (date : string) : bool * Z :=
    match local_time (c_str date) with Some t => (true, t) | None => (false, 0) end.
Definition convert_string_to_date (date_string : string) : option string :=
    let '(ok, t) := convert_str_to_time_t date_string in if (ok : bool) then Some (to_string t) else None.

(** A number of the query or of a mail; [stol] throws on anything else. *)
Definition number (s : string) : option Z := match stol s with ParseOk n => Some n | _ => None end.
Definition compare_with (op : string) (a b : Z) : bool :=
    if decide (op = "=") then bool_decide (a = b)
    else if decide (op = ">") then bool_decide (a > b) else bool_decide (a < b).
Definition is_key (k : rbox_metadata_key) (key : string) : bool :=
    bool_decide (String.get 0 (c_str key) = String.get 0 (rbox_metadata_key_to_char k)).
(** The sign of [difftime] is that of the difference. *)
Definition eval (p : Predicate) (_p_value : string) : bool :=
    if is_key RBOX_METADATA_RECEIVED_TIME (p_key p) || is_key RBOX_METADATA_OLDV1_SAVE_TIME (p_key p) then
      let query_date := (convert_str_to_time_t (p_value p)).2 in
      let obj_date := default (-1) (number _p_value) in
      compare_with (p_op p) obj_date query_date
    else if is_key RBOX_METADATA_VIRTUAL_SIZE (p_key p) || is_key RBOX_METADATA_PHYSICAL_SIZE (p_key p) ||
            is_key RBOX_METADATA_MAIL_UID (p_key p) then
      let '(val, val2) :=
        match number _p_value with
        | None => (-1, -1)
        | Some val => (val, default (-1) (number (p_value p)))
        end in
      compare_with (p_op p) (uint64 val) (uint64 val2)
    else bool_decide (p_value p = _p_value).
End time.

(** The constructor looks for a quote in the member, which is still empty. *)
Definition new_parser (_ls_value : string) : CmdLineParser := mk_parser ∅ _ls_value "" "".
Definition set_out_dir (x : string) (c : CmdLineParser) : CmdLineParser :=
    mk_parser (cp_predicates c) (cp_ls_value c) (cp_keys c) x.

(** The position of the operator. *)
Definition operator_at (s : string) : option nat :=
    match str_find "=" s with
    | Some pos => Some pos
    | None => match str_find ">" s with Some pos => Some pos | None => str_find "<" s end
    end.
(** [junk] is what is read as the operator of a value that has none. *)
Definition predicate_of (junk : ascii) (_ls_value : string) : Predicate :=
    match operator_at _ls_value with
    | Some pos =>
        mk_predicate (str_take pos _ls_value) (String (default junk (String.get pos _ls_value)) "")
          (str_drop (S pos) _ls_value)
    | None => mk_predicate _ls_value (String junk "") _ls_value
    end.
(** [create_predicate] and the entry of its result in the map. *)
Definition create_predicate (junk : ascii) (_ls_value : string) (c : CmdLineParser) : CmdLineParser :=
    let p := predicate_of junk _ls_value in
    mk_parser (<[p_key p := p]> (cp_predicates c)) (cp_ls_value c) (cp_keys c +:+ p_key p +:+ " ") (cp_out_dir c).

(** The loop over the conditions; [tmp] is what [ls_value] has from [offset] on.
    [None]: the fuel is used up. *)
Fixpoint parse_loop (junk : ascii) (fuel : nat) (offset : nat) (tmp : string) (c : CmdLineParser) : option CmdLineParser :=
    match fuel with
    | O => None
    | S fuel =>
        match str_find ";" tmp with
        | None => Some (create_predicate junk tmp c)
        | Some pos =>
            let c := create_predicate junk (str_take pos tmp) c in
            parse_loop junk fuel (offset + pos + 1) (str_drop (offset + pos + 1) (cp_ls_value c)) c
        end
    end.
(** The answer is [true]: every predicate is valid. *)
Definition parse_ls_string (junk : ascii) (c : CmdLineParser) : option (bool * CmdLineParser) :=
    (λ c, (true, c)) <$> parse_loop junk (S (slen (cp_ls_value c))) 0 (cp_ls_value c) c.

Definition contains_key (key : string) (c : CmdLineParser) : bool := bool_decide (is_Some (str_find key (cp_keys c))).

(** [home] is the environment's, [path_max] the size of the buffer. *)
Definition set_output_dir (home : option string) (path_max : nat) (out : string) (c0 : CmdLineParser) : CmdLineParser :=
    match out, home with
    | String c rest, Some home =>
        let sep := match rest with String d _ => if char_is d "/" then "" else "/" | EmptyString => "" end in
        if char_is c "~" then set_out_dir (str_take (path_max - 1) (c_str home) +:+ sep +:+ rest) c0
        else set_out_dir out c0
    | _, _ => set_out_dir out c0
    end.
(** [set_output_path] of the commands; [out] is the option. *)
Definition set_output_path (home : option string) (path_max : nat) (out : option string) (c : CmdLineParser) : CmdLineParser :=
    match out with
    | Some out => set_output_dir home path_max out c
    | None =>
        set_output_dir home path_max
          (match home with Some home => str_take (path_max - 1) (c_str home +:+ "/rmb") | None => "rmb" end) c
    end.

(** ** Mailboxes *)

Definition new_mail_box (guid orig_name : string) (count : Z) : RadosMailBox := mk_mail_box None guid count 0 [] 0 orig_name.
Definition set_xattr_filter (c : CmdLineParser) (b : RadosMailBox) : RadosMailBox :=
    mk_mail_box (Some c) (mx_mailbox_guid b) (mx_mail_count b) (mx_mailbox_size b) (mx_mails b) (mx_total_mails b) (mx_orig_name b).
Definition add_to_mailbox_size (n : Z) (b : RadosMailBox) : RadosMailBox :=
    mk_mail_box (mx_parser b) (mx_mailbox_guid b) (mx_mail_count b) (uint64 (mx_mailbox_size b + n)) (mx_mails b)
      (mx_total_mails b) (mx_orig_name b).
Definition push_mail (m : RadosMail) (b : RadosMailBox) : RadosMailBox :=
    mk_mail_box (mx_parser b) (mx_mailbox_guid b) (mx_mail_count b) (mx_mailbox_size b) (mx_mails b ++ [m])
      (mx_total_mails b) (mx_orig_name b).
Definition count_mail (b : RadosMailBox) : RadosMailBox :=
    mk_mail_box (mx_parser b) (mx_mailbox_guid b) (mx_mail_count b) (mx_mailbox_size b) (mx_mails b)
      (uint64 (mx_total_mails b + 1)) (mx_orig_name b).

Section filter.
Context `{LocalTime}.
(** How often the mail is added, following the predicates in the order of their keys. *)
Fixpoint matches (attrset : attrs) (l : list (string * Predicate)) : nat :=
    match l with
    | [] => 0
    | (key, p) :: l =>
        match get_metadata key attrset with
        | Some value => if eval p value then 1 else 0
        | None => if decide (key = "-") then S (matches attrset l) else matches attrset l
        end
    end.
Definition add_mail (m : RadosMail) (b : RadosMailBox) : RadosMailBox :=
    let b := count_mail b in
    if negb (rm_valid m) then push_mail m b else
    match mx_parser b with
    | None => push_mail m b
    | Some c =>
        if decide (cp_predicates c = ∅) then push_mail m b
        else Nat.iter (matches (rm_attrset m) (map_items (cp_predicates c))) (push_mail m) b
    end.

(** One mail of [query_mail_storage]; [None]: the parser claims to have a
    condition on the mailbox that it does not have. *)
Definition group_mail (c : CmdLineParser) (m : RadosMail) (boxes : gmap string RadosMailBox) : option (gmap string RadosMailBox) :=
    match get_metadata_key RBOX_METADATA_MAILBOX_GUID (rm_attrset m), get_metadata_key RBOX_METADATA_ORIG_MAILBOX (rm_attrset m) with
    | Some guid, Some orig_name =>
        let mailbox_key := rbox_metadata_key_to_char RBOX_METADATA_MAILBOX_GUID in
        wanted ← (if contains_key mailbox_key c
                  then p ← cp_predicates c !! mailbox_key; Some (eval p guid) else Some true);
        if negb (wanted : bool) then Some boxes else
        let b := match boxes !! guid with
                 | Some b => b
                 | None => set_xattr_filter c (new_mail_box guid orig_name 1)
                 end in
        Some (<[guid := add_to_mailbox_size (rm_object_size m) (add_mail m b)]> boxes)
    | _, _ => Some boxes
    end.
Fixpoint query_mail_storage (c : CmdLineParser) (mails : list RadosMail) (boxes : gmap string RadosMailBox) :
      option (gmap string RadosMailBox) :=
    match mails with
    | [] => Some boxes
    | m :: mails => boxes ← group_mail c m boxes; query_mail_storage c mails boxes
    end.
End filter.

(** ** The order of the mails *)

(** Both sides are taken from the same mail. A missing attribute is a null pointer,
    of which [std::string] throws like [stol] of text that is no number. *)
Definition sort_by (k : rbox_metadata_key) (convert : Z → Z) (i j : RadosMail) : bool :=
    match t ← get_metadata_key k (rm_attrset i); number t with
    | Some n => bool_decide (convert n < convert n)
    | None => false
    end.
Definition sort_uid : RadosMail → RadosMail → bool := sort_by RBOX_METADATA_MAIL_UID uint64.
Definition sort_recv_date : RadosMail → RadosMail → bool := sort_by RBOX_METADATA_RECEIVED_TIME id.
Definition sort_phy_size : RadosMail → RadosMail → bool := sort_by RBOX_METADATA_PHYSICAL_SIZE uint64.
Definition sort_save_date (i j : RadosMail) : bool := bool_decide (rm_save_date_rados i < rm_save_date_rados j).

(** ** The query language *)

(** What a query is read as: its conditions are the pieces between the semicolons. *)
Definition conditions (s : string) : list string := getline_split ";" (s +:+ ";").
Definition read_conditions (junk : ascii) (l : list string) (c : CmdLineParser) : CmdLineParser :=
    foldl (λ c t, create_predicate junk t c) c l.
Definition print_predicate (p : Predicate) : string := p_key p +:+ p_op p +:+ p_value p.
Fixpoint print_query (p : Predicate) (l : list Predicate) : string :=
    match l with [] => print_predicate p | q :: l => print_predicate p +:+ String ";" (print_query q l) end.
(** The characters a condition may have for its operator to be found where it is. *)
Definition free_of_all (cs : list ascii) (s : string) : Prop := ∀ c, c ∈ cs → free_of c s = true.
Definition readable (p : Predicate) : Prop :=
    free_of_all [";"; "="; ">"; "<"]%char (p_key p) ∧ free_of ";" (p_value p) = true ∧
    (p_op p = "=" ∨ p_op p = ">" ∧ free_of "=" (p_value p) = true ∨
     p_op p = "<" ∧ free_of_all ["="; ">"]%char (p_value p)).

(** *** Reading a query *)

Lemma str_find_char_split c s i :
    str_find (String c "") s = Some i → ∃ a b, s = a +:+ String c b ∧ free_of c a = true ∧ slen a = i.
Proof.
    revert i. induction s as [|d s IH]; intros i; rewrite str_find_unfold; [done|].
    destruct (String.prefix _ _) eqn:E.
    - apply prefix_char in E as [t E]. intros. simplify_eq. by exists "", t.
    - intros Hf. apply fmap_Some in Hf as (j & Hj & ->). destruct (IH j Hj) as (a & b & -> & Ha & <-).
      exists (String d a), b. split_and!; [done| |done]. apply free_of_cons. split; [|done].
      intros ->. by rewrite (proj2 (prefix_char c _) (ex_intro _ _ eq_refl)) in E.
Qed.
Lemma str_find_char_free c s : str_find (String c "") s = None → free_of c s = true.
Proof.
    induction s as [|d s IH]; rewrite str_find_unfold; [done|].
    destruct (String.prefix _ _) eqn:E; [done|]. intros Hf. apply fmap_None in Hf.
    apply free_of_cons. split; [|by apply IH].
    intros ->. by rewrite (proj2 (prefix_char c _) (ex_intro _ _ eq_refl)) in E.
Qed.
Lemma conditions_split a b : free_of ";" a = true → conditions (a +:+ String ";" b) = a :: conditions b.
Proof. intros. unfold conditions. rewrite <- sapp_assoc, sapp_cons. by apply getline_split_tok. Qed.
Lemma conditions_single s : free_of ";" s = true → conditions s = [s].
Proof. intros. unfold conditions. by rewrite getline_split_tok. Qed.

Lemma parse_loop_reads junk fuel offset tmp c :
    tmp = str_drop offset (cp_ls_value c) → (slen tmp < fuel)%nat →
    parse_loop junk fuel offset tmp c = Some (read_conditions junk (conditions tmp) c).
Proof.
    revert offset tmp c. induction fuel as [|fuel IH]; intros offset tmp c Htmp Hfuel; [lia|]. cbn [parse_loop].
    destruct (str_find ";" tmp) as [pos|] eqn:Hf.
    - apply str_find_char_split in Hf as (a & b & -> & Ha & <-). rewrite conditions_split, str_take_app by done.
      assert (b = str_drop (offset + slen a + 1) (cp_ls_value c)) as Hb.
      { replace (offset + slen a + 1)%nat with (offset + (slen a + 1))%nat by lia. rewrite <- str_drop_drop, <- Htmp.
        rewrite <- (str_drop_drop 1 (slen a)), str_drop_app. by rewrite <- (str_drop_0 b) at 1. }
      rewrite IH; cbn [cp_ls_value create_predicate]; rewrite <- Hb; [done..|].
      rewrite slen_app in Hfuel. cbn in Hfuel. lia.
    - apply str_find_char_free in Hf. by rewrite conditions_single.
Qed.
(** Reading a query ends, and reads every condition of it: the parser's answer is that
    of reading the pieces between the semicolons one after the other, whatever the query. *)
Theorem query_is_read junk s :
    parse_ls_string junk (new_parser s) = Some (true, read_conditions junk (conditions s) (new_parser s)).
Proof. unfold parse_ls_string. rewrite (parse_loop_reads junk _ 0); [done|by rewrite str_drop_0|cbn; lia]. Qed.

Lemma read_conditions_app junk l l' c :
    read_conditions junk (l ++ l') c = read_conditions junk l' (read_conditions junk l c).
Proof. apply foldl_app. Qed.

Lemma operator_at_print p : readable p → operator_at (print_predicate p) = Some (slen (p_key p)).
Proof.
    unfold readable, free_of_all, operator_at, print_predicate.
    intros (Hk & _ & [->|[[-> Hv]|[-> Hv]]]); rewrite ?sapp_cons; cbn [String.append].
    - by rewrite str_find_char by (apply Hk; set_solver).
    - rewrite (str_find_char_none "="), str_find_char; [done|apply Hk; set_solver|].
      rewrite free_of_app. apply andb_true_iff. split; [apply Hk; set_solver|by apply free_of_cons].
    - rewrite (str_find_char_none "="), (str_find_char_none ">"), str_find_char; [done|apply Hk; set_solver|..];
        rewrite free_of_app; apply andb_true_iff; (split; [apply Hk; set_solver|]); apply free_of_cons;
        (split; [done|apply Hv; set_solver]).
Qed.
Lemma predicate_of_print junk p : readable p → predicate_of junk (print_predicate p) = p.
Proof.
    intros Hr. unfold predicate_of. rewrite operator_at_print by done. destruct p as [k o v].
    destruct Hr as (_ & _ & Ho). unfold print_predicate. cbn [p_key p_op p_value] in *.
    assert (∃ c, o = String c "") as [c ->] by naive_solver. rewrite str_take_app. cbn [String.append].
    replace (S (slen k)) with (slen k + 1)%nat by lia. rewrite <- str_drop_drop, str_drop_app. cbn [str_drop].
    assert (String.get (slen k) (k +:+ String c v) = Some c) as ->; [|done].
    clear. induction k; [done|]. by cbn.
Qed.
Lemma print_predicate_free p : readable p → free_of ";" (print_predicate p) = true.
Proof.
    unfold readable, free_of_all, print_predicate. intros (Hk & Hv & Ho). rewrite !free_of_app, Hv.
    rewrite Hk by set_solver. by destruct Ho as [->|[[-> _]|[-> _]]].
Qed.
Lemma conditions_print p l : Forall readable (p :: l) → conditions (print_query p l) = print_predicate <$> p :: l.
Proof.
    revert p. induction l as [|q l IH]; intros p [Hp Hl]%list.Forall_cons; cbn [print_query].
    - rewrite conditions_single by by apply print_predicate_free. done.
    - rewrite conditions_split by by apply print_predicate_free. by rewrite IH.
Qed.
Lemma read_conditions_print junk l c :
    Forall readable l →
    cp_predicates (read_conditions junk (print_predicate <$> l) c) = foldl (λ m p, <[p_key p := p]> m) (cp_predicates c) l.
Proof.
    revert c. induction l as [|p l IH]; intros c Hl; [done|]. apply list.Forall_cons in Hl as [Hp Hl].
    cbn [read_conditions fmap list_fmap foldl]. unfold read_conditions in IH. rewrite IH by done.
    unfold create_predicate. by rewrite predicate_of_print by done.
Qed.

(** *** The conditions on a mail *)

(** Only the first condition, in the order of the keys, the mail has an attribute for counts;
    a condition on an attribute it does not have is passed over. *)
Lemma matches_first `{LocalTime} a pre key p post v :
    Forall (λ q : string * Predicate, get_metadata q.1 a = None ∧ q.1 ≠ "-") pre → get_metadata key a = Some v →
    matches a (pre ++ (key, p) :: post) = if eval p v then 1%nat else 0%nat.
Proof.
    induction 1 as [|[k q] pre [Hk Hne] _ IH]; intros Hv; cbn [app matches]; [by rewrite Hv|].
    cbn in Hk, Hne. rewrite Hk. case_decide; [done|by apply IH].
Qed.
Definition uid_above : Predicate := mk_predicate "U" ">" "10".
Definition no_time : LocalTime := {| local_time := λ _, None |}.
(** The mail 3 of the mailbox "m1" passes a query for mails above 10 in "m1". *)
Example second_condition_ignored :
    let a := (<["M" := "m1"]> (<["U" := "3"]> ∅) : attrs) in
    matches (H := no_time) a [("M", mk_predicate "M" "=" "m1"); ("U", uid_above)] = 1%nat.
Proof. vm_compute. reflexivity. Qed.

(** No two mails are ordered by their numbers: the comparison is of a mail with itself. *)
Lemma sort_by_never k convert i j : sort_by k convert i j = false.
Proof. unfold sort_by. destruct (_ ≫= _); [|done]. apply bool_decide_eq_false. lia. Qed.
End Query.

(** ** Properties *)

(** C33. A query that is printed and read again has the conditions it was printed from, the last
    one for each key. *)
Theorem printed_query_is_read junk p l :
    Forall Query.readable (p :: l) →
    ∃ c, Query.parse_ls_string junk (Query.new_parser (Query.print_query p l)) = Some (true, c) ∧
      cp_predicates c = foldl (λ m p, <[p_key p := p]> m) ∅ (p :: l).
Proof.
    intros Hr. eexists. split.
    - unfold Query.parse_ls_string. rewrite (Query.parse_loop_reads junk _ 0); [done|by rewrite str_drop_0|cbn; lia].
    - cbn [Query.new_parser cp_ls_value]. rewrite Query.conditions_print by done. by rewrite Query.read_conditions_print.
Qed.
Definition in_mailbox : Predicate := mk_predicate "M" "=" "b<4c>=".
Lemma example_readable : Forall Query.readable [Query.uid_above; in_mailbox].
Proof.
    constructor; [|constructor; [|constructor]]; unfold Query.readable;
      (split_and!; [intros c Hc; rewrite !elem_of_cons, elem_of_nil in Hc; naive_solver|done|]); naive_solver.
Qed.
Lemma printed_query_is_read_witness :
    Query.print_query Query.uid_above [in_mailbox] = "U>10;M=b<4c>=" ∧
    ∃ c, Query.parse_ls_string "!" (Query.new_parser "U>10;M=b<4c>=") = Some (true, c) ∧
      cp_predicates c = <["M" := in_mailbox]> (<["U" := Query.uid_above]> ∅).
Proof. split; [done|]. apply (printed_query_is_read "!" Query.uid_above [in_mailbox]). exact example_readable. Defined.
