(* ===== verification/LoadObjects.v ===== *)
(** Loading the mails of a namespace: [RmbCommands::load_objects] of
    librmb/tools/rmb/rmb-commands.cpp. The main thread submits one asynchronous
    [aio_stat] for each object, and gives the mail its name after it submitted the
    call; the thread of librados runs [aio_cb] for the calls that completed, in any
    order, also before the mail has its name. *)
From S2P Require Export RmbQuery MetadataStorage.
Local Open Scope rmb_scope.

(** [mail_objects] keeps pointers, so the mails have their numbers, in the order in
    which they were made, and are found by them. *)
Record loading (W : Type) := mk_loading {
  lo_todo : list string;                 (** what the iterator has still to give *)
  lo_naming : option (nat * string);     (** submitted, [set_oid] is next *)
  lo_mails : list RadosMail;
  lo_pending : list (nat * string);      (** submitted, [aio_cb] has not run *)
  lo_done : list nat;                    (** [mail_objects] *)
  lo_world : W;
}.
#[global] Arguments mk_loading {W} _ _ _ _ _ _.
#[global] Arguments lo_todo {W} _. #[global] Arguments lo_naming {W} _. #[global] Arguments lo_mails {W} _.
#[global] Arguments lo_pending {W} _. #[global] Arguments lo_done {W} _. #[global] Arguments lo_world {W} _.

Module LoadObjects.
Section ops.
Context `{Librados W} `{MetadataModule W T}.
Variables (io : ioctx) (ms : T) (load_metadata : bool).

(** [aio_cb]: [r] and [out] are what [aio_stat] gave; [None]: the program aborts. *)
Definition aio_cb (r : Z) (out : option (Z * Z)) (mail : RadosMail) : ST W (option RadosMail) :=
    let '(object_size, save_date_rados) := default (0, 0) out in
    if decide (r = 0 ∧ object_size > 0) then
      let mail := Mail.set_rados_save_date save_date_rados (Mail.set_mail_size object_size mail) in
      if load_metadata then
        '(ret, mail) ← ms_load_metadata ms mail;
        match ret with
        | None => mret None
        | Some ret =>
            let mail := if decide (ret < 0) then Mail.set_valid false mail else mail in
            let mail := if decide (rm_attrset mail = ∅) then Mail.set_valid false mail else mail in
            mret (Some (if validate_metadata (rm_attrset mail) then mail else Mail.set_valid false mail))
        end
      else mret (Some mail)
    else mret (Some (Mail.set_valid false mail)).

(** The call completes and its callback runs. *)
Definition complete (oid : string) (mail : RadosMail) : ST W (option RadosMail) :=
    '(r, out) ← io_stat io oid; aio_cb r out mail.

Inductive step : loading W → loading W → Prop :=
| step_submit oid todo mails pending done w :
    step (mk_loading (oid :: todo) None mails pending done w)
      (mk_loading todo (Some (length mails, oid)) (mails ++ [Mail.new]) (pending ++ [(length mails, oid)]) done w)
| step_refused oid todo mails pending done w :
    step (mk_loading (oid :: todo) None mails pending done w) (mk_loading todo None mails pending done w)
| step_name i oid todo mails pending done w :
    step (mk_loading todo (Some (i, oid)) mails pending done w)
      (mk_loading todo None (alter (Mail.set_oid oid) i mails) pending done w)
| step_callback i oid mail mail' todo naming mails before after done w w' :
    mails !! i = Some mail → complete oid mail w = (Some mail', w') →
    step (mk_loading todo naming mails (before ++ (i, oid) :: after) done w)
      (mk_loading todo naming (<[i := mail']> mails) (before ++ after) (done ++ [i]) w').

(** The object that a step takes: the one of a call that was not refused. *)
Definition taken_by (s s' : loading W) : list string :=
    match lo_naming s, lo_naming s' with None, Some (_, oid) => [oid] | _, _ => [] end.
(** A run with the objects it takes, in their order. *)
Inductive run : loading W → list string → loading W → Prop :=
| run_nil s : run s [] s
| run_cons s s' taken s'' : step s s' → run s' taken s'' → run s (taken_by s s' ++ taken) s''.

Definition init (oids : list string) (w : W) : loading W := mk_loading oids None [] [] [] w.
(** Every object was submitted and every completion waited for. *)
Definition finished (s : loading W) : Prop := lo_todo s = [] ∧ lo_naming s = None ∧ lo_pending s = [].
Definition mail_objects (s : loading W) : list RadosMail := omap (λ i, lo_mails s !! i) (lo_done s).
End ops.

(** ** The order of the result: [std::list::sort], which is stable *)

Fixpoint sort_insert (lt : RadosMail → RadosMail → bool) (x : RadosMail) (l : list RadosMail) : list RadosMail :=
    match l with
    | [] => [x]
    | y :: l => if lt y x then y :: sort_insert lt x l else x :: y :: l
    end.
Definition list_sort (lt : RadosMail → RadosMail → bool) (l : list RadosMail) : list RadosMail :=
    foldr (sort_insert lt) [] l.
Definition order_of (sort_string : string) : RadosMail → RadosMail → bool :=
    if decide (sort_string = "uid") then Query.sort_uid
    else if decide (sort_string = "recv_date") then Query.sort_recv_date
    else if decide (sort_string = "phy_size") then Query.sort_phy_size else Query.sort_save_date.
(** [mail_objects] of the caller at the end. *)
Definition loaded {W} (load_metadata : bool) (sort_string : string) (s : loading W) : list RadosMail :=
    if load_metadata then list_sort (order_of sort_string) (mail_objects s) else mail_objects s.

(** ** Lemmas *)

Lemma sort_insert_perm lt x l : sort_insert lt x l ≡ₚ x :: l.
Proof. induction l as [|y l IH]; cbn; [done|]. destruct (lt y x); [|done]. rewrite IH. constructor. Qed.
Lemma list_sort_perm lt l : list_sort lt l ≡ₚ l.
Proof. induction l as [|x l IH]; [done|]. cbn. rewrite sort_insert_perm. by constructor. Qed.
Lemma list_sort_never lt l : (∀ x y, lt x y = false) → list_sort lt l = l.
Proof. intros Hlt. induction l as [|x l IH]; [done|]. unfold list_sort in *. cbn. rewrite IH. destruct l; cbn; by rewrite ?Hlt. Qed.
(** Asked to sort by a number, the tool leaves the mails in the order in which they came. *)
Lemma order_of_numbers sort_string l :
    sort_string ∈ ["uid"; "recv_date"; "phy_size"] → list_sort (order_of sort_string) l = l.
Proof.
    intros Hs. apply list_sort_never. intros x y. unfold order_of.
    repeat case_decide; try apply Query.sort_by_never. set_solver.
Qed.
Lemma sort_insert_sorted x l :
    StronglySorted (λ a b, rm_save_date_rados a <= rm_save_date_rados b) l →
    StronglySorted (λ a b, rm_save_date_rados a <= rm_save_date_rados b) (sort_insert Query.sort_save_date x l).
Proof.
    induction 1 as [|y l Hl IH Hy]; cbn; [by repeat constructor|].
    unfold Query.sort_save_date at 1. case_bool_decide.
    - constructor; [done|]. rewrite sort_insert_perm. constructor; [lia|done].
    - constructor; [by constructor|]. constructor; [lia|]. eapply list.Forall_impl; [exact Hy|]. cbn. lia.
Qed.
Lemma sort_save_date_sorted l :
    StronglySorted (λ a b, rm_save_date_rados a <= rm_save_date_rados b) (list_sort Query.sort_save_date l).
Proof. induction l; cbn; [constructor|]. by apply sort_insert_sorted. Qed.

(** Loading the attributes of a mail leaves its name. *)
Class KeepsName (W T : Type) `{MetadataModule W T} :=
  ms_load_name : ∀ (t : T) (mail : RadosMail) (w : W), rm_oid (ms_load_metadata t mail w).1.2 = rm_oid mail.

Section lemmas.
Context `{Librados W} `{KeepsName W T}.
Variables (io : ioctx) (ms : T) (load : bool).
  Abbreviation step := (step io ms load).

Lemma complete_name oid mail w mail' w' : complete io ms load oid mail w = (Some mail', w') → rm_oid mail' = rm_oid mail.
Proof.
    unfold complete. rewrite bind_eq. destruct (io_stat io oid w) as [[r out] w1]. cbn [fst snd]. unfold aio_cb.
    destruct (default (0, 0) out) as [size date]. case_decide; [|by rewrite ret_eq; intros [= <- _]; destruct mail].
    destruct load; [|by rewrite ret_eq; intros [= <- _]; destruct mail].
    rewrite bind_eq.
    pose proof (ms_load_name ms (Mail.set_rados_save_date date (Mail.set_mail_size size mail)) w1) as Hn.
    destruct (ms_load_metadata _ _ w1) as [[[ret|] mail1] w2]; cbn [fst snd] in *; rewrite ret_eq; [|done].
    intros [= <- _]. transitivity (rm_oid mail1); [by destruct mail1; repeat case_decide; destruct (validate_metadata _)|].
    rewrite Hn. by destruct mail.
Qed.

(** The names the mails have, or are about to have. *)
Definition names (s : loading W) : list string :=
    let l := rm_oid <$> lo_mails s in
    match lo_naming s with Some (i, oid) => <[i := oid]> l | None => l end.
(** Of the objects that were listed, those that were taken have one mail each, which is
    waiting for its callback or among the results. *)
Definition inv (oids : list string) (s : loading W) : Prop :=
    (∃ pre, oids = pre ++ lo_todo s ∧ sublist (names s) pre) ∧
    (lo_pending s).*1 ++ lo_done s ≡ₚ seq 0 (length (lo_mails s)).

Lemma load_inv_step oids s s' : inv oids s → step s s' → inv oids s'.
Proof.
    unfold inv, names. intros [(pre & Hpre & Hsub) Hperm] Hs.
    destruct Hs as [oid todo mails pend done w|oid todo mails pend done w|i oid todo mails pend done w|
                    i oid mail mail' todo nam mails before after done w w' Hi Hc]; cbn in *.
    - split.
      + exists (pre ++ [oid]). rewrite <- app_assoc. split; [done|].
        rewrite fmap_app. rewrite <- (length_fmap rm_oid), insert_app_r_alt, Nat.sub_diag by lia. cbn.
        by apply sublist_app.
      + rewrite fmap_app, length_app. cbn. rewrite Nat.add_1_r, seq_S. rewrite <- Hperm. cbn.
        rewrite <- !app_assoc. apply Permutation_app_head, Permutation_app_comm.
    - split; [|done]. exists (pre ++ [oid]). rewrite <- app_assoc. split; [done|]. by apply sublist_inserts_r.
    - rewrite length_alter. split; [|done]. exists pre. split; [done|].
      assert (rm_oid <$> alter (Mail.set_oid oid) i mails = <[i := oid]> (rm_oid <$> mails)) as ->; [|done].
      rewrite list_insert_alter. clear. revert i. induction mails as [|[] mails IH]; intros []; f_equal/=; done.
    - rewrite length_insert. split.
      + exists pre. split; [done|]. rewrite list_fmap_insert, (complete_name _ _ _ _ _ Hc).
        rewrite list_insert_id by by rewrite list_lookup_fmap, Hi. done.
      + rewrite <- Hperm, !fmap_app. cbn. solve_Permutation.
Qed.

Lemma inv_reachable oids w s : rtc step (init oids w) s → inv oids s.
Proof.
    intros Hr. refine (rtc_ind_r (inv oids) _ _ _ s Hr); [|intros; by eapply load_inv_step].
    split; [exists []; split; [done|constructor]|done].
Qed.
Lemma step_names s s' : step s s' → names s' = names s ++ taken_by s s'.
Proof.
    unfold names, taken_by.
    intros [oid todo mails pend done w|oid todo mails pend done w|i oid todo mails pend done w|
            i oid mail mail' todo nam mails before after done w w' Hi Hc]; cbn.
    - rewrite fmap_app. by rewrite <- (length_fmap rm_oid), insert_app_r_alt, Nat.sub_diag by lia.
    - by rewrite app_nil_r.
    - rewrite app_nil_r, list_insert_alter. clear. revert i. induction mails as [|[] mails IH]; intros []; f_equal/=; done.
    - rewrite list_fmap_insert, (complete_name _ _ _ _ _ Hc).
      rewrite list_insert_id by by rewrite list_lookup_fmap, Hi. destruct nam as [[]|]; by rewrite app_nil_r.
Qed.
Lemma run_step s s' taken l s'' : step s s' → run io ms load s' taken s'' → l = taken_by s s' ++ taken → run io ms load s l s''.
Proof. intros Hs Hr ->. by econstructor. Qed.
Lemma run_names s taken s' : run io ms load s taken s' → names s' = names s ++ taken.
Proof. induction 1 as [|s s' taken s'' Hs _ IH]; [by rewrite app_nil_r|]. by rewrite IH, (step_names _ _ Hs), app_assoc. Qed.
Lemma run_rtc s taken s' : run io ms load s taken s' → rtc step s s'.
Proof. induction 1; [done|]. by eapply rtc_l. Qed.
Lemma rtc_run s s' : rtc step s s' → ∃ taken, run io ms load s taken s'.
Proof. induction 1 as [s|s s' s'' Hs _ [taken IH]]; eexists; [constructor|by econstructor]. Qed.
Lemma omap_lookup_seq (l : list RadosMail) : omap (λ i, l !! i) (seq 0 (length l)) = l.
Proof.
    induction l as [|m l IH]; [done|]. cbn. f_equal. transitivity (omap (λ i, l !! i) (seq 0 (length l))); [|done].
    rewrite <- fmap_S_seq. generalize (seq 0 (length l)). intros k. induction k as [|i k IHk]; [done|]. cbn.
    by destruct (l !! i); rewrite ?IHk.
Qed.
Lemma inv_names oids s :
    inv oids s → finished s → sublist (names s) oids ∧ rm_oid <$> mail_objects s ≡ₚ names s.
Proof.
    intros [(pre & -> & Hsub) Hperm] (Ht & Hn & Hp). rewrite Ht, app_nil_r. split; [done|].
    unfold names, mail_objects. rewrite Hn, Hp in *. cbn in Hperm. rewrite Hperm.
    by rewrite omap_lookup_seq.
Qed.
Lemma inv_finished oids s :
    inv oids s → finished s → ∃ taken, sublist taken oids ∧ rm_oid <$> mail_objects s ≡ₚ taken.
Proof. intros Hi Hf. exists (names s). by apply inv_names. Qed.

(** What is left to do: each object takes at most three steps. *)
Definition work (s : loading W) : nat :=
    3 * length (lo_todo s) + (if lo_naming s then 1 else 0) + length (lo_pending s).
Lemma load_step_work s s' : step s s' → (work s' < work s)%nat.
Proof. intros Hs. destruct Hs; unfold work; cbn; rewrite ?length_app; cbn; lia. Qed.
Lemma load_step_terminates s : sn step s.
Proof.
    remember (work s) as k eqn:E. revert s E.
    induction (lt_wf k) as [k _ IH]. intros s ->. constructor. intros s' Hs.
    eapply IH; [by eapply load_step_work|done].
Qed.

(** The callback of a pending call would abort the program. *)
Definition aborts (s : loading W) : Prop := ∃ i oid mail,
    (i, oid) ∈ lo_pending s ∧ lo_mails s !! i = Some mail ∧ (complete io ms load oid mail (lo_world s)).1 = None.
Lemma load_step_progress oids s : inv oids s → finished s ∨ aborts s ∨ ∃ s', step s s'.
Proof.
    destruct s as [todo nam mails pend done w]. intros [_ Hperm]. cbn in Hperm.
    destruct nam as [[i oid]|]; [right; right; eexists; constructor|].
    destruct todo as [|oid todo]; [|right; right; eexists; constructor].
    destruct pend as [|[i oid] pend]; [by left|]. right.
    assert (i < length mails)%nat as Hi.
    { assert (i ∈ seq 0 (length mails)) as Hin by (rewrite <- Hperm; cbn; left). apply elem_of_seq in Hin. lia. }
    apply lookup_lt_is_Some in Hi as [mail Hi].
    destruct (complete io ms load oid mail w) as [[mail'|] w'] eqn:E.
    - right. eexists. by eapply (step_callback io ms load i oid mail mail' [] None mails []).
    - left. exists i, oid, mail. cbn. rewrite E. split_and!; [left|done|done].
Qed.
End lemmas.
End LoadObjects.

(** The modules of the program keep the names of the mails they load. *)
#[export] Instance default_keeps_name `{Librados W} : LoadObjects.KeepsName W MetadataDefault.
Proof.
    intros t mail w. cbn. unfold MetadataDefaultOps.load_metadata. rewrite bind_eq.
    destruct (io_getxattrs _ _ w) as [[ret m] w1]. cbn [fst snd]. case_decide; [|by destruct mail].
    rewrite bind_eq. destruct (Extended.get_all_keys_and_values _ _ _ w1) as [[r ex] w2]. by destruct mail.
Qed.
#[export] Instance ima_keeps_name `{Jansson} `{Librados W} : LoadObjects.KeepsName W MetadataIma.
Proof.
    intros t mail w. cbn. unfold MetadataImaOps.load_metadata. case_decide; [done|]. rewrite bind_eq.
    destruct (MetadataImaOps.getxattrs_retry _ _ _ _ w) as [[ret m] w1]. cbn [fst snd]. case_decide; [done|].
    destruct (match m !! _ with Some _ => _ | None => _ end) as [[at_ ex]|]; [|done].
    case_match; [|by destruct mail].
    rewrite bind_eq. destruct (Extended.get_all_keys_and_values _ _ _ w1) as [[r ex'] w2]. by destruct mail.
Qed.
#[export] Instance chosen_keeps_name `{Jansson} `{Librados W} : LoadObjects.KeepsName W (MetadataDefault + MetadataIma).
Proof. intros [t|t] mail w; apply (LoadObjects.ms_load_name t). Qed.

(** ** Properties *)

(** C28. Loading the mails of a namespace: however the callbacks are interleaved with the
    submissions, no run goes on for ever, a run stops only when it is finished or a callback
    aborts the program, and when it is finished the result has, by their names, exactly the
    objects whose calls the run took, each once, whatever the order asked for. The objects
    taken are some of those listed, in their order. *)
Theorem loaded_mails_are_listed `{Librados W} `{LoadObjects.KeepsName W T} (io : ioctx) (ms : T) load sort_string oids w :
  sn (LoadObjects.step io ms load) (LoadObjects.init oids w) ∧
  (∀ s, rtc (LoadObjects.step io ms load) (LoadObjects.init oids w) s →
     LoadObjects.finished s ∨ LoadObjects.aborts io ms load s ∨ ∃ s', LoadObjects.step io ms load s s') ∧
  (∀ s, rtc (LoadObjects.step io ms load) (LoadObjects.init oids w) s ↔
        ∃ taken, LoadObjects.run io ms load (LoadObjects.init oids w) taken s) ∧
  ∀ s taken, LoadObjects.run io ms load (LoadObjects.init oids w) taken s → LoadObjects.finished s →
    sublist taken oids ∧ rm_oid <$> LoadObjects.loaded load sort_string s ≡ₚ taken.
Proof.
  split_and!; [apply LoadObjects.load_step_terminates|..].
  - intros s Hr. apply (LoadObjects.load_step_progress _ _ _ oids). by eapply LoadObjects.inv_reachable.
  - intros s. split; [apply LoadObjects.rtc_run|]. intros [taken Hr]. by eapply LoadObjects.run_rtc.
  - intros s taken Hr Hf. pose proof (LoadObjects.run_names _ _ _ _ _ _ Hr) as Hn. cbn in Hn.
    apply LoadObjects.run_rtc in Hr. pose proof (LoadObjects.inv_reachable io ms load oids w s Hr) as Hi.
    destruct (LoadObjects.inv_names oids s Hi Hf) as [Hs Hp]. rewrite Hn in *. split; [done|]. rewrite <- Hp.
    unfold LoadObjects.loaded. destruct load; [|done]. by rewrite LoadObjects.list_sort_perm.
Qed.

(** A namespace with one mail whose attributes are in order. *)
Definition one_mail : MemCluster :=
  mk_mem {[(mk_ioctx "mail_storage" "u1", "o1") := mk_robject "From: a"
    (<["U" := "7"]> (<["R" := "1500000000"]> (<["Z" := "7"]> (<["V" := "8"]>
      (<["M" := "b1"]> {["G" := "g1"]}))))) ∅ 17]} [] 1000.
Definition u1_ctx : ioctx := mk_ioctx "mail_storage" "u1".

(** The callback runs after the mail has its name, or before. *)
Lemma one_mail_runs :
  let step := LoadObjects.step u1_ctx (mk_default u1_ctx) true in
  (∃ s, rtc step (LoadObjects.init ["o1"] one_mail) s ∧ LoadObjects.finished s ∧
     (λ m, (rm_oid m, rm_valid m)) <$> LoadObjects.mail_objects s = [("o1", true)]) ∧
  (∃ s, rtc step (LoadObjects.init ["o1"] one_mail) s ∧ LoadObjects.finished s ∧
     (λ m, (rm_oid m, rm_valid m)) <$> LoadObjects.mail_objects s = [("o1", false)]).
Proof.
  split; eexists; (split; [eapply rtc_l; [apply LoadObjects.step_submit|]|]).
  - eapply rtc_l; [apply LoadObjects.step_name|].
    eapply rtc_l; [eapply (LoadObjects.step_callback _ _ _ 0 "o1" _ _ [] None _ [] []);
                   [reflexivity|vm_compute; reflexivity]|]. apply rtc_refl.
  - split; [done|]. vm_compute. reflexivity.
  - eapply rtc_l; [eapply (LoadObjects.step_callback _ _ _ 0 "o1" _ _ [] (Some (0%nat, "o1")) _ [] []);
                   [reflexivity|vm_compute; reflexivity]|].
    eapply rtc_l; [apply LoadObjects.step_name|]. apply rtc_refl.
  - split; [done|]. vm_compute. reflexivity.
Qed.

Lemma loaded_mails_are_listed_witness :
  ∃ s, LoadObjects.run u1_ctx (mk_default u1_ctx) true (LoadObjects.init ["o1"] one_mail) ["o1"] s ∧
    rm_oid <$> LoadObjects.loaded true "uid" s ≡ₚ ["o1"].
Proof.
  destruct (loaded_mails_are_listed u1_ctx (mk_default u1_ctx) true "uid" ["o1"] one_mail) as (_ & _ & _ & Hl).
  eexists. assert (∀ A B : Prop, A → (A → B) → A ∧ B) as Hand by auto. apply Hand; clear Hand.
  - eapply LoadObjects.run_step; [apply LoadObjects.step_submit| |].
    + eapply LoadObjects.run_step; [apply LoadObjects.step_name| |].
      * eapply LoadObjects.run_step; [|apply LoadObjects.run_nil|].
        { eapply (LoadObjects.step_callback _ _ _ 0 "o1" _ _ [] None _ [] []); [reflexivity|vm_compute; reflexivity]. }
        reflexivity.
      * reflexivity.
    + reflexivity.
  - intros Hr. apply (Hl _ _ Hr). done.
Defined.
