(* ===== verification/RmbCommands.v ===== *)
(** The commands of the tool that change mails and users: librmb/tools/rmb/rmb-commands.cpp,
    over the storage, the configuration object and the metadata modules. What a
    command prints is left out. *)
From S2P Require Export Stays LoadObjects NamespaceMgr.
Local Open Scope rmb_scope.

Module Commands.
Section commands.
Context `{Jansson} `{Librados W}.
(** The options of the command line, and the storage. *)
  Abbreviation options := (gmap string string).
  Abbreviation M := (ST (options * Storage.state W)).

(** [opts[key]], which adds an empty option that is not there. *)
Definition opt (key : string) : M string :=
    λ '(o, s), let v := default "" (o !! key) in (v, (<[key := v]> o, s)).
Definition set_opt (key v : string) : M unit := on_fst (st_modify (insert key v)).
Definition storage {A} (m : ST (Storage.state W) A) : M A := on_snd m.

Definition delete_mail (confirmed : bool) : M Z :=
    if negb confirmed then mret (-1) else
    oid ← opt "to_delete"; storage (Storage.delete_mail_oid oid).

(** [ret] and [mail_objects] are the answer of [load_objects]; the query "-" that is
    read before it is always in order. *)
Definition delete_namespace {T} (ms : option T) (ret : Z) (mail_objects : list RadosMail)
      (cfg : option RadosCephConfig) (confirmed : bool) : M Z :=
    match ms, cfg with
    | Some _, Some cfg =>
        if decide (ret < 0 ∨ length mail_objects = 0%nat) then mret ret else
        st_iter (λ m, set_opt "to_delete" (rm_oid m) ;; delete_mail confirmed ;; mret tt) mail_objects ;;
        if CephConfig.is_user_mapping cfg then
          ns ← opt "namespace";
          set_opt "to_delete" (ns +:+ user_suffix (cc_config cfg)) ;;
          storage (Storage.set_namespace "users") ;;
          delete_mail confirmed ;;
          mret 0
        else mret 0
    | _, _ => mret (-1)
    end.

Definition rename_user (now : Z) (cfg : option RadosCephConfig) (confirmed : bool) (uid : string) : M Z :=
    match cfg with
    | None => mret (-1)
    | Some cfg =>
        if negb (CephConfig.is_user_mapping cfg) then mret (-1) else
        if negb confirmed then mret (-1) else
        let c := cc_config cfg in
        let src_ := uid +:+ user_suffix c in
        to_rename ← opt "to_rename";
        let dest_ := to_rename +:+ user_suffix c in
        if decide (src_ = dest_) then mret (-1) else
        storage (Storage.set_namespace (user_ns c)) ;;
        '(found, _) ← storage (Storage.stat_mail src_);
        if decide (found < 0) then mret (-1) else
        '(found, _) ← storage (Storage.stat_mail dest_);
        if decide (found >= 0) then mret (-1) else
        ret ← storage (Storage.copy now src_ (c_str (user_ns c)) dest_ (c_str (user_ns c)) []);
        if decide (ret = 0) then storage (Storage.delete_mail_oid src_) else mret ret
    end.

(** [opts] is only read. *)
Definition configuration (o : options) (confirmed : bool) : ST (RadosCephConfig * W) Z :=
    let has_ls := bool_decide (is_Some (o !! "print_cfg")) in
    match o !! "update" with
    | None => if has_ls then mret 0 else mret (-1)
    | Some update =>
        if has_ls then mret (-1) else
        if negb confirmed then mret (-1) else
        match str_find "=" update with
        | None => mret (-1)
        | Some key_val_separator_idx =>
            let key := str_take key_val_separator_idx update in
            let key_val := substr (S key_val_separator_idx) (slen update - 1) update in
            c ← CephConfig.get;
            let '(ok, cfg) := CephConfig.update_valid_key_value key key_val (cc_config c) in
            CephConfig.modify (λ _, cfg) ;;
            if negb ok then mret (-1) else
            r ← CephConfig.save_cfg;
            if decide (r < 0) then mret (-1) else mret 0
        end
    end.

(** One attribute of [update_attributes]; a key is used by its first character. *)
Definition first_key (key : string) : string :=
    String (default NUL (String.get 0 key)) "".
Definition attribute_value `{LocalTime} (key value : string) : string :=
    let is_date := bool_decide (first_key key = rbox_metadata_key_to_char RBOX_METADATA_OLDV1_SAVE_TIME) ||
                   bool_decide (first_key key = rbox_metadata_key_to_char RBOX_METADATA_RECEIVED_TIME) in
    if is_date && negb (is_numeric (Some value)) then default value (Query.convert_string_to_date value) else value.
Definition update_attributes `{LocalTime} `{MetadataModule W T} (ms : T) (metadata : gmap string string) : M Z :=
    oid ← opt "set";
    if decide (oid ≠ "" ∧ metadata ≠ ∅) then
      st_iter (λ '(key, value),
        '(_, obj) ← on_snd (Storage.world (ms_load_metadata ms (Mail.set_oid oid Mail.new)));
        on_snd (Storage.world (ms_set_metadata ms obj
          (mk_metadata (first_key key) (attribute_value key value +:+ nul_string)))) ;;
        mret tt) (map_items metadata) ;;
      mret 0
    else mret (-1).

(** [load_objects] for the index object: the objects whose attributes are in order.
    [None]: the program aborts. *)
Fixpoint valid_oids `{MetadataModule W T} (ms : T) (oids : list string) (mail_list : gset string) :
      ST (Storage.state W) (option (gset string)) :=
    match oids with
    | [] => mret (Some mail_list)
    | oid :: oids =>
        '(load_metadata_ret, mail) ← Storage.world (ms_load_metadata ms (Mail.set_oid oid Mail.new));
        match load_metadata_ret with
        | None => mret None
        | Some ret =>
            if bool_decide (ret < 0) || negb (validate_metadata (rm_attrset mail)) then valid_oids ms oids mail_list
            else valid_oids ms oids ({[oid]} ∪ mail_list)
        end
    end.
Definition load_objects `{MetadataModule W T} (ms : T) : ST (Storage.state W) (option (gset string)) :=
    oids ← Storage.find_mails None; valid_oids ms oids ∅.
Definition overwrite_ceph_object_index : gset string → ST (Storage.state W) Z := Storage.ceph_index_overwrite.
Definition append_ceph_object_index : gset string → ST (Storage.state W) Z := Storage.ceph_index_append_set.
Definition remove_ceph_object_index : ST (Storage.state W) Z := Storage.ceph_index_delete.
End commands.
End Commands.

(** ** Lemmas *)

Section storage_lemmas.
Context `{LibradosLaws W}.
  Implicit Types s : Storage.state W.

(** Copying an object within a namespace and removing it under its old name. *)
Lemma copy_delete_spec now src dest ns s ob :
    Storage.usable s = true → set_io_ns ns (st_io_ctx s.1) = st_io_ctx s.1 → src ≠ dest →
    let key oid := (st_io_ctx s.1, oid) in
    objects s !! key src = Some ob →
    let '(r, s') := (ret ← Storage.copy now src ns dest ns [];
                     if decide (ret = 0) then Storage.delete_mail_oid src else mret ret) s in
    (objects s' !! key src = Some ob ∨ objects s' !! key dest = Some (copied now [] ob)) ∧
    (∀ k, k ≠ key src → k ≠ key dest → objects s' !! k = objects s !! k) ∧
    (r = 0 → objects s' !! key dest = Some (copied now [] ob) ∧ objects s' !! key src = None).
Proof.
    intros Hu Hio Hne key. cbv beta delta [key]. clear key.
    set (ks := (st_io_ctx s.1, src)). set (kd := (st_io_ctx s.1, dest)). intros Hob. rewrite bind_eq.
    pose proof (copy_spec now src ns dest ns [] s Hu) as Hc. cbn zeta in Hc. unfold ns_ctx in Hc.
    rewrite bool_decide_eq_true_2 in Hc by done. cbn [negb] in Hc. rewrite Hio in Hc.
    destruct (Storage.copy _ _ _ _ _ _ s) as [ret s1]. cbn [fst snd].
    fold ks kd in Hc. destruct Hc as (Hs1 & _ & Hf & Hok & _).
    assert (ks ≠ kd) as Hk by (unfold ks, kd; congruence).
    assert (objects s1 !! ks = Some ob) as Hsrc by (rewrite Hf by done; done).
    case_decide as Hr; [|split_and!; [by left|intros; by rewrite Hf|done]].
    destruct (Hok ltac:(lia)) as (ob' & Hob' & Hd). rewrite Hob in Hob'. injection Hob' as <-.
    pose proof (delete_oid_spec src s1) as Hdel. rewrite Hs1 in Hdel.
    replace (st_io_ctx (Storage.set_ctx (st_io_ctx s.1) s.1)) with (st_io_ctx s.1) in Hdel by by destruct s as [[] ?].
    fold ks in Hdel. destruct (Storage.delete_mail_oid src s1) as [r s2].
    destruct Hdel as (_ & _ & Hf2 & Hd2 & _).
    assert (objects s2 !! kd = Some (copied now [] ob)) as Hd' by (rewrite Hf2 by done; done).
    split_and!; [by right|intros; rewrite Hf2, Hf by done; done|].
    intros ->. split; [done|]. rewrite Hd2 by lia. apply lookup_delete_eq.
Qed.
End storage_lemmas.

(** ** Properties *)

(** C15. Renaming a user never loses the object that maps it to its namespace: after the
    command, whatever it answers and whatever fails, the object is where it was or a copy of
    it is at the new name; no other object has changed; and when the answer is 0 the object
    is at the new name only. *)
Theorem rename_keeps_user `{LibradosLaws W} now cfg confirmed uid (o : gmap string string) (s : Storage.state W) ob :
  Storage.usable s = true → free_of NUL (user_ns (cc_config cfg)) = true →
  let io := set_io_ns (user_ns (cc_config cfg)) (st_io_ctx s.1) in
  let src := (io, uid +:+ user_suffix (cc_config cfg)) in
  let dest := (io, default "" (o !! "to_rename") +:+ user_suffix (cc_config cfg)) in
  objects s !! src = Some ob →
  let '(r, (_, s')) := Commands.rename_user now (Some cfg) confirmed uid (o, s) in
  (objects s' !! src = Some ob ∨ objects s' !! dest = Some (copied now [] ob)) ∧
  (∀ k, k ≠ src → k ≠ dest → objects s' !! k = objects s !! k) ∧
  (r = 0 → objects s' !! dest = Some (copied now [] ob) ∧ objects s' !! src = None).
Proof.
  intros Hu Hns io src dest Hob.
  unfold Commands.rename_user. destruct (CephConfig.is_user_mapping cfg); cbn [negb];
    [|split_and!; [by left|done|done]].
  destruct confirmed; cbn [negb]; [|split_and!; [by left|done|done]].
  rewrite bind_eq. unfold Commands.opt. cbn [fst snd].
  case_decide as Hne; [split_and!; [by left|done|done]|].
  unfold Commands.storage. rewrite bind_eq, on_snd_run, set_namespace_run. cbn [fst snd].
  set (s1 := (_, s.2)). rewrite bind_eq, on_snd_run. cbn [fst snd].
  pose proof (stat_spec (uid +:+ user_suffix (cc_config cfg)) s1) as (E1 & F1 & O1).
  destruct (Storage.stat_mail _ s1) as [[found out] s2]. cbn [fst snd] in *.
  case_decide; [rewrite ret_eq, O1; split_and!; [by left|done|lia]|].
  rewrite bind_eq, on_snd_run. cbn [fst snd].
  pose proof (stat_spec (default "" (o !! "to_rename") +:+ user_suffix (cc_config cfg)) s2) as (E2 & F2 & O2).
  destruct (Storage.stat_mail _ s2) as [[found' out'] s3]. cbn [fst snd] in *.
  case_decide; [rewrite ret_eq, O2, O1; split_and!; [by left|done|lia]|].
  rewrite c_str_id by done.
  assert (st_io_ctx s3.1 = io) as Hio by (rewrite E2, E1; by destruct s as [[] ?]).
  assert (Storage.usable s3 = true) as Hu3.
  { unfold Storage.usable. rewrite E2, E1, F2, F1. exact Hu. }
  assert (objects s3 = objects s) as O3 by (rewrite O2, O1; done).
  pose proof (copy_delete_spec now (uid +:+ user_suffix (cc_config cfg))
    (default "" (o !! "to_rename") +:+ user_suffix (cc_config cfg)) (user_ns (cc_config cfg)) s3 ob Hu3) as Hc.
  cbv zeta in Hc. rewrite Hio, O3 in Hc. fold src dest in Hc. specialize (Hc eq_refl Hne Hob).
  rewrite bind_eq, on_snd_run. cbn [fst snd]. rewrite bind_eq in Hc.
  destruct (Storage.copy _ _ _ _ _ _ s3) as [ret s4]. cbn [fst snd] in *. case_decide; [|exact Hc].
  rewrite on_snd_run. destruct (Storage.delete_mail_oid _ s4) as [r s5]. exact Hc.
Qed.

Definition alice : okey := (mk_ioctx "mail_storage" "users", "alice_u").
Definition bob : okey := (mk_ioctx "mail_storage" "users", "bob_u").
Definition users_config : RadosCephConfig :=
  mk_ceph_config (JsonConfig.set_user_ns "users" (JsonConfig.set_user_suffix "_u"
    (JsonConfig.set_user_mapping "true" JsonConfig.new))) None.
Definition mapping_object (ns : string) : robject := mk_robject ns ∅ ∅ 17.
Lemma rename_keeps_user_witness :
  let s := mem_state "" {[alice := mapping_object "ns_a"]} [] in
  let '(r, (_, s')) := Commands.rename_user 99 (Some users_config) true "alice" ({["to_rename" := "bob"]}, s) in
  r = 0 ∧ objects s' !! bob = Some (copied 99 [] (mapping_object "ns_a")) ∧ objects s' !! alice = None.
Proof.
  intros s. assert (objects s !! alice = Some (mapping_object "ns_a")) as Hob by (vm_compute; reflexivity).
  pose proof (rename_keeps_user 99 users_config true "alice" {["to_rename" := "bob"]} s (mapping_object "ns_a")
    eq_refl eq_refl Hob) as Hr.
  destruct (Commands.rename_user 99 _ true "alice" _) as [r [o s']] eqn:E.
  assert (r = 0) as ->.
  { transitivity (Commands.rename_user 99 (Some users_config) true "alice" ({["to_rename" := "bob"]}, s)).1;
      [by rewrite E|vm_compute; reflexivity]. }
  split; [reflexivity|]. apply Hr. reflexivity.
Defined.

(** Any failure of the [stat] of the new name is taken to mean that the name is free: when
    it times out, the object of the user with that name is overwritten, and "bob" has the
    mails of "alice". *)
Lemma rename_overwrites_user :
  let s := mem_state "" (<[bob := mapping_object "ns_b"]> {[alice := mapping_object "ns_a"]}) [0; - ETIMEDOUT] in
  let '(r, (_, s')) := Commands.rename_user 99 (Some users_config) true "alice" ({["to_rename" := "bob"]}, s) in
  r = 0 ∧ ob_data <$> objects s' !! bob = Some "ns_a".
Proof. vm_compute. done. Qed.
