(* ===== verification/Reports.v ===== *)
(** What the tools print: the reports of a mail and of a mailbox ([to_string] of
    librmb/rados-mail.cpp and librmb/tools/rmb/rados-mail-box.h, with [convert_time_t_to_str]
    of librmb/rados-util.cpp), and of the two configurations ([to_string] of
    librmb/rados-ceph-json-config.cpp and rados-dovecot-config.cpp). *)
From S2P Require Export RmbCommands DovecotConfig.
From Stdlib Require Import Ascii.
Local Open Scope rmb_scope.

(** [localtime_r] and [strftime] with the format of the reports. *)
Class LocalDate := { local_date : Z → string }.

Module Report.
Definition endl : string := String "010" "".
(** A line that depends on an attribute. *)
Definition if_some (v : option string) (line : string → string) : string := from_option line "" v.

Section report.
Context `{LocalDate}.
(** The code and the text; the text of [-1] is not used by the callers. *)
Definition convert_time_t_to_str (t : Z) : Z * string :=
    if decide (t = -1) then (-1, "invalid date") else (0, local_date t).

(** The attribute of a received mail as a time. *)
Definition received_time (recv_time_str : option string) : Z :=
    match recv_time_str with
    | Some recv => match stol recv with ParseOk ts => ts | _ => -1 end
    | None => -1
    end.
Definition extended_lines (attrs : gmap string bufferlist) : string :=
    String.concat "" ((λ '(k, v), "                             " +:+ k +:+ " : " +:+ v +:+ endl) <$> map_items attrs).

Definition mail_to_string (padding : string) (mail : RadosMail) : string :=
    let get k := get_metadata_key k (rm_attrset mail) in
    let name k := rbox_metadata_key_to_char k in
    let indent := padding +:+ "        " in
    let uid := get RBOX_METADATA_MAIL_UID in
    let recv_time_str := get RBOX_METADATA_RECEIVED_TIME in
    let p_size := get RBOX_METADATA_PHYSICAL_SIZE in
    let v_size := get RBOX_METADATA_VIRTUAL_SIZE in
    let rbox_version := get RBOX_METADATA_VERSION in
    let mailbox_guid := get RBOX_METADATA_MAILBOX_GUID in
    let mail_guid := get RBOX_METADATA_GUID in
    let mb_orig_name := get RBOX_METADATA_ORIG_MAILBOX in
    let flags := get RBOX_METADATA_OLDV1_FLAGS in
    let pvt_flags := get RBOX_METADATA_PVT_FLAGS in
    let from_envelope := get RBOX_METADATA_FROM_ENVELOPE in
    let '(recv, recv_time) := convert_time_t_to_str (received_time recv_time_str) in
    let '(saved, save_time) := convert_time_t_to_str (rm_save_date_rados mail) in
    endl +:+
    (if rm_valid mail then "" else padding +:+ "<<<   MAIL OBJECT IS NOT VALID <<<<" +:+ endl) +:+
    (if rm_index_ref mail then ""
     else padding +:+ "<<<   MAIL OBJECT HAS NO INDEX REFERENCE <<<< oid: " +:+ rm_oid mail +:+ endl) +:+
    padding +:+ "MAIL:   " +:+
    if_some uid (λ uid, name RBOX_METADATA_MAIL_UID +:+ "(uid)=" +:+ uid +:+ endl +:+ indent) +:+
    "oid = " +:+ rm_oid mail +:+ endl +:+
    (if decide (recv >= 0) then indent +:+ name RBOX_METADATA_RECEIVED_TIME +:+ "(receive_time)=" +:+ recv_time +:+ endl
     else if_some recv_time_str (λ s, indent +:+ name RBOX_METADATA_RECEIVED_TIME +:+ "(receive_time)= INVALID DATE : '" +:+
                                      s +:+ "'" +:+ endl)) +:+
    (if decide (saved >= 0) then indent +:+ "save_time=" +:+ save_time +:+ endl
     else indent +:+ "save_time= UNKNOWN '" +:+ to_string (rm_save_date_rados mail) +:+ "'" +:+ endl) +:+
    match p_size, v_size with
    | Some p_size, Some v_size =>
        indent +:+ name RBOX_METADATA_PHYSICAL_SIZE +:+ "(phy_size)=" +:+ p_size +:+ " " +:+ name RBOX_METADATA_VIRTUAL_SIZE +:+
        "(v_size) = " +:+ v_size +:+ " stat_size=" +:+ to_string (rm_object_size mail) +:+ endl
    | _, _ => ""
    end +:+
    if_some mailbox_guid (λ g, indent +:+ name RBOX_METADATA_MAILBOX_GUID +:+ "(mailbox_guid)=" +:+ g +:+ endl) +:+
    if_some mb_orig_name (λ n, indent +:+ name RBOX_METADATA_ORIG_MAILBOX +:+ "(mailbox_orig_name)=" +:+ n +:+ endl) +:+
    if_some mail_guid (λ g, indent +:+ name RBOX_METADATA_GUID +:+ "(mail_guid)=" +:+ g +:+ endl) +:+
    if_some rbox_version (λ v, indent +:+ name RBOX_METADATA_VERSION +:+ "(rbox_version): " +:+ v +:+ endl) +:+
    (if decide (rm_extended_attrset mail = ∅) then ""
     else indent +:+ name RBOX_METADATA_OLDV1_KEYWORDS +:+ "(keywords): " +:+ endl +:+ extended_lines (rm_extended_attrset mail)) +:+
    match flags ≫= string_to_flags with
    | Some flags_ => indent +:+ name RBOX_METADATA_OLDV1_FLAGS +:+ "(flags): " +:+ resolve_flags flags_ +:+ endl
    | None => ""
    end +:+
    if_some pvt_flags (λ f, indent +:+ name RBOX_METADATA_PVT_FLAGS +:+ "(private flags): " +:+ f +:+ endl) +:+
    if_some from_envelope (λ f, indent +:+ name RBOX_METADATA_FROM_ENVELOPE +:+ "(from envelope): " +:+ f +:+ endl).

Definition mailbox_to_string (mailbox : RadosMailBox) : string :=
    endl +:+ "MAILBOX: " +:+ rbox_metadata_key_to_char RBOX_METADATA_MAILBOX_GUID +:+ "(mailbox_guid)=" +:+ mx_mailbox_guid mailbox +:+
    endl +:+ "         " +:+ rbox_metadata_key_to_char RBOX_METADATA_ORIG_MAILBOX +:+ "(mailbox_orig_name)=" +:+ mx_orig_name mailbox +:+
    endl +:+ "         mail_total=" +:+ to_string (mx_total_mails mailbox) +:+ ", mails_displayed=" +:+
    to_string (Z.of_nat (length (mx_mails mailbox))) +:+
    endl +:+ "         mailbox_size=" +:+ to_string (mx_mailbox_size mailbox) +:+ " bytes " +:+ endl +:+
    String.concat "" (mail_to_string "         " <$> mx_mails mailbox).
End report.

(** A setting on a line of its own. *)
Definition setting_line (kv : string * string) : string := "  " +:+ kv.1 +:+ "=" +:+ kv.2.
Definition ceph_settings (c : RadosCephJsonConfig) : list (string * string) :=
    [(JsonConfig.key_user_mapping, user_mapping c); (JsonConfig.key_user_ns, user_ns c);
     (JsonConfig.key_user_suffix, user_suffix c); (JsonConfig.key_public_namespace, public_namespace c);
     (JsonConfig.key_update_attributes, update_attributes c); (JsonConfig.key_mail_attributes, mail_attributes c);
     (JsonConfig.key_updateable_attributes, updateable_attributes c);
     (JsonConfig.key_metadata_storage_module, metadata_storage_module c);
     (JsonConfig.key_metadata_storage_attribute, metadata_storage_attribute c)].
Definition ceph_config_to_string (c : RadosCephJsonConfig) : string :=
    join_term "010" (("Configuration : " +:+ cfg_object_name c) :: (setting_line <$> ceph_settings c)).
(** Reading a setting with [config[key]] adds an empty one that is not there. *)
Definition dovecot_settings : list string :=
    [DovecotConfig.pool_name; DovecotConfig.index_pool_name; DovecotConfig.rbox_cfg_object_name; DovecotConfig.rbox_cluster_name;
     DovecotConfig.rados_username; DovecotConfig.bugfix_cephfs_posix_hardlinks; DovecotConfig.save_log;
     DovecotConfig.rbox_check_empty_mailboxes; DovecotConfig.rbox_ceph_aio_wait_for_safe_and_cb;
     DovecotConfig.rbox_ceph_write_chunks; DovecotConfig.rbox_write_method; DovecotConfig.rbox_chunk_size;
     DovecotConfig.rbox_object_search_method; DovecotConfig.rbox_object_search_threads].
Definition dovecot_config_to_string (c : RadosConfig) : string * RadosConfig :=
    (join_term "010" ("Dovecot configuration: (90-plugin.conf)" ::
       ((λ key, setting_line (key, RadosConfigOps.get key c)) <$> dovecot_settings)),
     mk_dovecot_config (foldl (λ m key, if decide (m !! key = None) then <[key := ""]> m else m) (dc_config c) dovecot_settings)
       (dc_is_valid c)).
End Report.

(** ** The report of the configuration and its update *)

Lemma str_drop_drop_app n a b : str_drop n b = str_drop (slen a + n) (a +:+ b).
Proof. by rewrite <- str_drop_drop, str_drop_app. Qed.

Module ReportRun.
Section update.
Context `{Jansson} `{LibradosLaws W}.
  Implicit Types z : RadosCephConfig * W.

(** The lines of a report below its first, each given to the command that updates a setting. *)
Definition update_all (report : string) : ST (RadosCephConfig * W) unit :=
    st_iter (λ line, Commands.configuration {["update" := str_drop 2 line]} true ;; mret tt) (tail (getline_split "010" report)).
Definition update_config (c : RadosCephJsonConfig) (kv : string * string) : RadosCephJsonConfig :=
    (CephConfig.update_valid_key_value kv.1 kv.2 c).2.
(** A setting that the update accepts. *)
Definition accepted (kv : string * string) : Prop :=
    free_of "=" kv.1 = true ∧ ∀ c, (CephConfig.update_valid_key_value kv.1 kv.2 c).1 = true.

Lemma save_cfg_config z : (CephConfig.save_cfg z).2.1 = z.1.
Proof.
    unfold CephConfig.save_cfg, CephConfig.save_object. rewrite bind_eq, config_get_run. cbn [fst snd JsonConfig.to_json].
    rewrite !bind_eq, config_get_run. cbn [fst snd].
    destruct (cc_io_ctx z.1); [rewrite config_world_run|]; by rewrite !ret_eq.
Qed.
Lemma update_line kv z : accepted kv →
    cc_config (Commands.configuration {["update" := str_drop 2 (Report.setting_line kv)]} true z).2.1 = update_config (cc_config z.1) kv.
Proof.
    intros [Hkey Hok]. unfold Commands.configuration. rewrite lookup_singleton_eq, lookup_singleton_ne by done.
    cbn [negb]. rewrite bool_decide_false by (by intros [? ?]). change (str_drop 2 (Report.setting_line kv)) with (kv.1 +:+ String "=" kv.2).
    rewrite (str_find_char "="), bind_eq, config_get_run by done. cbn [fst snd].
    rewrite str_take_app. unfold substr. rewrite str_take_ge by (rewrite slen_drop, slen_app; cbn; lia).
    rewrite <- (Nat.add_1_r (slen kv.1)), <- str_drop_drop_app. cbn [str_drop].
    unfold update_config. specialize (Hok (cc_config z.1)).
    destruct (CephConfig.update_valid_key_value _ _ _) as [ok cfg]. cbn [fst snd] in *. subst ok.
    rewrite bind_eq, config_modify_run. cbn [negb fst snd]. rewrite bind_eq.
    pose proof (save_cfg_config (mk_ceph_config cfg (cc_io_ctx z.1), z.2)) as Hs.
    destruct (CephConfig.save_cfg _) as [r z']. cbn [fst snd] in *. case_decide; rewrite ret_eq; cbn; by rewrite Hs.
Qed.
Lemma update_lines l z : Forall accepted l →
    cc_config (st_iter (λ line, Commands.configuration {["update" := str_drop 2 line]} true ;; mret tt) (Report.setting_line <$> l) z).2.1 =
    foldl update_config (cc_config z.1) l.
Proof.
    intros Hl. revert z. induction Hl as [|kv l Hkv _ IH]; intros z; [done|].
    cbn [fmap list_fmap st_iter foldl]. rewrite !bind_eq, ret_eq. cbn [fst snd]. rewrite <- update_line by done.
    apply IH.
Qed.
End update.
Lemma accepted_settings c : Forall (λ kv, kv.2 ≠ "") (Report.ceph_settings c) → Forall accepted (Report.ceph_settings c).
Proof.
  unfold Report.ceph_settings. rewrite !list.Forall_cons. cbn [fst snd]. intros H.
  repeat match goal with |- _ ∧ _ => split end; [..|constructor]; (split; [reflexivity|]); intros d;
    unfold CephConfig.update_valid_key_value; cbn [fst snd];
    (rewrite decide_False by (intros [E|E]; [naive_solver|discriminate E])); reflexivity.
Qed.
Lemma update_setters : Forall (λ '(key, f), ∀ v d, v ≠ "" → (CephConfig.update_valid_key_value key v d).2 = f v d)
  [(JsonConfig.key_user_mapping, JsonConfig.set_user_mapping); (JsonConfig.key_user_ns, JsonConfig.set_user_ns);
   (JsonConfig.key_user_suffix, JsonConfig.set_user_suffix); (JsonConfig.key_public_namespace, JsonConfig.set_public_namespace);
   (JsonConfig.key_update_attributes, JsonConfig.set_update_attributes); (JsonConfig.key_mail_attributes, JsonConfig.set_mail_attributes);
   (JsonConfig.key_updateable_attributes, JsonConfig.set_updateable_attributes);
   (JsonConfig.key_metadata_storage_module, JsonConfig.set_metadata_storage_module);
   (JsonConfig.key_metadata_storage_attribute, JsonConfig.set_metadata_storage_attribute)].
Proof.
  repeat apply list.Forall_cons_2; [..|constructor]; intros v d Hv; unfold CephConfig.update_valid_key_value;
    (rewrite decide_False by (intros [E|E]; [contradiction|discriminate E])); reflexivity.
Qed.
Lemma update_all_settings c d : Forall (λ kv, kv.2 ≠ "") (Report.ceph_settings c) →
  Report.ceph_settings (foldl update_config d (Report.ceph_settings c)) = Report.ceph_settings c.
Proof.
  pose proof update_setters as Hs. unfold Report.ceph_settings at 1 3. rewrite !list.Forall_cons in Hs. rewrite !list.Forall_cons. cbn [fst snd].
  intros (H1 & H2 & H3 & H4 & H5 & H6 & H7 & H8 & H9 & _). cbn [foldl]. unfold update_config. cbn [fst snd].
  destruct Hs as (S1 & S2 & S3 & S4 & S5 & S6 & S7 & S8 & S9 & _).
  rewrite S1, S2, S3, S4, S5, S6, S7, S8, S9 by done. by destruct d.
Qed.
End ReportRun.

(** The report of the configuration ([cfg show]) is complete and can be read: its lines,
    given back one after the other to [cfg update], set every setting of any configuration
    to the value that was reported, whether or not the updates could be saved. *)
Theorem printed_config_is_restored `{Jansson} `{LibradosLaws W} c d (w : W) :
  Forall (λ kv, kv.2 ≠ "" ∧ free_of "010" kv.2 = true) (Report.ceph_settings c) → free_of "010" (cfg_object_name c) = true →
  Report.ceph_settings (cc_config (ReportRun.update_all (Report.ceph_config_to_string c) (d, w)).2.1) = Report.ceph_settings c.
Proof.
  intros Hc Hn. unfold ReportRun.update_all, Report.ceph_config_to_string.
  assert (Forall (λ kv, free_of "010" kv.1 = true) (Report.ceph_settings c)) as Hk by repeat constructor.
  rewrite getline_split_join_term; [|constructor; [by rewrite free_of_app, Hn|apply Forall_fmap, list.Forall_forall]].
  2:{ intros kv Hin. rewrite list.Forall_forall in Hc, Hk. cbn [compose]. unfold Report.setting_line.
      rewrite !free_of_app, (Hk kv Hin), (proj2 (Hc kv Hin)). reflexivity. }
  cbn [tail]. assert (Forall (λ kv, kv.2 ≠ "") (Report.ceph_settings c)) as Hv by (eapply list.Forall_impl; [exact Hc|by intros kv []]).
  rewrite ReportRun.update_lines by by apply ReportRun.accepted_settings. by apply ReportRun.update_all_settings.
Qed.
Definition reported_config : RadosCephJsonConfig := JsonConfig.set_user_mapping "true" (JsonConfig.set_user_ns "all=users" JsonConfig.new).
Lemma printed_config_is_restored_witness :
  let d := mk_ceph_config JsonConfig.new None in
  user_ns (cc_config (ReportRun.update_all (Report.ceph_config_to_string reported_config) (d, mk_mem ∅ [] 0)).2.1) = "all=users".
Proof.
  intros d.
  assert (Report.ceph_settings (cc_config (ReportRun.update_all (Report.ceph_config_to_string reported_config) (d, mk_mem ∅ [] 0)).2.1) =
          Report.ceph_settings reported_config) as H.
  { apply printed_config_is_restored; [repeat constructor; discriminate|reflexivity]. }
  apply (f_equal (λ l, (default ("", "") (l !! 1%nat)).2)) in H. exact H.
Defined.

(** A date that cannot be read is reported as such, and so is the missing record. *)
#[local] Instance no_dates : LocalDate := {| local_date t := "T" +:+ to_string t |}.
Example report_of_mail :
  Report.mail_to_string "" (Mail.set_metadata {["U" := "7" +:+ nul_string; "R" := "soon"; "F" := String "009" (String "008" "")]}
    (Mail.set_rados_save_date 5 (Mail.set_oid "o1" Mail.new))) =
  String.concat Report.endl
    [""; "<<<   MAIL OBJECT HAS NO INDEX REFERENCE <<<< oid: o1"; "MAIL:   U(uid)=7"; "        oid = o1";
     "        R(receive_time)= INVALID DATE : 'soon'"; "        save_time=T5"; "        F(flags): \Seen "; ""].
Proof. vm_compute. reflexivity. Qed.
