(* ===== verification/LoadRun.v ===== *)
(** What the callers of [load_objects] see of it: an interface that gives the mails one of the
    runs of [LoadObjects] ends with, an instance whose callbacks come in the order of the
    calls, and the command that removes all mails of a namespace. *)
From S2P Require Export LoadObjects RmbCommands.
Local Open Scope rmb_scope.

(** The mails that were loaded, before they are sorted, and the world at the end;
    [None]: a callback aborts the program. *)
Class Loader (W T : Type) `{Librados W} `{MetadataModule W T} := {
  run_load : ioctx → T → bool → list string → W → option (list RadosMail * W);
}.
(** Each answer is that of a run: of one that is finished, or of one that cannot go on. *)
Class LoaderLaws (W T : Type) `{Loader W T} := {
  run_load_finished : ∀ io (ms : T) load oids (w : W) mails w', run_load io ms load oids w = Some (mails, w') →
    ∃ s, rtc (LoadObjects.step io ms load) (LoadObjects.init oids w) s ∧ LoadObjects.finished s ∧
      mails = LoadObjects.mail_objects s ∧ w' = lo_world s;
  run_load_aborts : ∀ io (ms : T) load oids (w : W), run_load io ms load oids w = None →
    ∃ s, rtc (LoadObjects.step io ms load) (LoadObjects.init oids w) s ∧ LoadObjects.aborts io ms load s;
}.

(** ** The callbacks in the order of the calls *)

Module InOrder.
Section run.
Context `{Librados W} `{MetadataModule W T}.
Variables (io : ioctx) (ms : T) (load : bool).

(** Each object is submitted, its mail gets its name, and its callback runs. *)
Fixpoint run (oids : list string) (mails : list RadosMail) (w : W) : option (list RadosMail * W) :=
    match oids with
    | [] => Some (mails, w)
    | oid :: oids =>
        match LoadObjects.complete io ms load oid (Mail.set_oid oid Mail.new) w with
        | (Some mail, w) => run oids (mails ++ [mail]) w
        | (None, _) => None
        end
    end.
(** Between two objects every mail has been given its callback. *)
Definition between (oids : list string) (mails : list RadosMail) (w : W) : loading W :=
    mk_loading oids None mails [] (seq 0 (length mails)) w.

Lemma submit_and_name oid oids mails w :
    rtc (LoadObjects.step io ms load) (between (oid :: oids) mails w)
      (mk_loading oids None (mails ++ [Mail.set_oid oid Mail.new]) [(length mails, oid)] (seq 0 (length mails)) w).
Proof.
    eapply rtc_l; [apply LoadObjects.step_submit|]. eapply rtc_l; [apply LoadObjects.step_name|].
    replace (alter (Mail.set_oid oid) (length mails) (mails ++ [Mail.new])) with (mails ++ [Mail.set_oid oid Mail.new]);
      [apply rtc_refl|]. symmetry. rewrite (alter_app_r_alt (A:=RadosMail)) by lia. by rewrite Nat.sub_diag.
Qed.
Lemma run_steps oids mails w :
    match run oids mails w with
    | Some (mails', w') => rtc (LoadObjects.step io ms load) (between oids mails w) (between [] mails' w')
    | None => ∃ s, rtc (LoadObjects.step io ms load) (between oids mails w) s ∧ LoadObjects.aborts io ms load s
    end.
Proof.
    revert mails w. induction oids as [|oid oids IH]; intros mails w; cbn [run]; [apply rtc_refl|].
    pose proof (submit_and_name oid oids mails w) as Hs.
    assert ((mails ++ [Mail.set_oid oid Mail.new]) !! length mails = Some (Mail.set_oid oid Mail.new)) as Hl
      by by rewrite lookup_app_r, Nat.sub_diag by lia.
    destruct (LoadObjects.complete _ _ _ _ _ w) as [[mail|] w1] eqn:Hc.
    - assert (rtc (LoadObjects.step io ms load) (between (oid :: oids) mails w) (between oids (mails ++ [mail]) w1)) as Hr.
      { eapply rtc_r; [exact Hs|]. unfold between. rewrite length_app, Nat.add_1_r, seq_S. cbn [Nat.add].
        replace (mails ++ [mail]) with (<[length mails := mail]> (mails ++ [Mail.set_oid oid Mail.new]))
          by by rewrite insert_app_r_alt, Nat.sub_diag by lia.
        by eapply (LoadObjects.step_callback _ _ _ _ oid _ _ _ None _ [] []). }
      specialize (IH (mails ++ [mail]) w1). destruct (run oids (mails ++ [mail]) w1) as [[mails' w']|].
      + by etrans.
      + destruct IH as (s & Hr' & Ha). exists s. split; [by etrans|done].
    - eexists. split; [exact Hs|]. exists (length mails), oid, (Mail.set_oid oid Mail.new).
      cbn [lo_pending lo_mails lo_world]. split_and!; [left|exact Hl|by rewrite Hc].
Qed.
End run.
End InOrder.

#[export] Instance in_order_loader `{Librados W} `{MetadataModule W T} : Loader W T :=
  {| run_load io ms load oids w := InOrder.run io ms load oids [] w |}.
#[export] Program Instance in_order_laws `{Librados W} `{MetadataModule W T} : LoaderLaws W T.
Next Obligation.
  intros W ? T ? io ms load oids w mails w' Hr. pose proof (InOrder.run_steps io ms load oids [] w) as Hs.
  cbn in Hr. rewrite Hr in Hs. eexists. split; [exact Hs|]. split; [done|]. unfold LoadObjects.mail_objects. cbn.
  by rewrite LoadObjects.omap_lookup_seq.
Qed.
Next Obligation.
  intros W ? T ? io ms load oids w Hr. pose proof (InOrder.run_steps io ms load oids [] w) as Hs.
  cbn in Hr. by rewrite Hr in Hs.
Qed.

Module LoadRun.
Section ops.
Context `{Loader W T}.

(** The mails are added to those the caller has, and all of them are sorted.
    [None]: the program aborts. *)
Definition load_objects (ms : option T) (mail_objects : list RadosMail) (sort_string : string) (load_metadata : bool) :
      ST (Storage.state W) (option (Z * list RadosMail)) :=
    match ms with
    | None => mret (Some (-1, mail_objects))
    | Some ms =>
        oids ← Storage.find_mails None;
        io ← Storage.io_ctx;
        loaded ← Storage.world (λ w,
          match run_load io ms load_metadata oids w with Some (l, w') => (Some l, w') | None => (None, w) end);
        mret (match loaded with
              | None => None
              | Some l =>
                  let mail_objects := mail_objects ++ l in
                  Some (0, if load_metadata then LoadObjects.list_sort (LoadObjects.order_of sort_string) mail_objects
                           else mail_objects)
              end)
    end.
(** [delete_namespace] with the loading of its mails. *)
Definition delete_namespace (ms : option T) (mail_objects : list RadosMail) (cfg : option RadosCephConfig) (confirmed : bool) :
      ST (gmap string string * Storage.state W) (option Z) :=
    match ms, cfg with
    | Some _, Some _ =>
        loaded ← on_snd (load_objects ms mail_objects "uid" true);
        match loaded with
        | None => mret None
        | Some (ret, mail_objects) => r ← Commands.delete_namespace ms ret mail_objects cfg confirmed; mret (Some r)
        end
    | _, _ => mret (Some (-1))
    end.
End ops.

(** [lspools]: what it prints; the list of the pools is asked of the handle. *)
Definition lspools `{RadosAdmin W} (pool_list : ST W (Z * list string)) : ST (RadosClusterImpl * W) (Z * list string) :=
    Cluster.init [] None ;;
    r ← Cluster.connect;
    vec ← (if decide (r < 0) then mret [] else
           '(ret, vec) ← Cluster.rados pool_list;
           mret (if decide (ret = 0) then vec else []));
    Cluster.deinit ;;
    mret (0, vec).

(** ** Lemmas *)

Section lemmas.
Context `{MetadataContract W T} `{!Loader W T} `{!LoaderLaws W T} `{!LoadObjects.KeepsName W T}.
  Implicit Types s : Storage.state W.

Lemma complete_objs io (ms : T) load oid mail w mail' w' :
    LoadObjects.complete io ms load oid mail w = (mail', w') → objs w' = objs w.
Proof.
    unfold LoadObjects.complete. rewrite bind_eq. pose proof (stat_law io oid w) as Hs.
    destruct (io_stat io oid w) as [[r out] w1]. destruct Hs as [Hs _]. cbn [fst snd]. unfold LoadObjects.aio_cb.
    destruct (default (0, 0) out) as [size date]. case_decide; [|rewrite ret_eq; by intros [= _ <-]].
    destruct load; [|rewrite ret_eq; by intros [= _ <-]]. rewrite bind_eq.
    pose proof (ms_load_objs ms (Mail.set_rados_save_date date (Mail.set_mail_size size mail)) w1) as Ho.
    destruct (ms_load_metadata _ _ w1) as [[[ret|] m] w2]; cbn [fst snd] in *; rewrite ret_eq; intros [= _ <-]; congruence.
Qed.
Lemma steps_objs io (ms : T) load a b : rtc (LoadObjects.step io ms load) a b → objs (lo_world b) = objs (lo_world a).
Proof.
    induction 1 as [|a b c Hs _ IH]; [done|]. rewrite IH.
    destruct Hs as [| | |? ? ? ? ? ? ? ? ? ? ? ? ? Hc]; [done..|]. cbn. by eapply complete_objs.
Qed.

(** What is loaded are objects that were listed, each at most once; nothing is written. *)
Lemma load_objects_spec (ms : option T) sort_string load s :
    let '(r, s') := load_objects ms [] sort_string load s in
    s'.1 = s.1 ∧ s'.2.1 = s.2.1 ∧ objects s' = objects s ∧
    ∀ ret mails, r = Some (ret, mails) → ∃ taken, sublist taken (Storage.find_mails None s).1 ∧ rm_oid <$> mails ≡ₚ taken.
Proof.
    unfold load_objects. destruct ms as [ms|];
      [|rewrite ret_eq; split_and!; [done..|]; intros ? ? [= <- <-]; exists []; split; [apply sublist_nil_l|done]].
    rewrite bind_eq. assert (let s' := (Storage.find_mails None s).2 in s'.1 = s.1 ∧ s'.2.1 = s.2.1 ∧ objects s' = objects s) as Hf.
    { unfold Storage.find_mails. destruct (Storage.usable s) eqn:Hu.
      - rewrite StorageRun.guarded_usable by done. srun. unfold objects. cbn. split_and!; [done..|]. apply nobjects_law.
      - by rewrite StorageRun.guarded_unusable. }
    cbv zeta in Hf. destruct (Storage.find_mails None s) as [oids s1]. cbn [fst snd] in *. destruct Hf as (F1 & F2 & F3).
    rewrite bind_eq, StorageRun.io_ctx_run. cbn [fst snd]. rewrite bind_eq, StorageRun.storage_world_run, ret_eq. cbn [fst snd].
    destruct (run_load (st_io_ctx s1.1) ms load oids s1.2.2) as [[l w]|] eqn:Hr; cbn [fst snd].
    - apply run_load_finished in Hr as (b & Hb & Hfin & -> & ->). unfold objects in *. cbn [fst snd] in *.
      split_and!; [done|done|by rewrite (steps_objs _ _ _ _ _ Hb)|]. intros ret mails [= _ <-].
      destruct (LoadObjects.inv_finished oids b (LoadObjects.inv_reachable _ _ _ oids _ b Hb) Hfin) as (taken & Ht & Hp).
      exists taken. split; [done|]. rewrite <- Hp. destruct load; [|done]. by rewrite LoadObjects.list_sort_perm.
    - unfold objects in *. cbn [fst snd]. split_and!; [done..|]. by intros ? ? [=].
Qed.

(** Deleting objects one after the other leaves each one as it was or removes it. *)
Definition removed (P : okey → Prop) (m m' : store) : Prop :=
    ∀ k, m' !! k = m !! k ∨ m' !! k = None ∧ P k.
Lemma removed_refl P m : removed P m m.
Proof. intros k. by left. Qed.
Lemma removed_trans P m1 m2 m3 : removed P m1 m2 → removed P m2 m3 → removed P m1 m3.
Proof. intros A B k. destruct (B k) as [->|?]; [apply A|by right]. Qed.
Lemma removed_weaken (P Q : okey → Prop) m m' : (∀ k, P k → Q k) → removed P m m' → removed Q m m'.
Proof. intros HPQ Hr k. destruct (Hr k) as [?|[? ?]]; [by left|right; auto]. Qed.
Lemma delete_oid_gone oid s :
    let s' := (Storage.delete_mail_oid oid s).2 in
    let k := (st_io_ctx s.1, oid) in objects s' !! k = objects s !! k ∨ objects s' !! k = None.
Proof.
    unfold Storage.delete_mail_oid. destruct (negb _ || _ || _); [by left|].
    rewrite bind_eq, StorageRun.io_ctx_run, StorageRun.storage_world_run. unfold objects, io_remove. cbn [fst snd].
    destruct (operate_law (st_io_ctx s.1) oid [OpRemove] s.2.2) as (now & Hok & Hf).
    destruct (decide (0 <= (io_operate (st_io_ctx s.1) oid [OpRemove] s.2.2).1)) as [Hr|Hr].
    - apply Hok, apply_ops_remove in Hr as [-> _]. right. apply lookup_delete_eq.
    - destruct (Hf ltac:(lia)) as [->|[_ Ha]]; [by left|]. apply apply_ops_remove in Ha as [-> _].
      right. apply lookup_delete_eq.
Qed.
Lemma delete_mail_removed confirmed o s :
    let '(r, (o', s')) := Commands.delete_mail confirmed (o, s) in
    s'.1 = s.1 ∧ o' !! "namespace" = o !! "namespace" ∧
    removed (λ k, confirmed = true ∧ k = (st_io_ctx s.1, default "" (o !! "to_delete"))) (objects s) (objects s').
Proof.
    unfold Commands.delete_mail. destruct confirmed; cbn [negb]; [|by split_and!; [| |apply removed_refl]].
    rewrite bind_eq. unfold Commands.opt. cbn [fst snd]. unfold Commands.storage. rewrite on_snd_run.
    pose proof (delete_oid_spec (default "" (o !! "to_delete")) s) as Hd. cbv zeta in Hd.
    pose proof (delete_oid_gone (default "" (o !! "to_delete")) s) as Hg.
    destruct (Storage.delete_mail_oid _ s) as [r s']. cbn [fst snd] in *. destruct Hd as (E & _ & Hf & _).
    split_and!; [done|by rewrite lookup_insert_ne|]. intros k.
    destruct (decide (k = (st_io_ctx s.1, default "" (o !! "to_delete")))) as [->|]; [|left; by apply Hf].
    destruct Hg; [by left|by right].
Qed.
Lemma delete_all_removed confirmed (mails : list RadosMail) o s :
    let '(_, (o', s')) := st_iter (λ m, Commands.set_opt "to_delete" (rm_oid m) ;;
                                        Commands.delete_mail confirmed ;; mret tt) mails (o, s) in
    s'.1 = s.1 ∧ o' !! "namespace" = o !! "namespace" ∧
    removed (λ k, confirmed = true ∧ k.1 = st_io_ctx s.1 ∧ k.2 ∈ rm_oid <$> mails) (objects s) (objects s').
Proof.
    revert o s. induction mails as [|m mails IH]; intros o s; [by split_and!; [| |apply removed_refl]|].
    cbn [st_iter]. rewrite bind_eq. set (step := (Commands.set_opt _ _ ;; _)).
    assert (step (o, s) = (tt, (Commands.delete_mail confirmed (<["to_delete" := rm_oid m]> o, s)).2)) as ->.
    { unfold step, Commands.set_opt. rewrite bind_eq. cbn. rewrite bind_eq. by destruct (Commands.delete_mail _ _). }
    pose proof (delete_mail_removed confirmed (<["to_delete" := rm_oid m]> o) s) as Hd.
    destruct (Commands.delete_mail _ _) as [r [o1 s1]]. cbn [fst snd]. destruct Hd as (E1 & O1 & R1).
    rewrite lookup_insert_ne in O1 by done. rewrite lookup_insert_eq in R1. specialize (IH o1 s1).
    destruct (st_iter _ mails _) as [[] [o2 s2]]. destruct IH as (E2 & O2 & R2).
    split_and!; [by rewrite E2|by rewrite O2|].
    eapply removed_trans; [eapply removed_weaken, R1|eapply removed_weaken, R2].
    - intros k [? ->]. cbn. split_and!; [done|done|left].
    - intros k (? & ? & ?). rewrite E1 in *. cbn. split_and!; [done|done|by right].
Qed.
End lemmas.
End LoadRun.

(** ** Properties *)

(** C14. Removing all mails of a namespace: whatever fails and however the mails were loaded,
    each object of the cluster is as it was or is gone; what is gone was asked for with a
    confirmation and is an object the namespace was listed with, or the object of the user
    when users are mapped; without a confirmation nothing is removed. *)
Theorem namespace_deletion_is_limited `{MetadataContract W T} `{!Loader W T} `{!LoaderLaws W T} `{!LoadObjects.KeepsName W T}
    (ms : T) cfg confirmed (o : gmap string string) (s : Storage.state W) k :
  let user := (set_io_ns "users" (st_io_ctx s.1), default "" (o !! "namespace") +:+ user_suffix (cc_config cfg)) in
  let s' := (LoadRun.delete_namespace (Some ms) [] (Some cfg) confirmed (o, s)).2.2 in
  objects s' !! k = objects s !! k ∨
  objects s' !! k = None ∧ confirmed = true ∧
    (k.1 = st_io_ctx s.1 ∧ k.2 ∈ (Storage.find_mails None s).1 ∨ CephConfig.is_user_mapping cfg = true ∧ k = user).
Proof.
  intros user. cbv zeta. unfold LoadRun.delete_namespace. rewrite bind_eq, on_snd_run. cbn [fst snd].
  pose proof (LoadRun.load_objects_spec (Some ms) "uid" true s) as Hl.
  destruct (LoadRun.load_objects _ _ _ _ s) as [r s1]. cbn [fst snd]. destruct Hl as (E1 & _ & O1 & Hl).
  destruct r as [[ret mails]|]; [|rewrite ret_eq; left; cbn [fst snd]; by rewrite O1].
  destruct (Hl _ _ eq_refl) as (taken & Hsub & Hperm). clear Hl.
  assert (∀ oid, oid ∈ rm_oid <$> mails → oid ∈ (Storage.find_mails None s).1) as Hin.
  { intros oid Ho. rewrite Hperm in Ho. eapply elem_of_submseteq; [exact Ho|by apply sublist_submseteq]. }
  rewrite bind_eq, ret_eq. cbn [fst snd]. unfold Commands.delete_namespace.
  case_decide; [rewrite ret_eq; left; cbn [fst snd]; by rewrite O1|].
  rewrite bind_eq. pose proof (LoadRun.delete_all_removed confirmed mails o s1) as Hd.
  destruct (st_iter _ mails _) as [[] [o2 s2]]. cbn [fst snd]. destruct Hd as (E2 & O2 & R2).
  rewrite O1, E1 in R2.
  destruct (CephConfig.is_user_mapping cfg) eqn:Hmap.
  2:{ rewrite ret_eq. cbn [fst snd]. destruct (R2 k) as [?|[? (? & ? & ?)]]; [by left|right].
      split_and!; [done|done|left; split; [done|by apply Hin]]. }
  rewrite bind_eq. change (Commands.opt "namespace" (o2, s2))
    with (default "" (o2 !! "namespace"), (<["namespace" := default "" (o2 !! "namespace")]> o2, s2)).
  cbn [fst snd]. rewrite bind_eq. unfold Commands.set_opt. rewrite on_fst_run. cbn [st_modify fst snd].
  rewrite bind_eq. unfold Commands.storage. rewrite on_snd_run, set_namespace_run. cbn [fst snd]. rewrite bind_eq.
  set (o3 := <["to_delete" := _]> _). set (s3 := (_, s2.2)).
  pose proof (LoadRun.delete_mail_removed confirmed o3 s3) as Hu.
  destruct (Commands.delete_mail confirmed (o3, s3)) as [r4 [o4 s4]]. cbn [fst snd]. destruct Hu as (_ & _ & R4).
  rewrite ret_eq. cbn [fst snd].
  assert (objects s3 = objects s2) as E3 by done. rewrite E3 in R4.
  destruct (R4 k) as [->|(? & ? & ->)].
  - destruct (R2 k) as [?|[? (? & ? & ?)]]; [by left|right].
    split_and!; [done|done|left; split; [done|by apply Hin]].
  - right. split_and!; [done|done|]. right. split; [done|]. unfold user, s3, o3.
    rewrite lookup_insert_eq, O2. cbn [default]. unfold id. do 2 f_equal. rewrite <- E1, <- E2. by destruct s2 as [[] ?].
Qed.

(** Two mails of alice go, with her object, and the mail of bob stays. *)
Definition alice_and_bob : Storage.state MemCluster :=
  let u io := mk_ioctx "mail_storage" io in
  mem_state "alice" (<[(u "alice", "o1") := empty_object 17]> (<[(u "alice", "o2") := empty_object 18]>
    (<[(u "users", "alice_u") := mapping_object "alice"]> {[(u "bob", "o3") := empty_object 19]}))) [].
Definition alice_module : MetadataDefault + MetadataIma := inl (mk_default (mk_ioctx "mail_storage" "alice")).
Example alice_is_deleted :
  let run confirmed := LoadRun.delete_namespace (Some alice_module) [] (Some users_config) confirmed
                         ({["namespace" := "alice"]}, alice_and_bob) in
  (run true).1 = Some 0 ∧ (map_to_list (objects (run true).2.2)).*1 = [(mk_ioctx "mail_storage" "bob", "o3")] ∧
  length (map_to_list (objects (run false).2.2)) = 4%nat.
Proof. intros run. split; [vm_compute; reflexivity|]. split; vm_compute; reflexivity. Qed.
Lemma namespace_deletion_is_limited_witness :
  let s' := (LoadRun.delete_namespace (Some alice_module) [] (Some users_config) true ({["namespace" := "alice"]}, alice_and_bob)).2.2 in
  let k := (mk_ioctx "mail_storage" "bob", "o3") in
  objects s' !! k = objects alice_and_bob !! k.
Proof.
  intros s' k. pose proof (namespace_deletion_is_limited alice_module users_config true {["namespace" := "alice"]} alice_and_bob k) as H.
  cbv zeta in H. destruct H as [H|(_ & _ & [[H _]|[_ H]])]; [exact H|discriminate H|discriminate H].
Defined.
