(* ===== verification/UndoLog.v ===== *)
(** Undoing what a save log records: [RmbCommands::delete_with_save_log] of
    librmb/tools/rmb/rmb-commands.cpp. Objects that were saved or copied are removed, the
    ones that were moved are moved back. *)
From S2P Require Export Stays SaveLog.
From Stdlib Require Import Ascii.
Local Open Scope rmb_scope.

Module Undo.
Section undo.
Context `{RadosAdmin W} `{Librados W}.
Variables (client_options : list (string * string)) (rados_cluster rados_user : string) (now : Z).
(** The entries that were moved back, for each user. *)
  Abbreviation moved := (gmap string (list RadosSaveLogEntry)).
  Abbreviation M := (ST (moved * Storage.state W)).

(** [None]: [open_connection] throws. *)
Definition to_pool (pool : string) : ST (Storage.state W) (option Z) :=
    s ← Storage.get;
    if decide (st_pool_name s = pool) then mret (Some 0) else
    Storage.close_connection ;;
    Storage.open_connection_named1 client_options pool rados_cluster rados_user.
Definition is_added (entry : RadosSaveLogEntry) : bool :=
    bool_decide (e_op entry = "save") || bool_decide (e_op entry = "cpy").
(** What one entry adds to the count. *)
Definition undo_entry (entry : RadosSaveLogEntry) : M Z :=
    on_snd (Storage.set_namespace (e_ns entry)) ;;
    if is_added entry then
      ret_delete ← on_snd (Storage.delete_mail_oid (e_oid entry));
      mret (if decide (ret_delete < 0) then 0 else 1)
    else
      ret ← on_snd (Storage.move now (e_oid entry) (c_str (e_ns entry)) (e_src_oid entry) (c_str (e_src_ns entry))
                      (e_metadata entry) true);
      (if decide (ret < 0) then mret tt
       else on_fst (st_modify (λ m, <[e_src_user entry := default [] (m !! e_src_user entry) ++ [entry]]> m))) ;;
      mret 1.
(** The loop over the complete lines of the file, and what follows it. *)
Definition undo_end (count : Z) : M (option Z) :=
    on_snd Storage.close_connection ;; on_snd (Storage.cluster Cluster.deinit) ;; mret (Some count).
Fixpoint undo_lines (lines : list string) (count : Z) : M (option Z) :=
    match lines with
    | [] => undo_end count
    | line :: lines =>
        let '(ok, entry) := Entry.scan line Entry.empty in
        if negb ok then undo_end count else
        open_connection ← on_snd (to_pool (e_pool entry));
        match open_connection with
        | None => mret None
        | Some open_connection =>
            if decide (open_connection < 0) then on_snd (Storage.cluster Cluster.deinit) ;; mret (Some (-1)) else
            n ← undo_entry entry;
            undo_lines lines (count + n)
        end
    end.
(** [read]: the lines of the log, [None] when it cannot be opened; a last line that is not
    terminated is not used. The storage is made for the call; the cluster of a process is one. *)
Definition delete_with_save_log_on (read : option (list string)) (moved_items : option moved) :
      ST (RadosClusterImpl * W) (option Z * option moved) :=
    λ cw, match moved_items, read with
          | Some m, Some lines => let '(r, (m, s)) := undo_lines lines 0 (m, (Storage.new, cw)) in ((r, Some m), s.2)
          | _, _ => ((Some (-1), moved_items), cw)
          end.
(** In a process that has no connection. *)
Definition delete_with_save_log (read : option (list string)) (moved_items : option moved) (w : W) :
      option Z * option moved * W :=
    let '((r, m), (_, w)) := delete_with_save_log_on read moved_items (Cluster.initial, w) in (r, m, w).
End undo.

(** The objects an entry names, in the pool and the namespaces it gives. *)
Definition entry_keys (e : RadosSaveLogEntry) : list okey :=
    let io := mk_ioctx (e_pool e) (e_ns e) in
    let a := c_str (e_ns e) in
    let b := c_str (e_src_ns e) in
    if is_added e then [(io, e_oid e)] else [(ns_ctx a b a io, e_oid e); (ns_ctx a b b io, e_src_oid e)].
(** The entries that are read: those before the first line that is not one. *)
Fixpoint entries (lines : list string) : list RadosSaveLogEntry :=
    match lines with
    | [] => []
    | line :: lines => let '(ok, e) := Entry.scan line Entry.empty in if (ok : bool) then e :: entries lines else []
    end.
End Undo.

(** The administrative calls leave the objects alone. *)
Class QuietAdmin (W : Type) `{LibradosLaws W} `{RadosAdmin W} : Prop := quiet_admin : ∀ m, AdminKeeps (λ w, objs w = m).
#[export] Instance mem_quiet_admin : QuietAdmin MemCluster.
Proof. intros m. split; intros; intros w <-; try done; apply Mem.next_objs. Qed.

(** ** Lemmas *)

Module UndoRun.
Section lemmas.
Context `{LibradosLaws W}.
  Implicit Types s : Storage.state W.

(** Connected as before, to the same pool. *)
Definition same_place s s' : Prop :=
    s'.2.1 = s.2.1 ∧ st_io_ctx_created s'.1 = st_io_ctx_created s.1 ∧ st_pool_name s'.1 = st_pool_name s.1 ∧
    io_pool (st_io_ctx s'.1) = io_pool (st_io_ctx s.1).
Lemma same_place_refl s : same_place s s.
Proof. done. Qed.
Lemma same_place_trans s1 s2 s3 : same_place s1 s2 → same_place s2 s3 → same_place s1 s3.
Proof. unfold same_place. intros (-> & -> & -> & ->) ?. done. Qed.
Lemma same_place_eq s s' : s'.1 = s.1 → s'.2.1 = s.2.1 → same_place s s'.
Proof. intros E1 E2. unfold same_place. by rewrite E1, E2. Qed.
Lemma same_place_ctx ns c s s' : s'.1 = Storage.set_ctx (set_io_ns ns (st_io_ctx s.1)) c → s'.2.1 = s.2.1 →
    c = s.1 → same_place s s'.
Proof. intros E1 E2 ->. unfold same_place. rewrite E1, E2. by destruct s as [[] ?]. Qed.

(** A move in one namespace only sets attributes. *)
Lemma move_in_place now src_oid ns dest_oid upd del s :
    Storage.usable s = true →
    let '(r, s') := Storage.move now src_oid ns dest_oid ns upd del s in
    same_place s s' ∧ ∀ k, k ≠ (st_io_ctx s.1, dest_oid) → objects s' !! k = objects s !! k.
Proof.
    intros Hu. unfold Storage.move. rewrite StorageRun.guarded_usable by done.
    rewrite bind_eq, StorageRun.io_ctx_run. cbn [fst snd].
    rewrite (bool_decide_eq_true_2 (ns = ns)) by done. cbn [negb].
    rewrite bind_eq, ret_eq. cbn [fst snd]. rewrite bind_eq, StorageRun.storage_world_run.
    pose proof (stat_law (st_io_ctx s.1) src_oid s.2.2) as Hl.
    destruct (io_stat _ _ _) as [[err out] w]. cbn [fst snd] in *. destruct Hl as [Hw _].
    set (s1 := (s.1, (s.2.1, w))) in *. assert (objects s1 = objects s) as O1 by done.
    case_decide; [rewrite ret_eq; split; [by apply same_place_eq|by intros; rewrite O1]|].
    rewrite bind_eq, StorageRun.io_ctx_run. cbn [fst snd app]. rewrite andb_false_r. cbn [andb].
    pose proof (run_and_wait_spec (st_io_ctx s.1) dest_oid ([OpMtime now] ++ Storage.update_ops upd) s1 Hu) as Hr.
    unfold Storage.run_and_wait in Hr. rewrite bind_eq in *.
    destruct (Storage.aio_operate _ _ _ s1) as [[sub val] s2]. cbn [fst snd] in *. rewrite ret_eq in Hr.
    destruct Hr as (Es & Ec & Ef & _). rewrite bind_eq.
    assert (∀ a : Z, ((if decide (sub >= 0) then mret a else mret sub) : ST (Storage.state W) Z) s2 =
      (if decide (sub >= 0) then a else sub, s2)) as -> by (intros; by case_decide).
    cbn [fst snd]. rewrite bind_eq, StorageRun.set_io_ctx_namespace_run, ret_eq. cbn [fst snd].
    split; [|by intros k Hk; rewrite <- O1, <- (Ef k Hk)].
    eapply same_place_ctx; [cbn [fst]; by rewrite Es|cbn [fst snd]; by rewrite Ec|done].
Qed.
Lemma move_frame now src_oid src_ns dest_oid dest_ns upd del s :
    let io := st_io_ctx s.1 in
    let '(r, s') := Storage.move now src_oid src_ns dest_oid dest_ns upd del s in
    same_place s s' ∧
    ∀ k, k ≠ (ns_ctx src_ns dest_ns src_ns io, src_oid) → k ≠ (ns_ctx src_ns dest_ns dest_ns io, dest_oid) →
      objects s' !! k = objects s !! k.
Proof.
    cbv zeta. destruct (Storage.usable s) eqn:Hu.
    2: { unfold Storage.move. by rewrite StorageRun.guarded_unusable. }
    unfold ns_ctx. destruct (decide (src_ns = dest_ns)) as [<-|Hne].
    - rewrite bool_decide_eq_true_2 by done. cbn [negb].
      pose proof (move_in_place now src_oid src_ns dest_oid upd del s Hu) as Hm.
      destruct (Storage.move _ _ _ _ _ _ _ s) as [r s']. destruct Hm as [? Hf]. split; [done|]. intros; by apply Hf.
    - rewrite bool_decide_eq_false_2 by done. cbn [negb].
      pose proof (move_spec now src_oid src_ns dest_oid dest_ns upd del s Hu Hne) as Hm.
      destruct (Storage.move _ _ _ _ _ _ _ s) as [r s']. destruct Hm as (E1 & E2 & Hf & _).
      split; [by eapply same_place_ctx|exact Hf].
Qed.
End lemmas.

Section undo_lemmas.
Context `{LibradosLaws W} `{RadosAdmin W}.
  Implicit Types s : Storage.state W.

Lemma set_namespace_place ns s : same_place s (Storage.set_namespace ns s).2.
Proof. by destruct s as [[] ?]. Qed.
Lemma delete_oid_unusable oid s : Storage.usable s = false → Storage.delete_mail_oid oid s = (-1, s).
Proof.
    unfold Storage.usable, Storage.delete_mail_oid. intros Hu.
    apply andb_false_iff in Hu as [-> | ->]; [done|]. by rewrite orb_true_r.
Qed.
(** An entry changes the objects it names. *)
Lemma undo_entry_frame now e m s :
    (Storage.usable s = true → io_pool (st_io_ctx s.1) = e_pool e) →
    let '(n, (m', s')) := Undo.undo_entry now e (m, s) in
    same_place s s' ∧ ∀ k, k ∉ Undo.entry_keys e → objects s' !! k = objects s !! k.
Proof.
    intros Hp. unfold Undo.undo_entry, Undo.entry_keys. rewrite bind_eq, on_snd_run. cbn [fst snd].
    pose proof (set_namespace_place (e_ns e) s) as P1. set (s1 := (Storage.set_namespace (e_ns e) s).2) in *.
    assert (objects s1 = objects s) as O1 by by destruct s.
    assert (Storage.usable s = true → st_io_ctx s1.1 = mk_ioctx (e_pool e) (e_ns e)) as Hio.
    { intros Hu. rewrite <- (Hp Hu). by destruct s as [[] ?]. }
    assert (Storage.usable s1 = Storage.usable s) as Hu1 by by destruct s.
    destruct (Undo.is_added e).
    - rewrite bind_eq, on_snd_run. destruct (Storage.usable s) eqn:Hu.
      + pose proof (delete_oid_spec (e_oid e) s1) as Hd. rewrite Hio in Hd by done.
        destruct (Storage.delete_mail_oid _ s1) as [r s2]. cbn [fst snd]. rewrite ret_eq. destruct Hd as (E1 & E2 & Hf & _).
        split; [eapply same_place_trans; [exact P1|by apply same_place_eq]|].
        intros k Hk. rewrite Hf, O1 by set_solver. done.
      + rewrite delete_oid_unusable by done. cbn [fst snd]. rewrite ret_eq. split; [exact P1|by rewrite O1].
    - rewrite bind_eq, on_snd_run. destruct (Storage.usable s) eqn:Hu.
      + pose proof (move_frame now (e_oid e) (c_str (e_ns e)) (e_src_oid e) (c_str (e_src_ns e)) (e_metadata e) true s1) as Hm.
        cbv zeta in Hm. rewrite Hio in Hm by done.
        destruct (Storage.move _ _ _ _ _ _ _ s1) as [r s2]. cbn [fst snd]. destruct Hm as [P2 Hf].
        assert (∀ k, k ∉ [(ns_ctx (c_str (e_ns e)) (c_str (e_src_ns e)) (c_str (e_ns e)) (mk_ioctx (e_pool e) (e_ns e)), e_oid e);
          (ns_ctx (c_str (e_ns e)) (c_str (e_src_ns e)) (c_str (e_src_ns e)) (mk_ioctx (e_pool e) (e_ns e)), e_src_oid e)] →
          objects s2 !! k = objects s !! k) as Hf' by (intros k Hk; rewrite Hf, O1 by set_solver; done).
        rewrite bind_eq. case_decide; rewrite ?on_fst_run, ret_eq; cbn [fst snd];
          (split; [by eapply same_place_trans|exact Hf']).
      + assert (Storage.move now (e_oid e) (c_str (e_ns e)) (e_src_oid e) (c_str (e_src_ns e)) (e_metadata e) true s1
          = (-1, s1)) as -> by (unfold Storage.move; by rewrite StorageRun.guarded_unusable).
        cbn [fst snd]. rewrite bind_eq. case_decide; [|lia]. rewrite !ret_eq. split; [exact P1|]. cbn [fst snd]. by rewrite O1.
Qed.
End undo_lemmas.

(** *** The connection *)

Section connection.
Context `{LibradosLaws W} `{RadosAdmin W} `{!RadosAdminLaws W}.
  Implicit Types s : Storage.state W.

(** The storage of the call is not connected, or it is the only user of its cluster and
    connected to the pool it names. *)
Definition own_storage s : Prop :=
    (cluster_ref_count s.2.1 = 0 ∧ cl_connected s.2.1 = false) ∨
    (Storage.usable s = true ∧ cluster_ref_count s.2.1 = 1 ∧ io_pool (st_io_ctx s.1) = st_pool_name s.1).
Lemma own_storage_same s s' : same_place s s' → own_storage s → own_storage s'.
Proof. intros (E1 & E2 & E3 & E4). unfold own_storage, Storage.usable. by rewrite E1, E2, E3, E4. Qed.
Lemma own_storage_close s : own_storage s → let s' := (Storage.close_connection s).2 in
    cluster_ref_count s'.2.1 = 0 ∧ cl_connected s'.2.1 = false.
Proof.
    intros Ho. unfold Storage.close_connection. rewrite bind_eq, StorageRun.storage_get_run. cbn [fst snd].
    destruct (st_io_ctx_created s.1) eqn:Ec.
    - rewrite StorageRun.cluster_run. cbn [fst snd]. rewrite Cluster.deinit_run.
      destruct Ho as [[E1 E2]|(Hu & E1 & _)].
      + rewrite E1, E2. done.
      + unfold Storage.usable in Hu. rewrite Ec, andb_true_r in Hu. rewrite E1, Hu. done.
    - destruct Ho as [Ho|(Hu & _)]; [done|]. unfold Storage.usable in Hu. by rewrite Ec, andb_false_r in Hu.
Qed.
Lemma to_pool_spec opts name user pool s :
    own_storage s →
    let '(r, s') := Undo.to_pool opts name user pool s in
    ∀ n, r = Some n → 0 <= n → own_storage s' ∧ (Storage.usable s' = true → io_pool (st_io_ctx s'.1) = pool).
Proof.
    intros Ho. unfold Undo.to_pool. rewrite bind_eq, StorageRun.storage_get_run. cbn [fst snd]. case_decide as Hp.
    - rewrite ret_eq. intros n _ _. split; [done|]. intros Hu.
      destruct Ho as [[_ Hc]|(_ & _ & Hio)]; [unfold Storage.usable in Hu; by rewrite Hc in Hu|by rewrite Hio].
    - rewrite bind_eq. pose proof (own_storage_close s Ho) as [Hr Hc]. clear Ho.
      set (s1 := (Storage.close_connection s).2) in *.
      unfold Storage.open_connection_named1, Storage.open_connection_named.
      assert (Storage.usable s1 = false) as -> by (unfold Storage.usable; by rewrite Hc).
      rewrite bind_eq, StorageRun.cluster_run. cbn [fst snd].
      pose proof (init_spec opts (Some (name, user)) s1.2 ltac:(lia)) as Hn.
      destruct (Cluster.init opts _ s1.2) as [r cw]. cbn [fst snd]. destruct Hn as [Hr0 Hn].
      case_decide; [rewrite ret_eq; intros n [= <-]; lia|]. specialize (Hn ltac:(lia)). rewrite (wrap_s_small 32) in Hn by (cbn; lia).
      pose proof (create_connection_spec pool pool 1 (st_nspace s1.1) ltac:(lia) (s1.1, cw)) as Hk.
      pose proof (create_connection_answer pool pool (s1.1, cw) I) as Ha.
      destruct (Storage.create_connection pool pool (s1.1, cw)) as [r' s']. cbn [fst snd] in *.
      intros n Er Hn0. replace n with 0 in Er by (specialize (Ha n Er); lia).
      destruct Hk as ((Hct & Hrc & Hio & _) & Hcr & Hpn); [split; [lia|done]|exact Er|].
      rewrite Hio. split; [|done]. right. unfold Storage.usable. rewrite Hct, Hcr, Hio, Hpn. done.
Qed.
End connection.

Section undo.
Context `{LibradosLaws W} `{RadosAdmin W} `{!RadosAdminLaws W} `{!QuietAdmin W}.
Variables (opts : list (string * string)) (name user : string) (now : Z).
  Implicit Types s : Storage.state W.

(** A computation of administrative calls leaves the objects alone. *)
Lemma stays_objects {A} (m : ST (Storage.state W) A) s :
    (∀ o, stays (at_snd (at_snd (λ w, objs w = o))) m) → objects (m s).2 = objects s.
Proof. intros Hm. by apply (Hm (objects s) s). Qed.
Lemma admin_keeps_objects o : AdminKeeps (λ w : W, objs w = o).
Proof. apply quiet_admin. Qed.
#[local] Hint Resolve admin_keeps_objects : typeclass_instances.
Lemma to_pool_objects pool s : objects (Undo.to_pool opts name user pool s).2 = objects s.
Proof.
    apply stays_objects. intros o. pose proof (admin_keeps_objects o).
    unfold Undo.to_pool, Storage.open_connection_named1. stay.
Qed.
Lemma undo_end_objects count m s : objects (Undo.undo_end count (m, s)).2.2 = objects s.
Proof.
    unfold Undo.undo_end. rewrite bind_eq, on_snd_run. cbn [fst snd]. rewrite bind_eq, on_snd_run, ret_eq. cbn [fst snd].
    transitivity (objects (Storage.close_connection s).2); apply stays_objects; intros o;
      pose proof (admin_keeps_objects o); stay.
Qed.

Lemma undo_lines_frame lines count m s k :
    own_storage s → (∀ e, e ∈ Undo.entries lines → k ∉ Undo.entry_keys e) →
    objects (Undo.undo_lines opts name user now lines count (m, s)).2.2 !! k = objects s !! k.
Proof.
    revert count m s. induction lines as [|line lines IH]; intros count m s Ho Hk; cbn [Undo.undo_lines Undo.entries] in *;
      [by rewrite undo_end_objects|].
    destruct (Entry.scan line Entry.empty) as [[|] e]; cbn [negb]; [|by rewrite undo_end_objects].
    rewrite bind_eq, on_snd_run. cbn [fst snd].
    pose proof (to_pool_objects (e_pool e) s) as O1. pose proof (to_pool_spec opts name user (e_pool e) s Ho) as Hs.
    destruct (Undo.to_pool _ _ _ _ s) as [[n|] s1]; cbn [fst snd] in *; [|by rewrite ret_eq; cbn; rewrite O1].
    case_decide.
    - rewrite bind_eq, on_snd_run, ret_eq. cbn [fst snd]. rewrite <- O1. f_equal. apply stays_objects.
      intros o. pose proof (admin_keeps_objects o). stay.
    - destruct (Hs n eq_refl ltac:(lia)) as [Ho1 Hp]. rewrite bind_eq.
      pose proof (undo_entry_frame now e m s1 Hp) as Hf.
      destruct (Undo.undo_entry now e (m, s1)) as [d [m' s2]]. cbn [fst snd]. destruct Hf as [Hpl Hf].
      rewrite IH; [|by eapply own_storage_same|intros; apply Hk; by right].
      rewrite Hf, O1 by (apply Hk; by left). done.
Qed.
End undo.

(** *** Saved mails in a calm cluster *)

Section calm.
Context `{CalmWorld W} `{RadosAdmin W} `{!QuietAdmin W}.
Variables (opts : list (string * string)) (name user pool : string) (now : Z).
  Implicit Types s : Storage.state W.

Lemma remove_not_applied (t : Z) (k : okey) (m : store) : apply_ops t k [OpRemove] m = None → m !! k = None.
Proof. unfold apply_ops. by destruct (m !! k). Qed.
Lemma delete_calm oid s :
    Storage.usable s = true → oid ≠ "" → calm s.2.2 →
    let '(r, s') := Storage.delete_mail_oid oid s in
    let k := (st_io_ctx s.1, oid) in
    s'.1 = s.1 ∧ s'.2.1 = s.2.1 ∧ calm s'.2.2 ∧ objects s' = delete k (objects s) ∧
    (if decide (r < 0) then 0 else 1) = Z.of_nat (size (objects s)) - Z.of_nat (size (objects s')).
Proof.
    intros Hu Ho Hc. unfold Storage.usable in Hu. apply andb_true_iff in Hu as [Hu1 Hu2].
    unfold Storage.delete_mail_oid. rewrite Hu1, Hu2, bool_decide_eq_false_2 by done. cbn [negb orb].
    rewrite bind_eq, StorageRun.io_ctx_run, StorageRun.storage_world_run. unfold io_remove, objects. cbn [fst snd].
    pose proof (calm_operate (st_io_ctx s.1) oid [OpRemove] s.2.2 Hc) as Hq.
    pose proof (operate_ok (st_io_ctx s.1) oid [OpRemove] s.2.2) as Hok.
    destruct (io_operate _ _ _ _) as [r w']. cbn [fst snd] in *. destruct Hq as [Hc' Hf].
    do 2 (split; [done|]). split; [done|]. case_decide as Hr.
    - destruct (Hf Hr) as (-> & t & Hn). apply remove_not_applied in Hn. rewrite delete_id by done. split; [done|lia].
    - destruct (Hok ltac:(lia)) as [t Ha]. apply apply_ops_remove in Ha as [-> Hs]. split; [done|].
      rewrite map_size_delete. destruct Hs as [ob Hs]. rewrite Hs.
      assert (size (objs s.2.2) ≠ 0%nat); [|lia]. intros E. apply map_size_empty_inv in E. by rewrite E in Hs.
Qed.

(** The line of a mail that was saved in a namespace of the pool. *)
Definition save_line (mail : string * string) : string :=
    Entry.print (Entry.new mail.2 mail.1 pool Entry.op_save).
Definition loggable (mail : string * string) : Prop :=
    mail.2 ≠ "" ∧ free_of "," mail.2 = true ∧ free_of "," mail.1 = true.
Definition saved_key (mail : string * string) : okey := (mk_ioctx pool mail.1, mail.2).

Lemma undo_save_line mail m s :
    loggable mail → Storage.usable s = true → io_pool (st_io_ctx s.1) = pool → calm s.2.2 →
    let '(n, (m', s')) := Undo.undo_entry now (Entry.new mail.2 mail.1 pool Entry.op_save) (m, s) in
    m' = m ∧ same_place s s' ∧ calm s'.2.2 ∧ objects s' = delete (saved_key mail) (objects s) ∧
    n = Z.of_nat (size (objects s)) - Z.of_nat (size (objects s')).
Proof.
    intros (Ho & _) Hu Hp Hc. unfold Undo.undo_entry. rewrite bind_eq, on_snd_run. cbn [fst snd].
    cbn [Entry.new e_ns e_oid]. pose proof (set_namespace_place mail.1 s) as P1.
    set (s1 := (Storage.set_namespace mail.1 s).2) in *.
    assert (objects s1 = objects s) as O1 by by destruct s.
    assert (Storage.usable s1 = true) as Hu1 by by destruct s.
    assert (st_io_ctx s1.1 = mk_ioctx pool mail.1) as Hio by (rewrite <- Hp; by destruct s as [[] ?]).
    assert (calm s1.2.2) as Hc1 by by destruct s.
    change (Undo.is_added _) with true. cbv iota. rewrite bind_eq, on_snd_run.
    pose proof (delete_calm mail.2 s1 Hu1 Ho Hc1) as Hd. rewrite Hio, O1 in Hd.
    destruct (Storage.delete_mail_oid mail.2 s1) as [r s2]. cbn [fst snd] in *. rewrite ret_eq.
    destruct Hd as (E1 & E2 & Hc2 & O2 & Hn). do 2 (split; [done || by eapply same_place_trans, same_place_eq|]).
    done.
Qed.
Lemma undo_end_run count m s : ∃ s', Undo.undo_end count (m, s) = (Some count, (m, s')).
Proof.
    unfold Undo.undo_end. rewrite bind_eq, on_snd_run. cbn [fst snd]. rewrite bind_eq, on_snd_run, ret_eq. by eexists.
Qed.
Lemma undo_save_lines l count m s :
    Forall loggable l → free_of "," pool = true →
    Storage.usable s = true → st_pool_name s.1 = pool → io_pool (st_io_ctx s.1) = pool → calm s.2.2 →
    let '(r, (m', s')) := Undo.undo_lines opts name user now (save_line <$> l) count (m, s) in
    m' = m ∧ objects s' = foldl (λ o mail, delete (saved_key mail) o) (objects s) l ∧
    r = Some (count + Z.of_nat (size (objects s)) - Z.of_nat (size (objects s'))).
Proof.
    intros Hl Hfree. revert count m s. induction Hl as [|mail l Hm Hl IH]; intros count m s Hu Hn Hp Hc.
    - cbn [fmap list_fmap Undo.undo_lines foldl]. pose proof (undo_end_objects count m s) as Ho.
      destruct (undo_end_run count m s) as [s' Es]. rewrite Es in *. cbn [fst snd] in *. rewrite Ho.
      split_and!; [done|done|f_equal; lia].
    - cbn [fmap list_fmap Undo.undo_lines]. unfold save_line at 1. destruct Hm as (Ho & Hf2 & Hf1).
      rewrite scan_print by (cbn; done).
      change ((Entry.parse_mv_op _).2) with (Entry.new mail.2 mail.1 pool Entry.op_save). cbn [negb].
      rewrite bind_eq, on_snd_run. cbn [fst snd].
      assert (Undo.to_pool opts name user pool s = (Some 0, s)) as Et.
      { unfold Undo.to_pool. rewrite bind_eq, StorageRun.storage_get_run. cbn [fst snd]. by rewrite decide_True. }
      cbn [Entry.new e_pool]. rewrite Et. cbn [fst snd]. rewrite decide_False by lia. rewrite bind_eq.
      pose proof (undo_save_line mail m s ltac:(by split_and!) Hu Hp Hc) as He. fold (Entry.new mail.2 mail.1 pool Entry.op_save).
      destruct (Undo.undo_entry now _ (m, s)) as [n [m' s2]]. destruct He as (-> & Hpl & Hc2 & O2 & Hnn).
      cbn [fst snd]. destruct Hpl as (F1 & F2 & F3 & F4).
      specialize (IH (count + n) m s2). destruct (Undo.undo_lines _ _ _ _ _ _ (m, s2)) as [r [m' s']].
      destruct IH as (-> & O3 & ->); [by unfold Storage.usable; rewrite F1, F2|by rewrite F3|by rewrite F4|done|].
      rewrite O3, O2. split_and!; [done|done|]. f_equal. cbn [foldl]. rewrite O2 in Hnn. lia.
Qed.
Lemma foldl_delete_lookup (l : list (string * string)) (o : store) (k : okey) :
    foldl (λ o mail, delete (saved_key mail) o) o l !! k = if decide (k ∈ saved_key <$> l) then None else o !! k.
Proof.
    revert o. induction l as [|mail l IH]; intros o; [done|]. cbn [foldl fmap list_fmap]. rewrite IH.
    destruct (decide (k = saved_key mail)) as [->|Hne].
    - rewrite (decide_True (P := saved_key mail ∈ _ :: _)) by left. case_decide; [done|]. apply lookup_delete_eq.
    - rewrite lookup_delete_ne by done. repeat case_decide; set_solver.
Qed.
End calm.
End UndoRun.

(** ** Properties *)

(** C9. Undoing a save log changes no object but those its entries name: whatever the lines
    of the file are, whichever calls fail, and whether or not the command ends early, every
    object that no entry names, in its pool and namespaces, is as it was. *)
Theorem undo_only_logged `{LibradosLaws W} `{RadosAdmin W} `{!RadosAdminLaws W} `{!QuietAdmin W}
    opts name user now lines moved_items (w : W) k :
  (∀ e, e ∈ Undo.entries lines → k ∉ Undo.entry_keys e) →
  objs (Undo.delete_with_save_log opts name user now (Some lines) moved_items w).2 !! k = objs w !! k.
Proof.
  intros Hk. destruct moved_items as [m|]; [|done]. unfold Undo.delete_with_save_log, Undo.delete_with_save_log_on.
  pose proof (UndoRun.undo_lines_frame opts name user now lines 0 m (Storage.new, (Cluster.initial, w)) k) as Hf.
  destruct (Undo.undo_lines _ _ _ _ _ _ _) as [r [m' [st [cl w']]]]. cbn [fst snd] in *. apply Hf; [by left|done].
Qed.

(** The mails "o1" and "o2" of a user, of which the first was logged. *)
Definition logged_world : MemCluster :=
  let u1 := mk_ioctx "mail_storage" "u1" in
  mk_mem (<[(u1, "o1") := empty_object 17]> {[(u1, "o2") := empty_object 18]}) [] 1000.
Lemma undo_only_logged_witness :
  let w' := (Undo.delete_with_save_log [] "ceph" "client.admin" 99 (Some ["save,mail_storage,u1,o1"]) (Some ∅) logged_world).2 in
  objs w' !! (mk_ioctx "mail_storage" "u1", "o2") = Some (empty_object 18) ∧
  objs w' !! (mk_ioctx "mail_storage" "u1", "o1") = None.
Proof.
  split; [|vm_compute; reflexivity].
  transitivity (objs logged_world !! (mk_ioctx "mail_storage" "u1", "o2")); [|vm_compute; reflexivity].
  apply (undo_only_logged [] "ceph" "client.admin" 99 ["save,mail_storage,u1,o1"] (Some ∅) logged_world).
  intros e He. assert (e = Entry.new "o1" "u1" "mail_storage" "save") as ->.
  { revert He. vm_compute. set_solver. }
  intros Hin. change (Undo.entry_keys _) with [(mk_ioctx "mail_storage" "u1", "o1")] in Hin. set_solver.
Defined.

(** Undoing the log of saved mails, in a cluster without failures: each object that a line
    names is removed, the others stay, nothing is recorded as moved back, and the answer
    counts the objects that were removed, however often the log names them. *)
Theorem undo_removes_saved `{CalmWorld W} `{RadosAdmin W} `{!QuietAdmin W} opts name user pool now
    (mails : list (string * string)) moved_items (s : Storage.state W) :
  Forall UndoRun.loggable mails → free_of "," pool = true →
  Storage.usable s = true → st_pool_name s.1 = pool → io_pool (st_io_ctx s.1) = pool → calm s.2.2 →
  let '(r, (m', s')) := Undo.undo_lines opts name user now (UndoRun.save_line pool <$> mails) 0 (moved_items, s) in
  (∀ k, objects s' !! k = if decide (k ∈ UndoRun.saved_key pool <$> mails) then None else objects s !! k) ∧
  m' = moved_items ∧ r = Some (Z.of_nat (size (objects s)) - Z.of_nat (size (objects s'))).
Proof.
  intros Hl Hp Hu Hn Hio Hc.
  pose proof (UndoRun.undo_save_lines opts name user pool now mails 0 moved_items s Hl Hp Hu Hn Hio Hc) as Hr.
  destruct (Undo.undo_lines _ _ _ _ _ _ _) as [r [m' s']]. destruct Hr as (-> & Ho & ->).
  split_and!; [|done|done]. intros k. rewrite Ho. apply UndoRun.foldl_delete_lookup.
Qed.
Lemma undo_removes_saved_witness :
  let s := (mem_storage "", (mk_cluster true 1 true, logged_world)) in
  let '(r, (m', s')) := Undo.undo_lines [] "ceph" "client.admin" 99
    ["save,mail_storage,u1,o1"; "save,mail_storage,u1,o3"] 0 (∅, s) in
  objects s' !! (mk_ioctx "mail_storage" "u1", "o1") = None ∧ r = Some 1.
Proof.
  intros s.
  assert (Forall UndoRun.loggable [("u1", "o1"); ("u1", "o3")]) as Hl by by repeat constructor.
  pose proof (undo_removes_saved [] "ceph" "client.admin" "mail_storage" 99 [("u1", "o1"); ("u1", "o3")] ∅ s Hl
    eq_refl eq_refl eq_refl eq_refl eq_refl) as Hr.
  assert ((Undo.undo_lines [] "ceph" "client.admin" 99 ["save,mail_storage,u1,o1"; "save,mail_storage,u1,o3"] 0 (∅, s)).1
    = Some 1) as Er by (vm_compute; reflexivity).
  change (UndoRun.save_line "mail_storage" <$> _) with ["save,mail_storage,u1,o1"; "save,mail_storage,u1,o3"] in Hr.
  destruct (Undo.undo_lines _ _ _ _ _ _ _) as [r [m' s']]. cbn [fst] in Er. destruct Hr as (Hk & _ & _).
  split; [|exact Er]. rewrite Hk. by rewrite decide_True by by left.
Defined.
