(* ===== verification/MailboxTools.v ===== *)
(** Downloading mails: librmb/tools/rmb/mailbox_tools.cpp, which keeps the mails of a
    mailbox as files of a directory, and [RmbCommands::print_mail] of rmb-commands.cpp,
    which reads them from the cluster. *)
From S2P Require Export RmbQuery RadosStorage.
From Stdlib Require Import Ascii.
Local Open Scope rmb_scope.

(** The calls to the file system. *)
Class Posix (F : Type) := {
  px_stat : string → F → bool;                 (** the path is there *)
  px_mkdir : string → ST F Z;
  px_unlink : string → ST F Z;
  px_rmdir : string → ST F Z;
  px_write : string → string → ST F bool;      (** [false]: the file cannot be opened *)
}.
(** A file that could be opened has what was written to it, and one that was unlinked is gone. *)
Class PosixLaws (F : Type) `{Posix F} := {
  px_file : string → F → option string;
  px_write_law : ∀ path data f, let '(ok, f') := px_write path data f in
    (ok = true → px_file path f' = Some data) ∧ ∀ p, p ≠ path → px_file p f' = px_file p f;
  px_unlink_law : ∀ path f, let '(r, f') := px_unlink path f in
    (r = 0 → px_file path f' = None) ∧ ∀ p, p ≠ path → px_file p f' = px_file p f;
  px_mkdir_law : ∀ path p f, px_file p (px_mkdir path f).2 = px_file p f;
}.

(** The tools of one mailbox. *)
Record MailboxTools := mk_tools { tl_base_path : string; tl_mailbox_path : string }.

Module Tools.
Definition new (mailbox_guid base : string) : MailboxTools :=
    let path :=
      match base with
      | "" => mailbox_guid
      | _ => if bool_decide (String.get (slen base - 1) base = Some "/"%char) then base +:+ mailbox_guid
             else base +:+ "/" +:+ mailbox_guid
      end in
    mk_tools base path.

(** The stream prints nothing after a null pointer. *)
Definition build_filename (mail_obj : RadosMail) : option string :=
    match get_metadata_key RBOX_METADATA_MAIL_UID (rm_attrset mail_obj) with
    | Some m_mail_uid => Some (m_mail_uid +:+ "." +:+ rm_oid mail_obj)
    | None => None
    end.
Definition file_path (t : MailboxTools) (filename : string) : string := tl_mailbox_path t +:+ "/" +:+ filename.

Section ops.
Context `{Posix F}.
Definition make_dir (path : string) : ST F Z :=
    λ f, if px_stat (c_str path) f then (0, f) else px_mkdir (c_str path) f.
Definition init_mailbox_dir (t : MailboxTools) : ST F Z :=
    r ← make_dir (tl_base_path t);
    if decide (r < 0) then mret (-1) else
    r ← make_dir (tl_mailbox_path t);
    if decide (r < 0) then mret (-1) else mret 0.
Definition delete_mail (t : MailboxTools) (mail_obj : option RadosMail) : ST F Z :=
    match mail_obj ≫= build_filename with
    | None => mret (-1)
    | Some filename => px_unlink (c_str (file_path t filename))
    end.
Definition delete_mailbox_dir (t : MailboxTools) : ST F Z :=
    if decide (tl_mailbox_path t = "" ∨ tl_base_path t = "") then mret (-1) else
    r ← px_rmdir (c_str (tl_mailbox_path t));
    if decide (r < 0) then mret (-1) else
    r ← px_rmdir (c_str (tl_base_path t));
    if decide (r < 0) then mret (-1) else mret 0.
(** [over] is the memory behind a buffer that is shorter than the size of its mail. *)
Definition save_mail (over : string) (t : MailboxTools) (mail_obj : option RadosMail) : ST F Z :=
    match mail_obj with
    | None => mret (-1)
    | Some mail =>
        match build_filename mail with
        | None => mret (-1)
        | Some filename =>
            let data := str_take (Z.to_nat (rm_object_size mail)) (default "" (rm_mail_buffer mail) +:+ over) in
            is_open ← px_write (c_str (file_path t filename)) data;
            mret (if (is_open : bool) then 0 else -1)
        end
    end.
End ops.

(** ** Printing the mailboxes: what is downloaded *)

Section download.
Context `{Posix F} `{Librados W}.
  Abbreviation M := (ST (F * Storage.state W)).
Variable over : string.

(** The loop over the mails of a mailbox. *)
Definition download_mail (t : MailboxTools) (mail : RadosMail) : M Z :=
    '(r, bl) ← on_snd (Storage.read_mail (rm_oid mail));
    if decide (r > 0) then on_fst (save_mail over t (Some (Mail.set_mail_buffer (Some bl) mail))) else mret 0.
(** [false]: the loop over the mailboxes ends. *)
Definition print_mailbox (output_dir : string) (download : bool) (b : RadosMailBox) : M bool :=
    if decide (mx_mail_count b = 0) then mret true else
    if negb download then mret true else
    let t := new (mx_mailbox_guid b) output_dir in
    r ← on_fst (init_mailbox_dir t);
    if decide (r < 0) then mret false else
    st_iter (λ mail, download_mail t mail ;; mret tt) (mx_mails b) ;;
    mret true.
Fixpoint print_mailboxes (output_dir : string) (download : bool) (l : list RadosMailBox) : M unit :=
    match l with
    | [] => mret tt
    | b :: l =>
        go_on ← print_mailbox output_dir download b;
        if (go_on : bool) then print_mailboxes output_dir download l else mret tt
    end.
Definition print_mail (mailbox : gmap string RadosMailBox) (output_dir : string) (download : bool) : M Z :=
    print_mailboxes output_dir download (map_items mailbox).*2 ;; mret 0.
End download.
End Tools.

(** A file system in memory: its directories and its files. *)
Record MemFiles := mk_files { mf_dirs : gset string; mf_files : gmap string string }.
#[export] Instance mem_posix : Posix MemFiles := {
  px_stat p f := bool_decide (p ∈ mf_dirs f) || bool_decide (is_Some (mf_files f !! p));
  px_mkdir p f := (0, mk_files ({[p]} ∪ mf_dirs f) (mf_files f));
  px_unlink p f := if mf_files f !! p then (0, mk_files (mf_dirs f) (delete p (mf_files f))) else (-1, f);
  px_rmdir p f := if decide (p ∈ mf_dirs f) then (0, mk_files (mf_dirs f ∖ {[p]}) (mf_files f)) else (-1, f);
  px_write p d f := (true, mk_files (mf_dirs f) (<[p := d]> (mf_files f)));
}.
#[export] Program Instance mem_posix_laws : PosixLaws MemFiles := {| px_file p f := mf_files f !! p |}.
Next Obligation. intros path data f. cbn. split; [by rewrite lookup_insert_eq|]. intros. by apply lookup_insert_ne. Qed.
Next Obligation.
  intros path f. cbn. destruct (mf_files f !! path); cbn; split; try done; [by rewrite lookup_delete_eq|].
  intros. by apply lookup_delete_ne.
Qed.
Next Obligation. done. Qed.

(** ** Lemmas *)

Lemma read_whole (n : Z) data : Z.of_nat (slen data) <= n → read_range n 0 data = data.
Proof. intros Hn. unfold read_range. rewrite str_drop_0. by rewrite decide_True by lia. Qed.

Section lemmas.
Context `{LibradosLaws W}.
(** What was read with success is what is there, cut at the largest read. *)
Lemma read_object_spec oid (s : Storage.state W) :
    let '((r, bl), s') := Storage.read_mail oid s in
    objects s' = objects s ∧ (0 <= r → ∃ ob, objects s !! (st_io_ctx s.1, oid) = Some ob ∧ bl = read_range INT_MAX 0 (ob_data ob)).
Proof.
    unfold Storage.read_mail. destruct (Storage.usable s) eqn:Hu.
    - rewrite StorageRun.guarded_usable by done. srun. unfold objects. cbn [fst snd].
      pose proof (read_law (st_io_ctx s.1) oid INT_MAX 0 s.2.2) as Hl.
      destruct (io_read _ _ _ _ _) as [[r bl] w]. cbn [fst snd]. destruct Hl as (Ho & _ & Hr). by split.
    - rewrite StorageRun.guarded_unusable by done. split; [done|lia].
Qed.
End lemmas.

(** ** Properties *)

(** Downloading a mail whose size is that of its object: the object and all others stay as
    they are, no file but the mail's own is touched, and if that file is written it has
    exactly the content of the object; nothing of the memory behind the buffer gets into it. *)
Theorem download_writes_object `{PosixLaws F} `{LibradosLaws W} over t mail uid (f : F) (s : Storage.state W) ob :
  get_metadata_key RBOX_METADATA_MAIL_UID (rm_attrset mail) = Some uid →
  objects s !! (st_io_ctx s.1, rm_oid mail) = Some ob →
  rm_object_size mail = Z.of_nat (slen (ob_data ob)) → rm_object_size mail <= INT_MAX →
  let path := c_str (Tools.file_path t (uid +:+ "." +:+ rm_oid mail)) in
  let '(r, (f', s')) := Tools.download_mail over t mail (f, s) in
  objects s' = objects s ∧ (∀ p, p ≠ path → px_file p f' = px_file p f) ∧
  (f' = f ∨ r = -1 ∨ px_file path f' = Some (ob_data ob)).
Proof.
  intros Huid Hob Hsize Hmax. cbv zeta. unfold Tools.download_mail. rewrite bind_eq, on_snd_run. cbn [fst snd].
  pose proof (read_object_spec (rm_oid mail) s) as Hr.
  destruct (Storage.read_mail (rm_oid mail) s) as [[r bl] s1]. cbn [fst snd]. destruct Hr as [Ho Hbl].
  case_decide as Hpos; [|rewrite ret_eq; split_and!; [done|done|by left]].
  destruct (Hbl ltac:(lia)) as (ob' & Hob' & ->). rewrite Hob in Hob'. injection Hob' as <-.
  rewrite (read_whole INT_MAX) by (rewrite <- Hsize; exact Hmax). rewrite on_fst_run. unfold Tools.save_mail, Tools.build_filename.
  replace (rm_attrset (Mail.set_mail_buffer (Some (ob_data ob)) mail)) with (rm_attrset mail) by by destruct mail.
  replace (rm_oid (Mail.set_mail_buffer (Some (ob_data ob)) mail)) with (rm_oid mail) by by destruct mail.
  replace (rm_object_size (Mail.set_mail_buffer (Some (ob_data ob)) mail)) with (rm_object_size mail) by by destruct mail.
  replace (rm_mail_buffer (Mail.set_mail_buffer (Some (ob_data ob)) mail)) with (Some (ob_data ob)) by by destruct mail.
  rewrite Huid, Hsize, Nat2Z.id. cbn [default]. unfold id. rewrite str_take_app. rewrite bind_eq.
  pose proof (px_write_law (c_str (Tools.file_path t (uid +:+ "." +:+ rm_oid mail))) (ob_data ob) f) as Hw.
  destruct (px_write _ _ f) as [ok f']. cbn [fst snd]. rewrite ret_eq. cbn [fst snd]. destruct Hw as [Hw Hf].
  split_and!; [done|done|]. destruct ok; [right; right; by apply Hw|by right; left].
Qed.

Definition listed_mail : RadosMail :=
  Mail.set_mail_size 7 (Mail.set_metadata {["U" := "7"]} (Mail.set_oid "o1" Mail.new)).
Definition listed_state : Storage.state MemCluster :=
  mem_state "u1" {[(mk_ioctx "mail_storage" "u1", "o1") := mk_robject "From: a" ∅ ∅ 17]} [].
Lemma download_writes_object_witness :
  let t := Tools.new "b1" "/tmp/out/" in
  px_file "/tmp/out/b1/7.o1" (Tools.download_mail "!" t listed_mail (mk_files ∅ ∅, listed_state)).2.1 = Some "From: a".
Proof.
  intros t. assert (objects listed_state !! (st_io_ctx listed_state.1, "o1") = Some (mk_robject "From: a" ∅ ∅ 17))
    as Hob by (vm_compute; reflexivity).
  pose proof (download_writes_object "!" t listed_mail "7" (mk_files ∅ ∅) listed_state _ eq_refl Hob eq_refl
    ltac:(vm_compute; discriminate)) as Hd.
  assert (Tools.download_mail "!" t listed_mail (mk_files ∅ ∅, listed_state) =
    (0, ((Tools.download_mail "!" t listed_mail (mk_files ∅ ∅, listed_state)).2.1, listed_state))) as E by (vm_compute; reflexivity).
  rewrite E in Hd |- *. cbn [fst snd]. destruct Hd as (_ & _ & [Hd|[Hd|Hd]]); [|discriminate Hd|exact Hd].
  exfalso. revert Hd. vm_compute. discriminate.
Defined.
