(* ===== verification/Tool.v ===== *)
(** What the programs of the tool share: rmb.cpp and the doveadm commands run the commands of
    rmb-commands.cpp on a storage with a cluster and a configuration of its own, in the
    namespace of a user. *)
From S2P Require Export LoadRun MailboxTools PluginConfig.
Local Open Scope rmb_scope.

Module Tool.
(** The configuration and the storage; the configuration has a pointer to the storage's context. *)
  Abbreviation state W := (RadosDovecotCephCfgImpl * Storage.state W)%type.

Section tool.
Context `{Jansson} `{RadosAdmin W} `{Librados W}.
  Abbreviation M := (ST (state W)).

Definition config : M RadosDovecotCephCfgImpl := on_fst st_get.
Definition storage {A} (m : ST (Storage.state W) A) : M A := on_snd m.
Definition on_config {A} (m : ST (RadosCephConfig * W) A) : M A :=
    λ '(c, (s, (cl, w))),
    let '(a, (c', w)) := m (mk_ceph_config (rados_cfg c) (Some (st_io_ctx s)), w) in
    (a, (PluginConfig.set_rados (cc_config c') c,
         (match cc_io_ctx c' with Some io => Storage.set_ctx io s | None => s end, (cl, w)))).
(** A command of the tool with its options. *)
Definition commands {A} (opts : gmap string string) (m : ST (gmap string string * Storage.state W) A) : M A :=
    λ '(c, s), let '(a, (_, s)) := m (opts, s) in (a, (c, s)).

(** [RadosNamespaceManager::lookup_key] of a new manager. *)
Definition lookup_key (uid : string) : M (bool * option string) :=
    λ '(c, (s, (cl, w))),
    let '(a, (n, w)) := NamespaceMgr.lookup_key uid (mk_ns_mgr (Some (mk_ceph_config (rados_cfg c) (Some (st_io_ctx s)))) ∅, w) in
    (a, (c, (match nm_config n ≫= cc_io_ctx with Some io => Storage.set_ctx io s | None => s end, (cl, w)))).
(** The module for the attributes, and the namespace of the user; the configuration the
    function makes is the one of the plugin with both parts valid. *)
Definition init_metadata_storage_module (namespace : string) : M (option (MetadataDefault + MetadataIma)) :=
    on_fst (st_modify (λ c, PluginConfig.set_rados (JsonConfig.set_valid true (rados_cfg c)) c)) ;;
    c ← config;
    let uid := if decide (namespace = "") then "" else namespace +:+ PluginConfig.get_user_suffix c in
    '(found, ns) ← lookup_key uid;
    '(found, ns) ← (if (found : bool) then mret (found, ns) else lookup_key uid);
    if (found : bool) then
      storage (Storage.set_namespace (default "" ns)) ;;
      io ← storage Storage.io_ctx;
      mret (Some (create_metadata_storage None io (rados_cfg c)))
    else mret None.

(** A computation on the storage and the files. *)
Definition on_files {F A} (m : ST (F * Storage.state W) A) : ST (F * state W) A :=
    λ '(f, (c, s)), let '(a, (f, s)) := m (f, s) in (a, (f, (c, s))).
(** The mails a query selects, printed, and written to files if this is asked for;
    [None]: the query is not in order and the program aborts. [over]: see [MailboxTools]. *)
Definition query_mail_storage `{Posix F} `{LocalTime} (over : string) (mail_objects : list RadosMail) (parser : CmdLineParser)
      (download silent : bool) : ST (F * Storage.state W) (option Z) :=
    match Query.query_mail_storage parser mail_objects ∅ with
    | None => mret None
    | Some mailbox =>
        if silent then mret (Some 0)
        else ret ← Tools.print_mail over mailbox (cp_out_dir parser) download; mret (Some ret)
    end.
(** The special queries, and the others when they can be read; [junk]: see [RmbQuery]. *)
Definition read_query (junk : Ascii.ascii) (special : list string) (parser : CmdLineParser) : option CmdLineParser :=
    if decide (cp_ls_value parser ∈ special) then Some parser else
    match Query.parse_ls_string junk parser with
    | Some (true, parser) => Some parser
    | _ => None
    end.
End tool.
End Tool.
