(* ===== verification/ReadOnly.v ===== *)
(** What the tool only reads: connecting, reading the configuration object, looking up the
    namespace of a user, and loading, printing and downloading mails change no object. *)
From S2P Require Export Tool UndoLog.
Local Open Scope rmb_scope.

Section read_only.
Context `{MetadataContract W T} `{RadosAdmin W} `{!QuietAdmin W} `{!Jansson} `{!Loader W T} `{!LoaderLaws W T}
  `{!LoadObjects.KeepsName W T} `{PosixF : Posix F}.
Variable m : store.

(** The objects of the world, of a storage, and of the state of a program. *)
  Abbreviation P := (λ w : W, objs w = m).
  Abbreviation PS := (at_snd (at_snd P)).

#[local] Instance quiet_now : AdminKeeps P := quiet_admin m.

Lemma io_read_quiet c oid len off : stays P (io_read c oid len off).
Proof.
    intros w Hw. pose proof (read_law c oid len off w) as Hl. destruct (io_read _ _ _ _ w) as [[r bl] w'].
    cbn [fst snd]. destruct Hl as [-> _]. done.
Qed.
Lemma io_stat_quiet c oid : stays P (io_stat c oid).
Proof.
    intros w Hw. pose proof (stat_law c oid w) as Hl. destruct (io_stat _ _ w) as [[r out] w'].
    cbn [fst snd]. destruct Hl as [-> _]. done.
Qed.
Lemma io_nobjects_quiet c f : stays P (io_nobjects c f).
Proof. intros w Hw. cbn. by rewrite nobjects_law. Qed.
#[local] Hint Resolve io_read_quiet io_stat_quiet io_nobjects_quiet storage_world_stays guarded_stays : stays.

Lemma stat_mail_quiet oid : stays PS (Storage.stat_mail (W:=W) oid).
Proof. unfold Storage.stat_mail. apply guarded_stays. stay. Qed.
Lemma read_mail_quiet oid : stays PS (Storage.read_mail (W:=W) oid).
Proof. unfold Storage.read_mail. apply guarded_stays. stay. Qed.
Lemma set_namespace_quiet ns : stays PS (Storage.set_namespace (W:=W) ns).
Proof. intros s Hs. by rewrite set_namespace_run. Qed.
Lemma find_mails_quiet f : stays PS (Storage.find_mails (W:=W) f).
Proof. apply guarded_stays. stay. Qed.
#[local] Hint Resolve stat_mail_quiet read_mail_quiet set_namespace_quiet find_mails_quiet : stays.
Lemma load_objects_quiet (ms : option T) mails sort_string load : stays PS (LoadRun.load_objects ms mails sort_string load).
Proof.
    unfold LoadRun.load_objects. destruct ms as [ms|]; [|apply stays_ret]. stay.
    intros w Hw. destruct (run_load _ ms load _ w) as [[l w']|] eqn:Hr; [|done].
    apply run_load_finished in Hr as (b & Hb & _ & _ & ->). cbn. by rewrite (LoadRun.steps_objs _ _ _ _ _ Hb).
Qed.

(** *** The configuration and the namespace of the user *)

Lemma read_retry_quiet io oid n r : stays P (CephConfig.read_retry io oid n r).
Proof. revert r. induction n as [|n IH]; intros r; cbn [CephConfig.read_retry]; stay. Qed.
#[local] Hint Resolve read_retry_quiet : stays.
Lemma config_get_quiet : stays (at_snd P) (CephConfig.get (W:=W)).
Proof. apply stays_on_fst. Qed.
Lemma config_modify_quiet f : stays (at_snd P) (CephConfig.modify (W:=W) f).
Proof. apply stays_on_fst. Qed.
Lemma config_world_quiet {A} (k : ST W A) : stays P k → stays (at_snd P) (CephConfig.world k).
Proof. apply stays_on_snd. Qed.
#[local] Hint Resolve config_get_quiet config_modify_quiet config_world_quiet : stays.
Lemma read_object_quiet oid : stays (at_snd P) (CephConfig.read_object (W:=W) oid).
Proof. unfold CephConfig.read_object. stay. Qed.
#[local] Hint Resolve read_object_quiet : stays.
Lemma load_cfg_quiet : stays (at_snd P) (CephConfig.load_cfg (W:=W)).
Proof. unfold CephConfig.load_cfg. stay. Qed.
(** Without a confirmation, or with nothing to do, the configuration is not written. *)
Lemma configuration_quiet o : stays (at_snd P) (Commands.configuration (W:=W) o false).
Proof.
    unfold Commands.configuration. cbn [negb]. destruct (o !! "update"); case_match; apply stays_ret.
Qed.

Abbreviation PT := (at_snd PS).
Lemma tool_storage_quiet {A} (k : ST (Storage.state W) A) : stays PS k → stays PT (Tool.storage k).
Proof. apply stays_on_snd. Qed.
Lemma tool_config_quiet : stays PT (Tool.config (W:=W)).
Proof. apply stays_on_fst. Qed.
Lemma tool_commands_quiet {A} o (k : ST (gmap string string * Storage.state W) A) : stays (at_snd PS) k → stays PT (Tool.commands o k).
Proof. intros Hk [c s] Hs. unfold Tool.commands. specialize (Hk (o, s) Hs). by destruct (k (o, s)) as [a [o' s']]. Qed.
Lemma on_config_quiet {A} (k : ST (RadosCephConfig * W) A) : stays (at_snd P) k → stays PT (Tool.on_config k).
Proof.
    intros Hk [c [s [cl w]]] Hw. unfold Tool.on_config.
    specialize (Hk (mk_ceph_config (rados_cfg c) (Some (st_io_ctx s)), w) Hw).
    by destruct (k _) as [a [c' w']].
Qed.
#[local] Hint Resolve tool_storage_quiet tool_config_quiet tool_commands_quiet on_config_quiet load_cfg_quiet : stays.

Lemma lookup_key_quiet uid : stays PT (Tool.lookup_key (W:=W) uid).
Proof.
    intros [c [s [cl w]]] Hw. unfold Tool.lookup_key.
    unfold NamespaceMgr.lookup_key. cbn [nm_config]. case_decide; [done|]. destruct (negb _); [done|].
    destruct (negb _); [done|]. cbn [nm_cache]. rewrite lookup_empty. cbn [CephConfig.set_io_ctx_namespace on_fst st_modify cc_config cc_io_ctx].
    match goal with |- context [CephConfig.read_object uid ?a] => pose proof (read_object_quiet uid a Hw) as Hr;
      destruct (CephConfig.read_object uid a) as [[err bl] [config w']] end.
    cbn [fst snd] in Hr. by case_decide.
Qed.
#[local] Hint Resolve lookup_key_quiet : stays.
Lemma init_module_quiet namespace : stays PT (Tool.init_metadata_storage_module (W:=W) namespace).
Proof.
    unfold Tool.init_metadata_storage_module. stay.
Qed.
Lemma open_named1_quiet o pool name user : stays PS (Storage.open_connection_named1 o pool name user).
Proof. apply open_connection_named_stays. Qed.

(** *** Printing and downloading *)

Lemma download_mail_quiet over t mail : stays (at_snd PS) (Tools.download_mail (F:=F) over t mail).
Proof. unfold Tools.download_mail. stay. Qed.
#[local] Hint Resolve download_mail_quiet : stays.
Lemma print_mailboxes_quiet over dir download l : stays (at_snd PS) (Tools.print_mailboxes (F:=F) over dir download l).
Proof. induction l as [|b l IH]; cbn [Tools.print_mailboxes]; unfold Tools.print_mailbox; stay. Qed.
#[local] Hint Resolve print_mailboxes_quiet : stays.
Lemma query_quiet `{LocalTime} over mails parser download silent :
    stays (at_snd PS) (Tool.query_mail_storage (F:=F) over mails parser download silent).
Proof. unfold Tool.query_mail_storage, Tools.print_mail. stay. Qed.
Lemma on_files_quiet {A} (k : ST (F * Storage.state W) A) : stays (at_snd PS) k → stays (at_snd PT) (Tool.on_files k).
Proof. intros Hk [f [c s]] Hs. unfold Tool.on_files. specialize (Hk (f, s) Hs). by destruct (k (f, s)) as [a [f' s']]. Qed.
End read_only.

(** A cluster with the configuration object, the object of alice, and one mail of hers. *)
Definition cfg_object (c : RadosCephJsonConfig) : robject := mk_robject (json_dumps (JsonConfig.root_of c)) ∅ ∅ 0.
Definition mapped_world : MemCluster :=
  let u ns := mk_ioctx "mail_storage" ns in
  mk_mem (<[(u "", "rbox_cfg") := cfg_object (cc_config users_config)]>
    (<[(u "users", "alice_u") := mapping_object "ns_a"]> {[(u "ns_a", "o1") := empty_object 17]})) [] 1000.
