(* ===== verification/RmbMain.v ===== *)
(** The program of the command line tool: [main] of librmb/tools/rmb/rmb.cpp, which reads the
    command line, connects, and runs one of the commands. *)
From S2P Require Export CommandLine ReadOnly.
Local Open Scope rmb_scope.

Module Rmb.
Section main.
Context `{Jansson} `{RadosAdmin W} `{Librados W} `{!Loader W (MetadataDefault + MetadataIma)} `{Posix F} `{LocalTime}.
(** The time, the environment, the list of the pools, the lines of a file, and the memory that
    is read where the code reads what it must not: behind a buffer, for the operator of a query
    without one, and for the first of no arguments. *)
Variables (now : Z) (home : option string) (path_max : nat) (pool_list : ST W (Z * list string))
  (read_log : string → F → option (list string)) (over : string) (junk : Ascii.ascii) (stale : string).
  Abbreviation M := (ST (F * Tool.state W)).

Definition option_or (opts : gmap string string) (key value : string) : string := default value (opts !! key).
Definition storage {A} (m : ST (Storage.state W) A) : M A := on_snd (Tool.storage m).
Definition deinit : M unit := storage (Storage.cluster Cluster.deinit).
(** [release_exit]. *)
Definition release_exit (code : Z) : M (option Z) := deinit ;; mret (Some code).
(** A command whose answer is only printed. *)
Definition command {A} (opts : gmap string string) (m : ST (gmap string string * Storage.state W) A) : M A :=
    on_snd (Tool.commands opts m).

(** Loading the mails for a query and printing them; nothing is done for one that cannot be read. *)
Definition run_query (ms : MetadataDefault + MetadataIma) (sort_type : string) (download : bool) (parser : option CmdLineParser) :
      M (option unit) :=
    match parser with
    | None => mret (Some tt)
    | Some parser =>
        loaded ← storage (LoadRun.load_objects (Some ms) [] sort_type true);
        match loaded with
        | None => mret None
        | Some (_, mail_objects) =>
            r ← Tool.on_files (Tool.query_mail_storage over mail_objects parser download false);
            mret (match r with Some _ => Some tt | None => None end)
        end
    end.

(** The option [delete]: one mail, or the namespace. *)
Definition run_delete (opts : gmap string string) (confirmed : bool) (ms : MetadataDefault + MetadataIma) (ceph_cfg : RadosCephConfig)
      (to_delete : string) : M (option unit) :=
    if decide (to_delete = "-") then
      r ← command opts (LoadRun.delete_namespace (Some ms) [] (Some ceph_cfg) confirmed);
      match r with
      | None => mret None
      | Some r => if decide (r < 0) then deinit ;; mret (Some tt) else mret (Some tt)
      end
    else command opts (Commands.delete_mail confirmed) ;; mret (Some tt).

(** The choice of the command, in the namespace of the user. *)
Definition run_command (opts metadata : gmap string string) (confirmed : bool) (ms : MetadataDefault + MetadataIma) (uid : string) :
      M (option unit) :=
    c ← on_snd Tool.config;
    let ceph_cfg := mk_ceph_config (rados_cfg c) None in
    let sort_type := option_or opts "sort" "uid" in
    match opts !! "to_delete", opts !! "to_rename", opts !! "ls", opts !! "get", opts !! "set" with
    | Some to_delete, _, _, _, _ => run_delete opts confirmed ms ceph_cfg to_delete
    | _, Some _, _, _, _ => command opts (Commands.rename_user now (Some ceph_cfg) confirmed uid) ;; mret (Some tt)
    | _, _, Some ls, _, _ =>
        run_query ms sort_type false (Tool.read_query junk ["all"; "-"] (Query.new_parser ls))
    | _, _, _, Some get, _ =>
        run_query ms sort_type true (Tool.read_query junk ["all"; "-"]
          (Query.set_output_path home path_max (opts !! "out") (Query.new_parser get)))
    | _, _, _, _, Some _ => command opts (Commands.update_attributes ms metadata) ;; mret (Some tt)
    | _, _, _, _, _ => mret (Some tt)
    end.

(** With a connection: the configuration object, and the commands that need no user. *)
Definition run_connected (c : cmd_line) : M (option Z) :=
    let opts := cm_opts c in
    on_snd (on_fst (st_modify (λ c, PluginConfig.set_rados
      (JsonConfig.set_cfg_object_name (option_or opts "cfg_obj" (cfg_object_name (rados_cfg c))) (rados_cfg c)) c))) ;;
    ret_load_cfg ← on_snd (Tool.on_config CephConfig.load_cfg);
    match ret_load_cfg with
    | None => mret None
    | Some ret_load_cfg =>
        if decide (ret_load_cfg < 0) then
          (if cm_create_config c then on_snd (Tool.on_config CephConfig.save_cfg) else mret 0) ;;
          release_exit 0
        else if cm_is_config c then
          on_snd (Tool.on_config (Commands.configuration opts (cm_update_confirmed c))) ;; release_exit 0
        else match opts !! "namespace" with
        | None => mret (Some 1)
        | Some namespace =>
            ms ← on_snd (Tool.init_metadata_storage_module namespace);
            match ms with
            | None => release_exit 0
            | Some ms =>
                cfg ← on_snd Tool.config;
                let uid := if decide (namespace = "") then "" else namespace +:+ PluginConfig.get_user_suffix cfg in
                r ← run_command opts (cm_metadata c) (cm_update_confirmed c) ms uid;
                match r with None => mret None | Some _ => release_exit 0 end
            end
        end
    end.

(** The storage of the program. *)
Definition run_storage (c : cmd_line) : M (option Z) :=
    let opts := cm_opts c in
    open_connection ← storage (Storage.open_connection_named1 [] (option_or opts "pool" "mail_storage")
                        (option_or opts "clustername" "ceph") (option_or opts "rados_user" "client.admin"));
    match open_connection with
    | None => mret None
    | Some r => if decide (r < 0) then release_exit (-1) else run_connected c
    end.

(** The arguments without the name of the program; the exit code, or [None]: the program aborts. *)
Definition main (args : list string) : ST (F * W) (option Z) :=
    match CommandLine.parse_cmd_line_args args with
    | parse_exit code => mret (Some code)
    | parse_done args c =>
        let opts := cm_opts c in
        if cm_show_usage c then mret (Some 1) else
        if decide (args = [] ∧ opts = ∅ ∧ cm_is_config c = false) then mret (Some 1) else
        let remove_save_log := option_or opts "remove_save_log" "" in
        if decide (remove_save_log ≠ "") then
          if cm_update_confirmed c then
            λ '(f, w), let '(r, _, w) := Undo.delete_with_save_log [] (option_or opts "clustername" "ceph")
                                           (option_or opts "rados_user" "client.admin") now
                                           (read_log remove_save_log f) (Some ∅) w in (r, (f, w))
          else mret (Some 0)
        else if decide (hd stale args = "lspools") then
          λ '(f, w), let '((r, _), (_, w)) := LoadRun.lspools pool_list (Cluster.initial, w) in (Some r, (f, w))
        else
          λ '(f, w), let '(r, (f, s)) := run_storage c (f, (PluginConfig.new, (Storage.new, (Cluster.initial, w)))) in
                     (r, (f, s.2.2.2))
    end.
End main.
End Rmb.

(** ** Without a confirmation *)

Module RmbRun.
Section quiet.
Context `{JanssonLaws} `{LibradosLaws W} `{RadosAdmin W} `{!QuietAdmin W} `{!Loader W (MetadataDefault + MetadataIma)}
  `{!LoaderLaws W (MetadataDefault + MetadataIma)} `{Posix F} `{LocalTime}.
Variables (m : store) (now : Z) (home : option string) (path_max : nat) (over : string) (junk : Ascii.ascii).
  Abbreviation PS := (at_snd (at_snd (λ w : W, objs w = m))).
  Abbreviation PF := (at_snd (S:=F) (at_snd PS)).

#[local] Instance quiet_here : AdminKeeps (λ w : W, objs w = m) := quiet_admin m.
Lemma rmb_storage_quiet {A} (k : ST (Storage.state W) A) : stays PS k → stays PF (Rmb.storage k).
Proof. intros Hk. by apply stays_on_snd, tool_storage_quiet. Qed.
Lemma rmb_command_quiet {A} o (k : ST (gmap string string * Storage.state W) A) : stays (at_snd PS) k → stays PF (Rmb.command o k).
Proof. intros Hk. by apply stays_on_snd, tool_commands_quiet. Qed.
Lemma release_exit_quiet code : stays PF (Rmb.release_exit (W:=W) code).
Proof.
    unfold Rmb.release_exit, Rmb.deinit. apply stays_bind; [|intros; apply stays_ret].
    apply rmb_storage_quiet, storage_cluster_stays, cluster_deinit_stays.
Qed.
Lemma load_quiet (ms : option (MetadataDefault + MetadataIma)) mails sort_string load :
    stays PS (LoadRun.load_objects ms mails sort_string load).
Proof. apply load_objects_quiet. Qed.
#[local] Hint Resolve rmb_storage_quiet rmb_command_quiet release_exit_quiet load_quiet on_files_quiet query_quiet
  tool_config_quiet on_config_quiet load_cfg_quiet configuration_quiet init_module_quiet open_named1_quiet : stays.

Lemma run_query_quiet ms sort_type download parser : stays PF (Rmb.run_query (W:=W) over ms sort_type download parser).
Proof. unfold Rmb.run_query. destruct parser; [|apply stays_ret]. stay. Qed.
Lemma delete_mail_quiet : stays (at_snd PS) (Commands.delete_mail (W:=W) false).
Proof. apply stays_ret. Qed.
Lemma delete_namespace_quiet (ms : option (MetadataDefault + MetadataIma)) mails cfg :
    stays (at_snd PS) (LoadRun.delete_namespace (W:=W) ms mails cfg false).
Proof.
    unfold LoadRun.delete_namespace, Commands.delete_namespace. stay.
    all: first [intros [o s0] Hs; exact Hs|apply set_namespace_quiet].
Qed.
#[local] Hint Resolve run_query_quiet delete_mail_quiet delete_namespace_quiet : stays.
Lemma rename_user_quiet cfg uid : stays (at_snd PS) (Commands.rename_user (W:=W) now cfg false uid).
Proof. unfold Commands.rename_user. destruct cfg as [cfg|]; [|apply stays_ret]. cbn [negb]. case_match; apply stays_ret. Qed.
#[local] Hint Resolve rename_user_quiet : stays.
Lemma run_command_quiet opts metadata ms uid : opts !! "set" = None →
    stays PF (Rmb.run_command (W:=W) now home path_max over junk opts metadata false ms uid).
Proof.
    intros Hset. unfold Rmb.run_command. rewrite Hset. apply stays_bind; [apply stays_on_snd, tool_config_quiet|].
    intros c. unfold Rmb.run_delete, Rmb.deinit.
    repeat case_match; stay; apply rmb_storage_quiet, storage_cluster_stays, cluster_deinit_stays.
Qed.
Lemma run_connected_quiet c :
    cm_update_confirmed c = false → cm_create_config c = false → cm_opts c !! "set" = None →
    stays PF (Rmb.run_connected (W:=W) now home path_max over junk c).
Proof.
    intros Hconf Hcreate Hset. unfold Rmb.run_connected. rewrite Hconf, Hcreate.
    apply stays_bind; [apply stays_on_snd, stays_on_fst|intros _].
    apply stays_bind; [apply stays_on_snd, on_config_quiet, load_cfg_quiet|intros [ret|]; [|apply stays_ret]].
    case_decide; [stay|]. case_match; [stay|]. case_match; [|apply stays_ret].
    apply stays_bind; [apply stays_on_snd, init_module_quiet|intros [ms|]; [|apply release_exit_quiet]].
    apply stays_bind; [apply stays_on_snd, tool_config_quiet|intros cfg].
    apply stays_bind; [by apply run_command_quiet|intros [|]; [apply release_exit_quiet|apply stays_ret]].
Qed.
Lemma run_storage_quiet c :
    cm_update_confirmed c = false → cm_create_config c = false → cm_opts c !! "set" = None →
    stays PF (Rmb.run_storage (W:=W) now home path_max over junk c).
Proof.
    intros Hconf Hcreate Hset. unfold Rmb.run_storage.
    apply stays_bind; [apply rmb_storage_quiet, open_named1_quiet|intros [r|]; [|apply stays_ret]].
    case_decide; [apply release_exit_quiet|by apply run_connected_quiet].
Qed.
Lemma lspools_quiet (pool_list : ST W (Z * list string)) :
    stays (λ w, objs w = m) pool_list → stays (at_snd (λ w, objs w = m)) (LoadRun.lspools pool_list).
Proof. intros Hp. unfold LoadRun.lspools. stay. Qed.
End quiet.
End RmbRun.

(** ** Properties *)

(** C11. The tool asks first: run with a command line without the confirmation, the request to
    create the configuration and the option [set], it changes no object of the cluster,
    whatever else the command line has, whatever fails and however the calls interleave. *)
Theorem tool_asks_first `{JanssonLaws} `{LibradosLaws W} `{RadosAdmin W} `{!QuietAdmin W}
    `{!Loader W (MetadataDefault + MetadataIma)} `{!LoaderLaws W (MetadataDefault + MetadataIma)} `{Posix F} `{LocalTime}
    now home path_max pool_list read_log over junk stale args (f : F) (w : W) :
  (∀ w, objs (pool_list w).2 = objs w) →
  (∀ rest c, CommandLine.parse_cmd_line_args args = parse_done rest c →
     cm_update_confirmed c = false ∧ cm_create_config c = false ∧ cm_opts c !! "set" = None) →
  objs (Rmb.main now home path_max pool_list read_log over junk stale args (f, w)).2.2 = objs w.
Proof.
  intros Hp Hargs. unfold Rmb.main. destruct (CommandLine.parse_cmd_line_args args) as [code|rest c]; [done|].
  destruct (Hargs rest c eq_refl) as (Hconf & Hcreate & Hset). rewrite Hconf.
  destruct (cm_show_usage c); [done|]. case_decide; [done|]. case_decide; [done|]. case_decide.
  - pose proof (RmbRun.lspools_quiet (objs w) pool_list (λ w0 E, eq_trans (Hp w0) E) (Cluster.initial, w) eq_refl) as Hl.
    by destruct (LoadRun.lspools _ _) as [[r vec] [cl w']].
  - pose proof (RmbRun.run_storage_quiet (objs w) now home path_max over junk c Hconf Hcreate Hset
      (f, (PluginConfig.new, (Storage.new, (Cluster.initial, w)))) eq_refl) as Hr.
    destruct (Rmb.run_storage _ _ _ _ _ _ _) as [r [f' [c' [s [cl w']]]]]. exact Hr.
Qed.

#[local] Instance example_time : LocalTime := Query.no_time.
Definition rmb (args : list string) : option Z * (MemFiles * MemCluster) :=
  Rmb.main 99 None 100 (mret (0, [])) (λ _ _, None) "" Ascii.zero "" args (mk_files ∅ ∅, mapped_world).

Lemma tool_asks_first_witness :
  (rmb ["-N"; "alice"; "delete"; "-"]).1 = Some 0 ∧ objs (rmb ["-N"; "alice"; "delete"; "-"]).2.2 = objs mapped_world.
Proof.
  split; [vm_compute; reflexivity|]. unfold rmb.
  apply (tool_asks_first 99 None 100 (mret (0, [])) (λ _ _, None) "" Ascii.zero ""
    ["-N"; "alice"; "delete"; "-"] (mk_files ∅ ∅) mapped_world); [done|].
  assert (CommandLine.parse_cmd_line_args ["-N"; "alice"; "delete"; "-"] =
    parse_done [] (mk_cmd_line (<["to_delete" := "-"]> {["namespace" := "alice"]}) false ∅ false false false)) as ->
    by (vm_compute; reflexivity).
  intros rest c [= <- <-]. done.
Defined.
(** With the confirmation the mail and the object of alice go. *)
Example tool_deletes_namespace :
  (map_to_list (mc_objs (rmb ["-N"; "alice"; "delete"; "-"; "--yes-i-really-really-mean-it"]).2.2)).*1 =
    [(mk_ioctx "mail_storage" "", "rbox_cfg")].
Proof. vm_compute. reflexivity. Qed.

(** Renaming never finds the user of the tool when the suffix is not empty, as it is not by
    default: the name that is handed on has the suffix already. *)
Lemma tool_rename_does_nothing :
  let args := ["-N"; "alice"; "rename"; "bob"; "--yes-i-really-really-mean-it"] in
  (rmb args).1 = Some 0 ∧ mc_objs (rmb args).2.2 !! alice = Some (mapping_object "ns_a") ∧
  mc_objs (rmb args).2.2 !! bob = None.
Proof. intros args. split; [vm_compute; reflexivity|]. split; vm_compute; reflexivity. Qed.
