(* ===== verification/Doveadm.v ===== *)
(** The doveadm commands: storage-rbox/doveadm-rbox-plugin.cpp. A command makes a storage
    with a cluster and a configuration of its own, connects it, and runs a command of the
    tool in the namespace of a user; two of them compare the objects of the namespace
    with the index records of the user's mailboxes. *)
From S2P Require Export Tool.
From Stdlib Require Import Ascii.
Local Open Scope rmb_scope.

(** What Dovecot answers when the records of a mailbox are listed: its flags allow it to be
    selected, it has [virtual_vfuncs], it can be opened, the oids of the records of its mails
    ([None]: a mail without a record), and the results of the calls that end the search
    and the transaction. *)
Record box_visit := mk_box_visit {
  bv_selectable : bool;
  bv_virtual : bool;
  bv_opens : bool;
  bv_records : list (option string);
  bv_search_deinit : Z;
  bv_commit : Z;
}.
(** A namespace: its mailboxes in the order of the list, and the result of [mailbox_list_iter_deinit]. *)
Record ns_visit := mk_ns_visit { nv_boxes : list box_visit; nv_deinit : Z }.

Module Doveadm.
Import Tool.
(** ** The objects and the records *)

(** [set_index_ref] of the first mail with the oid. *)
Fixpoint reference (oid : string) (mail_objects : list RadosMail) : list RadosMail :=
    match mail_objects with
    | [] => []
    | m :: l => if decide (rm_oid m = oid) then Mail.set_index_ref true m :: l else m :: reference oid l
    end.
(** The records that have data. *)
Definition records (b : box_visit) : list string := omap id (bv_records b).
Definition iterate_mailbox (b : box_visit) (mail_objects : list RadosMail) : Z * list RadosMail :=
    if bv_virtual b then (0, mail_objects) else
    if negb (bv_opens b) then (-1, mail_objects) else
    let mail_objects := foldl (λ l oid, reference oid l) mail_objects (records b) in
    if decide (bv_search_deinit b < 0) then (-1, mail_objects) else
    if decide (bv_commit b < 0) then (-1, mail_objects) else (0, mail_objects).
(** The loop over the mailboxes; it ends at the first that fails. *)
Fixpoint iterate_mailboxes (boxes : list box_visit) (ret : Z) (mail_objects : list RadosMail) : Z * list RadosMail :=
    match boxes with
    | [] => (ret, mail_objects)
    | b :: boxes =>
        if bv_selectable b then
          let '(ret, mail_objects) := iterate_mailbox b mail_objects in
          if decide (ret < 0) then (-1, mail_objects) else iterate_mailboxes boxes ret mail_objects
        else iterate_mailboxes boxes ret mail_objects
    end.
Definition check_namespace_mailboxes (ns : ns_visit) (mail_objects : list RadosMail) : Z * list RadosMail :=
    let '(ret, mail_objects) := iterate_mailboxes (nv_boxes ns) 0 mail_objects in
    (if decide (nv_deinit ns < 0) then -1 else ret, mail_objects).
(** The namespaces from the one with the inbox on; the results are not looked at. *)
Definition check_namespaces (namespaces : list ns_visit) (mail_objects : list RadosMail) : list RadosMail :=
    foldl (λ l ns, (check_namespace_mailboxes ns l).2) mail_objects namespaces.

(** The answer and the list. *)
Definition iterate_list_objects (b : box_visit) (object_list : gset string) : Z * gset string :=
    if bv_virtual b then (-1, object_list) else
    if negb (bv_opens b) then (-1, object_list) else
    let object_list := object_list ∪ list_to_set (records b) in
    if decide (bv_search_deinit b < 0) then (-1, object_list) else
    if decide (bv_commit b < 0) then (-1, object_list) else (0, object_list).

(** ** The storage of a command *)

Section plugin.
Context `{Jansson} `{RadosAdmin W} `{Librados W}.
  Abbreviation M := (ST (Tool.state W)).
(** [getenv] is [mail_user_plugin_getenv] or [doveadm_plugin_getenv]. *)
Definition read_plugin_configuration (getenv : string → option string) : M unit :=
    on_fst (st_modify (λ c, PluginConfig.set_config_valid true
      (foldl (λ c kv, match getenv kv.1 with Some v => PluginConfig.update_metadata kv.1 (Some v) c | None => c end)
         c (map_items (dc_config (dovecot_cfg c)))))).
(** [None]: the configuration of the cluster has a number that cannot be read, and the program ends. *)
Definition open_connection : M (option Z) :=
    c ← config;
    storage (Storage.open_connection_named [] (PluginConfig.get_pool_name c) (PluginConfig.get_index_pool_name c)
               (PluginConfig.get_rados_cluster_name c) (PluginConfig.get_rados_username c)).
Definition open_connection_load_config (getenv : string → option string) : M (option Z) :=
    read_plugin_configuration getenv ;;
    open ← open_connection;
    match open with
    | None => mret None
    | Some open => if decide (open < 0) then mret (Some open) else on_config CephConfig.load_cfg
    end.
(** The constructor, a command that may end the program, and the destructor; [X] is what the
    command uses besides its own storage. *)
Definition with_plugin_on {X A} (m : ST (X * Tool.state W) (option A)) : ST (X * W) (option A) :=
    λ '(x, w), let '(a, (x, (_, s))) := m (x, (PluginConfig.new, (Storage.new, (Cluster.initial, w)))) in
         match a with
         | None => (None, (x, s.2.2))
         | Some a =>
             let '(_, s) := Storage.close_connection s in
             let '(_, s) := Storage.cluster Cluster.deinit s in (Some a, (x, s.2.2))
         end.
Definition with_plugin {A} (m : M (option A)) : ST W (option A) :=
    λ w, let '(a, (_, w)) := with_plugin_on (on_snd m) (tt, w) in (a, w).

(** ** Commands for one user *)

(** What the commands have in common: the connection, its failure, and the namespace of the user. *)
Definition in_namespace (getenv : string → option string) (username : string)
      (run : MetadataDefault + MetadataIma → M Z) : M (option Z) :=
    open ← open_connection_load_config getenv;
    match open with
    | None => mret None
    | Some open =>
        if decide (open < 0) then mret (Some open) else
        ms ← init_metadata_storage_module username;
        match ms with None => mret (Some (-1)) | Some ms => r ← run ms; mret (Some r) end
    end.

(** The exit code. *)
Definition cmd_rmb_delete_run (getenv : string → option string) (iterate_single_user : bool)
      (oid : option string) (username : string) : ST W (option Z) :=
    match oid with
    | None => mret (Some (-1))
    | Some oid =>
        if negb iterate_single_user then mret (Some (-1)) else
        with_plugin (in_namespace getenv username (λ _,
          commands (<["to_delete" := oid]> {["namespace" := username]}) (Commands.delete_mail true)))
    end.
Definition cmd_rmb_rename_run (getenv : string → option string) (now : Z) (iterate_single_user : bool)
      (new_user_name : option string) (username : string) : ST W (option Z) :=
    match new_user_name with
    | None => mret (Some (-1))
    | Some new_user_name =>
        if negb iterate_single_user then mret (Some (-1)) else
        with_plugin (
          open ← open_connection_load_config getenv;
          match open with
          | None => mret None
          | Some open =>
              if decide (open < 0) then mret (Some open) else
              c ← config;
              r ← commands (<["to_rename" := new_user_name]> {["namespace" := username]})
                    (Commands.rename_user now (Some (mk_ceph_config (rados_cfg c) None)) true username);
              mret (Some r)
          end)
    end.
(** The attribute of [key=value]; a key has one character. *)
Definition attribute_of (key_value_pair : string) : option (string * string) :=
    match getline_split "=" key_value_pair with
    | [key; value] => if decide (1 < slen key)%nat then None else Some (key, value)
    | _ => None
    end.
Definition cmd_rmb_set_run `{LocalTime} (getenv : string → option string) (iterate_single_user : bool)
      (oid key_value_pair : option string) (username : string) : ST W (option Z) :=
    if negb iterate_single_user then mret (Some (-1)) else
    match oid, key_value_pair with
    | Some oid, Some key_value_pair =>
        with_plugin (in_namespace getenv username (λ ms,
          match attribute_of key_value_pair with
          | None => mret (-1)
          | Some (key, value) =>
              commands (<["set" := oid]> {["namespace" := username]})
                (Commands.update_attributes ms {[key := value]})
          end))
    | _, _ => mret (Some (-1))
    end.

(** The configuration object. *)
Definition cmd_rmb_config (getenv : string → option string) (opts : gmap string string) : ST W (option Z) :=
    with_plugin (
      read_plugin_configuration getenv ;;
      open ← open_connection_load_config getenv;
      match open with
      | None => mret None
      | Some open =>
          if decide (open < 0) then mret (Some open) else
          ret ← on_config (Commands.configuration opts true);
          mret (Some (if decide (ret < 0) then -1 else 0))
      end).
Definition cmd_rmb_config_create (getenv : string → option string) : ST W (option Z) :=
    with_plugin (
      read_plugin_configuration getenv ;;
      open ← open_connection;
      match open with
      | None => mret None
      | Some open =>
          if decide (open < 0) then mret (Some (-1)) else
          ret ← on_config CephConfig.load_cfg;
          match ret with
          | None => mret None
          | Some ret =>
              if decide (ret < 0) then
                ret ← on_config CephConfig.save_cfg;
                mret (Some (if decide (ret < 0) then -1 else 0))
              else mret (Some 1)
          end
      end).

(** ** Checking the indices *)

(** [mail_objects] is what [load_objects] gave for the namespace: the end of the search. *)
Definition unreferenced (mail_objects : list RadosMail) : bool := existsb (λ m, negb (rm_index_ref m)) mail_objects.
(** The mails without a record are deleted, if this was asked for. *)
Fixpoint delete_unreferenced (delete_not_referenced_objects : bool) (mail_objects : list RadosMail) (exit_code : Z) :
      ST (Storage.state W) Z :=
    match mail_objects with
    | [] => mret exit_code
    | mo :: mail_objects =>
        if delete_not_referenced_objects && negb (rm_index_ref mo) then
          Storage.delete_mail (Some mo) ;;
          delete_unreferenced delete_not_referenced_objects mail_objects 2
        else delete_unreferenced delete_not_referenced_objects mail_objects exit_code
    end.
(** After the search: [namespaces] is [None] when the user has none. *)
Definition check_indices (delete_not_referenced_objects : bool) (namespaces : option (list ns_visit))
      (mail_objects : list RadosMail) : ST (Storage.state W) Z :=
    let mail_objects := match namespaces with Some l => check_namespaces l mail_objects | None => mail_objects end in
    delete_unreferenced delete_not_referenced_objects mail_objects (if unreferenced mail_objects then 1 else 0).
(** ** Writing the index object *)

(** The mailboxes of a namespace; the answer, what was found and not written yet, and whether
    the command has ended with a failed write. *)
Fixpoint index_mailboxes (boxes : list box_visit) (ret : Z) (mail_objects : gset string) :
      ST (Storage.state W) (Z * gset string * bool) :=
    match boxes with
    | [] => mret (ret, mail_objects, false)
    | b :: boxes =>
        if bv_selectable b then
          let '(ret, mail_objects) := iterate_list_objects b mail_objects in
          if decide (ret < 0) then mret (-1, mail_objects, false) else
          r ← Commands.append_ceph_object_index mail_objects;
          if decide (r < 0) then mret (-1, mail_objects, true) else index_mailboxes boxes ret ∅
        else index_mailboxes boxes ret mail_objects
    end.
Fixpoint index_namespaces (namespaces : list ns_visit) (ret : Z) (mail_objects : gset string) : ST (Storage.state W) Z :=
    match namespaces with
    | [] => mret ret
    | ns :: namespaces =>
        '(ret, mail_objects, ended) ← index_mailboxes (nv_boxes ns) ret mail_objects;
        if (ended : bool) then mret (-1) else index_namespaces namespaces ret mail_objects
    end.
(** After the connection; [None]: the attributes of a mail end the program. *)
Definition create_ceph_index (ms : MetadataDefault + MetadataIma) (full_refresh : bool)
      (namespaces : option (list ns_visit)) : ST (Storage.state W) (option Z) :=
    Commands.remove_ceph_object_index ;;
    match namespaces with
    | None => mret (Some 0)
    | Some namespaces =>
        if negb full_refresh then ret ← index_namespaces namespaces 0 ∅; mret (Some ret) else
        mail_objects ← Commands.load_objects ms;
        match mail_objects with
        | None => mret None
        | Some mail_objects =>
            r ← Commands.overwrite_ceph_object_index mail_objects;
            mret (Some (if decide (r < 0) then -1 else 0))
        end
    end.
Definition cmd_rmb_create_ceph_index_run (user_getenv getenv : string → option string) (username : string) (full_refresh : bool)
      (namespaces : option (list ns_visit)) : ST W (option Z) :=
    with_plugin (
      read_plugin_configuration user_getenv ;;
      open ← open_connection_load_config getenv;
      match open with
      | None => mret None
      | Some open =>
          if decide (open < 0) then mret (Some open) else
          ms ← init_metadata_storage_module username;
          match ms with
          | None => mret (Some (-1))
          | Some ms => storage (create_ceph_index ms full_refresh namespaces)
          end
      end).
End plugin.
End Doveadm.

(** ** Lemmas *)

Module DoveadmRun.
Import Doveadm.

(** Every mail with the oid has a record. *)
Definition referenced (oid : string) (l : list RadosMail) : Prop := ∀ m, m ∈ l → rm_oid m = oid → rm_index_ref m = true.
(** The names are the same, and what had a record has one. *)
Definition marks (l l' : list RadosMail) : Prop :=
    Forall2 (λ m m', rm_oid m' = rm_oid m ∧ (rm_index_ref m = true → rm_index_ref m' = true)) l l'.

Lemma marks_refl l : marks l l.
Proof. unfold marks. induction l; constructor; auto. Qed.
Lemma marks_trans l1 l2 l3 : marks l1 l2 → marks l2 l3 → marks l1 l3.
Proof.
    intros H12. revert l3. induction H12 as [|m1 m2 l1 l2 [E1 M1] _ IH]; intros l3 H23; inversion_clear H23; constructor.
    - destruct H as [-> ?]. auto.
    - by apply IH.
Qed.
Lemma marks_names l l' : marks l l' → rm_oid <$> l' = rm_oid <$> l.
Proof. induction 1 as [|m m' l l' [E _] _ IH]; [done|]. cbn. by rewrite E, IH. Qed.
Lemma marks_referenced oid l l' : marks l l' → referenced oid l → referenced oid l'.
Proof.
    induction 1 as [|m m' l l' [E Hm] _ IH]; intros Hr; [done|].
    assert (referenced oid l') as Hl by (apply IH; intros x Hx; apply Hr; by right).
    intros x [->|Hx]%elem_of_cons Ho; [|by apply Hl]. apply Hm, Hr; [left|by rewrite <- E].
Qed.
Lemma set_index_ref_name m : rm_oid (Mail.set_index_ref true m) = rm_oid m ∧ rm_index_ref (Mail.set_index_ref true m) = true.
Proof. by destruct m. Qed.
Lemma reference_marks oid l : marks l (reference oid l).
Proof.
    induction l as [|m l IH]; [constructor|]. cbn [reference]. case_decide.
    - constructor; [by destruct m|apply marks_refl].
    - by constructor.
Qed.
Lemma reference_referenced oid l : NoDup (rm_oid <$> l) → referenced oid (reference oid l).
Proof.
    induction l as [|m l IH]; intros Hn; [by intros x ?%elem_of_nil|]. cbn in Hn. apply list.NoDup_cons in Hn as [Hni Hn].
    cbn [reference]. case_decide as Hm.
    - intros x [->|Hx]%elem_of_cons Ho; [apply set_index_ref_name|].
      destruct Hni. rewrite Hm, <- Ho. apply list_elem_of_fmap. by exists x.
    - intros x [->|Hx]%elem_of_cons Ho; [done|by apply IH].
Qed.
Lemma references_marks oids l : marks l (foldl (λ l oid, reference oid l) l oids).
Proof.
    revert l. induction oids as [|oid oids IH]; intros l; [apply marks_refl|].
    eapply marks_trans; [apply reference_marks|apply IH].
Qed.
Lemma references_referenced oids oid l :
    NoDup (rm_oid <$> l) → oid ∈ oids → referenced oid (foldl (λ l oid, reference oid l) l oids).
Proof.
    revert l. induction oids as [|o oids IH]; intros l Hn Ho; [by apply elem_of_nil in Ho|]. cbn [foldl].
    apply elem_of_cons in Ho as [<-|Ho].
    - eapply marks_referenced; [apply references_marks|by apply reference_referenced].
    - apply IH; [|done]. by rewrite (marks_names _ _ (reference_marks o l)).
Qed.

(** The search over a mailbox can be gone through. *)
Definition scannable (b : box_visit) : Prop :=
    bv_selectable b = true → bv_virtual b = true ∨ bv_opens b = true ∧ 0 <= bv_search_deinit b ∧ 0 <= bv_commit b.
(** The mailbox has the record. *)
Definition has_record (oid : string) (b : box_visit) : Prop :=
    bv_selectable b = true ∧ bv_virtual b = false ∧ oid ∈ records b.

Lemma iterate_mailbox_marks b l : marks l (iterate_mailbox b l).2.
Proof.
    unfold iterate_mailbox. destruct (bv_virtual b); [apply marks_refl|].
    destruct (bv_opens b); cbn [negb]; [|apply marks_refl]. repeat case_decide; apply references_marks.
Qed.
Lemma iterate_mailbox_scans b l :
    scannable b → bv_selectable b = true → NoDup (rm_oid <$> l) →
    (iterate_mailbox b l).1 = 0 ∧ ∀ oid, has_record oid b → referenced oid (iterate_mailbox b l).2.
Proof.
    intros Hs Hsel Hn. unfold iterate_mailbox, has_record. destruct (Hs Hsel) as [->|(-> & Hd & Hc)]; [split; [done|naive_solver]|].
    destruct (bv_virtual b); [split; [done|naive_solver]|]. cbn [negb]. rewrite !decide_False by lia. split; [done|].
    intros oid (_ & _ & Ho). by apply references_referenced.
Qed.
Lemma iterate_mailboxes_marks boxes ret l : marks l (iterate_mailboxes boxes ret l).2.
Proof.
    revert ret l. induction boxes as [|b boxes IH]; intros ret l; cbn [iterate_mailboxes]; [apply marks_refl|].
    destruct (bv_selectable b); [|apply IH]. pose proof (iterate_mailbox_marks b l) as Hm.
    destruct (iterate_mailbox b l) as [r l']. cbn in Hm. case_decide; [done|]. eapply marks_trans; [done|apply IH].
Qed.
Lemma iterate_mailboxes_scans boxes ret l oid b :
    Forall scannable boxes → NoDup (rm_oid <$> l) → b ∈ boxes → has_record oid b →
    referenced oid (iterate_mailboxes boxes ret l).2.
Proof.
    intros Hs. revert ret l. induction Hs as [|b' boxes Hb Hs IH]; intros ret l Hn Hin Hr; [by apply elem_of_nil in Hin|].
    cbn [iterate_mailboxes]. destruct (bv_selectable b') eqn:Hsel.
    - pose proof (iterate_mailbox_scans b' l Hb Hsel Hn) as [Hz Hrec]. pose proof (iterate_mailbox_marks b' l) as Hm.
      destruct (iterate_mailbox b' l) as [r l']. cbn [fst snd] in *. rewrite decide_False by lia.
      apply elem_of_cons in Hin as [->|Hin].
      + eapply marks_referenced; [apply iterate_mailboxes_marks|by apply Hrec].
      + apply IH; [by rewrite (marks_names _ _ Hm)|done|done].
    - apply elem_of_cons in Hin as [->|Hin]; [|by apply IH]. destruct Hr as (Hr & _). congruence.
Qed.
Lemma check_namespace_snd ns l : (check_namespace_mailboxes ns l).2 = (iterate_mailboxes (nv_boxes ns) 0 l).2.
Proof. unfold check_namespace_mailboxes. by destruct (iterate_mailboxes _ _ _). Qed.
Lemma check_namespaces_marks namespaces l : marks l (check_namespaces namespaces l).
Proof.
    revert l. induction namespaces as [|ns namespaces IH]; intros l; [apply marks_refl|]. cbn [check_namespaces foldl].
    eapply marks_trans; [|apply IH]. rewrite check_namespace_snd. apply iterate_mailboxes_marks.
Qed.
Lemma check_namespaces_scans namespaces l oid ns b :
    Forall (λ ns, Forall scannable (nv_boxes ns)) namespaces → NoDup (rm_oid <$> l) →
    ns ∈ namespaces → b ∈ nv_boxes ns → has_record oid b → referenced oid (check_namespaces namespaces l).
Proof.
    intros Hs. revert l. induction Hs as [|ns' namespaces Hb Hs IH]; intros l Hn Hin Hbox Hr; [by apply elem_of_nil in Hin|].
    cbn [check_namespaces foldl]. rewrite check_namespace_snd. apply elem_of_cons in Hin as [->|Hin].
    - eapply marks_referenced; [apply check_namespaces_marks|]. by eapply iterate_mailboxes_scans.
    - apply IH; [|done..]. by rewrite (marks_names _ _ (iterate_mailboxes_marks (nv_boxes ns') 0 l)).
Qed.

Section delete.
Context `{LibradosLaws W}.
  Implicit Types s : Storage.state W.

(** Only the objects of mails without a record are touched. *)
Lemma delete_unreferenced_frame del l code s k :
    (∀ m, m ∈ l → rm_index_ref m = false → k ≠ (st_io_ctx s.1, rm_oid m)) →
    objects (delete_unreferenced del l code s).2 !! k = objects s !! k.
Proof.
    revert code s. induction l as [|m l IH]; intros code s Hk; [done|]. cbn [delete_unreferenced].
    destruct (del && negb (rm_index_ref m)) eqn:E; [|apply IH; intros x Hx; apply Hk; by right].
    apply andb_true_iff in E as [_ E]. apply negb_true_iff in E. rewrite bind_eq. unfold Storage.delete_mail.
    destruct (Storage.usable s) eqn:Hu.
    - rewrite StorageRun.guarded_usable by done. pose proof (delete_oid_spec (rm_oid m) s) as Hd. cbv zeta in Hd.
      destruct (Storage.delete_mail_oid (rm_oid m) s) as [r s1]. cbn [fst snd]. destruct Hd as (E1 & _ & Hf & _).
      rewrite IH; [apply Hf, Hk; [left|done]|]. rewrite E1. intros x Hx. apply Hk. by right.
    - rewrite StorageRun.guarded_unusable by done. cbn [fst snd]. apply IH. intros x Hx. apply Hk. by right.
Qed.
End delete.

(** ** The index object *)

Section index.
Context `{LibradosLaws W}.
  Implicit Types s : Storage.state W.

(** What is written for the mailboxes, and the names in it. *)
Definition index_text (boxes : list box_visit) : string :=
    foldr (λ b t, (if bv_selectable b then convert_to_ceph_index (list_to_set (records b)) else "") +:+ t) "" boxes.
Definition indexed (boxes : list box_visit) : gset string :=
    foldr (λ b o, (if bv_selectable b then list_to_set (records b) else ∅) ∪ o) ∅ boxes.
(** No mailbox that is visited is virtual or fails. *)
Definition listable (b : box_visit) : Prop :=
    bv_selectable b = true → bv_virtual b = false ∧ bv_opens b = true ∧ 0 <= bv_search_deinit b ∧ 0 <= bv_commit b.

Lemma index_text_names boxes t :
    (∀ b oid, b ∈ boxes → oid ∈ records b → index_name oid) →
    ceph_index_to_set (index_text boxes +:+ t) = indexed boxes ∪ ceph_index_to_set t.
Proof.
    induction boxes as [|b boxes IH]; intros Hn; cbn [index_text indexed foldr]; [cbn; set_solver|].
    rewrite <- sapp_assoc. assert (ceph_index_to_set (index_text boxes +:+ t) = indexed boxes ∪ ceph_index_to_set t) as E
      by (apply IH; intros b' o Hb; apply Hn; by right).
    destruct (bv_selectable b).
    - rewrite ceph_index_of_set by (intros x Hx%elem_of_list_to_set; eapply Hn; [left|exact Hx]).
      unfold index_text, indexed in E |- *. rewrite E. set_solver.
    - unfold index_text, indexed in E |- *. cbn [String.append]. rewrite E. set_solver.
Qed.

Lemma append_index_spec oids s :
    let '(r, s') := Storage.ceph_index_append_set oids s in
    s'.1 = s.1 ∧ (0 <= r → index_data s' = index_data s +:+ convert_to_ceph_index oids ∧ is_Some (objects s' !! index_key s)).
Proof.
    unfold Storage.ceph_index_append_set. rewrite bind_eq, StorageRun.storage_get_run. cbn [fst snd].
    set (bl := convert_to_ceph_index oids). unfold io_append.
    pose proof (world_write s (st_recovery_io_ctx s.1) (st_nspace s.1) [OpAppend bl (slen bl)]) as Hw.
    pose proof (world_same (io_operate (st_recovery_io_ctx s.1) (st_nspace s.1) [OpAppend bl (slen bl)]) s) as [E _].
    destruct (Storage.world _ s) as [r s']. cbn [fst snd] in *. split; [done|]. intros Hr.
    destruct (Hw Hr) as [t Ha]. unfold index_data, index_key. rewrite E. fold (index_key s) in *.
    unfold apply_ops in Ha. cbn in Ha. rewrite str_take_ge in Ha by lia.
    destruct (objects s !! index_key s) as [ob|]; cbn in Ha; injection Ha as <-; rewrite lookup_insert_eq; by eexists.
Qed.

Lemma index_mailboxes_spec boxes ret s :
    Forall listable boxes → 0 <= ret →
    let '((ret', o, ended), s') := index_mailboxes boxes ret ∅ s in
    s'.1 = s.1 ∧ (ended = false → 0 <= ret' ∧ o = ∅ ∧ index_data s' = index_data s +:+ index_text boxes).
Proof.
    intros Hb. revert ret s. induction Hb as [|b boxes Hb Hl IH]; intros ret s Hret; cbn [index_mailboxes index_text foldr].
    - rewrite ret_eq. split; [done|]. intros _. by rewrite sapp_nil_r.
    - destruct (bv_selectable b) eqn:Hsel; [|apply IH; done].
      assert (iterate_list_objects b ∅ = (0, list_to_set (records b))) as ->.
      { destruct (Hb Hsel) as (Hv & Ho & Hd & Hc). unfold iterate_list_objects. rewrite Hv, Ho. cbn [negb].
        rewrite !decide_False by lia. f_equal. set_solver. }
      rewrite decide_False by lia. rewrite bind_eq. unfold Commands.append_ceph_object_index.
      pose proof (append_index_spec (list_to_set (records b)) s) as Ha.
      destruct (Storage.ceph_index_append_set _ s) as [r s1]. cbn [fst snd]. destruct Ha as [E1 Ha].
      case_decide; [rewrite ret_eq; done|]. destruct (Ha ltac:(lia)) as [Ed _].
      specialize (IH 0 s1 ltac:(lia)). destruct (index_mailboxes boxes 0 ∅ s1) as [[[ret' o] ended] s2].
      destruct IH as [E2 IH]. split; [by rewrite E2|]. intros He. destruct (IH He) as (? & ? & ->).
      split_and!; [done|done|]. by rewrite Ed, <- sapp_assoc.
Qed.
Lemma index_text_app l l' : index_text (l ++ l') = index_text l +:+ index_text l'.
Proof. unfold index_text. induction l as [|b l IH]; [done|]. cbn. by rewrite IH, sapp_assoc. Qed.
Lemma index_namespaces_spec namespaces ret s :
    Forall (λ ns, Forall listable (nv_boxes ns)) namespaces → 0 <= ret →
    let '(r, s') := index_namespaces namespaces ret ∅ s in
    s'.1 = s.1 ∧ (0 <= r → index_data s' = index_data s +:+ index_text (concat (nv_boxes <$> namespaces))).
Proof.
    intros Hn. revert ret s. induction Hn as [|ns namespaces Hb Hn IH]; intros ret s Hret; cbn [index_namespaces].
    - rewrite ret_eq. split; [done|]. intros _. cbn. by rewrite sapp_nil_r.
    - rewrite bind_eq. pose proof (index_mailboxes_spec (nv_boxes ns) ret s Hb Hret) as Hm.
      destruct (index_mailboxes _ _ _ s) as [[[ret' o] ended] s1]. cbn [fst snd]. destruct Hm as [E1 Hm].
      destruct ended; [rewrite ret_eq; split; [done|lia]|]. destruct (Hm eq_refl) as (Hr & -> & Ed).
      specialize (IH ret' s1 Hr). destruct (index_namespaces namespaces ret' ∅ s1) as [r s2]. destruct IH as [E2 IH].
      split; [by rewrite E2|]. intros Hr2. rewrite (IH Hr2), Ed. cbn [fmap list_fmap concat].
      by rewrite index_text_app, sapp_assoc.
Qed.

(** A removal that succeeds, or has nothing to remove, leaves no data. *)
Lemma delete_index_spec s :
    objects s !! index_key s = None ∨ 0 <= (Storage.ceph_index_delete s).1 →
    (Storage.ceph_index_delete s).2.1 = s.1 ∧ index_data (Storage.ceph_index_delete s).2 = "".
Proof.
    intros Hs. unfold Storage.ceph_index_delete, index_data, index_key in *. rewrite bind_eq, StorageRun.storage_get_run in *.
    cbn [fst snd] in *. pose proof (remove_spec (st_recovery_io_ctx s.1) (st_nspace s.1) s) as Hr.
    pose proof (operate_law (st_recovery_io_ctx s.1) (st_nspace s.1) [OpRemove] s.2.2) as Ho.
    rewrite StorageRun.storage_world_run in *. unfold io_remove, objects in *. cbn [fst snd] in *.
    destruct (io_operate _ _ _ s.2.2) as [r w]. cbn [fst snd] in *. destruct Hr as (_ & _ & _ & Hd & _).
    split; [done|]. destruct (decide (0 <= r)) as [Hr|Hr]; [by rewrite Hd, lookup_delete_eq|].
    destruct Hs as [Hs|Hs]; [|lia]. destruct Ho as (t & _ & Ho).
    destruct (Ho ltac:(lia)) as [->|[_ Ha]]; [by rewrite Hs|]. apply apply_ops_remove in Ha as [_ [ob Ha]].
    congruence.
Qed.
End index.
End DoveadmRun.

(** ** Properties *)

(** Deleting the objects without a record: when the search can go through every mailbox of
    every namespace it is given, an object whose oid a record has is not touched, and neither
    is any object that was not listed, whatever the other calls answer. *)
Theorem check_keeps_referenced `{LibradosLaws W} del (namespaces : list ns_visit) mail_objects (s : Storage.state W) k :
  Forall (λ ns, Forall DoveadmRun.scannable (nv_boxes ns)) namespaces → NoDup (rm_oid <$> mail_objects) →
  (∀ m, m ∈ mail_objects → k = (st_io_ctx s.1, rm_oid m) →
     ∃ ns b, ns ∈ namespaces ∧ b ∈ nv_boxes ns ∧ DoveadmRun.has_record (rm_oid m) b) →
  objects (Doveadm.check_indices del (Some namespaces) mail_objects s).2 !! k = objects s !! k.
Proof.
  intros Hs Hn Hk. unfold Doveadm.check_indices. apply DoveadmRun.delete_unreferenced_frame.
  intros m Hm Href ->. pose proof (DoveadmRun.check_namespaces_marks namespaces mail_objects) as Hmk.
  assert (rm_oid m ∈ rm_oid <$> mail_objects) as Hin.
  { rewrite <- (DoveadmRun.marks_names _ _ Hmk). apply list_elem_of_fmap. by exists m. }
  apply list_elem_of_fmap in Hin as (m0 & Ho & Hm0).
  destruct (Hk m0 Hm0) as (ns & b & Hns & Hb & Hr); [by rewrite Ho|].
  pose proof (DoveadmRun.check_namespaces_scans namespaces mail_objects (rm_oid m0) ns b Hs Hn Hns Hb Hr m Hm Ho).
  congruence.
Qed.

(** A user with two mails, of which the first has a record in INBOX. *)
Definition two_mails : list RadosMail := [Mail.set_oid "o1" Mail.new; Mail.set_oid "o2" Mail.new].
Definition two_objects : Storage.state MemCluster :=
  let u1 := mk_ioctx "mail_storage" "u1" in
  mem_state "u1" (<[(u1, "o1") := empty_object 17]> {[(u1, "o2") := empty_object 18]}) [].
Definition visit_of (opens : bool) : ns_visit := mk_ns_visit [mk_box_visit true false opens [Some "o1"] 0 0] 0.
Lemma check_keeps_referenced_witness :
  let s' := (Doveadm.check_indices true (Some [visit_of true]) two_mails two_objects).2 in
  objects s' !! (mk_ioctx "mail_storage" "u1", "o1") = Some (empty_object 17) ∧
  objects s' !! (mk_ioctx "mail_storage" "u1", "o2") = None.
Proof.
  split; [|vm_compute; reflexivity].
  transitivity (objects two_objects !! (mk_ioctx "mail_storage" "u1", "o1")); [|vm_compute; reflexivity].
  apply (check_keeps_referenced true [visit_of true] two_mails two_objects).
  - constructor; [|constructor]. constructor; [|constructor]. intros _. right. cbn. split; [done|lia].
  - vm_compute. repeat constructor; set_solver.
  - intros m Hm Ek. exists (visit_of true), (mk_box_visit true false true [Some "o1"] 0 0).
    injection Ek as <-. split_and!; [left|left|]. split_and!; [done|done|left].
Defined.

(** When the mailbox cannot be opened at the moment, its mail is deleted with the others. *)
Lemma check_deletes_mails_of_closed_mailbox :
  objects (Doveadm.check_indices true (Some [visit_of false]) two_mails two_objects).2 !!
    (mk_ioctx "mail_storage" "u1", "o1") = None.
Proof. vm_compute. reflexivity. Qed.

(** C32. The index object that is written from the mailboxes: when every mailbox can be gone
    through, the old object is removed or there is none, and the command answers 0, the data
    of the object lists exactly the oids of the records, and reading the index gives exactly
    these whenever the cluster answers the two calls of the read. *)
Theorem created_index_lists_records `{Jansson} `{LibradosLaws W} junk ms (namespaces : list ns_visit) (s : Storage.state W) :
  let boxes := concat (nv_boxes <$> namespaces) in
  Forall DoveadmRun.listable boxes → (∀ b oid, b ∈ boxes → oid ∈ Doveadm.records b → index_name oid) →
  Z.of_nat (slen (DoveadmRun.index_text boxes)) < INT_MAX → free_of NUL (DoveadmRun.index_text boxes) = true →
  objects s !! index_key s = None ∨ 0 <= (Storage.ceph_index_delete s).1 →
  let '(r, s') := Doveadm.create_ceph_index ms false (Some namespaces) s in
  r = Some 0 →
  ceph_index_to_set (index_data s') = DoveadmRun.indexed boxes ∧
  (index_answers s' → (Storage.ceph_index_read junk s').1 = DoveadmRun.indexed boxes).
Proof.
  intros boxes Hb Hnames Hlen Hnul Hold. unfold Doveadm.create_ceph_index, Commands.remove_ceph_object_index. cbn [negb].
  rewrite bind_eq. destruct (DoveadmRun.delete_index_spec s Hold) as [_ Hd].
  destruct (Storage.ceph_index_delete s) as [rd s1]. cbn [fst snd] in *. rewrite bind_eq.
  pose proof (DoveadmRun.index_namespaces_spec namespaces 0 s1) as Hi.
  destruct (Doveadm.index_namespaces namespaces 0 ∅ s1) as [r s2]. cbn [fst snd]. rewrite ret_eq. intros [= ->].
  destruct Hi as [_ Hi]; [|lia|].
  { subst boxes. clear -Hb. induction namespaces as [|ns l IH]; [constructor|]. cbn in Hb.
    apply Forall_app in Hb as [? ?]. constructor; auto. }
  specialize (Hi ltac:(lia)). rewrite Hd in Hi. cbn [String.append] in Hi. fold boxes in Hi.
  assert (ceph_index_to_set (index_data s2) = DoveadmRun.indexed boxes) as Ei.
  { rewrite Hi, <- (sapp_nil_r (DoveadmRun.index_text boxes)), DoveadmRun.index_text_names by done. cbn. set_solver. }
  split; [exact Ei|]. intros Ha. rewrite <- Ei. by destruct (ceph_index_read_data junk s2) as [E|[_ []]]; [rewrite Hi..| |].
Qed.
Definition two_boxes : list ns_visit :=
  [mk_ns_visit [mk_box_visit true false true [Some "a1"; None; Some "a2"] 0 0; mk_box_visit false false false [] 0 0] 0;
   mk_ns_visit [mk_box_visit true false true [Some "b1"] 0 0] 0].
Lemma created_index_lists_records_witness :
  let '(r, s') := Doveadm.create_ceph_index (inl (mk_default (mk_ioctx "mail_storage" "u1"))) false (Some two_boxes)
                    (mem_state "u1" ∅ []) in
  r = Some 0 ∧ (Storage.ceph_index_read 0 s').1 = {["a1"; "a2"; "b1"]}.
Proof.
  pose proof (created_index_lists_records 0 (inl (mk_default (mk_ioctx "mail_storage" "u1"))) two_boxes (mem_state "u1" ∅ [])) as Hc.
  assert (Forall DoveadmRun.listable (concat (nv_boxes <$> two_boxes))) as Hl.
  { apply list.Forall_forall. intros b Hb Hsel. cbn in Hb. rewrite !elem_of_cons, elem_of_nil in Hb.
    destruct Hb as [->|[->|[->|[]]]]; cbn in *; split_and!; (done || lia). }
  assert (∀ b oid, b ∈ concat (nv_boxes <$> two_boxes) → oid ∈ Doveadm.records b → index_name oid) as Hn.
  { intros b oid Hb Ho. cbn in Hb. rewrite !elem_of_cons, elem_of_nil in Hb.
    destruct Hb as [->|[->|[->|[]]]]; revert oid Ho; apply list.Forall_forall;
      repeat (constructor; [by split|]); constructor. }
  specialize (Hc Hl Hn eq_refl eq_refl (or_introl eq_refl)).
  assert ((Doveadm.create_ceph_index (inl (mk_default (mk_ioctx "mail_storage" "u1"))) false (Some two_boxes)
    (mem_state "u1" ∅ [])).1 = Some 0) as Er by (vm_compute; reflexivity).
  assert (index_answers (Doveadm.create_ceph_index (inl (mk_default (mk_ioctx "mail_storage" "u1"))) false (Some two_boxes)
    (mem_state "u1" ∅ [])).2) as Ha by (split; vm_compute; discriminate).
  destruct (Doveadm.create_ceph_index _ _ _ _) as [r s']. cbn [fst snd] in *. split; [exact Er|].
  rewrite (proj2 (Hc Er) Ha). vm_compute. reflexivity.
Defined.
