(* ===== verification/UserHome.v ===== *)
(** Where the mails of a user are: the pool that dovecot.conf names, and the namespace that the
    configuration object and the object of the user give. A command of doveadm
    (storage-rbox/doveadm-rbox-plugin.cpp) that has connected its storage and looked up the
    namespace of its user works in that place. *)
From S2P Require Export Doveadm ReadOnly.
Local Open Scope rmb_scope.

Module UserHome.
(** The settings a command reads from Dovecot, before it has read those of the cluster. *)
Definition settings (getenv : string → option string) : RadosDovecotCephCfgImpl :=
  PluginConfig.set_config_valid true
    (foldl (λ c kv, match getenv kv.1 with Some v => PluginConfig.update_metadata kv.1 (Some v) c | None => c end)
       PluginConfig.new (map_items (dc_config (dovecot_cfg PluginConfig.new)))).
Definition pool (getenv : string → option string) : string := PluginConfig.get_pool_name (settings getenv).

(** The configuration that the object in the pool holds. *)
Definition cluster_config `{Jansson} (getenv : string → option string) (m : store) (cfg : RadosCephJsonConfig) : Prop :=
  ∃ ob, m !! (mk_ioctx (pool getenv) "", cfg_object_name (rados_cfg (settings getenv))) = Some ob ∧
    JsonConfig.from_json (read_range INT_MAX 0 (ob_data ob)) (JsonConfig.set_valid true (rados_cfg (settings getenv))) = Some (true, cfg).
(** The namespace of a user: the name with the suffix, or, when users are mapped, what the
    object of that name says. *)
Definition user_id (cfg : RadosCephJsonConfig) (username : string) : string :=
  if decide (username = "") then "" else username +:+ user_suffix cfg.
Definition maps_to (m : store) (pool : string) (cfg : RadosCephJsonConfig) (uid ns : string) : Prop :=
  if decide (uid = "" ∨ user_mapping cfg ≠ "true") then ns = uid
  else ∃ ob, m !! (mk_ioctx pool (user_ns cfg), uid) = Some ob ∧ ns = read_range INT_MAX 0 (ob_data ob).
Definition user_namespace (m : store) (pool : string) (cfg : RadosCephJsonConfig) (username ns : string) : Prop :=
  maps_to m pool cfg (user_id cfg username) ns.
(** The place of a user's mails. *)
Definition at_home `{Jansson} (getenv : string → option string) (m : store) (username : string) (io : ioctx) : Prop :=
  io_pool io = pool getenv ∧ ∃ cfg, cluster_config getenv m cfg ∧ user_namespace m (pool getenv) cfg username (io_ns io).

Section connect.
Context `{Jansson} `{LibradosLaws W} `{RadosAdmin W} `{!RadosAdminLaws W} `{!QuietAdmin W}.
Variables (getenv : string → option string).
  Implicit Types (s : Storage.state W) (w : W).

Lemma settings_run (s : Storage.state W) :
    Doveadm.read_plugin_configuration getenv (PluginConfig.new, s) = (tt, (settings getenv, s)).
Proof. unfold Doveadm.read_plugin_configuration. by rewrite on_fst_run. Qed.
Lemma settings_not_loaded : cfg_valid (rados_cfg (settings getenv)) = false.
Proof.
    unfold settings. set (f := λ _ _, _). assert (∀ l c, cfg_valid (rados_cfg c) = false → cfg_valid (rados_cfg (foldl f c l)) = false) as Hl.
    { intros l. induction l as [|kv l IH]; intros c Hc; [done|]. cbn [foldl]. apply IH. unfold f. by case_match. }
    specialize (Hl (map_items (dc_config (dovecot_cfg PluginConfig.new))) PluginConfig.new eq_refl). destruct (foldl f _ _) as [d r]. cbn in *. by destruct r.
Qed.

(** A new storage that was connected. *)
Lemma open_new poolname index_pool name user (w : W) :
    let '(r, s') := Storage.open_connection_named [] poolname index_pool name user (Storage.new, (Cluster.initial, w)) in
    objects s' = objs w ∧ ∀ n, r = Some n → 0 <= n → st_io_ctx s'.1 = mk_ioctx poolname "".
Proof.
    pose proof (quiet_admin (objs w)) as Hq.
    pose proof (open_connection_named_stays (P:=λ w', objs w' = objs w) [] poolname index_pool name user (Storage.new, (Cluster.initial, w)) eq_refl) as Ho.
    unfold Storage.open_connection_named in *. change (Storage.usable (Storage.new, (Cluster.initial, w))) with false in *. cbv iota in *.
    rewrite bind_eq, StorageRun.cluster_run in *. cbn [fst snd] in *.
    pose proof (init_spec [] (Some (name, user)) (Cluster.initial, w) ltac:(cbn; lia)) as Hn.
    destruct (Cluster.init [] _ _) as [r cw]. cbn [fst snd] in *. destruct Hn as [Hr0 Hn].
    destruct (decide (r < 0)); [rewrite ret_eq in *; split; [exact Ho|intros n [= <-]; lia]|]. specialize (Hn ltac:(lia)).
    pose proof (create_connection_spec poolname index_pool 1 (st_nspace Storage.new) ltac:(lia) (Storage.new, cw)) as Hk.
    pose proof (create_connection_answer poolname index_pool (Storage.new, cw) I) as Ha.
    destruct (Storage.create_connection poolname index_pool (Storage.new, cw)) as [r' s']. cbn [fst snd] in *.
    split; [exact Ho|]. intros v Er Hv. replace v with 0 in Er by (specialize (Ha v Er); lia).
    destruct Hk as ((_ & _ & Hio & _) & _); [split; [exact Hn|done]|exact Er|exact Hio].
Qed.

(** ** What a command has read *)

Lemma read_object_gives oid (c : RadosCephConfig) io w : cc_io_ctx c = Some io →
    let '((r, bl), (c', w')) := CephConfig.read_object oid (c, w) in
    c' = c ∧ objs w' = objs w ∧ (0 <= r → ∃ ob, objs w !! (io, oid) = Some ob ∧ bl = read_range INT_MAX 0 (ob_data ob)).
Proof.
    intros Hio. unfold CephConfig.read_object. rewrite bind_eq, config_get_run. cbn [fst snd]. rewrite Hio, config_world_run.
    cbn [fst snd]. destruct (read_retry_spec io oid CephConfig.max_retry (-1) w) as [(n & _ & _ & _ & Hr)|(_ & _ & Hw & Hn)].
    - rewrite Hr. pose proof (read_law io oid INT_MAX 0 (after_attempts io oid n w)) as Hl.
      destruct (io_read io oid INT_MAX 0 _) as [[r bl] w']. cbn [fst snd]. rewrite after_attempts_objs in Hl.
      destruct Hl as (Eo & _ & Hl). split; [done|]. split; [done|]. intros Hr0. by apply Hl.
    - specialize (Hn ltac:(unfold CephConfig.max_retry; lia)).
      destruct (CephConfig.read_retry _ _ _ _ _) as [[r bl] w']. cbn [fst snd] in *. subst w'.
      split; [done|]. split; [apply after_attempts_objs|lia].
Qed.
Lemma load_cfg_gives (c : RadosCephConfig) io w : cc_io_ctx c = Some io → cfg_valid (cc_config c) = false →
    let '(r, (c', w')) := CephConfig.load_cfg (c, w) in
    objs w' = objs w ∧ ∀ n, r = Some n → 0 <= n → cc_io_ctx c' = Some io ∧
      ∃ ob, objs w !! (io, cfg_object_name (cc_config c)) = Some ob ∧
        JsonConfig.from_json (read_range INT_MAX 0 (ob_data ob)) (JsonConfig.set_valid true (cc_config c)) = Some (true, cc_config c').
Proof.
    intros Hio Hv. unfold CephConfig.load_cfg. rewrite bind_eq, config_get_run. cbn [fst snd]. rewrite Hv, bind_eq.
    pose proof (read_object_gives (cfg_object_name (cc_config c)) c io w Hio) as Hr.
    destruct (CephConfig.read_object _ _) as [[r bl] [c' w']]. destruct Hr as (-> & Ew & Hr). cbn [fst snd].
    destruct (decide (r < 0)); [rewrite ret_eq; split; [done|intros n [= <-]; lia]|].
    destruct (Hr ltac:(lia)) as (ob & Hob & ->). rewrite bind_eq, config_modify_run, bind_eq, config_get_run. cbn [fst snd cc_config cc_io_ctx].
    destruct (JsonConfig.from_json _ _) as [[ok cfg]|] eqn:Ej; [|by rewrite ret_eq].
    rewrite bind_eq, config_modify_run, ret_eq. cbn [fst snd cc_config cc_io_ctx]. split; [done|].
    intros v [= <-] Hn. split; [done|]. exists ob. split; [done|]. destruct ok; [done|lia].
Qed.
Lemma lookup_gives uid (c : RadosDovecotCephCfgImpl) st (cl : RadosClusterImpl) w p :
    cfg_valid (rados_cfg c) = true → st_io_ctx st = mk_ioctx p "" →
    let '((ok, v), (c', (st', (cl', w')))) := Tool.lookup_key uid (c, (st, (cl, w))) in
    c' = c ∧ st_io_ctx st' = mk_ioctx p "" ∧ objs w' = objs w ∧
    (ok = true → ∃ ns, v = Some ns ∧ maps_to (objs w) p (rados_cfg c) uid ns).
Proof.
    intros Hv Hio. unfold Tool.lookup_key. set (cc := mk_ceph_config (rados_cfg c) (Some (st_io_ctx st))).
    destruct (decide (uid = "")) as [->|Hu].
    { unfold NamespaceMgr.lookup_key. rewrite decide_True by done. cbn. split; [done|].
      split; [by destruct st|]. split; [done|]. intros _. exists "". split; [done|]. unfold maps_to. by rewrite decide_True by (by left). }
    assert (CephConfig.is_user_mapping cc = bool_decide (user_mapping (rados_cfg c) = "true")) as Em by done.
    case_bool_decide as Hm.
    - pose proof (lookup_miss cc (st_io_ctx st) ∅ uid w Hu eq_refl Hv Em (lookup_empty _)) as Hl.
      destruct (NamespaceMgr.lookup_key _ _) as [[ok v] [m w']]. destruct Hl as (Ec & Eo & Hl). rewrite Ec. cbn.
      split; [done|]. split; [by rewrite Hio; destruct st|]. split; [done|]. intros ->.
      destruct Hl as [([=] & _)|(_ & ob & Hob & -> & _)]. eexists. split; [done|]. unfold maps_to. rewrite decide_False by (intros [?|?]; done).
      exists ob. split; [|done]. unfold user_key in Hob. by rewrite Hio in Hob.
    - unfold NamespaceMgr.lookup_key. cbn [nm_config]. rewrite decide_False by done.
      unfold CephConfig.is_config_valid. cbn [cc_config cc]. rewrite Hv, Em. cbn.
      split; [done|]. split; [by destruct st|]. split; [done|]. intros _. exists uid. split; [done|].
      unfold maps_to. by rewrite decide_True by (by right).
Qed.

(** ** The commands *)

(** What the first part of a command leaves: nothing was written; when it succeeded, the storage
    is in the pool, with the configuration of the cluster. *)
Lemma connected (w : W) :
    let '(r, (c, (st, (cl, w')))) := Doveadm.open_connection_load_config getenv (PluginConfig.new, (Storage.new, (Cluster.initial, w))) in
    objs w' = objs w ∧ ∀ n, r = Some n → 0 <= n →
      st_io_ctx st = mk_ioctx (pool getenv) "" ∧ cluster_config getenv (objs w) (rados_cfg c).
Proof.
    unfold Doveadm.open_connection_load_config, Doveadm.open_connection, Tool.config, Tool.storage.
    rewrite bind_eq, settings_run. cbn [fst snd]. rewrite bind_eq, bind_eq, on_fst_run. cbn [st_get fst snd]. rewrite on_snd_run.
    cbn [fst snd]. pose proof (open_new (pool getenv) (PluginConfig.get_index_pool_name (settings getenv))
      (PluginConfig.get_rados_cluster_name (settings getenv)) (PluginConfig.get_rados_username (settings getenv)) w) as Ho.
    unfold pool in Ho. destruct (Storage.open_connection_named _ _ _ _ _ _) as [r [st [cl w1]]]. destruct Ho as [Ew Ho].
    unfold objects in Ew. cbn [fst snd] in *. destruct r as [r|]; [|by rewrite ret_eq].
    destruct (decide (r < 0)); [rewrite ret_eq; split; [done|intros n [= <-]; lia]|]. specialize (Ho r eq_refl ltac:(lia)).
    unfold Tool.on_config. set (cc := mk_ceph_config (rados_cfg (settings getenv)) (Some (st_io_ctx st))).
    pose proof (load_cfg_gives cc (st_io_ctx st) w1 eq_refl settings_not_loaded) as Hl.
    destruct (CephConfig.load_cfg _) as [r' [c' w']]. destruct Hl as [Ew' Hl]. split; [congruence|].
    intros v Er Hn. destruct (Hl v Er Hn) as (-> & ob & Hob & Hj). unfold cluster_config, pool. split; [by destruct st|].
    exists ob. rewrite Ho, Ew in Hob. by split.
Qed.
Lemma found_namespace username c st cl w p :
    st_io_ctx st = mk_ioctx p "" →
    let '(ms, (c', (st', (cl', w')))) := Tool.init_metadata_storage_module username (c, (st, (cl, w))) in
    objs w' = objs w ∧ (ms ≠ None → ∃ ns, st_io_ctx st' = mk_ioctx p ns ∧ user_namespace (objs w) p (rados_cfg c) username ns).
Proof.
    intros Hio. unfold Tool.init_metadata_storage_module, Tool.config, Tool.storage.
    rewrite bind_eq, on_fst_run. cbn [st_modify fst snd]. rewrite bind_eq, on_fst_run. cbn [st_get fst snd].
    set (c1 := PluginConfig.set_rados _ c).
    assert (cfg_valid (rados_cfg c1) = true ∧ user_namespace (objs w) p (rados_cfg c1) username = user_namespace (objs w) p (rados_cfg c) username)
      as [Hv <-] by by destruct c as [d []].
    change (if decide (username = "") then "" else _) with (user_id (rados_cfg c1) username). unfold user_namespace.
    set (uid := user_id _ _). rewrite bind_eq. pose proof (lookup_gives uid c1 st cl w p Hv Hio) as Hl.
    destruct (Tool.lookup_key _ _) as [[ok v] [c' [st' [cl' w1]]]]. destruct Hl as (-> & Hio1 & Eo & Hl). cbn [fst snd].
    set (again := if ok then _ else _).
    assert (let '((ok, v), (c', (st', (cl', w')))) := again (c1, (st', (cl', w1))) in
      c' = c1 ∧ st_io_ctx st' = mk_ioctx p "" ∧ objs w' = objs w ∧ (ok = true → ∃ ns, v = Some ns ∧ maps_to (objs w) p (rados_cfg c1) uid ns)) as Ha.
    { subst again. destruct ok; [by rewrite ret_eq|].
      pose proof (lookup_gives uid c1 st' cl' w1 p Hv Hio1) as Hl'. by rewrite Eo in Hl'. }
    rewrite bind_eq. destruct (again _) as [[ok' v'] [c2 [st2 [cl2 w2]]]]. destruct Ha as (-> & Hio2 & Eo2 & Hf). cbn [fst snd].
    destruct ok'; [|by rewrite ret_eq]. destruct (Hf eq_refl) as (ns & -> & Hns).
    rewrite bind_eq, on_snd_run. cbn [fst snd]. rewrite set_namespace_run, bind_eq, on_snd_run, ret_eq.
    split; [done|]. intros _. exists ns. split; [|done]. cbn. by rewrite Hio2.
Qed.

End connect.
End UserHome.
