(* ===== verification/DoveadmSearch.v ===== *)
(** Searching with doveadm: [cmd_rmb_search_run] of storage-rbox/doveadm-rbox-plugin.cpp, the
    commands that list and download mails, and the check of the indices, which searches in one
    connection and removes objects in another. *)
From S2P Require Export UserHome.
Local Open Scope rmb_scope.

(** [struct mail_user]: the name, and the namespaces from the one with the inbox on;
    [None]: it has none. *)
Record mail_user := mk_user { us_username : string; us_namespaces : option (list ns_visit) }.

Module Search.
Import Tool Doveadm.
Section search.
Context `{Jansson} `{RadosAdmin W} `{Librados W} `{!Loader W (MetadataDefault + MetadataIma)} `{Posix F} `{LocalTime}.
(** [doveadm_plugin_getenv], the environment, and the memory that is read where the code reads
    what it must not. *)
Variables (getenv : string → option string) (home : option string) (path_max : nat) (over : string) (junk : Ascii.ascii).

(** What [cmd_rmb_search_run] does with its connection; the answer and [mail_objects]. *)
Definition search_connected (opts : gmap string string) (user : mail_user) (download : bool) (parser : CmdLineParser)
      (mail_objects : list RadosMail) (silent load_metadata : bool) : ST (F * Tool.state W) (option (Z * list RadosMail)) :=
    open ← on_snd (open_connection_load_config getenv);
    match open with
    | None => mret None
    | Some open =>
        if decide (open < 0) then mret (Some (open, mail_objects)) else
        ms ← on_snd (init_metadata_storage_module (us_username user));
        match ms with
        | None => mret (Some (-1, mail_objects))
        | Some ms =>
            loaded ← on_snd (storage (LoadRun.load_objects (Some ms) mail_objects (default "" (opts !! "sort")) load_metadata));
            match loaded with
            | None => mret None
            | Some (ret, mail_objects) =>
                if decide (ret < 0) then mret (Some (ret, mail_objects)) else
                let mail_objects := match us_namespaces user with
                                    | Some l => check_namespaces l mail_objects
                                    | None => mail_objects
                                    end in
                let parser := if download then Query.set_output_path home path_max (opts !! "out") parser else parser in
                if load_metadata then
                  r ← on_files (query_mail_storage over mail_objects parser download silent);
                  mret (match r with Some ret => Some (ret, mail_objects) | None => None end)
                else mret (Some (ret, mail_objects))
            end
        end
    end.
Definition cmd_rmb_search_run (opts : gmap string string) (user : mail_user) (download : bool) (parser : CmdLineParser)
      (mail_objects : list RadosMail) (silent load_metadata : bool) : ST (F * W) (option (Z * list RadosMail)) :=
    with_plugin_on (search_connected opts user download parser mail_objects silent load_metadata).

(** A query of a command: the exit code and the mails. *)
Definition run_search (opts : gmap string string) (user : mail_user) (download : bool) (parser : option CmdLineParser) :
      ST (F * W) (option (Z * list RadosMail)) :=
    match parser with
    | Some parser => cmd_rmb_search_run opts user download parser [] false true
    | None => mret (Some (-1, []))
    end.
(** The exit code, and whether objects without a record are reported. *)
Definition cmd_rmb_ls_run (search_query sort : option string) (user : mail_user) : ST (F * W) (option (Z * bool)) :=
    match search_query with
    | None => mret (Some (-1, false))
    | Some search_query =>
        let opts := <["sort" := default "uid" sort]> {["ls" := search_query]} in
        r ← run_search opts user false (read_query junk ["all"; "-"] (Query.new_parser search_query));
        mret (match r with Some (exit_code, mails) => Some (exit_code, unreferenced mails) | None => None end)
    end.
Definition cmd_rmb_ls_mb_run (user : mail_user) : ST (F * W) (option Z) :=
    let opts := <["sort" := "uid"]> {["ls" := "mb"]} in
    r ← run_search opts user false (read_query junk ["all"; "-"] (Query.new_parser "mb"));
    mret (match r with Some (exit_code, _) => Some exit_code | None => None end).
(** The second special query is looked for in the option of another command, and not found. *)
Definition cmd_rmb_get_run (search_query output_path : option string) (user : mail_user) : ST (F * W) (option Z) :=
    match search_query with
    | None => mret (Some (-1))
    | Some search_query =>
        let opts := {["get" := search_query]} in
        let opts := match output_path with Some out => <["out" := out]> opts | None => opts end in
        r ← run_search (<["sort" := "uid"]> opts) user true (read_query junk ["all"] (Query.new_parser search_query));
        mret (match r with Some (exit_code, _) => Some exit_code | None => None end)
    end.

(** The query of all objects is read before it is used. *)
Definition cmd_rmb_check_indices_run (delete_not_referenced_objects : bool) (user : mail_user) : ST (F * W) (option Z) :=
    let opts := <["sort" := "uid"]> {["ls" := "-"]} in
    let parser := match Query.parse_ls_string junk (Query.new_parser "-") with
                  | Some (_, parser) => parser
                  | None => Query.new_parser "-"
                  end in
    found ← cmd_rmb_search_run opts user false parser [] true false;
    match found with
    | None => mret None
    | Some (exit_code, mail_objects) =>
        if decide (exit_code < 0) then mret (Some exit_code) else
        on_snd (with_plugin (in_namespace getenv (us_username user) (λ _,
          storage (delete_unreferenced delete_not_referenced_objects mail_objects
                     (if unreferenced mail_objects then 1 else exit_code)))))
    end.
End search.
End Search.

(** ** The check of the indices, in both of its connections *)

Module SearchRun.
Lemma triple_pure {S A} (P : S → Prop) (φ : Prop) (m : ST S A) Q : (φ → triple P m Q) → triple (λ z, P z ∧ φ) m Q.
Proof. intros Hm z [Hz Hφ]. by apply Hm. Qed.
Section check.
Context `{JanssonLaws} `{LibradosLaws W} `{RadosAdmin W} `{!QuietAdmin W} `{!Loader W (MetadataDefault + MetadataIma)}
  `{!LoaderLaws W (MetadataDefault + MetadataIma)} `{Posix F} `{LocalTime}.
Variables (getenv : string → option string) (home : option string) (path_max : nat) (over : string) (junk : Ascii.ascii).
(** Librados lists an object once. *)
Hypothesis listed_once : ∀ c f (w : W), NoDup (io_nobjects c f w).1.
Implicit Types (s : Storage.state W) (w : W).

Lemma quiet_admin_keeps m : AdminKeeps (λ w : W, objs w = m).
Proof. exact (quiet_admin m). Qed.
#[local] Existing Instance quiet_admin_keeps.
  Abbreviation P m := (λ w : W, objs w = m).
  Abbreviation PT m := (at_snd (S:=RadosDovecotCephCfgImpl) (at_snd (S:=RadosStorageImpl) (at_snd (S:=RadosClusterImpl) (P m)))).

Lemma open_load_quiet m env : stays (PT m) (Doveadm.open_connection_load_config (W:=W) env).
Proof.
    unfold Doveadm.open_connection_load_config, Doveadm.read_plugin_configuration, Doveadm.open_connection.
    apply stays_bind; [apply stays_on_fst|intros _].
    apply stays_bind; [|intros [open|]; [|apply stays_ret]; case_decide; [apply stays_ret|apply on_config_quiet, load_cfg_quiet]].
    apply stays_bind; [apply tool_config_quiet|intros c]. apply tool_storage_quiet, open_connection_named_stays.
Qed.
(** Closing the connection of a command. *)
Lemma with_plugin_on_objs {X A} (k : ST (X * Tool.state W) (option A)) x w :
    let s := (x, (PluginConfig.new, (Storage.new, (Cluster.initial, w)))) in
    let '(a, (_, w')) := Doveadm.with_plugin_on k (x, w) in
    a = (k s).1 ∧ objs w' = objects (k s).2.2.2.
Proof.
    cbv zeta. unfold Doveadm.with_plugin_on. destruct (k _) as [a [x' [c s]]]. cbn [fst snd].
    destruct a as [a|]; [|done].
    pose proof (close_connection_stays (P:=P (objects s)) s eq_refl) as Hc.
    destruct (Storage.close_connection s) as [[] s1]. cbn [fst snd] in *.
    pose proof (storage_cluster_stays _ cluster_deinit_stays (P:=P (objects s)) s1 Hc) as Hd.
    destruct (Storage.cluster _ s1) as [[] s2]. by split.
Qed.
Lemma with_plugin_objs {A} (k : ST (Tool.state W) (option A)) w :
    let s := (PluginConfig.new, (Storage.new, (Cluster.initial, w))) in
    (Doveadm.with_plugin k w).1 = (k s).1 ∧ objs (Doveadm.with_plugin k w).2 = objects (k s).2.2.
Proof.
    cbv zeta. unfold Doveadm.with_plugin. pose proof (with_plugin_on_objs (on_snd k) tt w) as Hk.
    cbv zeta in Hk. destruct (Doveadm.with_plugin_on _ _) as [a [[] w']]. by rewrite on_snd_run in Hk.
Qed.

(** What the first connection finds: mails that have been compared with the records, each
    object once; nothing was written. *)
Definition compared (namespaces : option (list ns_visit)) (mails : list RadosMail) : Prop :=
    ∃ loaded, NoDup (rm_oid <$> loaded) ∧
      mails = match namespaces with Some l => Doveadm.check_namespaces l loaded | None => loaded end.
  Abbreviation PF m := (at_snd (S:=F) (PT m)).
Lemma load_distinct m (ms : option (MetadataDefault + MetadataIma)) sort_string load :
    triple (PF m) (on_snd (Tool.storage (LoadRun.load_objects ms [] sort_string load)))
      (λ r z, PF m z ∧ ∀ ret mails, r = Some (ret, mails) → NoDup (rm_oid <$> mails)).
Proof.
    intros [f [c s]] Hs. unfold Tool.storage. rewrite !on_snd_run. cbn [fst snd].
    pose proof (LoadRun.load_objects_spec ms sort_string load s) as Hl.
    destruct (LoadRun.load_objects ms [] sort_string load s) as [r s']. cbn [fst snd].
    destruct Hl as (_ & _ & Eo & Hl). split; [unfold at_snd, objects in *; cbn [fst snd] in *; congruence|].
    intros ret mails E. destruct (Hl ret mails E) as (taken & Hsub & Hp). rewrite Hp.
    eapply sublist_NoDup; [|exact Hsub].
    unfold Storage.find_mails. destruct (Storage.usable s) eqn:Hu.
    - rewrite StorageRun.guarded_usable by done. srun. apply listed_once.
    - rewrite StorageRun.guarded_unusable by done. constructor.
Qed.
(** The answer of the search. *)
Definition found_compared (user : mail_user) (r : option (Z * list RadosMail)) : Prop :=
    ∀ ret mails, r = Some (ret, mails) → 0 <= ret → compared (us_namespaces user) mails.
Lemma search_connected_compares m opts user download parser silent load :
    triple (PF m) (Search.search_connected getenv home path_max over opts user download parser [] silent load)
      (λ r z, PF m z ∧ found_compared user r).
Proof.
    assert (∀ r, found_compared user r → triple (PF m) (mret r) (λ r z, PF m z ∧ found_compared user r)) as Ha
      by by intros r Hr z Hz.
    assert (found_compared user None) as Hn by by intros ? ? [=].
    unfold Search.search_connected. apply triple_kept; [apply stays_on_snd, open_load_quiet|intros [open|]; [|by apply Ha]].
    case_decide; [apply Ha; intros ? ? [= <- _]; lia|].
    apply triple_kept; [apply stays_on_snd, init_module_quiet|intros [ms|]; [|apply Ha; intros ? ? [= <- _]; lia]].
    eapply triple_bind; [apply load_distinct|intros r; apply triple_pure; intros Hd].
    destruct r as [[ret mails]|]; [|by apply Ha].
    specialize (Hd ret mails eq_refl). case_decide; [apply Ha; intros ? ? [= <- _]; lia|].
    set (mails' := match us_namespaces user with Some l => _ | None => _ end).
    assert (compared (us_namespaces user) mails') as Hc by by exists mails.
    destruct load; [|apply Ha; by intros ? ? [= _ <-]].
    apply triple_kept; [apply on_files_quiet, query_quiet|intros r]. apply Ha.
    destruct r as [r|]; [by intros ? ? [= _ <-]|done].
Qed.

(** The second connection: the objects a record names are left alone. *)
Lemma delete_in_namespace del namespaces mails (exit_code : Z) username w k :
    compared (Some namespaces) mails → Forall (λ ns, Forall DoveadmRun.scannable (nv_boxes ns)) namespaces →
    (∃ ns b, ns ∈ namespaces ∧ b ∈ nv_boxes ns ∧ DoveadmRun.has_record k.2 b) →
    objs (Doveadm.with_plugin (Doveadm.in_namespace getenv username
      (λ _, Tool.storage (Doveadm.delete_unreferenced del mails exit_code))) w).2 !! k = objs w !! k.
Proof.
    intros (loaded & Hnd & ->) Hscan (ns & b & Hns & Hb & Hrec).
    pose proof (with_plugin_objs (Doveadm.in_namespace getenv username (λ _, Tool.storage
      (Doveadm.delete_unreferenced del (Doveadm.check_namespaces namespaces loaded) exit_code))) w) as [_ ->].
    set (s0 := (PluginConfig.new, (Storage.new, (Cluster.initial, w)))).
    assert (triple (PT (objs w)) (Doveadm.in_namespace getenv username (λ _, Tool.storage
      (Doveadm.delete_unreferenced del (Doveadm.check_namespaces namespaces loaded) exit_code)))
      (λ _ z, objects z.2 !! k = objs w !! k)) as Ht; [|exact (Ht s0 eq_refl)].
    assert (∀ r : option Z, triple (PT (objs w)) (mret r) (λ _ z, objects z.2 !! k = objs w !! k)) as Hr.
    { intros r [c s] Hz. rewrite ret_eq. unfold at_snd, objects in *. cbn [fst snd] in *. by rewrite Hz. }
    unfold Doveadm.in_namespace. apply triple_kept; [apply open_load_quiet|intros [open|]; [|apply Hr]].
    case_decide; [apply Hr|]. apply triple_kept; [apply init_module_quiet|intros [ms|]; [|apply Hr]].
    intros [c s] Hz. unfold Tool.storage. rewrite bind_eq, on_snd_run, ret_eq. cbn [fst snd].
    rewrite DoveadmRun.delete_unreferenced_frame; [by unfold at_snd, objects in *; cbn [fst snd] in *; rewrite Hz|].
    intros m Hm Href ->. cbn [snd] in Hrec.
    assert (rm_oid m ∈ rm_oid <$> loaded) as Hin.
    { rewrite <- (DoveadmRun.marks_names _ _ (DoveadmRun.check_namespaces_marks namespaces loaded)).
      apply list_elem_of_fmap. by exists m. }
    pose proof (DoveadmRun.check_namespaces_scans namespaces loaded (rm_oid m) ns b Hscan Hnd Hns Hb Hrec m Hm eq_refl).
    congruence.
Qed.

(** Nothing but objects in the namespace of the user is touched. *)
Lemma delete_at_home `{!RadosAdminLaws W} del mails (exit_code : Z) username w k :
    objs (Doveadm.with_plugin (Doveadm.in_namespace getenv username
      (λ _, Tool.storage (Doveadm.delete_unreferenced del mails exit_code))) w).2 !! k ≠ objs w !! k →
    UserHome.at_home getenv (objs w) username k.1.
Proof.
    match goal with |- objs (Doveadm.with_plugin ?q _).2 !! _ ≠ _ → _ => set (command := q) end.
    pose proof (with_plugin_objs command w) as [_ ->]. subst command. unfold Doveadm.in_namespace. rewrite bind_eq.
    pose proof (UserHome.connected getenv w) as Ho.
    destruct (Doveadm.open_connection_load_config _ _) as [[open|] [c [st [cl w1]]]]; destruct Ho as [Eo Ho]; cbn [fst snd];
      [|rewrite ret_eq; unfold objects; cbn; congruence].
    case_decide; [rewrite ret_eq; unfold objects; cbn; congruence|].
    destruct (Ho open eq_refl) as [Hio Hc]; [lia|]. cbn [fst snd]. rewrite bind_eq.
    pose proof (UserHome.found_namespace username c st cl w1 _ Hio) as Hn.
    destruct (Tool.init_metadata_storage_module _ _) as [[ms|] [c2 [st2 [cl2 w2]]]]; destruct Hn as [Eo2 Hn]; cbn [fst snd];
      [|rewrite ret_eq; unfold objects; cbn; congruence].
    destruct Hn as (ns & Hio2 & Hns); [done|]. cbn [fst snd]. unfold Tool.storage. rewrite bind_eq, on_snd_run, ret_eq. cbn [fst snd].
    intros Hk. destruct (decide (k.1 = st_io_ctx st2)) as [Ek|Hne].
    - rewrite Ek, Hio2. split; [done|]. exists (rados_cfg c). by rewrite Eo in Hns.
    - destruct Hk. rewrite DoveadmRun.delete_unreferenced_frame; [unfold objects; cbn; congruence|]. by intros m _ _ ->.
Qed.
End check.
End SearchRun.

(** ** Properties *)

(** C10. The check of the indices as a whole: in whichever order the mails are loaded and whatever
    fails in its two connections, an object whose oid a record of a mailbox has is as it was,
    when the search can go through every mailbox of every namespace it is given; and no object
    is changed outside the namespace that the cluster's configuration and the mapping object
    give the user, in the pool that dovecot.conf names. *)
Theorem check_indices_keeps_referenced `{JanssonLaws} `{LibradosLaws W} `{RadosAdmin W} `{!RadosAdminLaws W} `{!QuietAdmin W}
    `{!Loader W (MetadataDefault + MetadataIma)} `{!LoaderLaws W (MetadataDefault + MetadataIma)} `{Posix F} `{LocalTime}
    getenv home path_max over junk del username (namespaces : list ns_visit) (f : F) (w : W) :
  (∀ c g (w : W), NoDup (io_nobjects c g w).1) →
  Forall (λ ns, Forall DoveadmRun.scannable (nv_boxes ns)) namespaces →
  let w' := (Search.cmd_rmb_check_indices_run getenv home path_max over junk del (mk_user username (Some namespaces)) (f, w)).2.2 in
  ∀ k, ((∃ ns b, ns ∈ namespaces ∧ b ∈ nv_boxes ns ∧ DoveadmRun.has_record k.2 b) → objs w' !! k = objs w !! k) ∧
       (objs w' !! k ≠ objs w !! k → UserHome.at_home getenv (objs w) username k.1).
Proof.
  intros Hlist Hscan w' k. subst w'. unfold Search.cmd_rmb_check_indices_run, Search.cmd_rmb_search_run. cbv zeta.
  set (parser := match Query.parse_ls_string _ _ with Some _ => _ | None => _ end).
  match goal with |- context [Doveadm.with_plugin_on ?q] => set (search := q) end.
  pose proof (SearchRun.with_plugin_on_objs search f w) as Hw. cbv zeta in Hw.
  assert (triple (at_snd (at_snd (at_snd (at_snd (λ w0, objs w0 = objs w))))) search
    (λ r z, at_snd (at_snd (at_snd (at_snd (λ w0, objs w0 = objs w)))) z ∧
            SearchRun.found_compared (mk_user username (Some namespaces)) r)) as Hs
    by by apply SearchRun.search_connected_compares.
  destruct (Hs (f, (PluginConfig.new, (Storage.new, (Cluster.initial, w)))) eq_refl) as [Ho Hc]. clear Hs.
  rewrite bind_eq. destruct (Doveadm.with_plugin_on search (f, w)) as [r [f' w']]. cbn [fst snd]. destruct Hw as [-> Ew].
  unfold at_snd in Ho. unfold objects in Ew. rewrite Ho in Ew. rewrite <- Ew.
  destruct (search _).1 as [[ret mails]|]; [|done]. case_decide; [done|]. rewrite on_snd_run. cbn [fst snd]. split; [intros Hrec|].
  - eapply SearchRun.delete_in_namespace; [|done|done]. apply (Hc ret mails eq_refl). lia.
  - by apply SearchRun.delete_at_home.
Qed.

(** Alice has two mails, of which the first has a record in INBOX. *)
Definition checked_world : MemCluster :=
  mk_mem (<[(mk_ioctx "mail_storage" "ns_a", "o2") := empty_object 18]> (mc_objs mapped_world)) [] 1000.
#[local] Instance example_time : LocalTime := Query.no_time.
Definition check_alice : option Z * (MemFiles * MemCluster) :=
  Search.cmd_rmb_check_indices_run (λ _, None) None 100 "" Ascii.zero true (mk_user "alice" (Some [visit_of true]))
    (mk_files ∅ ∅, checked_world).
Lemma mem_lists_once c g (w : MemCluster) : NoDup (io_nobjects c g w).1.
Proof.
  cbn. unfold Mem.objects_of. rewrite merge_sort_Permutation.
  pose proof (NoDup_fst_map_to_list (mc_objs w)) as Hn. induction (map_to_list (mc_objs w)) as [|[[c' oid] ob] l IH]; [constructor|].
  cbn in Hn |- *. apply list.NoDup_cons in Hn as [Hk Hn]. case_decide as Ec; [|by apply IH]. subst c'.
  apply list.NoDup_cons. split; [|by apply IH]. intros Hin. apply list_elem_of_omap in Hin as ([[c'' oid'] ob'] & Hin & E).
  case_decide; [|done]. simplify_eq. apply Hk. apply list_elem_of_fmap. by exists (c, oid, ob').
Qed.
Lemma check_indices_keeps_referenced_witness :
  check_alice.1 = Some 2 ∧
  objs check_alice.2.2 !! (mk_ioctx "mail_storage" "ns_a", "o1") = Some (empty_object 17) ∧
  objs check_alice.2.2 !! (mk_ioctx "mail_storage" "ns_a", "o2") = None ∧
  UserHome.at_home (λ _, None) (objs checked_world) "alice" (mk_ioctx "mail_storage" "ns_a").
Proof.
  pose proof (check_indices_keeps_referenced (λ _, None) None 100 "" Ascii.zero true "alice" [visit_of true]
    (mk_files ∅ ∅) checked_world mem_lists_once) as Hc. premise Hc.
  { constructor; [|constructor]. constructor; [|constructor]. intros _. right. cbn. split; [done|lia]. }
  cbv zeta in Hc. fold check_alice in Hc.
  assert (objs check_alice.2.2 !! (mk_ioctx "mail_storage" "ns_a", "o2") = None) as Ho by (vm_compute; reflexivity).
  split; [vm_compute; reflexivity|]. split; [|split; [exact Ho|]].
  - transitivity (objs checked_world !! (mk_ioctx "mail_storage" "ns_a", "o1")); [|vm_compute; reflexivity].
    apply (Hc (mk_ioctx "mail_storage" "ns_a", "o1")).
    exists (visit_of true), (mk_box_visit true false true [Some "o1"] 0 0). split_and!; [left|left|].
    split_and!; [done|done|left].
  - apply (proj2 (Hc (mk_ioctx "mail_storage" "ns_a", "o2"))). rewrite Ho. vm_compute. discriminate.
Defined.
