(* ===== verification/DoveadmRevert.v ===== *)
(** Reverting a save log with doveadm: [cmd_rmb_revert_log_run] of
    storage-rbox/doveadm-rbox-plugin.cpp. The objects are removed or moved back as the log
    says, and each mail that was moved back gets a record in the mailbox it was in. *)
From S2P Require Export DoveadmSearch DovecotBox.
From Stdlib Require Import Ascii.
Local Open Scope rmb_scope.

(** What the mail storage service answers for a user: whether another server takes the command,
    the result of the lookup, and of the initialisation. *)
Record user_lookup := mk_lookup { ul_server_user : Z; ul_lookup : Z; ul_next : Z }.

(** What the restoring relies on: opening a mailbox asks for nothing, and a commit that
    succeeds is recorded; neither touches an object. *)
Class RestoreLaws (W : Type) `{DovecotLaws W} `{DovecotBoxes W} := {
  restore_open_law : ∀ name w, objs (mailbox_open name w).2 = objs w ∧ ix_log (mailbox_open name w).2 = ix_log w;
  restore_commit_law : ∀ w, objs (mail_index_transaction_commit w).2 = objs w ∧
    ix_log (mail_index_transaction_commit w).2 =
      ix_log w ++ (if decide ((mail_index_transaction_commit w).1 < 0) then [] else [IxTransactionCommit]);
}.
#[export] Program Instance mem_restore_laws : RestoreLaws MemDovecot.
Next Obligation. by intros name [c i]. Qed.
Next Obligation. intros [c i]. cbn. case_decide; [by rewrite app_nil_r|done]. Qed.

(** The administrative calls of a world with an index are those of its cluster. *)
Lemma dv_run {A} (m : ST MemCluster A) (w : MemDovecot) :
  MemDv.cluster m w = ((m (md_cluster w)).1, mk_mem_dovecot (m (md_cluster w)).2 (md_index w)).
Proof. destruct w as [c i]. cbn. by destruct (m c). Qed.
#[export] Instance dv_admin_laws : RadosAdminLaws MemDovecot.
Proof.
  split; intros; try subst r; cbn [dv_admin ra_init ra_connect ra_conf_get ra_pool_list2 ra_pool_create ra_ioctx_create];
    rewrite dv_run; cbn [fst snd]; first
    [ apply ra_init_law | apply ra_connect_law | apply ra_conf_get_law | apply ra_pool_list2_law
    | apply ra_pool_create_law | apply ra_ioctx_create_law ].
Qed.
#[export] Instance dv_quiet_admin : QuietAdmin MemDovecot.
Proof.
  intros m. pose proof (mem_quiet_admin m). split; cbn; intros; intros w Hw; rewrite dv_run; cbn [fst snd objs]; first
    [ exact (keep_init (P:=λ w, objs w = m) _ _ Hw) | exact (keep_connect (P:=λ w, objs w = m) _ Hw) | exact Hw ].
Qed.

Module Revert.
Section restore.
Context `{Dovecot W} `{DovecotBoxes W}.
(** The memory of a guid that was not assigned. *)
Variable junk : string.

Definition restore_index_entry (mailbox_name str_mail_guid str_mail_oid : string) : ST W Z :=
    box ← mailbox_open mailbox_name;
    match box with
    | None => mret (-1)
    | Some box =>
        hdr ← (λ w, (mail_index_get_header w, w));
        let next_uid := if decide (mh_next_uid hdr ≠ 0) then mh_next_uid hdr else 1 in
        seq ← mail_index_append next_uid;
        match guid_128_from_uuid_string (c_str str_mail_guid) with
        | None => mret (-1)
        | Some mail_guid =>
            let mail_oid := default junk (guid_128_from_string (c_str str_mail_oid)) in
            mail_index_do (IxUpdateExt seq (mb_ext_id box) mail_guid mail_oid) ;;
            r ← mail_index_transaction_commit;
            mret (if decide (r < 0) then -1 else 0)
        end
    end.

(** [std::find_if]; its result is used without a look at it. *)
Definition find_key (k : rbox_metadata_key) (l : list RadosMetadata) : option bufferlist :=
    md_bl <$> List.find (λ m, bool_decide (md_key m = rbox_metadata_key_to_char k)) l.
(** [None]: an attribute is missing, and the program aborts. *)
Fixpoint restore_entries (entries : list RadosSaveLogEntry) : ST W (option unit) :=
    match entries with
    | [] => mret (Some tt)
    | it :: entries =>
        match find_key RBOX_METADATA_ORIG_MAILBOX (e_metadata it), find_key RBOX_METADATA_GUID (e_metadata it) with
        | Some mb, Some guid =>
            restore_index_entry (c_str mb) guid (e_src_oid it) ;; restore_entries entries
        | _, _ => mret None
        end
    end.
Definition doveadm_rmb_mail_next_user (user : user_lookup) (entries : list RadosSaveLogEntry) : ST W (option Z) :=
    if decide (ul_server_user user ≠ 0) then mret (Some (ul_server_user user)) else
    if decide (ul_lookup user <= 0) then mret (Some (ul_lookup user)) else
    if decide (ul_next user < 0) then mret (Some (ul_next user)) else
    r ← restore_entries entries;
    mret (match r with Some _ => Some 1 | None => None end).
(** The users with entries that were moved back. *)
Fixpoint restore_users (lookups : string → user_lookup) (moved_items : list (string * list RadosSaveLogEntry)) : ST W (option unit) :=
    match moved_items with
    | [] => mret (Some tt)
    | (user, entries) :: moved_items =>
        r ← doveadm_rmb_mail_next_user (lookups (c_str user)) entries;
        match r with None => mret None | Some _ => restore_users lookups moved_items end
    end.
End restore.

Section revert.
Context `{Jansson} `{RadosAdmin W} `{Librados W} `{Dovecot W} `{DovecotBoxes W}.
Variables (junk : string) (user_getenv : string → option string) (lookups : string → user_lookup) (now : Z)
  (read_log : string → option (list string)).

(** With the plugin's connection, which shares its cluster with that of the undoing. *)
Definition revert_connected (log_file : string) : ST (Tool.state W) (option Z) :=
    c ← Tool.config;
    '(count, moved_items) ← on_snd (on_snd (Undo.delete_with_save_log_on [] (PluginConfig.get_rados_cluster_name c)
                                      (PluginConfig.get_rados_username c) now (read_log log_file) (Some ∅)));
    match count with
    | None => mret None
    | Some count =>
        let exit_code := if decide (count >= 0) then 0 else -1 in
        r ← on_snd (Storage.world (restore_users junk lookups (map_items (default ∅ moved_items))));
        mret (match r with Some _ => Some exit_code | None => None end)
    end.
Definition cmd_rmb_revert_log_run (iterate_single_user : bool) (log_file : option string) : ST W (option Z) :=
    if negb iterate_single_user then mret (Some (-1)) else
    match log_file with
    | None => mret (Some (-1))
    | Some log_file =>
        Doveadm.with_plugin (
          Doveadm.read_plugin_configuration user_getenv ;;
          open ← Doveadm.open_connection;
          match open with
          | None => mret None
          | Some open => if decide (open < 0) then mret (Some open) else revert_connected log_file
          end)
    end.
End revert.
End Revert.

(** ** Lemmas *)

Module RevertRun.
Section restore.
Context `{RestoreLaws W}.

Lemma restore_entry_spec junk name guid oid w :
    let w1 := (mailbox_open name w).2 in
    let uid := if decide (mh_next_uid (mail_index_get_header w1) ≠ 0) then mh_next_uid (mail_index_get_header w1) else 1 in
    let '(r, w') := Revert.restore_index_entry junk name guid oid w in
    objs w' = objs w ∧
    (r = 0 → ∃ box seq g, (mailbox_open name w).1 = Some box ∧ guid_128_from_uuid_string (c_str guid) = Some g ∧
       ix_log w' = ix_log w ++ [IxAppend uid;
         IxUpdateExt seq (mb_ext_id box) g (default junk (guid_128_from_string (c_str oid))); IxTransactionCommit]) ∧
    (r ≠ 0 → ∃ l, ix_log w' = ix_log w ++ l ∧ IxTransactionCommit ∉ l).
Proof.
    intros w1 uid. unfold Revert.restore_index_entry. rewrite bind_eq. destruct (restore_open_law name w) as [O1 L1].
    fold w1 in O1, L1 |- *. destruct (mailbox_open name w).1 as [box|].
    2:{ rewrite ret_eq. split_and!; [done|lia|]. intros _. exists []. by rewrite app_nil_r, L1; split; [|set_solver]. }
    rewrite bind_eq. cbn [fst snd]. fold uid. rewrite bind_eq. destruct (index_append_law uid w1) as [O2 L2].
    destruct (mail_index_append uid w1) as [seq w2]. cbn [fst snd] in *.
    destruct (guid_128_from_uuid_string (c_str guid)) as [g|].
    2:{ rewrite ret_eq. split_and!; [congruence|lia|]. intros _. exists [IxAppend uid]. rewrite L2, L1. split; [done|set_solver]. }
    rewrite bind_eq. set (a := IxUpdateExt _ _ _ _). destruct (index_do_law a w2) as [O3 L3].
    destruct (mail_index_do a w2) as [[] w3]. cbn [fst snd] in *. rewrite bind_eq.
    destruct (restore_commit_law w3) as [O4 L4]. destruct (mail_index_transaction_commit w3) as [r w4]. cbn [fst snd] in *.
    rewrite ret_eq. split; [congruence|]. case_decide.
    - split; [lia|]. intros _. exists [IxAppend uid; a]. rewrite L4, L3, L2, L1, app_nil_r, <- app_assoc. split; [done|].
      unfold a. set_solver.
    - split; [|lia]. intros _. exists box, seq, g. split_and!; [done|done|]. rewrite L4, L3, L2, L1. by rewrite <- !app_assoc.
Qed.
Lemma restore_entries_objs junk entries w : objs (Revert.restore_entries junk entries w).2 = objs w.
Proof.
    revert w. induction entries as [|e entries IH]; intros w; [done|]. cbn [Revert.restore_entries].
    destruct (Revert.find_key RBOX_METADATA_ORIG_MAILBOX _) as [mb|]; [|done].
    destruct (Revert.find_key RBOX_METADATA_GUID _) as [guid|]; [|done]. rewrite bind_eq, IH.
    pose proof (restore_entry_spec junk (c_str mb) guid (e_src_oid e) w) as Hr. cbv zeta in Hr.
    destruct (Revert.restore_index_entry _ _ _ _ w) as [r w']. apply Hr.
Qed.
Lemma restore_users_objs junk lookups l w : objs (Revert.restore_users junk lookups l w).2 = objs w.
Proof.
    revert w. induction l as [|[user entries] l IH]; intros w; [done|]. cbn [Revert.restore_users]. rewrite bind_eq.
    assert (objs (Revert.doveadm_rmb_mail_next_user junk (lookups (c_str user)) entries w).2 = objs w) as E.
    { unfold Revert.doveadm_rmb_mail_next_user. repeat (case_decide; [done|]). rewrite bind_eq, ret_eq. apply restore_entries_objs. }
    destruct (Revert.doveadm_rmb_mail_next_user _ _ _ w) as [[r|] w']; cbn [fst snd] in *; [by rewrite IH|done].
Qed.
End restore.

(** *** Undoing on a cluster that has another user *)

Section undo.
Context `{LibradosLaws W} `{RadosAdmin W} `{!RadosAdminLaws W} `{!QuietAdmin W}.
Variables (opts : list (string * string)) (name user : string) (now : Z) (pool : string).
  Implicit Types s : Storage.state W.

(** The storage of the call has not been connected yet, or it is connected to the pool. *)
Definition one_pool s : Prop :=
    0 <= cluster_ref_count s.2.1 ∧
    (st_io_ctx_created s.1 = false ∧ cluster_ref_count s.2.1 < INT_MAX ∨ st_pool_name s.1 = pool ∧ io_pool (st_io_ctx s.1) = pool).
Lemma one_pool_usable s : one_pool s → Storage.usable s = true → io_pool (st_io_ctx s.1) = pool.
Proof. unfold one_pool, Storage.usable. intros (_ & [[-> _] | [_ E]]) Hu; [by rewrite andb_false_r in Hu|done]. Qed.
Lemma one_pool_same s s' : UndoRun.same_place s s' → one_pool s → one_pool s'.
Proof. intros (E1 & E2 & E3 & E4). unfold one_pool. by rewrite E1, E2, E3, E4. Qed.
(** A storage that has not been connected yet, on a cluster that may have other users. *)
Lemma open_fresh poolname index_pool s :
    0 <= cluster_ref_count s.2.1 < INT_MAX → st_io_ctx_created s.1 = false →
    let '(r, s') := Storage.open_connection_named opts poolname index_pool name user s in
    ∀ n, r = Some n → 0 <= n →
    cluster_ref_count s'.2.1 = cluster_ref_count s.2.1 + 1 ∧ st_pool_name s'.1 = poolname ∧ io_pool (st_io_ctx s'.1) = poolname.
Proof.
    intros Hr Hc. unfold Storage.open_connection_named.
    assert (Storage.usable s = false) as -> by (unfold Storage.usable; by rewrite Hc, andb_false_r).
    rewrite bind_eq, StorageRun.cluster_run. cbn [fst snd].
    pose proof (init_spec opts (Some (name, user)) s.2 ltac:(lia)) as Hn.
    destruct (Cluster.init opts _ s.2) as [r cw]. cbn [fst snd]. destruct Hn as [Hr0 Hn].
    case_decide; [rewrite ret_eq; intros n [= <-]; lia|]. specialize (Hn ltac:(lia)).
    rewrite (wrap_s_small 32) in Hn by (unfold INT_MAX in *; cbn; lia).
    pose proof (create_connection_spec poolname index_pool (cluster_ref_count cw.1) (st_nspace s.1) ltac:(lia) (s.1, cw)) as Hk.
    pose proof (create_connection_answer poolname index_pool (s.1, cw) I) as Ha.
    destruct (Storage.create_connection poolname index_pool (s.1, cw)) as [r' s']. cbn [fst snd] in *.
    intros n Er Hn0. replace n with 0 in Er by (specialize (Ha n Er); lia).
    destruct Hk as ((_ & Hrc & Hio & _) & _ & Hpn); [done|exact Er|]. rewrite Hio. split_and!; [lia|done|done].
Qed.
Lemma to_one_pool s :
    one_pool s →
    let '(r, s') := Undo.to_pool opts name user pool s in ∀ n, r = Some n → 0 <= n → one_pool s'.
Proof.
    intros Ho. unfold Undo.to_pool. rewrite bind_eq, StorageRun.storage_get_run. cbn [fst snd].
    case_decide as Hp; [by rewrite ret_eq|]. destruct Ho as [Hr [[Hc Hm]|[? _]]]; [|done].
    rewrite bind_eq. assert (Storage.close_connection s = (tt, s)) as ->.
    { unfold Storage.close_connection. by rewrite bind_eq, StorageRun.storage_get_run; cbn [fst snd]; rewrite Hc. }
    cbn [fst snd]. pose proof (open_fresh pool pool s (conj Hr Hm) Hc) as Hf.
    unfold Storage.open_connection_named1. destruct (Storage.open_connection_named _ _ _ _ _ s) as [r s'].
    intros n Er Hn0. destruct (Hf n Er Hn0) as (? & ? & ?). split; [lia|by right].
Qed.
Lemma undo_one_pool_frame lines count m s k :
    one_pool s → (∀ e, e ∈ Undo.entries lines → e_pool e = pool ∧ k ∉ Undo.entry_keys e) →
    objects (Undo.undo_lines opts name user now lines count (m, s)).2.2 !! k = objects s !! k.
Proof.
    revert count m s. induction lines as [|line lines IH]; intros count m s Ho Hk; cbn [Undo.undo_lines Undo.entries] in *;
      [by rewrite UndoRun.undo_end_objects|].
    destruct (Entry.scan line Entry.empty) as [[|] e]; cbn [negb]; [|by rewrite UndoRun.undo_end_objects].
    destruct (Hk e ltac:(left)) as [Hpool Hke]. rewrite bind_eq, on_snd_run. cbn [fst snd]. rewrite Hpool.
    pose proof (UndoRun.to_pool_objects opts name user pool s) as O1. pose proof (to_one_pool s Ho) as Hs.
    destruct (Undo.to_pool _ _ _ _ s) as [[n|] s1]; cbn [fst snd] in *; [|by rewrite ret_eq; cbn; rewrite O1].
    case_decide.
    - rewrite bind_eq, on_snd_run, ret_eq. cbn [fst snd]. rewrite <- O1. f_equal. apply UndoRun.stays_objects.
      intros o. pose proof (UndoRun.admin_keeps_objects (W:=W) o). stay.
    - specialize (Hs n eq_refl ltac:(lia)). rewrite bind_eq.
      pose proof (UndoRun.undo_entry_frame now e m s1 ltac:(rewrite Hpool; by apply one_pool_usable)) as Hf.
      destruct (Undo.undo_entry now e (m, s1)) as [d [m' s2]]. cbn [fst snd]. destruct Hf as [Hpl Hf].
      rewrite IH; [|by eapply one_pool_same|intros; apply Hk; by right]. by rewrite Hf, O1.
Qed.
End undo.

Section command.
Context `{Jansson} `{RestoreLaws W} `{RadosAdmin W} `{!RadosAdminLaws W} `{!QuietAdmin W}.
Variables (junk : string) (lookups : string → user_lookup) (now : Z) (read_log : string → option (list string)).
  Implicit Types s : Storage.state W.

Lemma revert_connected_frame log_file pool c s k :
    0 <= cluster_ref_count s.2.1 < INT_MAX →
    (∀ lines e, read_log log_file = Some lines → e ∈ Undo.entries lines → e_pool e = pool ∧ k ∉ Undo.entry_keys e) →
    objects (Revert.revert_connected junk lookups now read_log log_file (c, s)).2.2 !! k = objects s !! k.
Proof.
    intros Hr Hk. destruct s as [st [cl w]]. unfold Revert.revert_connected. rewrite bind_eq. cbn [Tool.config on_fst st_get fst snd].
    rewrite bind_eq, !on_snd_run. unfold Undo.delete_with_save_log_on.
    destruct (read_log log_file) as [lines|]; cbn [fst snd].
    - pose proof (undo_one_pool_frame [] (PluginConfig.get_rados_cluster_name c) (PluginConfig.get_rados_username c) now pool
        lines 0 ∅ (Storage.new, (cl, w)) k (conj (proj1 Hr) (or_introl (conj eq_refl (proj2 Hr)))) (λ e, Hk lines e eq_refl)) as Hf.
      destruct (Undo.undo_lines _ _ _ _ _ _ _) as [r [m' [st' [cl' w']]]]. cbn [fst snd] in *.
      destruct r as [count|]; [|exact Hf]. rewrite bind_eq, on_snd_run, StorageRun.storage_world_run, ret_eq.
      unfold objects in *. cbn [fst snd] in *. by rewrite restore_users_objs.
    - rewrite bind_eq, on_snd_run, StorageRun.storage_world_run, ret_eq. unfold objects. cbn [fst snd]. by rewrite restore_users_objs.
Qed.
End command.
End RevertRun.

(** ** Properties *)

(** Restoring the record of a mail: no object is touched; when the answer is 0 the index was
    asked, in this order, for a new record with the next uid of the mailbox, for the guid and
    the oid in the record, and for the commit; otherwise nothing was committed. *)
Theorem restored_entry_is_recorded `{RestoreLaws W} junk mailbox_name guid oid (w : W) :
  let w1 := (mailbox_open mailbox_name w).2 in
  let uid := if decide (mh_next_uid (mail_index_get_header w1) ≠ 0) then mh_next_uid (mail_index_get_header w1) else 1 in
  let '(r, w') := Revert.restore_index_entry junk mailbox_name guid oid w in
  objs w' = objs w ∧
  (r = 0 → ∃ box seq g, (mailbox_open mailbox_name w).1 = Some box ∧ guid_128_from_uuid_string (c_str guid) = Some g ∧
     ix_log w' = ix_log w ++ [IxAppend uid;
       IxUpdateExt seq (mb_ext_id box) g (default junk (guid_128_from_string (c_str oid))); IxTransactionCommit]) ∧
  (r ≠ 0 → ∃ l, ix_log w' = ix_log w ++ l ∧ IxTransactionCommit ∉ l).
Proof. apply RevertRun.restore_entry_spec. Qed.

(** C12. Reverting a save log whose entries are all of one pool: whatever the settings of the user
    and whatever fails, every object that no entry names is as it was, and the records that
    are restored touch no object. *)
Theorem revert_only_logged `{Jansson} `{RestoreLaws W} `{RadosAdmin W} `{!RadosAdminLaws W} `{!QuietAdmin W}
    junk getenv lookups now read_log single log_file pool (w : W) k :
  (∀ lines e, read_log log_file = Some lines → e ∈ Undo.entries lines → e_pool e = pool ∧ k ∉ Undo.entry_keys e) →
  objs (Revert.cmd_rmb_revert_log_run junk getenv lookups now read_log single (Some log_file) w).2 !! k = objs w !! k.
Proof.
  intros Hk. unfold Revert.cmd_rmb_revert_log_run. destruct (negb single); [done|].
  match goal with |- context [Doveadm.with_plugin ?q] => set (run := q) end.
  pose proof (SearchRun.with_plugin_objs run w) as [_ ->]. subst run.
  set (c := (Doveadm.read_plugin_configuration getenv (PluginConfig.new, (Storage.new, (Cluster.initial, w)))).2).
  assert (c.2 = (Storage.new, (Cluster.initial, w))) as Ec by by unfold c, Doveadm.read_plugin_configuration; rewrite on_fst_run.
  rewrite bind_eq. fold c. destruct c as [c s]. cbn [snd] in Ec. subst s. unfold Doveadm.open_connection.
  rewrite bind_eq. unfold Tool.storage. rewrite bind_eq. cbn [Tool.config on_fst st_get fst snd]. rewrite on_snd_run. cbn [fst snd].
  match goal with |- context [Storage.open_connection_named ?o ?p ?i ?n ?u ?s] =>
    pose proof (RevertRun.open_fresh o n u p i s ltac:(unfold INT_MAX; cbn; lia) eq_refl) as Hf;
    pose proof (UndoRun.stays_objects (Storage.open_connection_named o p i n u) s) as Ho;
    destruct (Storage.open_connection_named o p i n u s) as [r s'] end.
  cbn [fst snd] in *. premise Ho; [intros m; pose proof (UndoRun.admin_keeps_objects (W:=W) m); apply open_connection_named_stays|].
  assert (objects s' !! k = objs w !! k) as Hw by by rewrite Ho.
  destruct r as [r|]; [|by rewrite ret_eq]. case_decide; [by rewrite ret_eq|].
  destruct (Hf r eq_refl ltac:(lia)) as (Hr & _). rewrite (RevertRun.revert_connected_frame _ _ _ _ _ pool); [done|rewrite Hr; unfold INT_MAX; cbn; lia|done].
Qed.

Definition revert_world (keys : list okey) : MemDovecot :=
  mk_mem_dovecot (mk_mem (list_to_map ((λ k, (k, empty_object 17)) <$> keys)) [] 1000) (mk_mem_index [] ∅ ∅ 0 [] 0).
Definition at_key (pool ns oid : string) : okey := (mk_ioctx pool ns, oid).
Definition revert (lines : list string) (keys : list okey) : option Z * MemDovecot :=
  Revert.cmd_rmb_revert_log_run "junk" (λ _, None) (λ _, mk_lookup 0 1 0) 99 (λ _, Some lines) true (Some "log") (revert_world keys).
Lemma revert_only_logged_witness :
  let keys := [at_key "mail_storage" "u1" "o1"; at_key "mail_storage" "u1" "o2"] in
  let w' := (revert ["save,mail_storage,u1,o1"] keys).2 in
  objs w' !! at_key "mail_storage" "u1" "o2" = Some (empty_object 17) ∧ objs w' !! at_key "mail_storage" "u1" "o1" = None.
Proof.
  intros keys. split; [|vm_compute; reflexivity].
  transitivity (objs (revert_world keys) !! at_key "mail_storage" "u1" "o2"); [|vm_compute; reflexivity].
  apply (revert_only_logged "junk" (λ _, None) (λ _, mk_lookup 0 1 0) 99 (λ _, Some ["save,mail_storage,u1,o1"]) true "log"
    "mail_storage" (revert_world keys)).
  intros lines e [= <-] He. assert (e = Entry.new "o1" "u1" "mail_storage" "save") as ->.
  { revert He. vm_compute. set_solver. }
  split; [reflexivity|]. intros Hin. change (Undo.entry_keys _) with [at_key "mail_storage" "u1" "o1"] in Hin. set_solver.
Defined.
(** A mail that was moved is moved back, and has its record again. *)
Example moved_mail_is_restored :
  let '(r, w') := revert ["mv:u1:o1:alice;B=INBOX:G=g1,mail_storage,u2,o5"] [at_key "mail_storage" "u2" "o5"] in
  r = Some 0 ∧ (map_to_list (mc_objs (md_cluster w'))).*1 = [at_key "mail_storage" "u1" "o1"] ∧
  mi_log (md_index w') = [IxAppend 1; IxUpdateExt 1 1 "g1" "o1"; IxTransactionCommit].
Proof. vm_compute. split; [reflexivity|]. split; reflexivity. Qed.
(** With entries of two pools the first entry of the second pool is undone in the first pool:
    the connection of the plugin keeps the cluster connected, so that the storage of the
    undoing takes itself to be open. The object that is removed is not in the log. *)
Lemma revert_in_wrong_pool :
  let '(r, w') := revert ["save,mail_storage,u1,o1"; "save,alt,u1,o2"]
    [at_key "mail_storage" "u1" "o1"; at_key "mail_storage" "u1" "o2"; at_key "alt" "u1" "o2"] in
  r = Some 0 ∧ (map_to_list (mc_objs (md_cluster w'))).*1 = [at_key "alt" "u1" "o2"].
Proof. vm_compute. split; reflexivity. Qed.
