(* ===== verification/MailboxDeletion.v ===== *)
(** What deleting a mailbox removes from the cluster: the plugin's part of the deletion
    ([rbox_storage_mailbox_delete] of storage-rbox/rbox-storage.cpp) may remove the index object
    of the recovery and the object of the user's namespace; with mails in every namespace the
    second is kept. *)
From S2P Require Export RboxMailbox Keeps UndoLog.
Local Open Scope rmb_scope.

(** Asking for the messages of a mailbox and ending a list change nothing, and there is no
    negative number of messages. *)
Class QuietBoxes (W : Type) `{DovecotBoxes W} : Prop := {
  messages_quiet : ∀ name (w : W), (mailbox_messages name w).2 = w;
  messages_nonneg : ∀ name (w : W) n, (mailbox_messages name w).1 = Some n → 0 <= n;
  list_deinit_quiet : ∀ ns (w : W), (mailbox_list_iter_deinit ns w).2 = w;
}.

Module NamespaceRun.
Section counting.
Context `{Jansson} `{Librados W} `{RadosAdmin W} `{DovecotBoxes W} `{!QuietBoxes W}.
  Implicit Types w : W.

(** The messages of a namespace, as they are counted. *)
Definition messages w (info : mailbox_info) : Z :=
    if mi_selectable info then default 1 (mailbox_messages (mi_vname info) w).1 else 0.
Definition total_messages w (infos : list mailbox_info) : Z := foldr (λ info n, messages w info + n) 0 infos.
Definition has_mails (ns : mail_namespace) w : Prop := 0 < total_messages w (mailbox_list_infos (ns_name ns) w) < 2 ^ 31.

Lemma messages_positive w info : 0 <= messages w info.
Proof.
    unfold messages. destruct (mi_selectable info); [|done].
    pose proof (messages_nonneg (mi_vname info) w) as Hm. destruct (mailbox_messages _ w).1 as [n|]; cbn; [auto|lia].
Qed.
Lemma total_positive w infos : 0 <= total_messages w infos.
Proof. induction infos as [|info infos IH]; [done|]. pose proof (messages_positive w info). unfold total_messages in *. cbn [foldr]. lia. Qed.
Lemma count_messages_total infos n w : 0 <= n → n + total_messages w infos < 2 ^ 31 →
    RboxMailbox.count_messages infos n w = (n + total_messages w infos, w).
Proof.
    revert n. induction infos as [|info infos IH]; intros n Hn Hlt; cbn [RboxMailbox.count_messages total_messages foldr] in *.
    - by rewrite Z.add_0_r.
    - pose proof (messages_positive w info) as Hp. pose proof (total_positive w infos) as Ht.
      fold (total_messages w infos) in *. unfold messages in *. destruct (mi_selectable info); [|by rewrite IH].
      rewrite bind_eq. pose proof (messages_quiet (mi_vname info) w) as Hq.
      destruct (mailbox_messages _ w) as [st w1]. cbn [fst snd] in *. subst w1.
      rewrite wrap_s_small by lia. rewrite IH by lia. f_equal. lia.
Qed.
Lemma check_namespace_with_mails ns ret r w : has_mails ns w →
    ∃ ret', RboxMailbox.check_namespace ns ret (r, w) = (Some ret', (r, w)).
Proof.
    intros [Hpos Hlt]. unfold RboxMailbox.check_namespace. rewrite bind_eq, on_snd_run. cbn [RboxMailbox.ask fst snd].
    rewrite bind_eq, on_snd_run, count_messages_total by lia. cbn [fst snd].
    rewrite bind_eq, on_snd_run, list_deinit_quiet. cbn [fst snd].
    rewrite decide_False by lia. by eexists.
Qed.
Lemma check_users_with_mails namespaces ret r w : Forall (λ ns, has_mails ns w) namespaces →
    ∃ ret', RboxMailbox.check_users_mailbox_delete_ns_object namespaces ret (r, w) = (Some ret', (r, w)).
Proof.
    intros Hm. revert ret. induction Hm as [|ns namespaces Hns _ IH]; intros ret; cbn; [by eexists|].
    destruct (check_namespace_with_mails ns ret r w Hns) as [ret' Hc]. unfold abind. rewrite bind_eq, Hc. apply IH.
Qed.
End counting.

(** ** The context of the index object

    It is in the default namespace, whatever connects. *)
Section recovery.
Context `{Jansson} `{Librados W} `{RadosAdmin W} `{!RadosAdminLaws W}.
Definition plain_recovery (st : RadosStorageImpl) : Prop := io_ns (st_recovery_io_ctx st) = "".
  Abbreviation PR := (λ s : Storage.state W, plain_recovery s.1).
  Abbreviation PB := (λ s : rbox_storage * W, plain_recovery (rb_s s.1)).

Lemma storage_modify_plain f : (∀ st, plain_recovery st → plain_recovery (f st)) → stays PR (Storage.modify f).
Proof. intros Hf [st s] Hs. by apply Hf. Qed.
Lemma storage_cluster_plain {A} (m : ST (RadosClusterImpl * W) A) : stays PR (Storage.cluster m).
Proof. intros s Hs. by rewrite StorageRun.cluster_run. Qed.
Lemma keep_ctx_plain pool m (store : ioctx → RadosStorageImpl → RadosStorageImpl) :
    (∀ s : RadosClusterImpl * W, Cluster.ctx_answer pool (m s).1) →
    (∀ st, plain_recovery st → plain_recovery (store (mk_ioctx pool "") st)) → stays PR (Storage.keep_ctx m store).
Proof.
    intros Ha Hs s HP. unfold Storage.keep_ctx. rewrite bind_eq, StorageRun.cluster_run. cbn [fst snd].
    pose proof (Ha s.2) as Hr. destruct (m s.2) as [[[err io]|] cw]; [|done]. cbn [fst snd] in *.
    destruct (Hr _ eq_refl) as [[_ Eio]|[_ Eio]]; cbn [fst snd] in Eio; subst io; [|done]. srun. by apply Hs.
Qed.
#[local] Hint Resolve storage_cluster_plain : stays.
#[local] Hint Extern 2 (stays PR (Storage.modify _)) => (apply storage_modify_plain; done) : stays.
Lemma create_connection_plain pool index : stays PR (Storage.create_connection (W:=W) pool index).
Proof.
    assert (stays PR (Storage.keep_ctx (W:=W) (Cluster.io_ctx_create pool) Storage.set_ctx)) as Hc
      by by apply (keep_ctx_plain pool); [intros; apply Cluster.io_ctx_create_result|].
    assert (stays PR (Storage.keep_ctx (W:=W) (Cluster.recovery_index_io_ctx index) Storage.set_recovery_ctx)) as Hr
      by by apply (keep_ctx_plain index); [intros; apply Cluster.recovery_result|].
    unfold Storage.create_connection, Storage.config_int. stay.
Qed.
#[local] Hint Resolve create_connection_plain : stays.
Lemma open_named_plain o pool index name user : stays PR (Storage.open_connection_named (W:=W) o pool index name user).
Proof. unfold Storage.open_connection_named. apply stays_unless. stay. Qed.

Lemma rbox_modify_plain f : (∀ r, plain_recovery (rb_s r) → plain_recovery (rb_s (f r))) → stays PB (Rbox.modify (W:=W) f).
Proof. intros Hf [r w] Hs. by apply Hf. Qed.
Lemma rbox_get_plain : stays PB (Rbox.get (W:=W)).
Proof. by intros [r w] Hs. Qed.
Lemma on_s_plain {A} (m : ST (Storage.state W) A) : stays PR m → stays PB (Rbox.on_s m).
Proof. intros Hm [r w] Hs. unfold Rbox.on_s. specialize (Hm (rb_s r, (rb_cluster r, w)) Hs). by destruct (m _) as [? [? [? ?]]]. Qed.
Lemma on_alt_plain {A} (m : ST (Storage.state W) A) : stays PB (Rbox.on_alt m).
Proof. intros [r w] Hs. unfold Rbox.on_alt. by destruct (m _) as [? [? [? ?]]]. Qed.
Lemma put_config_plain c r : plain_recovery (rb_s r) → plain_recovery (rb_s (Rbox.put_config c r)).
Proof. intros Hs. unfold Rbox.put_config. by destruct (cc_io_ctx c). Qed.
Lemma on_config_plain {A} (m : ST (RadosCephConfig * W) A) : stays PB (Rbox.on_config m).
Proof. intros [r w] Hs. unfold Rbox.on_config. destruct (m _) as [? [? ?]]. by apply put_config_plain. Qed.
Lemma on_ns_mgr_plain {A} (m : ST (RadosNamespaceManager * W) A) : stays PB (Rbox.on_ns_mgr m).
Proof.
    intros [r w] Hs. unfold Rbox.on_ns_mgr. destruct (m _) as [? [n ?]]. cbn. destruct (nm_config n); [|done].
    by apply put_config_plain.
Qed.
Lemma set_namespace_plain ns : stays PR (Storage.set_namespace (W:=W) ns).
Proof. intros s Hs. by rewrite set_namespace_run. Qed.
#[local] Hint Resolve rbox_get_plain on_s_plain on_alt_plain on_config_plain on_ns_mgr_plain open_named_plain set_namespace_plain : stays.
#[local] Hint Extern 2 (stays PB (Rbox.modify _)) => (apply rbox_modify_plain; by intros) : stays.
Lemma read_configuration_plain env : stays PB (Rbox.read_plugin_configuration (W:=W) env).
Proof. unfold Rbox.read_plugin_configuration. stay. Qed.
#[local] Hint Resolve read_configuration_plain : stays.
Lemma open_mailbox_plain mb alt : stays PB (Rbox.open_mailbox (W:=W) mb alt).
Proof.
    unfold Rbox.open_mailbox, Rbox.rbox_open_rados_connection, Rbox.read_plugin_ceph_client_settings, Rbox.open_storages,
      Rbox.find_namespace. stay.
Qed.
End recovery.

(** ** Properties of the world that deleting a mailbox keeps *)

Lemma triple_and {S A} (P Q : S → Prop) (m : ST S A) :
    triple P m (λ _, P) → triple Q m (λ _, Q) → triple (λ s, P s ∧ Q s) m (λ _ s, P s ∧ Q s).
Proof. intros HP HQ s [Hp Hq]. split; [by apply HP|by apply HQ]. Qed.
Section safety.
Context `{LibradosLaws W} `{RadosAdmin W}.

Lemma writes_true : WriteKeeps (λ _ : W, True).
Proof. by split; [split|..]. Qed.
Lemma writes_and (P Q : W → Prop) : WriteKeeps P → WriteKeeps Q → WriteKeeps (λ w, P w ∧ Q w).
Proof. intros HP HQ. split; [split|..]; intros; apply triple_and; first [apply keep_read_call | apply keep_write_full | by_admin_call]. Qed.
Lemma writes_iff (P Q : W → Prop) : (∀ w, P w ↔ Q w) → WriteKeeps P → WriteKeeps Q.
Proof.
    intros Heq HP. assert (∀ A (m : ST W A), triple P m (λ _, P) → triple Q m (λ _, Q)) as Ht.
    { intros A m Hm w Hw. apply Heq, Hm. by apply Heq. }
    split; [split|..]; intros; apply Ht; first [apply keep_read_call | apply keep_write_full | by_admin_call].
Qed.
Lemma writes_Forall {X} (P : X → W → Prop) l : (∀ x, x ∈ l → WriteKeeps (P x)) → WriteKeeps (λ w, Forall (λ x, P x w) l).
Proof.
    induction l as [|x l IH]; intros Hl.
    - eapply writes_iff; [|exact writes_true]. intros w. split; [constructor|done].
    - eapply writes_iff; [intros w; symmetry; apply list.Forall_cons|]. apply writes_and; [apply Hl; left|].
      apply IH. intros y Hy. apply Hl. by right.
Qed.
(** An object that exists is not removed by reading and writing. *)
Lemma writes_exists `{!QuietAdmin W} k : WriteKeeps (λ w : W, is_Some (objs w !! k)).
Proof.
    assert (∀ A (m : ST W A), (∀ w, objs (m w).2 = objs w) → triple (λ w, is_Some (objs w !! k)) m (λ _ w, is_Some (objs w !! k))) as Hq.
    { intros A m Hm w Hw. by rewrite Hm. }
    split; [split|intros c oid len off|intros c oid bl]; intros; try (apply Hq; intros w; pose proof (quiet_admin (objs w)) as Ha;
      match goal with |- objs (?m w).2 = _ => assert (triple (λ w', objs w' = objs w) m (λ _ w', objs w' = objs w)) as Ht by by_admin_call end;
      by apply Ht).
    - apply Hq. intros w. pose proof (read_law c oid len off w) as Hl. by destruct (io_read _ _ _ _ w) as [[r bl] w'], Hl.
    - intros w Hw. unfold io_write_full. destruct (operate_law c oid [OpWriteFull bl] w) as (now & Hok & Hf).
      assert (∀ m', apply_ops now (c, oid) [OpWriteFull bl] (objs w) = Some m' → is_Some (m' !! k)) as Ha.
      { unfold apply_ops. cbn. intros m' [= <-]. destruct (decide (k = (c, oid))) as [->|Hk]; [rewrite lookup_insert_eq; by eexists|].
        by rewrite lookup_insert_ne. }
      destruct (decide (0 <= (io_operate c oid [OpWriteFull bl] w).1)) as [Hr|Hr]; [by apply Ha, Hok|].
      destruct (Hf ltac:(lia)) as [->|[_ E]]; [done|by apply Ha].
Qed.
End safety.

(** ** The deletion *)

Section deletion.
Context `{JanssonLaws} `{LibradosLaws W} `{RadosAdmin W} `{!RadosAdminLaws W} `{!QuietAdmin W} `{Dovecot W} `{DovecotBoxes W} `{!QuietBoxes W}.
Variables (k : okey) (namespaces : list mail_namespace).
(** The object is not in the default namespace, in which the index objects are. *)
Hypothesis elsewhere : io_ns k.1 ≠ "".
Hypothesis mails_kept : ∀ ns, ns ∈ namespaces → ClusterKeeps (has_mails (W:=W) ns).

(** The object exists and there are mails in every namespace. *)
Definition safe (w : W) : Prop := is_Some (objs w !! k) ∧ Forall (λ ns, has_mails ns w) namespaces.
Lemma safe_writes : WriteKeeps safe.
Proof. apply writes_and; [apply writes_exists|]. apply writes_Forall. intros ns Hns. pose proof (mails_kept ns Hns). apply _. Qed.
Lemma mails_stay c oid ops : stays (λ w, Forall (λ ns, has_mails ns w) namespaces) (io_operate c oid ops).
Proof.
    intros w. rewrite !list.Forall_forall. intros Hm ns Hns. pose proof (mails_kept ns Hns). apply keep_operate; auto.
Qed.
Lemma index_delete_safe (r : rbox_storage) w : plain_recovery (rb_s r) → safe w →
    let '(_, (r', w')) := Rbox.on_s Storage.ceph_index_delete (r, w) in plain_recovery (rb_s r') ∧ safe w'.
Proof.
    intros Hp [Hk Hm]. unfold Rbox.on_s, Storage.ceph_index_delete. rewrite bind_eq, StorageRun.storage_get_run, StorageRun.storage_world_run.
    cbn [fst snd]. pose proof (mails_stay (st_recovery_io_ctx (rb_s r)) (st_nspace (rb_s r)) [OpRemove] w Hm) as Hm'.
    pose proof (operate_frame (st_recovery_io_ctx (rb_s r)) (st_nspace (rb_s r)) [OpRemove] w k) as Hf.
    unfold io_remove. destruct (io_operate _ _ _ w) as [ret w']. cbn [fst snd] in *. split; [done|]. split; [|done].
    rewrite Hf; [done|]. intros ->. by apply elsewhere.
Qed.
Lemma mailbox_delete_safe mb r w :
    stays safe index_storage_mailbox_delete → plain_recovery (rb_s r) → safe w →
    safe (RboxMailbox.rbox_storage_mailbox_delete mb namespaces (r, w)).2.2.
Proof.
    intros Hown Hp Hw. pose proof safe_writes as Hsafe. unfold RboxMailbox.rbox_storage_mailbox_delete. rewrite bind_eq, on_snd_run.
    specialize (Hown w Hw). destruct (index_storage_mailbox_delete w) as [ret w1]. cbn [fst snd] in *. case_decide; [done|].
    rewrite bind_eq. pose proof (read_configuration_stays (P:=safe) (mb_getenv mb) (r, w1) Hown) as Hw2.
    pose proof (read_configuration_plain (mb_getenv mb) (r, w1) Hp) as Hp2.
    destruct (Rbox.read_plugin_configuration _ _) as [[] [r2 w2]]. cbn [fst snd] in *. rewrite abind_eq.
    pose proof (open_mailbox_stays (P:=safe) mb false (r2, w2) Hw2) as Hw3.
    pose proof (open_mailbox_plain mb false (r2, w2) Hp2) as Hp3.
    destruct (Rbox.open_mailbox mb false _) as [[opened|] [r3 w3]]; [|done]. cbn [fst snd] in *. case_decide; [done|].
    rewrite bind_eq. cbn [Rbox.get on_fst st_get fst snd]. destruct (PluginConfig.get_object_search_method (rb_config r3)) as [method|]; [|done].
    rewrite bind_eq. match goal with |- context [(if decide _ then ?m else ?e) (r3, w3)] => 
      assert (safe ((if decide (method = 2 ∧ mb_name mb = "INBOX") then m else e) (r3, w3)).2.2) as Hw4 end.
    { case_decide; [|done]. rewrite bind_eq. pose proof (index_delete_safe r3 w3 Hp3 Hw3) as Hd.
      destruct (Rbox.on_s _ _) as [x [r4 w4]]. apply Hd. }
    match type of Hw4 with safe (?m _).2.2 => destruct (m (r3, w3)) as [[] [r4 w4]] end. cbn [fst snd] in *.
    destruct (negb _); [done|]. destruct (PluginConfig.is_user_mapping _); [|done].
    destruct (check_users_with_mails namespaces 0 r4 w4 (proj2 Hw4)) as [ret' ->]. done.
Qed.
End deletion.
End NamespaceRun.
