(* ===== verification/DoveadmMailbox.v ===== *)
(** The rest of the doveadm commands: deleting mailboxes, the options and arguments of the
    commands, and the commands on the configuration object. Of
    storage-rbox/doveadm-rbox-plugin.cpp and doveadm-rbox-plugin.h. *)
From S2P Require Export DoveadmRevert MailboxDeletion.
From Stdlib Require Import Ascii.
Local Open Scope rmb_scope.

(** [struct delete_cmd_context]. *)
Record delete_cmd_context := mk_delete_ctx {
  dl_mailboxes : list string;
  dl_recursive : bool;
  dl_require_empty : bool;
  dl_unsafe : bool;
  dl_subscriptions : bool;
}.

(** What the command asks of Dovecot: the mailboxes of a namespace that match a pattern and the
    result of listing them, the deletion of a mailbox, which may be unsafe, and of an empty one,
    and the subscription. *)
Class DovecotDelete (W : Type) := {
  mailbox_list_names : string → string → W → list string;
  mailbox_list_names_deinit : string → string → ST W Z;
  mailbox_delete : string → string → bool → ST W Z;
  mailbox_delete_empty : string → string → bool → ST W Z;
  mailbox_set_subscribed : string → string → bool → ST W Z;
}.

(** Every deletion is recorded with its result, and nothing else is; listing does not change
    what there is. *)
Class DeleteLaws (W : Type) `{DovecotDelete W} := {
  deletions : W → list (string * Z);
  names_deinit_law : ∀ ns pattern w, deletions (mailbox_list_names_deinit ns pattern w).2 = deletions w ∧
    ∀ ns' pattern', mailbox_list_names ns' pattern' (mailbox_list_names_deinit ns pattern w).2 = mailbox_list_names ns' pattern' w;
  delete_law : ∀ ns name unsafe w,
    deletions (mailbox_delete ns name unsafe w).2 = deletions w ++ [(name, (mailbox_delete ns name unsafe w).1)];
  delete_empty_law : ∀ ns name unsafe w,
    deletions (mailbox_delete_empty ns name unsafe w).2 = deletions w ++ [(name, (mailbox_delete_empty ns name unsafe w).1)];
  set_subscribed_law : ∀ ns name b w, deletions (mailbox_set_subscribed ns name b w).2 = deletions w;
}.

Module Mailbox.
(** [i_strcmp_reverse_p]. *)
Definition i_strcmp_reverse_p : relation string := flip String.le.
#[export] Instance i_strcmp_reverse_p_dec : RelDecision i_strcmp_reverse_p := λ a b, String.le_dec b a.
Definition array_sort (mailboxes : list string) : list string := merge_sort i_strcmp_reverse_p mailboxes.

Section delete.
Context `{DovecotDelete W}.
(** [mail_namespace_find] on the namespaces of the user: the namespace and its separator. *)
Variable mail_namespace_find : string → string * ascii.

Definition child_pattern (name : string) : string :=
    if decide (name = "") then "*" else name +:+ String (mail_namespace_find name).2 "*".
(** The result, and [mailboxes] with the children. *)
Definition get_child_mailboxes (mailboxes : list string) (name : string) : ST W (Z * list string) :=
    let ns := (mail_namespace_find name).1 in
    let pattern := child_pattern name in
    infos ← (λ w, (mailbox_list_names ns pattern w, w));
    r ← mailbox_list_names_deinit ns pattern;
    mret (r, mailboxes ++ infos).
(** The loop over the mailboxes of the command: [recursive_mailboxes] and [ret]. *)
Fixpoint add_children (names : list string) (recursive_mailboxes : list string) (ret : Z) : ST W (list string * Z) :=
    match names with
    | [] => mret (recursive_mailboxes, ret)
    | name :: names =>
        '(r, recursive_mailboxes) ← get_child_mailboxes recursive_mailboxes name;
        add_children names (if decide (name = "") then recursive_mailboxes else recursive_mailboxes ++ [name])
          (if decide (r < 0) then -1 else ret)
    end.
Definition delete_one (ctx : delete_cmd_context) (name : string) (ret : Z) : ST W Z :=
    let ns := (mail_namespace_find name).1 in
    ret2 ← (if dl_require_empty ctx then mailbox_delete_empty ns name (dl_unsafe ctx)
            else mailbox_delete ns name (dl_unsafe ctx));
    let ret := if decide (ret2 < 0) then -1 else ret in
    if dl_subscriptions ctx then
      r ← mailbox_set_subscribed ns name false;
      mret (if decide (r < 0) then -1 else ret)
    else mret ret.
Fixpoint delete_mailboxes (ctx : delete_cmd_context) (names : list string) (ret : Z) : ST W Z :=
    match names with
    | [] => mret ret
    | name :: names => ret ← delete_one ctx name ret; delete_mailboxes ctx names ret
    end.
(** The exit code. *)
Definition cmd_mailbox_delete_run (iterate_single_user : bool) (ctx : delete_cmd_context) : ST W Z :=
    if negb iterate_single_user then mret (-1) else
    if dl_recursive ctx then
      '(recursive_mailboxes, ret) ← add_children (dl_mailboxes ctx) [] 0;
      delete_mailboxes ctx (array_sort recursive_mailboxes) ret
    else delete_mailboxes ctx (dl_mailboxes ctx) 0.
End delete.

Section command.
Context `{Jansson} `{RadosAdmin W} `{Librados W} `{Dovecot W} `{DovecotBoxes W} `{DovecotDelete W}.

(** A function of the plugin's storage on the parts of it that a command has. *)
Definition on_rbox {A} (m : ST (rbox_storage * W) A) : ST (Tool.state W) A :=
    λ '(c, (s, (cl, w))),
    let '(a, (r, w)) := m (mk_rbox cl ∅ s Storage.new c ∅ None Log.new (mk_fs (λ _, false) ∅), w) in
    (a, (rb_config r, (rb_s r, (rb_cluster r, w)))).
(** What follows when the mailboxes are deleted: the object of the user's namespace;
    [namespaces] are those from the one with the inbox on. *)
Definition delete_namespace_object (user_getenv getenv : string → option string) (exit_code : Z)
      (namespaces : list mail_namespace) : ST W (option Z) :=
    Doveadm.with_plugin (
      Doveadm.read_plugin_configuration user_getenv ;;
      open ← Doveadm.open_connection_load_config getenv;
      match open with
      | None => mret None
      | Some open =>
          if decide (open < 0) then mret (Some open) else
          c ← Tool.config;
          if PluginConfig.is_user_mapping c then
            r ← on_rbox (RboxMailbox.check_users_mailbox_delete_ns_object namespaces 0);
            mret (match r with Some _ => Some exit_code | None => None end)
          else mret (Some exit_code)
      end).
Definition cmd_rmb_mailbox_delete_run (mail_namespace_find : string → string * ascii)
      (user_getenv getenv : string → option string) (iterate_single_user : bool) (ctx : delete_cmd_context)
      (namespaces : list mail_namespace) : ST W (option Z) :=
    exit_code ← cmd_mailbox_delete_run mail_namespace_find iterate_single_user ctx;
    if decide (exit_code = 0) then delete_namespace_object user_getenv getenv exit_code namespaces
    else mret (Some exit_code).
End command.
End Mailbox.

(** ** Options and arguments *)

Module Args.
(** An option of a command; the answer is whether it is known. *)
Definition cmd_check_indices_parse_arg (delete_not_referenced_objects : bool) (c : ascii) : bool * bool :=
    (true, if char_is c "d" then true else delete_not_referenced_objects).
Definition cmd_create_ceph_index_parse_arg (full_refresh : bool) (c : ascii) : bool * bool :=
    (true, if char_is c "r" then true else full_refresh).
Definition cmd_mailbox_delete_parse_arg (ctx : delete_cmd_context) (c : ascii) : bool * delete_cmd_context :=
    let '(mk_delete_ctx mailboxes recursive require_empty unsafe subscriptions) := ctx in
    if char_is c "r" then (true, mk_delete_ctx mailboxes true require_empty unsafe subscriptions) else
    if char_is c "s" then (true, mk_delete_ctx mailboxes recursive require_empty unsafe true) else
    if char_is c "e" then (true, mk_delete_ctx mailboxes recursive true unsafe subscriptions) else
    if char_is c "Z" then (true, mk_delete_ctx mailboxes recursive require_empty true subscriptions) else
    (false, ctx).

(** Whether a command accepts its arguments; otherwise its help is shown and the program ends. *)
Definition cmd_rmb_ls_init (args : list string) : bool := bool_decide (args !! 0%nat ≠ None).
Definition cmd_rmb_get_init (args : list string) : bool := bool_decide (args !! 0%nat ≠ None ∧ args !! 1%nat ≠ None).
Definition cmd_rmb_delete_init (args : list string) : bool := bool_decide (args !! 0%nat ≠ None).
Definition cmd_rmb_set_init (args : list string) : bool := bool_decide (args !! 0%nat ≠ None ∧ args !! 1%nat ≠ None).
Definition cmd_rmb_ls_mb_init (args : list string) : bool := bool_decide (args !! 0%nat = None).
Definition cmd_rmb_rename_init (args : list string) : bool := bool_decide (args !! 0%nat ≠ None).
Definition cmd_rmb_revert_log_init (args : list string) : bool := bool_decide (args !! 0%nat ≠ None).
Definition cmd_rmb_check_indices_init (args : list string) : bool := bool_decide (args !! 0%nat = None).
Definition cmd_rmb_create_ceph_index_init (args : list string) : bool := bool_decide (args !! 0%nat = None).
(** [valid] is [doveadm_mailbox_args_check]. *)
Definition cmd_rmb_mailbox_delete_init (valid : list string → bool) (ctx : delete_cmd_context) (args : list string) :
      option delete_cmd_context :=
    match args with
    | [] => None
    | _ => if valid args then
             Some (mk_delete_ctx (Mailbox.array_sort (dl_mailboxes ctx ++ args)) (dl_recursive ctx) (dl_require_empty ctx)
                     (dl_unsafe ctx) (dl_subscriptions ctx))
           else None
    end.
(** [doveadm_mail_cmd_alloc] clears the context. *)
Definition cmd_rmb_mailbox_delete_alloc : delete_cmd_context := mk_delete_ctx [] false false false false.

Section config.
Context `{Jansson} `{RadosAdmin W} `{Librados W}.
Variable getenv : string → option string.
Definition cmd_rmb_config_show : ST W (option Z) := Doveadm.cmd_rmb_config getenv {["print_cfg" := "true"]}.
(** [argv] has the name of the command first. *)
Definition cmd_rmb_config_update (argv : list string) : ST W (option Z) :=
    match argv !! 1%nat with
    | None => mret (Some (-1))
    | Some update => Doveadm.cmd_rmb_config getenv {["update" := update]}
    end.
End config.
End Args.

(** ** Lemmas *)

(** A string comes before those it is the beginning of. *)
Lemma prefix_le a b : String.prefix a b = true → String.le a b.
Proof.
  revert b. induction a as [|c a IH]; intros b Hp; [by destruct b|].
  destruct b as [|d b]; [done|]. cbn in Hp. destruct (ascii_dec c d) as [<-|]; [|done].
  specialize (IH b Hp). unfold String.le, String.leb in *. cbn. unfold Ascii.compare. by rewrite N.compare_refl.
Qed.

Lemma StronglySorted_impl {A} (R S : relation A) l : (∀ a b, R a b → S a b) → StronglySorted R l → StronglySorted S l.
Proof. intros Hi. induction 1; constructor; [done|]. eapply List.Forall_impl; [|eassumption]. intros b. apply Hi. Qed.
#[export] Instance strcmp_reverse_trans : Transitive Mailbox.i_strcmp_reverse_p.
Proof. intros a b c Hab Hbc. unfold Mailbox.i_strcmp_reverse_p, flip in *. by transitivity b. Qed.
#[export] Instance strcmp_reverse_total : Total Mailbox.i_strcmp_reverse_p.
Proof. intros a b. apply (total String.le). Qed.

Module MailboxRun.
(** Nothing is in front of what it is the beginning of. *)
Definition children_first (l : list string) : Prop := StronglySorted (λ a b, ¬ (String.prefix a b = true ∧ a ≠ b)) l.
Lemma array_sort_children_first l : children_first (Mailbox.array_sort l).
Proof.
  eapply StronglySorted_impl; [|apply (StronglySorted_merge_sort Mailbox.i_strcmp_reverse_p)].
  intros a b Hle [Hp Hne]. apply Hne. apply (anti_symm String.le); [by apply prefix_le|done].
Qed.

Section delete.
Context `{DeleteLaws W}.
Variable mail_namespace_find : string → string * ascii.
  Implicit Types w : W.

(** A name with its children, as the list of mailboxes has them. *)
Definition family w (name : string) : list string :=
    mailbox_list_names (mail_namespace_find name).1 (Mailbox.child_pattern mail_namespace_find name) w
    ++ (if decide (name = "") then [] else [name]).
Lemma add_children_spec names rec ret w :
    let '((l, r), w') := Mailbox.add_children mail_namespace_find names rec ret w in
    l = rec ++ (names ≫= family w) ∧ deletions w' = deletions w ∧ (r = 0 → ret = 0).
Proof.
    revert rec ret w. induction names as [|name names IH]; intros rec ret w; [by rewrite app_nil_r|].
    cbn [Mailbox.add_children]. unfold Mailbox.get_child_mailboxes. autorewrite with rmb. cbn [fst snd].
    destruct (names_deinit_law (mail_namespace_find name).1 (Mailbox.child_pattern mail_namespace_find name) w) as [Hd Hn].
    destruct (mailbox_list_names_deinit _ _ w) as [r w1]. cbn [fst snd] in *.
    set (rec' := if decide (name = "") then _ else _). specialize (IH rec' (if decide (r < 0) then -1 else ret) w1).
    destruct (Mailbox.add_children _ names _ _ w1) as [[l r'] w']. destruct IH as (-> & -> & Hr). rewrite Hd.
    split; [|split; [done|]]; [|intros E; specialize (Hr E); by case_decide].
    rewrite (list_bind_ext (family w1) (family w) names names); [|intros x; unfold family; by rewrite Hn|done].
    rewrite bind_cons. subst rec'.
    unfold family at 2. destruct (decide (name = "")); by rewrite ?app_nil_r, <- ?(assoc_L (++)).
Qed.

Lemma delete_one_spec ctx name ret w :
    let '(r, w') := Mailbox.delete_one mail_namespace_find ctx name ret w in
    ∃ result, deletions w' = deletions w ++ [(name, result)] ∧ (r = 0 → ret = 0 ∧ 0 <= result).
Proof.
    unfold Mailbox.delete_one. set (m := if dl_require_empty ctx then _ else _).
    assert (deletions (m w).2 = deletions w ++ [(name, (m w).1)]) as Hm.
    { subst m. destruct (dl_require_empty ctx); [apply delete_empty_law|apply delete_law]. }
    rewrite bind_eq. destruct (m w) as [r w1]. cbn [fst snd] in *. destruct (dl_subscriptions ctx).
    - rewrite bind_eq, ret_eq. rewrite set_subscribed_law. exists r. split; [done|]. repeat case_decide; lia.
    - rewrite ret_eq. exists r. split; [done|]. case_decide; lia.
Qed.
Lemma delete_mailboxes_spec ctx names ret w :
    let '(r, w') := Mailbox.delete_mailboxes mail_namespace_find ctx names ret w in
    ∃ l, deletions w' = deletions w ++ l ∧ l.*1 = names ∧ (r = 0 → ret = 0 ∧ Forall (λ p, 0 <= p.2) l).
Proof.
    revert ret w. induction names as [|name names IH]; intros ret w; cbn [Mailbox.delete_mailboxes].
    - exists []. by rewrite app_nil_r.
    - rewrite bind_eq. pose proof (delete_one_spec ctx name ret w) as H1.
      destruct (Mailbox.delete_one _ _ _ _ w) as [r w1]. destruct H1 as (res & H1 & Hres). cbn [fst snd].
      specialize (IH r w1). destruct (Mailbox.delete_mailboxes _ _ _ _ w1) as [r' w'].
      destruct IH as (l & -> & <- & Hr). exists ((name, res) :: l). rewrite H1, <- (assoc_L (++)).
      split; [done|]. split; [done|]. intros [Hr0 Hl]%Hr. destruct (Hres Hr0). by split; [|constructor].
Qed.
End delete.
End MailboxRun.

(** ** Properties *)

(** C35. Deleting mailboxes with their children ([-r]) asks Dovecot to delete exactly the
    mailboxes of the command and the ones that are listed below them, each once for every time
    it was named or listed, and never a mailbox before one that is below it; the command
    reports success only if no deletion failed. *)
Theorem children_are_deleted_first `{DeleteLaws W} find ctx (w : W) :
  dl_recursive ctx = true →
  let '(exit_code, w') := Mailbox.cmd_mailbox_delete_run find true ctx w in
  ∃ l, deletions w' = deletions w ++ l ∧ l.*1 ≡ₚ (dl_mailboxes ctx ≫= MailboxRun.family find w) ∧
       MailboxRun.children_first l.*1 ∧ (exit_code = 0 → Forall (λ p, 0 <= p.2) l).
Proof.
  intros Hrec. unfold Mailbox.cmd_mailbox_delete_run. cbn [negb]. rewrite Hrec, bind_eq.
  pose proof (MailboxRun.add_children_spec find (dl_mailboxes ctx) [] 0 w) as Ha.
  destruct (Mailbox.add_children _ _ _ _ w) as [[names ret] w1]. destruct Ha as (-> & Hd & _). cbn [fst snd].
  pose proof (MailboxRun.delete_mailboxes_spec find ctx (Mailbox.array_sort ([] ++ (dl_mailboxes ctx ≫= MailboxRun.family find w)))
    ret w1) as Hm.
  destruct (Mailbox.delete_mailboxes _ _ _ _ w1) as [r w']. destruct Hm as (l & -> & Hl & Hr).
  exists l. rewrite Hd, Hl. split; [done|]. split; [apply merge_sort_Permutation|].
  split; [apply MailboxRun.array_sort_children_first|]. by intros [_ ?]%Hr.
Qed.

(** The mailboxes of a user as a list of names; some of them cannot be deleted. *)
Record MailTree := mk_tree { mt_names : list string; mt_refused : list string; mt_deleted : list (string * Z) }.
Definition tree_delete (name : string) : ST MailTree Z :=
  λ t, let r := if decide (name ∈ mt_refused t) then -1 else 0 in
       (r, mk_tree (if decide (r < 0) then mt_names t else List.filter (λ n, bool_decide (n ≠ name)) (mt_names t))
             (mt_refused t) (mt_deleted t ++ [(name, r)])).
#[export] Instance mail_tree : DovecotDelete MailTree := {
  mailbox_list_names _ pattern t := List.filter (String.prefix (str_take (slen pattern - 1) pattern)) (mt_names t);
  mailbox_list_names_deinit _ _ := mret 0;
  mailbox_delete _ name _ := tree_delete name;
  mailbox_delete_empty _ name _ := tree_delete name;
  mailbox_set_subscribed _ _ _ := mret 0;
}.
#[export] Program Instance mail_tree_laws : DeleteLaws MailTree := {| deletions := mt_deleted |}.
Next Obligation. by intros. Qed.
Next Obligation. by intros. Qed.
Next Obligation. by intros. Qed.
Next Obligation. by intros. Qed.
Definition work_tree : MailTree := mk_tree ["INBOX"; "work"; "work/a"; "work/a/b"; "workshop"] ["work/a"] [].
Definition find_inbox (name : string) : string * ascii := ("inbox", "/"%char).
Lemma children_are_deleted_first_witness :
  let '(exit_code, t) := Mailbox.cmd_mailbox_delete_run find_inbox true (mk_delete_ctx ["work"] true false false false) work_tree in
  MailboxRun.children_first (mt_deleted t).*1 ∧ mt_deleted t = [("work/a/b", 0); ("work/a", -1); ("work", 0)] ∧ exit_code = -1.
Proof.
  pose proof (children_are_deleted_first find_inbox (mk_delete_ctx ["work"] true false false false) work_tree eq_refl) as H.
  vm_compute in H. vm_compute (Mailbox.cmd_mailbox_delete_run _ _ _ _).
  split; [|split; reflexivity]. destruct H as (l & Hl & _ & Hc & _). cbn in Hl. rewrite <- Hl in Hc. exact Hc.
Defined.

(** ** The object of the user's namespace *)

Module CommandRun.
(** Connecting and reading the configuration keep what the cluster keeps. *)
Section connecting.
Context `{Jansson} `{ClusterKeeps W P}.
Lemma tool_config_stays {A} (k : ST (RadosCephConfig * W) A) : stays (at_snd P) k → stays (at_snd (at_snd (at_snd P))) (Tool.on_config k).
Proof.
    intros Hk [c [s [cl w]]] Hw. unfold Tool.on_config.
    specialize (Hk (mk_ceph_config (rados_cfg c) (Some (st_io_ctx s)), w) Hw). by destruct (k _) as [a [c' w']].
Qed.
Lemma open_load_stays env : stays (at_snd (at_snd (at_snd P))) (Doveadm.open_connection_load_config (W:=W) env).
Proof.
    unfold Doveadm.open_connection_load_config, Doveadm.read_plugin_configuration, Doveadm.open_connection.
    apply stays_bind; [apply stays_on_fst|intros _].
    apply stays_bind; [|intros [open|]; [|apply stays_ret]; case_decide; [apply stays_ret|apply tool_config_stays, load_cfg_stays]].
    apply stays_bind; [apply stays_on_fst|intros c]. apply stays_on_snd, open_connection_named_stays.
Qed.
End connecting.

(** One step of Dovecot while it deletes a mailbox: one of its own, or the plugin's part of the
    deletion with a storage of the plugin. *)
Inductive delete_step `{Jansson} `{Librados W} `{RadosAdmin W} `{Dovecot W} `{DovecotBoxes W} (own : relation W)
    (namespaces : list mail_namespace) : relation W :=
| own_step w w' : own w w' → delete_step own namespaces w w'
| plugin_step mb r w : NamespaceRun.plain_recovery (rb_s r) →
    delete_step own namespaces w (RboxMailbox.rbox_storage_mailbox_delete mb namespaces (r, w)).2.2.
(** What deleting mailboxes consists of; listing them and subscriptions do not reach the plugin. *)
Class DeletesThrough `{Jansson} `{Librados W} `{RadosAdmin W} `{Dovecot W} `{DovecotBoxes W} `{DovecotDelete W} (own : relation W)
    (namespaces : list mail_namespace) : Prop := {
  delete_through : ∀ ns name unsafe w, rtc (delete_step own namespaces) w (mailbox_delete ns name unsafe w).2;
  delete_empty_through : ∀ ns name unsafe w, rtc (delete_step own namespaces) w (mailbox_delete_empty ns name unsafe w).2;
  names_deinit_through : ∀ ns pattern w, rtc own w (mailbox_list_names_deinit ns pattern w).2;
  set_subscribed_through : ∀ ns name b w, rtc own w (mailbox_set_subscribed ns name b w).2;
}.

Section deletions.
Context `{Jansson} `{Librados W} `{RadosAdmin W} `{Dovecot W} `{DovecotBoxes W} `{DovecotDelete W}.
Variables (own : relation W) (namespaces : list mail_namespace) (P : W → Prop).
Context `{!DeletesThrough own namespaces}.
Hypothesis own_keeps : ∀ w w', own w w' → P w → P w'.
Hypothesis plugin_keeps : ∀ mb r w, NamespaceRun.plain_recovery (rb_s r) → P w →
    P (RboxMailbox.rbox_storage_mailbox_delete mb namespaces (r, w)).2.2.

Lemma own_run w w' : rtc own w w' → P w → P w'.
Proof. induction 1; eauto. Qed.
Lemma delete_run w w' : rtc (delete_step own namespaces) w w' → P w → P w'.
Proof. induction 1 as [|w w1 w' Hs _ IH]; [done|]. intros Hw. apply IH. destruct Hs; eauto. Qed.
Lemma names_deinit_stays ns pattern : stays P (mailbox_list_names_deinit ns pattern).
Proof. intros w. eapply own_run, names_deinit_through. Qed.
Lemma set_subscribed_stays ns name b : stays P (mailbox_set_subscribed ns name b).
Proof. intros w. eapply own_run, set_subscribed_through. Qed.
Lemma mailbox_delete_stays ns name unsafe : stays P (mailbox_delete ns name unsafe).
Proof. intros w. eapply delete_run, delete_through. Qed.
Lemma mailbox_delete_empty_stays ns name unsafe : stays P (mailbox_delete_empty ns name unsafe).
Proof. intros w. eapply delete_run, delete_empty_through. Qed.
#[local] Hint Resolve names_deinit_stays set_subscribed_stays mailbox_delete_stays mailbox_delete_empty_stays : stays.
Lemma add_children_stays find names mailboxes ret : stays P (Mailbox.add_children (W:=W) find names mailboxes ret).
Proof.
    revert mailboxes ret. induction names as [|name names IH]; intros mailboxes ret; cbn [Mailbox.add_children]; [apply stays_ret|].
    unfold Mailbox.get_child_mailboxes. stay. by intros w Hw.
Qed.
Lemma delete_mailboxes_stays find ctx names ret : stays P (Mailbox.delete_mailboxes find ctx names ret).
Proof.
    revert ret. induction names as [|name names IH]; intros ret; cbn [Mailbox.delete_mailboxes]; unfold Mailbox.delete_one; stay.
Qed.
#[local] Hint Resolve add_children_stays delete_mailboxes_stays : stays.
Lemma mailbox_delete_run_stays find single_user ctx : stays P (Mailbox.cmd_mailbox_delete_run find single_user ctx).
Proof. unfold Mailbox.cmd_mailbox_delete_run. stay. Qed.
End deletions.

(** What follows the deletions removes nothing. *)
Lemma after_deletion `{JanssonLaws} `{LibradosLaws W} `{RadosAdmin W} `{!QuietAdmin W} `{Dovecot W} `{DovecotBoxes W} `{!QuietBoxes W}
    user_getenv getenv (exit_code : Z) namespaces (w1 : W) :
    (∀ ns, ns ∈ namespaces → ClusterKeeps (NamespaceRun.has_mails ns)) → Forall (λ ns, NamespaceRun.has_mails ns w1) namespaces →
    objs (Mailbox.delete_namespace_object user_getenv getenv exit_code namespaces w1).2 = objs w1.
Proof.
    intros Hk Hm. unfold Mailbox.delete_namespace_object.
    match goal with |- context [Doveadm.with_plugin ?k w1] => destruct (SearchRun.with_plugin_objs k w1) as [_ ->] end.
    cbv zeta. unfold Doveadm.read_plugin_configuration at 1. rewrite bind_eq, on_fst_run. cbn [st_modify fst snd].
    set (c := PluginConfig.set_config_valid _ _). clearbody c.
    set (s := (c, (Storage.new, (Cluster.initial, w1)))).
    pose proof (SearchRun.open_load_quiet (objs w1) getenv s eq_refl) as Ho.
    assert (Forall (λ ns, NamespaceRun.has_mails ns (Doveadm.open_connection_load_config getenv s).2.2.2.2) namespaces) as Hm'.
    { apply list.Forall_forall. intros ns Hin. pose proof (Hk ns Hin). rewrite list.Forall_forall in Hm.
      by apply (open_load_stays getenv s), Hm. }
    rewrite bind_eq. destruct (Doveadm.open_connection_load_config getenv s) as [open [c' [s' [cl' w']]]].
    cbn [fst snd] in *. destruct open as [open|]; [|done]. case_decide; [done|].
    rewrite bind_eq. cbn [Tool.config on_fst st_get fst snd]. destruct (PluginConfig.is_user_mapping c'); [|done].
    rewrite bind_eq. unfold Mailbox.on_rbox.
    match goal with |- context [RboxMailbox.check_users_mailbox_delete_ns_object _ _ (?r, w')] =>
      destruct (NamespaceRun.check_users_with_mails namespaces 0 r w' Hm') as [ret' ->] end.
    exact Ho.
Qed.
End CommandRun.

(** C13. As long as each namespace of the user has mails, deleting mailboxes keeps the object
    that maps the user to the namespace of the cluster in which the mails are: neither the
    plugin's part of each deletion removes it, which Dovecot calls in steps of its own that leave
    mails and that object, nor what the command does afterwards, which removes no object.
    (Its contents are written anew when connecting fails to look the namespace up.) *)
Theorem mapping_kept_while_mails `{JanssonLaws} `{LibradosLaws W} `{RadosAdmin W} `{!RadosAdminLaws W} `{!QuietAdmin W}
    `{Dovecot W} `{DovecotBoxes W} `{!QuietBoxes W} `{DovecotDelete W} (own : relation W) namespaces
    `{!CommandRun.DeletesThrough own namespaces} find user_getenv getenv single_user ctx (w : W) k :
  (∀ ns, ns ∈ namespaces → ClusterKeeps (NamespaceRun.has_mails ns)) → io_ns k.1 ≠ "" →
  (∀ w w', own w w' → NamespaceRun.safe k namespaces w → NamespaceRun.safe k namespaces w') →
  stays (NamespaceRun.safe k namespaces) index_storage_mailbox_delete →
  NamespaceRun.safe k namespaces w →
  let w1 := (Mailbox.cmd_mailbox_delete_run find single_user ctx w).2 in
  let w2 := (Mailbox.cmd_rmb_mailbox_delete_run find user_getenv getenv single_user ctx namespaces w).2 in
  is_Some (objs w2 !! k) ∧ objs w2 = objs w1.
Proof.
  intros Hk Hns Hown Hindex Hw w1 w2.
  assert (NamespaceRun.safe k namespaces w1) as [Hk1 Hm].
  { subst w1. apply (CommandRun.mailbox_delete_run_stays own namespaces (NamespaceRun.safe k namespaces)); [done| |done].
    intros. by apply NamespaceRun.mailbox_delete_safe. }
  enough (objs w2 = objs w1) as E by by rewrite E.
  subst w2. unfold Mailbox.cmd_rmb_mailbox_delete_run. rewrite bind_eq.
  fold w1. set (exit_code := (Mailbox.cmd_mailbox_delete_run _ _ _ w).1). clearbody w1 exit_code.
  case_decide; [by apply CommandRun.after_deletion|done].
Qed.

(** A world whose mailboxes have no children; deleting one is what the plugin does with a new
    storage, for alice. *)
Definition alice_box (name : string) : mailbox := mk_mailbox name "box-guid" 1 2 (Some "alice") None (λ _, None) (Some []) "guid9".
Definition alice_namespaces : list mail_namespace := [mk_namespace "inbox" (Some "alice")].
Definition dv_delete_mailbox (name : string) : ST MemDovecot Z :=
  λ w, let '(r, (_, w)) := RboxMailbox.rbox_storage_mailbox_delete (alice_box name) alice_namespaces
         (Rbox.rbox_storage_alloc (mk_fs (λ _, false) ∅), w) in (default (-1) r, w).
#[export] Instance dv_delete : DovecotDelete MemDovecot := {
  mailbox_list_names _ _ _ := [];
  mailbox_list_names_deinit _ _ := mret 0;
  mailbox_delete _ name _ := dv_delete_mailbox name;
  mailbox_delete_empty _ name _ := dv_delete_mailbox name;
  mailbox_set_subscribed _ _ _ := mret 0;
}.
#[export] Instance dv_deletes_through : CommandRun.DeletesThrough (W:=MemDovecot) eq alice_namespaces.
Proof.
  assert (∀ name w, rtc (CommandRun.delete_step eq alice_namespaces) w (dv_delete_mailbox name w).2) as Hd.
  { intros name w. apply rtc_once. unfold dv_delete_mailbox.
    pose proof (CommandRun.plugin_step eq alice_namespaces (alice_box name) (Rbox.rbox_storage_alloc (mk_fs (λ _, false) ∅)) w eq_refl) as Hs.
    by destruct (RboxMailbox.rbox_storage_mailbox_delete _ _ _) as [r [r' w']]. }
  split; intros; [apply Hd..|done|done].
Qed.
#[export] Instance dv_quiet_boxes : QuietBoxes MemDovecot.
Proof. split; [by intros name [c i]| |done]. intros name [c i] n. cbn. intros [= <-]. lia. Qed.
Lemma dv_has_mails_kept ns : ClusterKeeps (W:=MemDovecot) (NamespaceRun.has_mails ns).
Proof.
  assert (Hc : ∀ A (m : ST MemCluster A), triple (NamespaceRun.has_mails ns) (MemDv.cluster m) (λ _, NamespaceRun.has_mails ns)).
  { intros A m [c i] Hw. cbn in *. by destruct (m c). }
  split; [split|..]; intros; apply Hc.
Qed.
(** Alice with the mails of her inbox. *)
Definition alice_mails (records : gmap Z index_record) : MemDovecot :=
  mk_mem_dovecot mapped_world (mk_mem_index [] records ∅ 0 [] 0).
Definition delete_work (w : MemDovecot) : option Z * MemDovecot :=
  Mailbox.cmd_rmb_mailbox_delete_run find_inbox (λ _, None) (λ _, None) true (mk_delete_ctx ["work"] false false false false)
    alice_namespaces w.
Definition alice_mapping : okey := (mk_ioctx "mail_storage" "users", "alice_u").
Lemma mapping_kept_while_mails_witness :
  let w := alice_mails {[1 := mk_index_record 1 0 (Some ("g1", "o1"))]} in
  is_Some (objs (delete_work w).2 !! alice_mapping) ∧ (delete_work w).1 = Some 0.
Proof.
  intros w. split; [|vm_compute; reflexivity]. unfold delete_work.
  pose proof (mapping_kept_while_mails eq alice_namespaces find_inbox (λ _, None) (λ _, None) true
    (mk_delete_ctx ["work"] false false false false) w alice_mapping) as Hk.
  apply Hk; [intros ns _; apply dv_has_mails_kept|done|by intros ? ? ->|by intros w' Hw'|].
  split; [by eexists|]. constructor; [|constructor]. vm_compute. split; reflexivity.
Defined.
(** Without mails the object of the user is removed. *)
Example mapping_removed_without_mails :
  let '(r, w') := delete_work (alice_mails ∅) in
  r = Some 0 ∧ bool_decide (alice_mapping ∈ (map_to_list (mc_objs (md_cluster w'))).*1) = false ∧
  bool_decide (alice_mapping ∈ (map_to_list (mc_objs mapped_world)).*1) = true.
Proof. vm_compute. split; [reflexivity|]. split; reflexivity. Qed.
